(** * browser-controller: configuration merge, config store and Browser
    reconciliation, embedded from the Go sources.

    Conventions of the embedding:
    - a Go pointer [*T] that is only tested against [nil] and dereferenced
      is an [option T];
    - a Go [map[string]T] is a [gmap string T]; a [range] over a map visits
      the entries in an order the language leaves open, so every function
      whose result depends on that order takes a [RangeOrder];
    - a Go slice is a [list];
    - [time.Time] and [time.Duration] are nanoseconds in [Z]. *)

From stdpp Require Import gmap strings list fin_maps.
From Stdlib Require Import ZArith Permutation.

Open Scope string_scope.
Open Scope list_scope.
Open Scope Z_scope.
Open Scope nat_scope.

(** ** Iteration order of [range] over a Go map *)

Record RangeOrder := {
  visit : ∀ A : Type, list A → list A;
  visit_perm : ∀ (A : Type) (l : list A), visit A l ≡ₚ l
}.

Definition in_order : RangeOrder :=
  {| visit := λ A l, l; visit_perm := λ A l, reflexivity l |}.

Definition reversed : RangeOrder :=
  {| visit := λ A l, reverse l; visit_perm := λ A l, reverse_Permutation l |}.

(** [for k, v := range m] as the list of visited entries. *)
Definition range {A : Type} (ro : RangeOrder) (m : gmap string A) : list (string * A) :=
  visit ro _ (map_to_list m).

(** ** Kubernetes core/v1 values

    The controller copies these values and never looks inside most of them;
    the records keep the fields the sources and their tests mention. *)

Record EnvVar := { env_Name : string; env_Value : string }.
Record ContainerPort := {
  port_Name : string; port_ContainerPort : Z; port_Protocol : string; port_HostPort : Z }.
Record VolumeMount := { vm_Name : string; vm_MountPath : string }.
Record Volume := { vol_Name : string }.
Record Toleration := { tol_Key : string }.
Record HostAlias := { ha_IP : string; ha_Hostnames : list string }.
Record LocalObjectReference := { lor_Name : string }.
Record ResourceRequirements := {
  res_Limits : gmap string string; res_Requests : gmap string string }.
Record Affinity := { affinity_doc : string }.
Record PodDNSConfig := { dns_Nameservers : list string }.
Record PodSecurityContext := { psc_RunAsUser : option Z }.

(** ** apis/browserconfig/v1 *)

Record Sidecar := {
  sc_Name : string;
  sc_Image : string;
  sc_Command : option (list string);
  sc_WorkingDir : option string;
  sc_Ports : option (list ContainerPort);
  sc_Env : option (list EnvVar);
  sc_VolumeMounts : option (list VolumeMount);
  sc_ImagePullPolicy : string;
  sc_Resources : option ResourceRequirements
}.

Record Template := {
  tpl_Labels : option (gmap string string);
  tpl_Annotations : option (gmap string string);
  tpl_Env : option (list EnvVar);
  tpl_Resources : option ResourceRequirements;
  tpl_ImagePullPolicy : string;
  tpl_Volumes : option (list Volume);
  tpl_VolumeMounts : option (list VolumeMount);
  tpl_NodeSelector : option (gmap string string);
  tpl_Affinity : option Affinity;
  tpl_Tolerations : option (list Toleration);
  tpl_HostAliases : option (list HostAlias);
  tpl_InitContainers : option (list Sidecar);
  tpl_Sidecars : option (list Sidecar);
  tpl_Privileged : option bool;
  tpl_ImagePullSecrets : option (list LocalObjectReference);
  tpl_DNSConfig : option PodDNSConfig;
  tpl_SecurityContext : option PodSecurityContext;
  tpl_WorkingDir : option string
}.

Record BrowserVersionConfigSpec := {
  bv_Image : string;
  bv_Labels : option (gmap string string);
  bv_Annotations : option (gmap string string);
  bv_Env : option (list EnvVar);
  bv_Resources : option ResourceRequirements;
  bv_ImagePullPolicy : string;
  bv_Volumes : option (list Volume);
  bv_VolumeMounts : option (list VolumeMount);
  bv_NodeSelector : option (gmap string string);
  bv_Affinity : option Affinity;
  bv_Tolerations : option (list Toleration);
  bv_HostAliases : option (list HostAlias);
  bv_InitContainers : option (list Sidecar);
  bv_Sidecars : option (list Sidecar);
  bv_Privileged : option bool;
  bv_ImagePullSecrets : option (list LocalObjectReference);
  bv_DNSConfig : option PodDNSConfig;
  bv_SecurityContext : option PodSecurityContext;
  bv_WorkingDir : option string
}.

Record BrowserConfigSpec := {
  spec_Template : option Template;
  spec_Browsers : gmap string (gmap string (option BrowserVersionConfigSpec))
}.

Record BrowserConfig := {
  bc_Name : string;
  bc_Namespace : string;
  bc_Spec : BrowserConfigSpec
}.

(** *** Merge helpers *)

(** [for k, v := range src { dst[k] = v }]: the keys of one map are
    distinct, so the visiting order does not show in the result. *)
Definition copyInto (src dst : gmap string string) : gmap string string := src ∪ dst.

Definition mergeMapPtr (template override : option (gmap string string))
  : option (gmap string string) :=
  match template, override with
  | None, None => None
  | _, _ =>
      let result := ∅ in
      let result := match template with Some t => copyInto t result | None => result end in
      let result := match override with Some o => copyInto o result | None => result end in
      Some result
  end.

(** [for _, env := range l { result[env.Name] = env }] *)
Definition indexEnv (l : list EnvVar) (result : gmap string EnvVar) : gmap string EnvVar :=
  foldl (λ m env, <[env_Name env := env]> m) result l.

Definition mergeEnvPtr (ro : RangeOrder) (template override : option (list EnvVar))
  : option (list EnvVar) :=
  match template, override with
  | None, None => None
  | _, _ =>
      let result := ∅ in
      let result := match template with Some t => indexEnv t result | None => result end in
      let result := match override with Some o => indexEnv o result | None => result end in
      Some (snd <$> range ro result)
  end.

Definition firstNonNilResource (template override : option ResourceRequirements)
  : option ResourceRequirements :=
  match override with
  | Some _ => override
  | None => template
  end.

(** The shared body of the concatenating helpers: template entries, then
    override entries, and [nil] when nothing was collected. *)
Definition appendBoth {A : Type} (template override : option (list A)) : option (list A) :=
  let result := [] in
  let result := match template with Some t => result ++ t | None => result end in
  let result := match override with Some o => result ++ o | None => result end in
  if decide (length result = 0%nat) then None else Some result.

Definition mergeVolumePtr := @appendBoth Volume.
Definition mergeTolerationPtr := @appendBoth Toleration.
Definition mergeHostAliasPtr := @appendBoth HostAlias.
Definition mergeVolumeMountsPtr := @appendBoth VolumeMount.
Definition mergeLocalObjectRefPtr := @appendBoth LocalObjectReference.
Definition mergeContainerPortPtr := @appendBoth ContainerPort.
Definition mergeVolumeMountPtr := @appendBoth VolumeMount.

Definition sidecarNamed (name : string) (s : Sidecar) : bool :=
  bool_decide (sc_Name s = name).

Definition mergeSidecarPtr (template override : option (list Sidecar))
  : option (list Sidecar) :=
  match template, override with
  | None, None => None
  | Some t, None => Some ([] ++ t)
  | None, Some o => Some ([] ++ o)
  | Some t, Some o =>
      let result := [] ++ o in
      let overrideNames : gset string := list_to_set (sc_Name <$> o) in
      Some (foldl (λ result s,
                     if decide (sc_Name s ∈ overrideNames) then result
                     else result ++ [s]) result t)
  end.

Definition findTemplateSidecar (template : option (list Sidecar)) (name : string)
  : option Sidecar :=
  match template with
  | None => None
  | Some t => List.find (sidecarNamed name) t
  end.

(** [Sidecar.mergeWithTemplate] *)
Definition mergeWithTemplate (ro : RangeOrder) (s t : Sidecar) : Sidecar :=
  let command := match sc_Command s with None => sc_Command t | c => c end in
  let workingDir := sc_WorkingDir t in
  let env := mergeEnvPtr ro (sc_Env t) (sc_Env s) in
  let ports := mergeContainerPortPtr (sc_Ports t) (sc_Ports s) in
  let volumeMounts := mergeVolumeMountPtr (sc_VolumeMounts t) (sc_VolumeMounts s) in
  let resources := match sc_Resources s with None => sc_Resources t | r => r end in
  {| sc_Name := sc_Name s;
     sc_Image := sc_Image s;
     sc_Command := command;
     sc_WorkingDir := workingDir;
     sc_Ports := ports;
     sc_Env := env;
     sc_VolumeMounts := volumeMounts;
     sc_ImagePullPolicy := sc_ImagePullPolicy s;
     sc_Resources := resources |}.

(** The two nested loops of [mergeWithSpec] that run after
    [mergeSidecarPtr].  Inner loop, for the element [m] of the merged
    slice: the first entry [origSidecar] of the list the override had
    before the merge that carries the name of [m] ends the loop; [m] is
    merged with the template entry of that name when there is one. *)
Definition inheritOne (ro : RangeOrder) (orig : list Sidecar)
    (templ : option (list Sidecar)) (m : Sidecar) : Sidecar :=
  match List.find (sidecarNamed (sc_Name m)) orig with
  | Some origSidecar =>
      match findTemplateSidecar templ (sc_Name origSidecar) with
      | Some templateSidecar => mergeWithTemplate ro m templateSidecar
      | None => m
      end
  | None => m
  end.

(** Outer loop, guarded by [original != nil && template != nil]. *)
Definition inheritFromTemplate (ro : RangeOrder)
    (original templ merged : option (list Sidecar)) : option (list Sidecar) :=
  match original, templ, merged with
  | Some orig, Some _, Some l => Some (List.map (inheritOne ro orig templ) l)
  | _, _, _ => merged
  end.

(** [BrowserVersionConfigSpec.mergeWithSpec]; the caller has checked that
    the template is not [nil], so it is passed dereferenced. *)
Definition mergeWithSpec (ro : RangeOrder) (b : BrowserVersionConfigSpec) (t : Template)
  : BrowserVersionConfigSpec :=
  let originalSidecars := bv_Sidecars b in
  let sidecars := mergeSidecarPtr (tpl_Sidecars t) (bv_Sidecars b) in
  let sidecars := inheritFromTemplate ro originalSidecars (tpl_Sidecars t) sidecars in
  let originalInitContainers := bv_InitContainers b in
  let initContainers := mergeSidecarPtr (bv_InitContainers b) (tpl_InitContainers t) in
  let initContainers :=
    inheritFromTemplate ro originalInitContainers (tpl_InitContainers t) initContainers in
  {| bv_Image := bv_Image b;
     bv_Labels := mergeMapPtr (tpl_Labels t) (bv_Labels b);
     bv_Annotations := mergeMapPtr (tpl_Annotations t) (bv_Annotations b);
     bv_Env := mergeEnvPtr ro (tpl_Env t) (bv_Env b);
     bv_Resources := firstNonNilResource (tpl_Resources t) (bv_Resources b);
     bv_ImagePullPolicy :=
       if decide (bv_ImagePullPolicy b = "") then tpl_ImagePullPolicy t
       else bv_ImagePullPolicy b;
     bv_Volumes := mergeVolumePtr (tpl_Volumes t) (bv_Volumes b);
     bv_VolumeMounts := mergeVolumeMountsPtr (bv_VolumeMounts b) (tpl_VolumeMounts t);
     bv_NodeSelector := mergeMapPtr (tpl_NodeSelector t) (bv_NodeSelector b);
     bv_Affinity := match bv_Affinity b with None => tpl_Affinity t | a => a end;
     bv_Tolerations := mergeTolerationPtr (tpl_Tolerations t) (bv_Tolerations b);
     bv_HostAliases := mergeHostAliasPtr (tpl_HostAliases t) (bv_HostAliases b);
     bv_InitContainers := initContainers;
     bv_Sidecars := sidecars;
     bv_Privileged := match bv_Privileged b with None => tpl_Privileged t | p => p end;
     bv_ImagePullSecrets :=
       mergeLocalObjectRefPtr (tpl_ImagePullSecrets t) (bv_ImagePullSecrets b);
     bv_DNSConfig := match bv_DNSConfig b with None => tpl_DNSConfig t | d => d end;
     bv_SecurityContext :=
       match bv_SecurityContext b with None => tpl_SecurityContext t | c => c end;
     bv_WorkingDir := match bv_WorkingDir b with None => tpl_WorkingDir t | w => w end |}.

(** [BrowserConfigSpec.MergeWithTemplate]: every non-nil entry of the two
    level map is replaced by its merge; entries are rewritten one by one
    under their own key, so the visiting order does not show. *)
Definition MergeWithTemplate (ro : RangeOrder) (spec : BrowserConfigSpec) : BrowserConfigSpec :=
  match spec_Template spec with
  | None => spec
  | Some t =>
      {| spec_Template := spec_Template spec;
         spec_Browsers :=
           (λ versions : gmap string (option BrowserVersionConfigSpec),
              (λ b, match b with
                    | None => None
                    | Some b => Some (mergeWithSpec ro b t)
                    end) <$> versions) <$> spec_Browsers spec |}
  end.

(** ** Values of the Go runtime and libraries the controller calls

    [strings.ToLower] and [json.Unmarshal] (into [SelenosisOptions]) belong
    to the Go standard library; the development is parametric in them and
    in the order in which maps are ranged.  A failed [json.Unmarshal] is
    the text of its error. *)

(** controllers/browser: the per-instance options document *)
Record ContainerOption := { co_Env : gmap string string }.

Record SelenosisOptions := {
  so_Labels : option (gmap string string);
  so_Containers : gmap string ContainerOption
}.

Inductive StatusReason :=
| ReasonNotFound | ReasonConflict | ReasonAlreadyExists | ReasonInternalError.

(** A Go [error]: an API status error, or one built by [fmt.Errorf]. *)
Inductive error :=
| StatusError (r : StatusReason)
| Errorf (msg : string).

Definition IsNotFound (e : error) : bool :=
  match e with StatusError ReasonNotFound => true | _ => false end.
Definition IsConflict (e : error) : bool :=
  match e with StatusError ReasonConflict => true | _ => false end.
Definition IsAlreadyExists (e : error) : bool :=
  match e with StatusError ReasonAlreadyExists => true | _ => false end.

Record GoRuntime := {
  rangeOrder : RangeOrder;
  ToLower : string → string;
  jsonUnmarshal : string → string + SelenosisOptions
}.

(** ** store: the in-memory cache of merged configurations *)

(** The dynamic values ([any]) the informer hands to the handlers. *)
Inductive any :=
| AnyNil
| AnyBrowserConfig (p : option BrowserConfig)
| AnyDeletedFinalStateUnknown (key : string) (obj : any)
| AnyString (s : string)
| AnyOther (typeName : string).

Record BrowserConfigStore := {
  config : gmap string (option BrowserVersionConfigSpec)
}.

Definition NewBrowserConfigStore : BrowserConfigStore := {| config := ∅ |}.

(** [fmt.Sprintf("%s/%s:%s", namespace, lower(browser), lower(version))] *)
Definition keyFor (rt : GoRuntime) (namespace browser version : string) : string :=
  (namespace +:+ "/" +:+ ToLower rt browser +:+ ":" +:+ ToLower rt version)%string.

(** The type switch shared by both handlers, followed by [bc == nil]. *)
Definition typeSwitch (obj : any) : option BrowserConfig :=
  match obj with
  | AnyBrowserConfig t => t
  | AnyDeletedFinalStateUnknown _ (AnyBrowserConfig v) => v
  | AnyDeletedFinalStateUnknown _ _ => None
  | _ => None
  end.

(** [bc.DeepCopy()] yields an equal value that shares nothing with [bc];
    values of the embedding share nothing to begin with. *)
Definition DeepCopy (bc : BrowserConfig) : BrowserConfig := bc.

Definition storeVersions (rt : GoRuntime) (namespace browserName : string)
    (versions : gmap string (option BrowserVersionConfigSpec))
    (cfgs : gmap string (option BrowserVersionConfigSpec))
  : gmap string (option BrowserVersionConfigSpec) :=
  foldl (λ m '(version, cfg), <[keyFor rt namespace browserName version := cfg]> m)
        cfgs (range (rangeOrder rt) versions).

Definition onAddOrUpdate (rt : GoRuntime) (obj : any) (s : BrowserConfigStore)
  : BrowserConfigStore :=
  match typeSwitch obj with
  | None => s
  | Some bc =>
      let bcCopy := DeepCopy bc in
      let spec := MergeWithTemplate (rangeOrder rt) (bc_Spec bcCopy) in
      {| config :=
           foldl (λ m '(browserName, versions),
                    storeVersions rt (bc_Namespace bcCopy) browserName versions m)
                 (config s) (range (rangeOrder rt) (spec_Browsers spec)) |}
  end.

Definition dropVersions (rt : GoRuntime) (namespace browserName : string)
    (versions : gmap string (option BrowserVersionConfigSpec))
    (cfgs : gmap string (option BrowserVersionConfigSpec))
  : gmap string (option BrowserVersionConfigSpec) :=
  foldl (λ m '(version, _), delete (keyFor rt namespace browserName version) m)
        cfgs (range (rangeOrder rt) versions).

Definition onDelete (rt : GoRuntime) (obj : any) (s : BrowserConfigStore)
  : BrowserConfigStore :=
  match typeSwitch obj with
  | None => s
  | Some bc =>
      {| config :=
           foldl (λ m '(browserName, versions),
                    dropVersions rt (bc_Namespace bc) browserName versions m)
                 (config s) (range (rangeOrder rt) (spec_Browsers (bc_Spec bc))) |}
  end.

(** [Get] returns the cached pointer and whether the key is present. *)
Definition Get (rt : GoRuntime) (s : BrowserConfigStore) (namespace browserName version : string)
  : option BrowserVersionConfigSpec * bool :=
  match config s !! keyFor rt namespace browserName version with
  | Some cfg => (cfg, true)
  | None => (None, false)
  end.

(** ** Pods and Browsers

    [metav1.Time] values are nanoseconds; a zero time or a [nil] pointer
    to one is [None].  A pod phase is the string the API uses. *)

Definition PodPending : string := "Pending".
Definition PodRunning : string := "Running".
Definition PodFailed : string := "Failed".
Definition RestartPolicyNever : string := "Never".

Record ContainerStateWaiting := { w_Reason : string; w_Message : string }.
Record ContainerStateRunning := { r_StartedAt : option Z }.
Record ContainerStateTerminated := {
  t_ExitCode : Z; t_Reason : string; t_Message : string;
  t_StartedAt : option Z; t_FinishedAt : option Z }.

Record ContainerState := {
  Waiting : option ContainerStateWaiting;
  Running : option ContainerStateRunning;
  Terminated : option ContainerStateTerminated
}.

Record ContainerStatus := {
  cs_Name : string;
  cs_State : ContainerState;
  cs_Ready : bool;
  cs_RestartCount : Z;
  cs_Image : string
}.

Record SecurityContext := { sctx_Privileged : option bool }.

Record Container := {
  c_Name : string;
  c_Image : string;
  c_Command : list string;
  c_WorkingDir : string;
  c_Ports : list ContainerPort;
  c_Env : list EnvVar;
  c_Resources : ResourceRequirements;
  c_VolumeMounts : list VolumeMount;
  c_ImagePullPolicy : string;
  c_SecurityContext : option SecurityContext
}.

Record OwnerReference := {
  or_Kind : string; or_Name : string; or_Controller : bool; or_BlockOwnerDeletion : bool }.

Record PodSpec := {
  ps_InitContainers : list Container;
  ps_Containers : list Container;
  ps_Volumes : list Volume;
  ps_SecurityContext : option PodSecurityContext;
  ps_NodeSelector : option (gmap string string);
  ps_Affinity : option Affinity;
  ps_Tolerations : list Toleration;
  ps_HostAliases : list HostAlias;
  ps_ImagePullSecrets : list LocalObjectReference;
  ps_DNSConfig : option PodDNSConfig;
  ps_Hostname : string;
  ps_RestartPolicy : string
}.

Record PodStatus := {
  pst_Phase : string;
  pst_Reason : string;
  pst_Message : string;
  pst_PodIP : string;
  pst_StartTime : option Z;
  pst_ContainerStatuses : list ContainerStatus
}.

Record Pod := {
  p_Name : string;
  p_Namespace : string;
  p_Labels : option (gmap string string);
  p_Annotations : option (gmap string string);
  p_OwnerReferences : list OwnerReference;
  p_CreationTimestamp : option Z;
  p_DeletionTimestamp : option Z;
  p_Spec : PodSpec;
  p_Status : PodStatus
}.

(** apis/browser/v1 (the declarations are not among the sources; the
    fields are those the reconciler reads and writes) *)
Record BrowserContainerPort := {
  bp_Name : string; bp_ContainerPort : Z; bp_Protocol : string; bp_HostPort : Z }.

Record BrowserContainerStatus := {
  bcs_Name : string;
  bcs_State : ContainerState;
  bcs_Image : string;
  bcs_RestartCount : Z;
  bcs_Ports : list BrowserContainerPort
}.

Record BrowserSpec := { BrowserName : string; BrowserVersion : string }.

Record BrowserStatus := {
  st_PodIP : string;
  st_Phase : string;
  st_Message : string;
  st_Reason : string;
  st_StartTime : option Z;
  st_ContainerStatuses : list BrowserContainerStatus
}.

Record Browser := {
  b_Name : string;
  b_Namespace : string;
  b_Labels : option (gmap string string);
  b_Annotations : option (gmap string string);
  b_Finalizers : list string;
  b_DeletionTimestamp : option Z;
  b_Spec : BrowserSpec;
  b_Status : BrowserStatus
}.

(** *** Constants of controllers/browser *)

Definition second : Z := 1000000000.
Definition millisecond : Z := 1000000.
Definition minute : Z := 60 * second.

Definition browserPodFinalizer : string := "browserpod.selenosis.io/finalizer".
Definition maxRetries : nat := 5.
Definition mediumRetry : Z := second * 10.
Definition periodicReconcile : Z := second * 30.
Definition quickCheck : Z := second * 3.
Definition podDeletionTimeout : Z := minute * 5.
Definition podCreationTimeout : Z := minute * 5.
Definition browserContainerName : string := "browser".
Definition sidecarContainerName : string := "seleniferous".
Definition selenosisOptionsAnnotationKey : string := "selenosis.io/options".

(** *** Launch-spec synthesis: [buildBrowserPod] *)

Definition zeroResources : ResourceRequirements :=
  {| res_Limits := ∅; res_Requests := ∅ |}.

(** The container built for one entry of [cfg.InitContainers]. *)
Definition initContainerOf (cfg : BrowserVersionConfigSpec) (ic : Sidecar) : Container :=
  {| c_Name := sc_Name ic;
     c_Image := sc_Image ic;
     c_ImagePullPolicy := sc_ImagePullPolicy ic;
     c_VolumeMounts := match sc_VolumeMounts ic with Some l => [] ++ l | None => [] end;
     c_Env := match sc_Env ic with Some l => [] ++ l | None => [] end;
     c_Resources := match sc_Resources ic with Some r => r | None => zeroResources end;
     c_Command := match sc_Command ic with Some l => l | None => [] end;
     c_Ports := match sc_Ports ic with Some l => l | None => [] end;
     c_WorkingDir :=
       match bv_WorkingDir cfg with
       | Some dir => dir
       | None => match sc_WorkingDir ic with Some dir => dir | None => "" end
       end;
     c_SecurityContext := None |}.

(** The container built for one entry of [cfg.Sidecars]. *)
Definition sidecarContainerOf (s : Sidecar) : Container :=
  {| c_Name := sc_Name s;
     c_Image := sc_Image s;
     c_ImagePullPolicy := sc_ImagePullPolicy s;
     c_Env := match sc_Env s with Some l => [] ++ l | None => [] end;
     c_Resources := match sc_Resources s with Some r => r | None => zeroResources end;
     c_Command := match sc_Command s with Some l => l | None => [] end;
     c_Ports := match sc_Ports s with Some l => l | None => [] end;
     c_VolumeMounts := match sc_VolumeMounts s with Some l => [] ++ l | None => [] end;
     c_WorkingDir := match sc_WorkingDir s with Some dir => dir | None => "" end;
     c_SecurityContext := None |}.

Definition browserContainerOf (cfg : BrowserVersionConfigSpec) : Container :=
  {| c_Name := browserContainerName;
     c_Image := bv_Image cfg;
     c_Env := match bv_Env cfg with Some l => l | None => [] end;
     c_Resources := match bv_Resources cfg with Some r => r | None => zeroResources end;
     c_VolumeMounts := match bv_VolumeMounts cfg with Some l => [] ++ l | None => [] end;
     c_WorkingDir := match bv_WorkingDir cfg with Some dir => dir | None => "" end;
     c_Command := [];
     c_Ports := [];
     c_ImagePullPolicy := "";
     c_SecurityContext := None |}.

Definition setPrivileged (c : Container) : Container :=
  {| c_Name := c_Name c; c_Image := c_Image c; c_Command := c_Command c;
     c_WorkingDir := c_WorkingDir c; c_Ports := c_Ports c; c_Env := c_Env c;
     c_Resources := c_Resources c; c_VolumeMounts := c_VolumeMounts c;
     c_ImagePullPolicy := c_ImagePullPolicy c;
     c_SecurityContext := Some {| sctx_Privileged := Some true |} |}.

Definition setEnv (c : Container) (env : list EnvVar) : Container :=
  {| c_Name := c_Name c; c_Image := c_Image c; c_Command := c_Command c;
     c_WorkingDir := c_WorkingDir c; c_Ports := c_Ports c; c_Env := env;
     c_Resources := c_Resources c; c_VolumeMounts := c_VolumeMounts c;
     c_ImagePullPolicy := c_ImagePullPolicy c;
     c_SecurityContext := c_SecurityContext c |}.

(** [mergeEnvVars]: entries of [override] replace the entry of [base] that
    carries their name (the last one when a name repeats) and are appended
    otherwise, in the order the map is ranged. *)
Definition mergeEnvVars (ro : RangeOrder) (base : list EnvVar) (override : gmap string string)
  : list EnvVar :=
  if decide (size override = 0) then base
  else
    let out := [] ++ base in
    let idx : gmap string nat :=
      foldl (λ m '(i, e), <[env_Name e := i]> m) ∅ (imap (λ i e, (i, e)) out) in
    snd (foldl (λ '(idx, out) '(k, v),
                  let ev := {| env_Name := k; env_Value := v |} in
                  match idx !! k with
                  | Some pos => (idx, <[pos := ev]> out)
                  | None => (<[k := length out]> idx, out ++ [ev])
                  end)
               (idx, out) (range ro override)).

(** Map writes of [for k, v := range src { dst[k] = v }] after the
    [if dst == nil { dst = map[string]string{} }] guard. *)
Definition assignAll (src : gmap string string) (dst : option (gmap string string))
  : option (gmap string string) :=
  Some (copyInto src (default ∅ dst)).

Definition withLabels (pod : Pod) (labels : option (gmap string string)) : Pod :=
  {| p_Name := p_Name pod; p_Namespace := p_Namespace pod; p_Labels := labels;
     p_Annotations := p_Annotations pod; p_OwnerReferences := p_OwnerReferences pod;
     p_CreationTimestamp := p_CreationTimestamp pod;
     p_DeletionTimestamp := p_DeletionTimestamp pod;
     p_Spec := p_Spec pod; p_Status := p_Status pod |}.

Definition withContainers (pod : Pod) (containers : list Container) : Pod :=
  let spec := p_Spec pod in
  {| p_Name := p_Name pod; p_Namespace := p_Namespace pod; p_Labels := p_Labels pod;
     p_Annotations := p_Annotations pod; p_OwnerReferences := p_OwnerReferences pod;
     p_CreationTimestamp := p_CreationTimestamp pod;
     p_DeletionTimestamp := p_DeletionTimestamp pod;
     p_Spec :=
       {| ps_InitContainers := ps_InitContainers spec;
          ps_Containers := containers;
          ps_Volumes := ps_Volumes spec;
          ps_SecurityContext := ps_SecurityContext spec;
          ps_NodeSelector := ps_NodeSelector spec;
          ps_Affinity := ps_Affinity spec;
          ps_Tolerations := ps_Tolerations spec;
          ps_HostAliases := ps_HostAliases spec;
          ps_ImagePullSecrets := ps_ImagePullSecrets spec;
          ps_DNSConfig := ps_DNSConfig spec;
          ps_Hostname := ps_Hostname spec;
          ps_RestartPolicy := ps_RestartPolicy spec |};
     p_Status := p_Status pod |}.

Definition applySelenosisOptions (ro : RangeOrder) (pod : Pod) (opts : option SelenosisOptions)
  : Pod :=
  match opts with
  | None => pod
  | Some opts =>
      let pod :=
        if decide (0 < size (so_Containers opts)) then
          withContainers pod
            ((λ c, match so_Containers opts !! c_Name c with
                   | Some option =>
                       if decide (size (co_Env option) = 0) then c
                       else setEnv c (mergeEnvVars ro (c_Env c) (co_Env option))
                   | None => c
                   end) <$> ps_Containers (p_Spec pod))
        else pod in
      match so_Labels opts with
      | Some labels => withLabels pod (assignAll labels (p_Labels pod))
      | None => pod
      end
  end.

Definition emptyPodStatus : PodStatus :=
  {| pst_Phase := ""; pst_Reason := ""; pst_Message := ""; pst_PodIP := "";
     pst_StartTime := None; pst_ContainerStatuses := [] |}.

Definition buildBrowserPod (ro : RangeOrder) (browser : Browser)
    (cfg : BrowserVersionConfigSpec) (opts : option SelenosisOptions) : Pod :=
  let initContainers :=
    match bv_InitContainers cfg with
    | Some ics => [] ++ (initContainerOf cfg <$> ics)
    | None => []
    end in
  let browserContainer := browserContainerOf cfg in
  let volumes := match bv_Volumes cfg with Some vs => vs | None => [] end in
  let sidecarContainers :=
    [browserContainer] ++
    match bv_Sidecars cfg with
    | Some ss => sidecarContainerOf <$> ss
    | None => []
    end in
  let sidecarContainers :=
    match bv_Privileged cfg with
    | Some true =>
        match sidecarContainers with
        | c0 :: rest => setPrivileged c0 :: rest
        | [] => []
        end
    | _ => sidecarContainers
    end in
  let labels := None in
  let labels := match b_Labels browser with Some l => assignAll l labels | None => labels end in
  let labels := match bv_Labels cfg with Some l => assignAll l labels | None => labels end in
  let annotations := None in
  let annotations :=
    match b_Annotations browser with
    | Some a => assignAll (delete selenosisOptionsAnnotationKey a) annotations
    | None => annotations
    end in
  let annotations :=
    match bv_Annotations cfg with Some a => assignAll a annotations | None => annotations end in
  let pod :=
    {| p_Name := b_Name browser;
       p_Namespace := b_Namespace browser;
       p_Labels := labels;
       p_Annotations := annotations;
       p_OwnerReferences :=
         [ {| or_Kind := "Browser"; or_Name := b_Name browser;
              or_Controller := true; or_BlockOwnerDeletion := true |} ];
       p_CreationTimestamp := None;
       p_DeletionTimestamp := None;
       p_Spec :=
         {| ps_InitContainers := initContainers;
            ps_Containers := sidecarContainers;
            ps_Volumes := volumes;
            ps_SecurityContext := bv_SecurityContext cfg;
            ps_NodeSelector := bv_NodeSelector cfg;
            ps_Affinity := bv_Affinity cfg;
            ps_Tolerations := match bv_Tolerations cfg with Some l => l | None => [] end;
            ps_HostAliases := match bv_HostAliases cfg with Some l => l | None => [] end;
            ps_ImagePullSecrets :=
              match bv_ImagePullSecrets cfg with Some l => l | None => [] end;
            ps_DNSConfig := bv_DNSConfig cfg;
            ps_Hostname := b_Name browser;
            ps_RestartPolicy := RestartPolicyNever |};
       p_Status := emptyPodStatus |} in
  applySelenosisOptions ro pod opts.

(** ** The cluster the reconciler talks to

    The API server is outside the repository.  Its model keeps what the
    reconciler can observe: objects keyed by (namespace, name), a clock,
    a script of injected failures per verb, and the trace of calls and
    sleeps.  A write to the main resource leaves the status alone and a
    write to the status subresource leaves everything else alone; an
    object whose deletion timestamp is set goes away once its last
    finalizer is removed; a pod deleted with a grace period stays, marked
    with a deletion timestamp, and a pod deleted with grace period zero
    goes away at once. *)

Inductive Verb :=
| VGetBrowser | VPatchBrowser | VPatchBrowserStatus | VDeleteBrowser
| VGetPod | VCreatePod | VDeletePod.

Global Instance Verb_eq_dec : EqDecision Verb.
Proof. solve_decision. Defined.

Inductive Event :=
| EvCall (v : Verb)
| EvSleep (d : Z).

Definition ObjectKey : Type := string * string.

Record Cluster := {
  browsers : gmap ObjectKey Browser;
  pods : gmap ObjectKey Pod;
  clock : Z;
  faults : Verb → list (option error);
  trace : list Event
}.

Definition no_faults : Verb → list (option error) := λ _, [].

Definition withBrowsers (w : Cluster) (bs : gmap ObjectKey Browser) : Cluster :=
  {| browsers := bs; pods := pods w; clock := clock w; faults := faults w; trace := trace w |}.

Definition withPods (w : Cluster) (ps : gmap ObjectKey Pod) : Cluster :=
  {| browsers := browsers w; pods := ps; clock := clock w; faults := faults w; trace := trace w |}.

(** One API round trip: it is logged and consumes the next entry of the
    script of its verb; it fails when that entry says so. *)
Definition nextFault (w : Cluster) (v : Verb) : option error :=
  match faults w v with
  | [] => None
  | outcome :: _ => outcome
  end.

Definition called (v : Verb) (w : Cluster) : Cluster :=
  {| browsers := browsers w; pods := pods w; clock := clock w;
     faults := λ v', if decide (v' = v) then tail (faults w v') else faults w v';
     trace := trace w ++ [EvCall v] |}.

Definition call (v : Verb) (w : Cluster) : option error * Cluster :=
  (nextFault w v, called v w).

(** [time.Sleep] *)
Definition sleep (d : Z) (w : Cluster) : Cluster :=
  {| browsers := browsers w; pods := pods w; clock := (clock w + d)%Z;
     faults := faults w; trace := trace w ++ [EvSleep d] |}.

(** [time.Since] *)
Definition since (w : Cluster) (t : Z) : Z := (clock w - t)%Z.

Definition browserKey (b : Browser) : ObjectKey := (b_Namespace b, b_Name b).
Definition podKey (p : Pod) : ObjectKey := (p_Namespace p, p_Name p).

Global Instance ContainerStateWaiting_eq_dec : EqDecision ContainerStateWaiting.
Proof. solve_decision. Defined.
Global Instance ContainerStateRunning_eq_dec : EqDecision ContainerStateRunning.
Proof. solve_decision. Defined.
Global Instance ContainerStateTerminated_eq_dec : EqDecision ContainerStateTerminated.
Proof. solve_decision. Defined.
Global Instance ContainerState_eq_dec : EqDecision ContainerState.
Proof. solve_decision. Defined.
Global Instance BrowserContainerPort_eq_dec : EqDecision BrowserContainerPort.
Proof. solve_decision. Defined.
Global Instance BrowserContainerStatus_eq_dec : EqDecision BrowserContainerStatus.
Proof. solve_decision. Defined.
Global Instance BrowserSpec_eq_dec : EqDecision BrowserSpec.
Proof. solve_decision. Defined.

(** What a merge patch built by [client.MergeFrom(before)] carries for one
    field: the value of [current] where it differs from [before]. *)
Definition patched {A : Type} `{EqDecision A} (before current stored : A) : A :=
  if decide (current = before) then stored else current.

Definition apiGetBrowser (key : ObjectKey) (w : Cluster) : (error + Browser) * Cluster :=
  match call VGetBrowser w with
  | (Some err, w) => (inl err, w)
  | (None, w) =>
      match browsers w !! key with
      | Some b => (inr b, w)
      | None => (inl (StatusError ReasonNotFound), w)
      end
  end.

(** An object marked for deletion is removed with its last finalizer. *)
Definition storeBrowser (key : ObjectKey) (b : Browser) (w : Cluster) : Cluster :=
  match b_Finalizers b, b_DeletionTimestamp b with
  | [], Some _ => withBrowsers w (delete key (browsers w))
  | _, _ => withBrowsers w (<[key := b]> (browsers w))
  end.

(** What the server stores after a merge patch of the main resource: the
    status is not touched, nor is the deletion timestamp. *)
Definition patchMain (before current stored : Browser) : Browser :=
  {| b_Name := b_Name stored;
     b_Namespace := b_Namespace stored;
     b_Labels := patched (b_Labels before) (b_Labels current) (b_Labels stored);
     b_Annotations :=
       patched (b_Annotations before) (b_Annotations current) (b_Annotations stored);
     b_Finalizers :=
       patched (b_Finalizers before) (b_Finalizers current) (b_Finalizers stored);
     b_DeletionTimestamp := b_DeletionTimestamp stored;
     b_Spec := patched (b_Spec before) (b_Spec current) (b_Spec stored);
     b_Status := b_Status stored |}.

(** What the server stores after a merge patch of the status subresource:
    only the status is touched. *)
Definition patchStatus (before current stored : Browser) : Browser :=
  let sb := b_Status before in
  let sc := b_Status current in
  let ss := b_Status stored in
  {| b_Name := b_Name stored;
     b_Namespace := b_Namespace stored;
     b_Labels := b_Labels stored;
     b_Annotations := b_Annotations stored;
     b_Finalizers := b_Finalizers stored;
     b_DeletionTimestamp := b_DeletionTimestamp stored;
     b_Spec := b_Spec stored;
     b_Status :=
       {| st_PodIP := patched (st_PodIP sb) (st_PodIP sc) (st_PodIP ss);
          st_Phase := patched (st_Phase sb) (st_Phase sc) (st_Phase ss);
          st_Message := patched (st_Message sb) (st_Message sc) (st_Message ss);
          st_Reason := patched (st_Reason sb) (st_Reason sc) (st_Reason ss);
          st_StartTime := patched (st_StartTime sb) (st_StartTime sc) (st_StartTime ss);
          st_ContainerStatuses :=
            patched (st_ContainerStatuses sb) (st_ContainerStatuses sc)
                    (st_ContainerStatuses ss) |} |}.

(** A patch request through the verb [v], whose effect on the stored
    object is [apply]. *)
Definition apiWrite (v : Verb) (apply : Browser → Browser → Browser → Browser)
    (before current : Browser) (w : Cluster) : option error * Cluster :=
  match call v w with
  | (Some err, w) => (Some err, w)
  | (None, w) =>
      match browsers w !! browserKey current with
      | None => (Some (StatusError ReasonNotFound), w)
      | Some stored =>
          (None, storeBrowser (browserKey current) (apply before current stored) w)
      end
  end.

(** [client.Patch(ctx, current, client.MergeFrom(before))] *)
Definition apiPatchBrowser : Browser → Browser → Cluster → option error * Cluster :=
  apiWrite VPatchBrowser patchMain.

(** [client.Status().Patch(ctx, current, client.MergeFrom(before))] *)
Definition apiPatchBrowserStatus : Browser → Browser → Cluster → option error * Cluster :=
  apiWrite VPatchBrowserStatus patchStatus.

Definition markBrowserDeleted (b : Browser) (now : Z) : Browser :=
  {| b_Name := b_Name b; b_Namespace := b_Namespace b; b_Labels := b_Labels b;
     b_Annotations := b_Annotations b; b_Finalizers := b_Finalizers b;
     b_DeletionTimestamp :=
       match b_DeletionTimestamp b with Some t => Some t | None => Some now end;
     b_Spec := b_Spec b; b_Status := b_Status b |}.

(** [client.Delete(ctx, browser)] *)
Definition apiDeleteBrowser (key : ObjectKey) (w : Cluster) : option error * Cluster :=
  match call VDeleteBrowser w with
  | (Some err, w) => (Some err, w)
  | (None, w) =>
      match browsers w !! key with
      | None => (Some (StatusError ReasonNotFound), w)
      | Some stored => (None, storeBrowser key (markBrowserDeleted stored (clock w)) w)
      end
  end.

Definition apiGetPod (key : ObjectKey) (w : Cluster) : (error + Pod) * Cluster :=
  match call VGetPod w with
  | (Some err, w) => (inl err, w)
  | (None, w) =>
      match pods w !! key with
      | Some p => (inr p, w)
      | None => (inl (StatusError ReasonNotFound), w)
      end
  end.

Definition stampPod (p : Pod) (created deleted : option Z) : Pod :=
  {| p_Name := p_Name p; p_Namespace := p_Namespace p; p_Labels := p_Labels p;
     p_Annotations := p_Annotations p; p_OwnerReferences := p_OwnerReferences p;
     p_CreationTimestamp := created; p_DeletionTimestamp := deleted;
     p_Spec := p_Spec p; p_Status := p_Status p |}.

(** [client.Create(ctx, pod)] *)
Definition apiCreatePod (p : Pod) (w : Cluster) : option error * Cluster :=
  match call VCreatePod w with
  | (Some err, w) => (Some err, w)
  | (None, w) =>
      match pods w !! podKey p with
      | Some _ => (Some (StatusError ReasonAlreadyExists), w)
      | None =>
          (None, withPods w (<[podKey p := stampPod p (Some (clock w)) None]> (pods w)))
      end
  end.

(** [client.Delete(ctx, pod, opts...)]; [force] stands for
    [client.GracePeriodSeconds(0)]. *)
Definition apiDeletePod (key : ObjectKey) (force : bool) (w : Cluster) : option error * Cluster :=
  match call VDeletePod w with
  | (Some err, w) => (Some err, w)
  | (None, w) =>
      match pods w !! key with
      | None => (Some (StatusError ReasonNotFound), w)
      | Some stored =>
          if force then (None, withPods w (delete key (pods w)))
          else
            (None,
             withPods w
               (<[key := stampPod stored (p_CreationTimestamp stored)
                           (match p_DeletionTimestamp stored with
                            | Some t => Some t
                            | None => Some (clock w)
                            end)]> (pods w)))
      end
  end.

(** ** controllers/browser: the reconciler *)

(** [controllerutil.ContainsFinalizer], [AddFinalizer], [RemoveFinalizer] *)
Definition ContainsFinalizer (b : Browser) (finalizer : string) : bool :=
  bool_decide (finalizer ∈ b_Finalizers b).

Definition setFinalizers (b : Browser) (fs : list string) : Browser :=
  {| b_Name := b_Name b; b_Namespace := b_Namespace b; b_Labels := b_Labels b;
     b_Annotations := b_Annotations b; b_Finalizers := fs;
     b_DeletionTimestamp := b_DeletionTimestamp b;
     b_Spec := b_Spec b; b_Status := b_Status b |}.

Definition AddFinalizer (finalizer : string) (b : Browser) : Browser :=
  if ContainsFinalizer b finalizer then b
  else setFinalizers b (b_Finalizers b ++ [finalizer]).

Definition RemoveFinalizer (finalizer : string) (b : Browser) : Browser :=
  setFinalizers b (filter (λ f, f ≠ finalizer) (b_Finalizers b)).

Definition setLabels (b : Browser) (labels : option (gmap string string)) : Browser :=
  {| b_Name := b_Name b; b_Namespace := b_Namespace b; b_Labels := labels;
     b_Annotations := b_Annotations b; b_Finalizers := b_Finalizers b;
     b_DeletionTimestamp := b_DeletionTimestamp b;
     b_Spec := b_Spec b; b_Status := b_Status b |}.

Definition setStatus (b : Browser) (st : BrowserStatus) : Browser :=
  {| b_Name := b_Name b; b_Namespace := b_Namespace b; b_Labels := b_Labels b;
     b_Annotations := b_Annotations b; b_Finalizers := b_Finalizers b;
     b_DeletionTimestamp := b_DeletionTimestamp b;
     b_Spec := b_Spec b; b_Status := st |}.

Definition setPhase (phase : string) (st : BrowserStatus) : BrowserStatus :=
  {| st_PodIP := st_PodIP st; st_Phase := phase; st_Message := st_Message st;
     st_Reason := st_Reason st; st_StartTime := st_StartTime st;
     st_ContainerStatuses := st_ContainerStatuses st |}.

Definition setMessage (message : string) (st : BrowserStatus) : BrowserStatus :=
  {| st_PodIP := st_PodIP st; st_Phase := st_Phase st; st_Message := message;
     st_Reason := st_Reason st; st_StartTime := st_StartTime st;
     st_ContainerStatuses := st_ContainerStatuses st |}.

Definition setReason (reason : string) (st : BrowserStatus) : BrowserStatus :=
  {| st_PodIP := st_PodIP st; st_Phase := st_Phase st; st_Message := st_Message st;
     st_Reason := reason; st_StartTime := st_StartTime st;
     st_ContainerStatuses := st_ContainerStatuses st |}.

(** The closures handed to the retry helpers. *)
Definition assignIdentityLabels (b : Browser) : Browser :=
  let labels := default ∅ (b_Labels b) in
  let labels := <["selenosis.io/browser" := b_Name b]> labels in
  let labels := <["selenosis.io/browser.name" := BrowserName (b_Spec b)]> labels in
  let labels := <["selenosis.io/browser.version" := BrowserVersion (b_Spec b)]> labels in
  setLabels b (Some labels).

Definition markPhase (phase : string) (b : Browser) : Browser :=
  setStatus b (setPhase phase (b_Status b)).

Definition markFailed (message : string) (b : Browser) : Browser :=
  setStatus b (setMessage message (setPhase PodFailed (b_Status b))).

Definition markFailedWith (reason message : string) (b : Browser) : Browser :=
  setStatus b (setMessage message (setReason reason (setPhase PodFailed (b_Status b)))).

(** The loop shared, line for line, by [retryUpdate] and
    [retryStatusUpdate]; [write] is the one call in which they differ,
    [remaining] counts the iterations still to run and [i] is the loop index. *)
Fixpoint retryLoop (write : Browser → Browser → Cluster → option error * Cluster)
    (exhausted : string) (namespacedName : ObjectKey) (updateFunc : Browser → Browser)
    (remaining : nat) (i : Z) (w : Cluster) : option error * Cluster :=
  match remaining with
  | O => (Some (Errorf exhausted), w)
  | S remaining =>
      match apiGetBrowser namespacedName w with
      | (inl err, w) => (Some err, w)
      | (inr current, w) =>
          let before := current in
          let current := updateFunc current in
          match write before current w with
          | (None, w) => (None, w)
          | (Some err, w) =>
              if IsConflict err then
                retryLoop write exhausted namespacedName updateFunc remaining (i + 1)%Z
                  (sleep (millisecond * (100 * Z.shiftl 1 i))%Z w)
              else (Some err, w)
          end
      end
  end.

Definition retryUpdate (browser : Browser) (updateFunc : Browser → Browser) (w : Cluster)
  : option error * Cluster :=
  retryLoop apiPatchBrowser "failed to patch Browser after 5 attempts: version conflict"
    (browserKey browser) updateFunc maxRetries 0%Z w.

Definition retryStatusUpdate (browser : Browser) (updateFunc : Browser → Browser) (w : Cluster)
  : option error * Cluster :=
  retryLoop apiPatchBrowserStatus
    "failed to patch Browser status after 5 attempts: version conflict"
    (browserKey browser) updateFunc maxRetries 0%Z w.

(** [ctrl.Result] with its error: the requeue delay (0 when unset) and
    the returned error. *)
Definition Outcome : Type := Z * option error.

Definition done_ok : Outcome := (0%Z, None).

Definition deletePod (pod : Pod) (w : Cluster) : option error * Cluster :=
  match apiDeletePod (podKey pod) true w with
  | (Some err, w) => if negb (IsNotFound err) then (Some err, w) else (None, w)
  | (None, w) => (None, w)
  end.

Definition deleteBrowser (browser : Browser) (w : Cluster) : Outcome * Cluster :=
  let removed :=
    if ContainsFinalizer browser browserPodFinalizer
    then retryUpdate browser (RemoveFinalizer browserPodFinalizer) w
    else (None, w) in
  match removed with
  | (Some err, w) => ((mediumRetry, Some err), w)
  | (None, w) =>
      match apiDeleteBrowser (browserKey browser) w with
      | (Some err, w) =>
          if negb (IsNotFound err) then ((0%Z, Some err), w) else (done_ok, w)
      | (None, w) => (done_ok, w)
      end
  end.

Definition parseSelenosisOptions (rt : GoRuntime) (ann : option (gmap string string))
  : string + option SelenosisOptions :=
  match ann with
  | None => inr None
  | Some ann =>
      let raw := default "" (ann !! selenosisOptionsAnnotationKey) in
      if decide (raw = "") then inr None
      else
        match jsonUnmarshal rt raw with
        | inl err => inl ("unmarshal " +:+ selenosisOptionsAnnotationKey +:+ ": " +:+ err)
        | inr opts => inr (Some opts)
        end
  end.

Definition createPod (rt : GoRuntime) (browser : Browser)
    (browserSpec : BrowserVersionConfigSpec) (opts : option SelenosisOptions) (w : Cluster)
  : option error * Cluster :=
  apiCreatePod (buildBrowserPod (rangeOrder rt) browser browserSpec opts) w.

Definition handleMissingPod (rt : GoRuntime) (store : BrowserConfigStore)
    (browser : Browser) (w : Cluster) : Outcome * Cluster :=
  match Get rt store (b_Namespace browser)
          (BrowserName (b_Spec browser)) (BrowserVersion (b_Spec browser)) with
  | (Some browserSpec, true) =>
      match parseSelenosisOptions rt (b_Annotations browser) with
      | inl err =>
          match retryStatusUpdate browser (markFailedWith "InvalidSelenosisOptions" err) w with
          | (Some err, w) => ((0%Z, Some err), w)
          | (None, w) => (done_ok, w)
          end
      | inr opts =>
          match createPod rt browser browserSpec opts w with
          | (Some err, w) =>
              if IsAlreadyExists err then ((quickCheck, None), w)
              else ((0%Z, Some err), w)
          | (None, w) => ((quickCheck, None), w)
          end
      end
  | _ =>
      if decide (st_Phase (b_Status browser) ≠ PodFailed) then
        match retryStatusUpdate browser
                (markFailedWith "BrowserPodSpec" "Browser configuration not found") w with
        | (Some err, w) => ((0%Z, Some err), w)
        | (None, w) => (done_ok, w)
        end
      else (done_ok, w)
  end.

Definition handleDeletion (browser : Browser) (w : Cluster) : Outcome * Cluster :=
  if negb (ContainsFinalizer browser browserPodFinalizer) then (done_ok, w)
  else
    let removeFinalizer (w : Cluster) : Outcome * Cluster :=
      if ContainsFinalizer browser browserPodFinalizer then
        match retryUpdate browser (RemoveFinalizer browserPodFinalizer) w with
        | (Some err, w) => ((mediumRetry, Some err), w)
        | (None, w) => (done_ok, w)
        end
      else (done_ok, w) in
    match apiGetPod (browserKey browser) w with
    | (inr pod, w) =>
        let deleted :=
          match p_DeletionTimestamp pod with
          | None =>
              match apiDeletePod (podKey pod)
                      (bool_decide (pst_Phase (p_Status pod) = PodFailed)) w with
              | (Some err, w) => if negb (IsNotFound err) then (Some err, w) else (None, w)
              | (None, w) => (None, w)
              end
          | Some _ => (None, w)
          end in
        match deleted with
        | (Some err, w) => ((mediumRetry, Some err), w)
        | (None, w) =>
            match p_DeletionTimestamp pod with
            | Some deletionTime =>
                if decide (since w deletionTime > podDeletionTimeout)%Z then
                  (* a failed force delete is logged and cleanup goes on *)
                  removeFinalizer (snd (deletePod pod w))
                else ((quickCheck, None), w)
            | None => ((quickCheck, None), w)
            end
        end
    | (inl err, w) =>
        (* not found, or an error that must not block the deletion *)
        removeFinalizer w
    end.

Definition timeEqual (a b : option Z) : bool := bool_decide (a = b).

Definition containerStateEqual (a b : ContainerState) : bool :=
  if negb (eqb (bool_decide (is_Some (Running a))) (bool_decide (is_Some (Running b)))) then false
  else if negb (eqb (bool_decide (is_Some (Terminated a)))
                    (bool_decide (is_Some (Terminated b)))) then false
  else if negb (eqb (bool_decide (is_Some (Waiting a))) (bool_decide (is_Some (Waiting b))))
  then false
  else
    match Running a, Running b with
    | Some ra, Some rb => timeEqual (r_StartedAt ra) (r_StartedAt rb)
    | _, _ =>
        match Terminated a, Terminated b with
        | Some ta, Some tb =>
            bool_decide (t_ExitCode ta = t_ExitCode tb) &&
            bool_decide (t_Reason ta = t_Reason tb) &&
            bool_decide (t_Message ta = t_Message tb) &&
            timeEqual (t_StartedAt ta) (t_StartedAt tb) &&
            timeEqual (t_FinishedAt ta) (t_FinishedAt tb)
        | _, _ =>
            match Waiting a, Waiting b with
            | Some wa, Some wb =>
                bool_decide (w_Reason wa = w_Reason wb) &&
                bool_decide (w_Message wa = w_Message wb)
            | _, _ => true
            end
        end
    end.

Definition getContainerPorts (containerName : string) (pod : Pod) : list BrowserContainerPort :=
  match List.find (λ c, bool_decide (c_Name c = containerName) &&
                        bool_decide (0 < length (c_Ports c)))
                  (ps_Containers (p_Spec pod)) with
  | Some container =>
      (λ port, {| bp_Name := port_Name port;
                  bp_ContainerPort := port_ContainerPort port;
                  bp_Protocol := port_Protocol port;
                  bp_HostPort := port_HostPort port |}) <$> c_Ports container
  | None => []
  end.

Definition isCriticalTerminated (cs : ContainerStatus) : bool :=
  (bool_decide (cs_Name cs = browserContainerName) ||
   bool_decide (cs_Name cs = sidecarContainerName)) &&
  bool_decide (is_Some (Terminated (cs_State cs))).

(** The closure of the last status write of [updateBrowserStatus]. *)
Definition mirrorPod (pod : Pod) (browserStatusChanged containersStatusChanged : bool)
    (newContainerStatuses : list BrowserContainerStatus) (b : Browser) : Browser :=
  let st := b_Status b in
  setStatus b
    {| st_PodIP := if browserStatusChanged then pst_PodIP (p_Status pod) else st_PodIP st;
       st_StartTime :=
         if browserStatusChanged then pst_StartTime (p_Status pod) else st_StartTime st;
       st_Phase := pst_Phase (p_Status pod);
       st_Message := st_Message st;
       st_Reason := st_Reason st;
       st_ContainerStatuses :=
         if containersStatusChanged then newContainerStatuses
         else st_ContainerStatuses st |}.

Definition updateBrowserStatus (browser : Browser) (pod : Pod) (w : Cluster)
  : Outcome * Cluster :=
  match List.find isCriticalTerminated (pst_ContainerStatuses (p_Status pod)) with
  | Some containerStatus =>
      let failed :=
        if decide (st_Phase (b_Status browser) ≠ PodFailed) then
          retryStatusUpdate browser
            (markFailedWith (pst_Reason (p_Status pod)) (pst_Message (p_Status pod))) w
        else (None, w) in
      match failed with
      | (Some err, w) => ((0%Z, Some err), w)
      | (None, w) => deleteBrowser browser w
      end
  | None =>
      let bst := b_Status browser in
      let pst := p_Status pod in
      let browserStatusChanged :=
        bool_decide (st_Phase bst ≠ pst_Phase pst) ||
        bool_decide (st_PodIP bst ≠ pst_PodIP pst) ||
        (bool_decide (is_Some (pst_StartTime pst)) &&
         (bool_decide (st_StartTime bst = None) ||
          negb (timeEqual (st_StartTime bst) (pst_StartTime pst)))) in
      let newContainerStatuses :=
        (λ containerStatus,
           {| bcs_Name := cs_Name containerStatus;
              bcs_State := cs_State containerStatus;
              bcs_Image := cs_Image containerStatus;
              bcs_RestartCount := cs_RestartCount containerStatus;
              bcs_Ports := getContainerPorts (cs_Name containerStatus) pod |})
          <$> pst_ContainerStatuses pst in
      let containersStatusChanged :=
        if decide (0 < length (pst_ContainerStatuses pst)) then
          if decide (length newContainerStatuses ≠ length (st_ContainerStatuses bst)) then true
          else
            existsb (λ '(new, old),
                       bool_decide (bcs_RestartCount new ≠ bcs_RestartCount old) ||
                       negb (containerStateEqual (bcs_State new) (bcs_State old)))
                    (zip newContainerStatuses (st_ContainerStatuses bst))
        else false in
      let written :=
        if browserStatusChanged || containersStatusChanged then
          retryStatusUpdate browser
            (mirrorPod pod browserStatusChanged containersStatusChanged newContainerStatuses) w
        else (None, w) in
      match written with
      | (Some err, w) => ((0%Z, Some err), w)
      | (None, w) => ((periodicReconcile, None), w)
      end
  end.

(** [podCreationTimeout.String()] *)
Definition podCreationTimeoutString : string := "5m0s".

(** The loop of [Reconcile] over the container statuses of a pending
    pod; [None] when the loop ends without returning. *)
Fixpoint watchPending (browser : Browser) (pod : Pod) (statuses : list ContainerStatus)
    (w : Cluster) : option Outcome * Cluster :=
  match statuses with
  | [] => (None, w)
  | cs :: statuses =>
      match Terminated (cs_State cs) with
      | Some _ =>
          match retryStatusUpdate browser
                  (markFailed ("pod container " +:+ cs_Name cs +:+ " terminated")) w with
          | (Some err, w) => (Some (mediumRetry, Some err), w)
          | (None, w) => (Some done_ok, w)
          end
      | None =>
          match Waiting (cs_State cs) with
          | Some waiting =>
              let timedOut :=
                match p_CreationTimestamp pod with
                | Some created => bool_decide (since w created > podCreationTimeout)%Z
                | None => false
                end in
              if timedOut then
                match retryStatusUpdate browser
                        (markFailed ("pod creation timeout exceeded after " +:+
                                     podCreationTimeoutString)) w with
                | (Some err, w) => (Some (mediumRetry, Some err), w)
                | (None, w) => (Some done_ok, w)
                end
              else
                let reason := w_Reason waiting in
                if bool_decide (reason ≠ "ContainerCreating") &&
                   bool_decide (reason ≠ "PodInitializing") then
                  match deletePod pod w with
                  | (Some err, w) => (Some (mediumRetry, Some err), w)
                  | (None, w) =>
                      match retryStatusUpdate browser
                              (markFailed ("pod container " +:+ cs_Name cs +:+ " failed: " +:+
                                           reason +:+ " - " +:+ w_Message waiting)) w with
                      | (Some err, w) => (Some (mediumRetry, Some err), w)
                      | (None, w) => (Some done_ok, w)
                      end
                  end
                else watchPending browser pod statuses w
          | None => watchPending browser pod statuses w
          end
      end
  end.

(** The part of [Reconcile] that runs once the pod has been read. *)
Definition watchPod (browser : Browser) (pod : Pod) (w : Cluster) : Outcome * Cluster :=
  if bool_decide (is_Some (p_DeletionTimestamp pod)) &&
     bool_decide (b_DeletionTimestamp browser = None) then deleteBrowser browser w
  else
    let failedPod : option Outcome * Cluster :=
      if decide (pst_Phase (p_Status pod) = PodFailed) then
        match deletePod pod w with
        | (Some err, w) => (Some (mediumRetry, Some err), w)
        | (None, w) =>
            match retryStatusUpdate browser
                    (markFailed ("pod has failed with reason: " +:+ pst_Reason (p_Status pod)
                                 +:+ " - " +:+ pst_Message (p_Status pod))) w with
            | (Some err, w) => (Some (mediumRetry, Some err), w)
            | (None, w) => (None, w)
            end
        end
      else (None, w) in
    match failedPod with
    | (Some out, w) => (out, w)
    | (None, w) =>
        let pending :=
          if decide (pst_Phase (p_Status pod) = PodPending)
          then watchPending browser pod (pst_ContainerStatuses (p_Status pod)) w
          else (None, w) in
        match pending with
        | (Some out, w) => (out, w)
        | (None, w) => updateBrowserStatus browser pod w
        end
    end.

Definition Reconcile (rt : GoRuntime) (store : BrowserConfigStore) (req : ObjectKey)
    (w : Cluster) : Outcome * Cluster :=
  match apiGetBrowser req w with
  | (inl err, w) => if IsNotFound err then (done_ok, w) else ((0%Z, Some err), w)
  | (inr browser, w) =>
      if bool_decide (is_Some (b_DeletionTimestamp browser)) then handleDeletion browser w
      else if decide (st_Phase (b_Status browser) = PodFailed) then
        if ContainsFinalizer browser browserPodFinalizer then
          match retryUpdate browser (RemoveFinalizer browserPodFinalizer) w with
          | (Some err, w) => ((mediumRetry, Some err), w)
          | (None, w) => (done_ok, w)
          end
        else (done_ok, w)
      else
        let ensured :=
          if negb (ContainsFinalizer browser browserPodFinalizer)
          then retryUpdate browser (AddFinalizer browserPodFinalizer) w
          else (None, w) in
        match ensured with
        | (Some err, w) => ((0%Z, Some err), w)
        | (None, w) =>
            let labelled :=
              if decide (default "" (default ∅ (b_Labels browser) !! "selenosis.io/browser")
                         ≠ b_Name browser)
              then retryUpdate browser assignIdentityLabels w
              else (None, w) in
            match labelled with
            | (Some err, w) => ((mediumRetry, Some err), w)
            | (None, w) =>
                let initialised :=
                  if decide (st_Phase (b_Status browser) = "")
                  then retryStatusUpdate browser (markPhase PodPending) w
                  else (None, w) in
                match initialised with
                | (Some err, w) => ((0%Z, Some err), w)
                | (None, w) =>
                    match apiGetPod (browserKey browser) w with
                    | (inl err, w) =>
                        if IsNotFound err then
                          if decide (st_Phase (b_Status browser) = PodFailed)
                          then (done_ok, w)
                          else handleMissingPod rt store browser w
                        else ((0%Z, Some err), w)
                    | (inr pod, w) => watchPod browser pod w
                    end
                end
            end
        end
  end.

(** ** What happens around the reconciler

    Between two reconciliations the kubelet rewrites the status of a pod
    and time passes; a run of the system interleaves these with calls of
    [Reconcile]. *)

Definition setPodStatus (p : Pod) (st : PodStatus) : Pod :=
  {| p_Name := p_Name p; p_Namespace := p_Namespace p; p_Labels := p_Labels p;
     p_Annotations := p_Annotations p; p_OwnerReferences := p_OwnerReferences p;
     p_CreationTimestamp := p_CreationTimestamp p;
     p_DeletionTimestamp := p_DeletionTimestamp p;
     p_Spec := p_Spec p; p_Status := st |}.

Definition tick (d : Z) (w : Cluster) : Cluster :=
  {| browsers := browsers w; pods := pods w; clock := (clock w + d)%Z;
     faults := faults w; trace := trace w |}.

Inductive Step (rt : GoRuntime) (store : BrowserConfigStore) : Cluster → Cluster → Prop :=
| StepReconcile (req : ObjectKey) (w : Cluster) :
    Step rt store w (snd (Reconcile rt store req w))
| StepKubelet (key : ObjectKey) (pod : Pod) (st : PodStatus) (w : Cluster) :
    pods w !! key = Some pod →
    Step rt store w (withPods w (<[key := setPodStatus pod st]> (pods w)))
| StepTick (d : Z) (w : Cluster) :
    (0 ≤ d)%Z →
    Step rt store w (tick d w).

(** ** Go zero values and a runtime to run examples with *)

Definition zeroSidecar (name image : string) : Sidecar :=
  {| sc_Name := name; sc_Image := image; sc_Command := None; sc_WorkingDir := None;
     sc_Ports := None; sc_Env := None; sc_VolumeMounts := None;
     sc_ImagePullPolicy := ""; sc_Resources := None |}.

Definition zeroTemplate : Template :=
  {| tpl_Labels := None; tpl_Annotations := None; tpl_Env := None; tpl_Resources := None;
     tpl_ImagePullPolicy := ""; tpl_Volumes := None; tpl_VolumeMounts := None;
     tpl_NodeSelector := None; tpl_Affinity := None; tpl_Tolerations := None;
     tpl_HostAliases := None; tpl_InitContainers := None; tpl_Sidecars := None;
     tpl_Privileged := None; tpl_ImagePullSecrets := None; tpl_DNSConfig := None;
     tpl_SecurityContext := None; tpl_WorkingDir := None |}.

Definition zeroVersionConfig (image : string) : BrowserVersionConfigSpec :=
  {| bv_Image := image; bv_Labels := None; bv_Annotations := None; bv_Env := None;
     bv_Resources := None; bv_ImagePullPolicy := ""; bv_Volumes := None;
     bv_VolumeMounts := None; bv_NodeSelector := None; bv_Affinity := None;
     bv_Tolerations := None; bv_HostAliases := None; bv_InitContainers := None;
     bv_Sidecars := None; bv_Privileged := None; bv_ImagePullSecrets := None;
     bv_DNSConfig := None; bv_SecurityContext := None; bv_WorkingDir := None |}.

Definition zeroBrowserStatus : BrowserStatus :=
  {| st_PodIP := ""; st_Phase := ""; st_Message := ""; st_Reason := "";
     st_StartTime := None; st_ContainerStatuses := [] |}.

Definition newBrowser (namespace name browserName browserVersion : string) : Browser :=
  {| b_Name := name; b_Namespace := namespace; b_Labels := None; b_Annotations := None;
     b_Finalizers := []; b_DeletionTimestamp := None;
     b_Spec := {| BrowserName := browserName; BrowserVersion := browserVersion |};
     b_Status := zeroBrowserStatus |}.

(** [strings.ToLower] on ASCII text. *)
Definition lowerAscii (c : Ascii.ascii) : Ascii.ascii :=
  let n := Ascii.nat_of_ascii c in
  if (65 <=? n) && (n <=? 90) then Ascii.ascii_of_nat (n + 32) else c.

Fixpoint asciiToLower (s : string) : string :=
  match s with
  | EmptyString => EmptyString
  | String c s => String (lowerAscii c) (asciiToLower s)
  end.

(** A runtime for examples whose Browsers carry no options annotation:
    its [json.Unmarshal] is never reached and rejects every document. *)
Definition exampleRuntime (ro : RangeOrder) : GoRuntime :=
  {| rangeOrder := ro;
     ToLower := asciiToLower;
     jsonUnmarshal := λ _, inl "unexpected end of JSON input" |}.

(** ** Worked inputs *)

Definition templateOf (env : option (list EnvVar))
    (sidecars initContainers : option (list Sidecar)) (workingDir : option string) : Template :=
  {| tpl_Labels := None; tpl_Annotations := None; tpl_Env := env; tpl_Resources := None;
     tpl_ImagePullPolicy := ""; tpl_Volumes := None; tpl_VolumeMounts := None;
     tpl_NodeSelector := None; tpl_Affinity := None; tpl_Tolerations := None;
     tpl_HostAliases := None; tpl_InitContainers := initContainers;
     tpl_Sidecars := sidecars; tpl_Privileged := None; tpl_ImagePullSecrets := None;
     tpl_DNSConfig := None; tpl_SecurityContext := None; tpl_WorkingDir := workingDir |}.

Definition versionOf (image : string) (env : option (list EnvVar))
    (sidecars initContainers : option (list Sidecar)) (workingDir : option string)
  : BrowserVersionConfigSpec :=
  {| bv_Image := image; bv_Labels := None; bv_Annotations := None; bv_Env := env;
     bv_Resources := None; bv_ImagePullPolicy := ""; bv_Volumes := None;
     bv_VolumeMounts := None; bv_NodeSelector := None; bv_Affinity := None;
     bv_Tolerations := None; bv_HostAliases := None; bv_InitContainers := initContainers;
     bv_Sidecars := sidecars; bv_Privileged := None; bv_ImagePullSecrets := None;
     bv_DNSConfig := None; bv_SecurityContext := None; bv_WorkingDir := workingDir |}.

Definition tcpPort (n : Z) : ContainerPort :=
  {| port_Name := ""; port_ContainerPort := n; port_Protocol := "TCP"; port_HostPort := 0%Z |}.

(** A sidecar that sets its working directory, one port and its
    environment. *)
Definition loggerSidecar (image dir : string) (port : Z) (env : list EnvVar) : Sidecar :=
  {| sc_Name := "logger"; sc_Image := image; sc_Command := None;
     sc_WorkingDir := Some dir; sc_Ports := Some [tcpPort port]; sc_Env := Some env;
     sc_VolumeMounts := None; sc_ImagePullPolicy := ""; sc_Resources := None |}.

Definition templateLogger : Sidecar :=
  loggerSidecar "logger:1.0" "/template" 80
    [ {| env_Name := "LEVEL"; env_Value := "info" |};
      {| env_Name := "FORMAT"; env_Value := "json" |} ].

Definition overrideLogger : Sidecar :=
  loggerSidecar "logger:2.0" "/override" 443 [ {| env_Name := "LEVEL"; env_Value := "debug" |} ].

Definition initWithDir (name image dir : string) : Sidecar :=
  {| sc_Name := name; sc_Image := image; sc_Command := None;
     sc_WorkingDir := Some dir; sc_Ports := None; sc_Env := None;
     sc_VolumeMounts := None; sc_ImagePullPolicy := ""; sc_Resources := None |}.

Definition templateEnv : list EnvVar :=
  [ {| env_Name := "TZ"; env_Value := "UTC" |};
    {| env_Name := "DEBUG"; env_Value := "false" |} ].

Definition overrideEnv : list EnvVar :=
  [ {| env_Name := "DEBUG"; env_Value := "true" |};
    {| env_Name := "CUSTOM"; env_Value := "42" |} ].

(** A catalog object with one browser version per browser name. *)
Definition catalogOf (template : option Template)
    (entries : list (string * (string * BrowserVersionConfigSpec))) : BrowserConfig :=
  {| bc_Name := "cfg"; bc_Namespace := "ns";
     bc_Spec :=
       {| spec_Template := template;
          spec_Browsers :=
            list_to_map ((λ '(name, (version, cfg)), (name, {[ version := Some cfg ]}))
                           <$> entries) |} |}.

Definition waitingStatus (name reason : string) : ContainerStatus :=
  {| cs_Name := name;
     cs_State := {| Waiting := Some {| w_Reason := reason; w_Message := "" |};
                    Running := None; Terminated := None |};
     cs_Ready := false; cs_RestartCount := 0%Z; cs_Image := "" |}.

Definition pendingStatus (statuses : list ContainerStatus) : PodStatus :=
  {| pst_Phase := PodPending; pst_Reason := ""; pst_Message := ""; pst_PodIP := "";
     pst_StartTime := None; pst_ContainerStatuses := statuses |}.

Definition clusterOf (bs : list Browser) (ps : list Pod) (now : Z)
    (script : Verb → list (option error)) : Cluster :=
  {| browsers := list_to_map ((λ b, (browserKey b, b)) <$> bs);
     pods := list_to_map ((λ p, (podKey p, p)) <$> ps);
     clock := now; faults := script; trace := [] |}.

Definition conflict : option error := Some (StatusError ReasonConflict).

(** ** Notions used to state the properties *)

(** Writing a list of keyed values into a map, first to last. *)
Definition installAll {V : Type} (l : list (string * V)) (init : gmap string V)
  : gmap string V :=
  foldl (λ m '(k, v), <[k := v]> m) init l.

(** The (key, configuration) pairs [onAddOrUpdate] writes for a two-level
    map, in the order of its two nested loops. *)
Definition storeEntries (rt : GoRuntime) (namespace : string)
    (bs : gmap string (gmap string (option BrowserVersionConfigSpec)))
  : list (string * option BrowserVersionConfigSpec) :=
  range (rangeOrder rt) bs ≫=
    (λ '(browserName, versions),
       (λ '(version, cfg), (keyFor rt namespace browserName version, cfg))
         <$> range (rangeOrder rt) versions).

(** What [onAddOrUpdate] caches for the entry [cfg] of the catalog [bc]. *)
Definition resolvedEntry (rt : GoRuntime) (bc : BrowserConfig)
    (cfg : option BrowserVersionConfigSpec) : option BrowserVersionConfigSpec :=
  match spec_Template (bc_Spec bc) with
  | Some t => (λ b, mergeWithSpec (rangeOrder rt) b t) <$> cfg
  | None => cfg
  end.

(** [bc] declares the pair (browserName, version). *)
Definition declares (bc : BrowserConfig) (browserName version : string) : Prop :=
  ∃ versions, spec_Browsers (bc_Spec bc) !! browserName = Some versions ∧
              is_Some (versions !! version).

(** The entry a list of environment variables holds for a name: the last
    one of that name. *)
Definition envNamed (l : list EnvVar) (name : string) : option EnvVar :=
  last (filter (λ e, env_Name e = name) l).

Global Instance StatusReason_eq_dec : EqDecision StatusReason.
Proof. solve_decision. Defined.
Global Instance error_eq_dec : EqDecision error.
Proof. solve_decision. Defined.
Global Instance Event_eq_dec : EqDecision Event.
Proof. solve_decision. Defined.

(** The delay after the failed attempt number [i], counted from 0: 100ms
    doubled [i] times. *)
Definition backoff (i : nat) : Z := (100 * 2 ^ Z.of_nat i * millisecond)%Z.

(** The calls of an attempt that ends in a conflict, with the sleep that
    follows it, and the calls of an attempt that ends the loop. *)
Definition conflictingAttempt (write : Verb) (i : nat) : list Event :=
  [EvCall VGetBrowser; EvCall write; EvSleep (backoff i)].

Definition closingAttempt (write : Verb) : list Event :=
  [EvCall VGetBrowser; EvCall write].

(** How many requests of a verb a trace holds. *)
Definition requests (v : Verb) (t : list Event) : nat :=
  length (filter (λ ev, ev = EvCall v) t).

(** A closure that leaves the status (and the identity and the deletion
    mark) of [b] alone, and one that changes nothing but the status. *)
Definition metadataOnly (f : Browser → Browser) (b : Browser) : Prop :=
  b_Name (f b) = b_Name b ∧ b_Namespace (f b) = b_Namespace b ∧
  b_DeletionTimestamp (f b) = b_DeletionTimestamp b ∧ b_Status (f b) = b_Status b.

Definition statusOnly (f : Browser → Browser) (b : Browser) : Prop :=
  b_Name (f b) = b_Name b ∧ b_Namespace (f b) = b_Namespace b ∧
  b_Labels (f b) = b_Labels b ∧ b_Annotations (f b) = b_Annotations b ∧
  b_Finalizers (f b) = b_Finalizers b ∧
  b_DeletionTimestamp (f b) = b_DeletionTimestamp b ∧ b_Spec (f b) = b_Spec b.

(** A cluster that answers every request. *)
Definition quiet (w : Cluster) : Prop := ∀ v, faults w v = [].

(** The cluster answers every request, holds the pods [ps], shows the
    time [now], and stores under [req] the live Browser [s]. *)
Definition settled (req : ObjectKey) (ps : gmap ObjectKey Pod) (now : Z)
    (w : Cluster) (s : Browser) : Prop :=
  quiet w ∧ pods w = ps ∧ clock w = now ∧
  browsers w !! req = Some s ∧ b_DeletionTimestamp s = None ∧ browserKey s = req.

(** A Browser waiting for its pod, the pod stuck in [ContainerCreating],
    and a cluster in which that pod is six minutes old. *)
Definition pendingBrowser : Browser :=
  markPhase PodPending
    (AddFinalizer browserPodFinalizer (newBrowser "ns" "b1" "chrome" "120.0")).

Definition stuckPod : Pod :=
  stampPod
    (setPodStatus
       (buildBrowserPod in_order (newBrowser "ns" "b1" "chrome" "120.0")
          (zeroVersionConfig "chrome:120") None)
       (pendingStatus [waitingStatus "browser" "ContainerCreating"]))
    (Some 0%Z) None.

Definition stuckCluster : Cluster :=
  clusterOf [pendingBrowser] [stuckPod] (6 * minute)%Z no_faults.

(** The Browser stored under [req] carries the pod finalizer. *)
Definition guarded (req : ObjectKey) (w : Cluster) : Prop :=
  ∃ s, browsers w !! req = Some s ∧ browserKey s = req ∧
       browserPodFinalizer ∈ b_Finalizers s.

(** A catalog with one entry and the store the handler builds from it. *)
Definition chromeStore (rt : GoRuntime) : BrowserConfigStore :=
  onAddOrUpdate rt
    (AnyBrowserConfig
       (Some (catalogOf None [("chrome", ("120.0", zeroVersionConfig "chrome:120"))])))
    NewBrowserConfigStore.

(** * Further definitions *)

(** ** The informer and the store *)

(** The notifications of the informer and the handlers [Start] registers
    for them: [AddFunc], [UpdateFunc], which drops the old object, and
    [DeleteFunc]. *)
Inductive Notification :=
| Added (obj : any)
| Updated (oldObj newObj : any)
| Deleted (obj : any).

Definition dispatch (rt : GoRuntime) (n : Notification) (s : BrowserConfigStore)
  : BrowserConfigStore :=
  match n with
  | Added obj => onAddOrUpdate rt obj s
  | Updated _ newObj => onAddOrUpdate rt newObj s
  | Deleted obj => onDelete rt obj s
  end.

(** The handlers run one at a time, in the order of delivery. *)
Definition deliver (rt : GoRuntime) (ns : list Notification) (s : BrowserConfigStore)
  : BrowserConfigStore :=
  foldl (λ s n, dispatch rt n s) s ns.

(** Deleting a list of keys from a map, first to last. *)
Definition removeAll {V : Type} (l : list string) (init : gmap string V) : gmap string V :=
  foldl (λ m k, delete k m) init l.

(** [bc] declares the pair (browserName, version) with the entry [cfg]. *)
Definition declaresEntry (bc : BrowserConfig) (browserName version : string)
    (cfg : option BrowserVersionConfigSpec) : Prop :=
  ∃ versions, spec_Browsers (bc_Spec bc) !! browserName = Some versions ∧
              versions !! version = Some cfg.

(** ** Launch-spec synthesis, in parts *)

(** A pod with the environment of every container and the labels
    erased: what is left is everything [applySelenosisOptions] has no
    business with. *)
Definition withoutEnvAndLabels (pod : Pod) : Pod :=
  withLabels (withContainers pod ((λ c, setEnv c []) <$> ps_Containers (p_Spec pod))) None.

(** The option the options document holds for a container name. *)
Definition containerOption (opts : option SelenosisOptions) (name : string)
  : option ContainerOption :=
  opts ≫= λ o, so_Containers o !! name.

(** The conversion [getContainerPorts] applies to one port. *)
Definition toBrowserPort (port : ContainerPort) : BrowserContainerPort :=
  {| bp_Name := port_Name port; bp_ContainerPort := port_ContainerPort port;
     bp_Protocol := port_Protocol port; bp_HostPort := port_HostPort port |}.

(** What [applySelenosisOptions] does to one container. *)
Definition withOptionEnv (ro : RangeOrder) (opts : option SelenosisOptions) (c : Container)
  : Container :=
  match containerOption opts (c_Name c) with
  | Some option =>
      if decide (size (co_Env option) = 0) then c
      else setEnv c (mergeEnvVars ro (c_Env c) (co_Env option))
  | None => c
  end.

(** The containers [buildBrowserPod] has collected when it copies the
    labels: the browser container, privileged on request, and the
    sidecars. *)
Definition collectedContainers (cfg : BrowserVersionConfigSpec) : list Container :=
  (match bv_Privileged cfg with
   | Some true => setPrivileged (browserContainerOf cfg)
   | _ => browserContainerOf cfg
   end) :: (sidecarContainerOf <$> default [] (bv_Sidecars cfg)).

(** The index [mergeEnvVars] builds for a list: under each name, the
    position of the last entry of that name. *)
Definition indexOf (out : list EnvVar) : gmap string nat :=
  foldl (λ m '(i, e), <[env_Name e := i]> m) ∅ (imap (λ i e, (i, e)) out).

(** One iteration of the loop of [mergeEnvVars] over the override map. *)
Definition overrideStep (st : gmap string nat * list EnvVar) (kv : string * string)
  : gmap string nat * list EnvVar :=
  let '(idx, out) := st in
  let '(k, v) := kv in
  let ev := {| env_Name := k; env_Value := v |} in
  match idx !! k with
  | Some pos => (idx, <[pos := ev]> out)
  | None => (<[k := length out]> idx, out ++ [ev])
  end.

(** ** Reconciliation, in parts *)

(** The Browser the server stores once the three preparatory writes of
    [Reconcile] have gone through: the conditions are those of the
    Browser as read at the start, the closures run on the stored
    object. *)
Definition prepared (b : Browser) : Browser :=
  let b1 := if negb (ContainsFinalizer b browserPodFinalizer)
            then AddFinalizer browserPodFinalizer b else b in
  let b2 := if decide (default "" (default ∅ (b_Labels b) !! "selenosis.io/browser")
                       ≠ b_Name b)
            then assignIdentityLabels b1 else b1 in
  if decide (st_Phase (b_Status b) = "") then markPhase PodPending b2 else b2.

(** A Browser with its annotations replaced. *)
Definition withAnnotations (b : Browser) (ann : option (gmap string string)) : Browser :=
  {| b_Name := b_Name b; b_Namespace := b_Namespace b; b_Labels := b_Labels b;
     b_Annotations := ann; b_Finalizers := b_Finalizers b;
     b_DeletionTimestamp := b_DeletionTimestamp b;
     b_Spec := b_Spec b; b_Status := b_Status b |}.

(** The pod is not older than the creation timeout, as far as the
    reconciler can tell. *)
Definition young (now : Z) (pod : Pod) : Prop :=
  match p_CreationTimestamp pod with
  | Some created => (now - created ≤ podCreationTimeout)%Z
  | None => True
  end.

(** A container status the loop over a pending pod passes over: not
    terminated, and waiting, if at all, for a reason that is no
    failure. *)
Definition benign (cs : ContainerStatus) : Prop :=
  Terminated (cs_State cs) = None ∧
  ∀ waiting, Waiting (cs_State cs) = Some waiting →
             w_Reason waiting = "ContainerCreating" ∨ w_Reason waiting = "PodInitializing".

(** A pod status with no address and no start time. *)
Definition withPodStatus (phase reason message : string) (statuses : list ContainerStatus)
  : PodStatus :=
  {| pst_Phase := phase; pst_Reason := reason; pst_Message := message; pst_PodIP := "";
     pst_StartTime := None; pst_ContainerStatuses := statuses |}.

(** The pod [buildBrowserPod] makes for the Browser [b1] of the worked
    inputs, created at time 0, with a given status. *)
Definition podOf (st : PodStatus) : Pod :=
  stampPod
    (setPodStatus
       (buildBrowserPod in_order (newBrowser "ns" "b1" "chrome" "120.0")
          (zeroVersionConfig "chrome:120") None) st)
    (Some 0%Z) None.

(** What the cluster holds under the key of a live Browser once
    [deleteBrowser] has gone through, for the Browser read as [b] and
    stored as [s]: the finalizer is dropped only if [b] carried it, and
    the object goes away when no finalizer is left. *)
Definition released (b s : Browser) (now : Z) : option Browser :=
  let s1 := if ContainsFinalizer b browserPodFinalizer
            then RemoveFinalizer browserPodFinalizer s else s in
  match b_Finalizers s1 with
  | [] => None
  | _ => Some (markBrowserDeleted s1 now)
  end.

(** The status of a container that has exited. *)
Definition terminatedStatus (name : string) (exitCode : Z) : ContainerStatus :=
  {| cs_Name := name;
     cs_State := {| Waiting := None; Running := None;
                    Terminated := Some {| t_ExitCode := exitCode; t_Reason := "Error";
                                          t_Message := ""; t_StartedAt := None;
                                          t_FinishedAt := None |} |};
     cs_Ready := false; cs_RestartCount := 0%Z; cs_Image := "" |}.

(** The three values [updateBrowserStatus] computes before its status
    write, and the Browser the server stores after it, for the Browser
    read as [b] and stored as [s]. *)
Definition browserStatusChanged (b : Browser) (pod : Pod) : bool :=
  let bst := b_Status b in
  let pst := p_Status pod in
  bool_decide (st_Phase bst ≠ pst_Phase pst) ||
  bool_decide (st_PodIP bst ≠ pst_PodIP pst) ||
  (bool_decide (is_Some (pst_StartTime pst)) &&
   (bool_decide (st_StartTime bst = None) ||
    negb (timeEqual (st_StartTime bst) (pst_StartTime pst)))).

Definition newContainerStatuses (pod : Pod) : list BrowserContainerStatus :=
  (λ containerStatus,
     {| bcs_Name := cs_Name containerStatus;
        bcs_State := cs_State containerStatus;
        bcs_Image := cs_Image containerStatus;
        bcs_RestartCount := cs_RestartCount containerStatus;
        bcs_Ports := getContainerPorts (cs_Name containerStatus) pod |})
    <$> pst_ContainerStatuses (p_Status pod).

Definition containersStatusChanged (b : Browser) (pod : Pod) : bool :=
  if decide (0 < length (pst_ContainerStatuses (p_Status pod))) then
    if decide (length (newContainerStatuses pod) ≠ length (st_ContainerStatuses (b_Status b)))
    then true
    else
      existsb (λ '(new, old),
                 bool_decide (bcs_RestartCount new ≠ bcs_RestartCount old) ||
                 negb (containerStateEqual (bcs_State new) (bcs_State old)))
              (zip (newContainerStatuses pod) (st_ContainerStatuses (b_Status b)))
  else false.

Definition mirrored (b s : Browser) (pod : Pod) : Browser :=
  if browserStatusChanged b pod || containersStatusChanged b pod then
    mirrorPod pod (browserStatusChanged b pod) (containersStatusChanged b pod)
      (newContainerStatuses pod) s
  else s.

(** The status of a running pod and of a running container. *)
Definition runningStatus (ip : string) (started : Z) (statuses : list ContainerStatus)
  : PodStatus :=
  {| pst_Phase := PodRunning; pst_Reason := ""; pst_Message := ""; pst_PodIP := ip;
     pst_StartTime := Some started; pst_ContainerStatuses := statuses |}.

Definition runningContainer (name : string) (started : Z) : ContainerStatus :=
  {| cs_Name := name;
     cs_State := {| Waiting := None; Running := Some {| r_StartedAt := Some started |};
                    Terminated := None |};
     cs_Ready := true; cs_RestartCount := 0%Z; cs_Image := "" |}.

(** What the cluster holds under the key of a Browser marked for
    deletion once its pod finalizer has been removed. *)
Definition unguarded (b : Browser) : option Browser :=
  match b_Finalizers (RemoveFinalizer browserPodFinalizer b) with
  | [] => None
  | _ => Some (RemoveFinalizer browserPodFinalizer b)
  end.

(** Every request but those of the verb [v] is answered. *)
Definition quietBut (v : Verb) (w : Cluster) : Prop := ∀ v', v' ≠ v → faults w v' = [].

(** The Browser [pendingBrowser], marked for deletion. *)
Definition deletingBrowser (deleted : Z) : Browser :=
  markBrowserDeleted pendingBrowser deleted.

(** The pod after a delete request with a grace period at time [now]. *)
Definition terminatingSince (pod : Pod) (now : Z) : Pod :=
  stampPod pod (p_CreationTimestamp pod) (Some now).

(** Every object is stored under its own namespace and name, as the API
    server has it. *)
Definition wellKeyed (w : Cluster) : Prop :=
  (∀ key b, browsers w !! key = Some b → browserKey b = key) ∧
  (∀ key p, pods w !! key = Some p → podKey p = key).

(** [w'] is well keyed and differs from [w] at most in the Browser and
    the pod stored under [req]. *)
Definition touchesOnly (req : ObjectKey) (w w' : Cluster) : Prop :=
  wellKeyed w' ∧
  ∀ key, key ≠ req →
         browsers w' !! key = browsers w !! key ∧ pods w' !! key = pods w !! key.

(** A closure that keeps the namespace and the name of a Browser. *)
Definition keepsKey (f : Browser → Browser) : Prop :=
  ∀ b, browserKey (f b) = browserKey b.

(** The error of an outcome. *)
Definition failure (out : Outcome) : option error := snd out.

(** ** Scripts of answers, repeated deliveries and the finalizer invariant *)

(** The answer a script holds for the [j]-th request from now on: an
    error, or [None] for a request that goes through, as every request
    does once the script has run out. *)
Definition scripted (script : list (option error)) (j : nat) : option error :=
  default None (script !! j).

(** The next [n] reads of the Browser go through. *)
Definition readsPass (n : nat) (w : Cluster) : Prop :=
  ∀ j, j < n → scripted (faults w VGetBrowser) j = None.

(** The runtime [rt] in a run in which [range] visits in the order [ro]. *)
Definition withRangeOrder (rt : GoRuntime) (ro : RangeOrder) : GoRuntime :=
  {| rangeOrder := ro; ToLower := ToLower rt; jsonUnmarshal := jsonUnmarshal rt |}.

(** The closure of the status write of [Reconcile] for a failed pod. *)
Definition markPodFailed (pod : Pod) : Browser → Browser :=
  markFailed ("pod has failed with reason: " +:+ pst_Reason (p_Status pod) +:+ " - " +:+
              pst_Message (p_Status pod)).

(** The Browser stored under [key], if there is one, is marked for
    deletion or in phase Failed. *)
Definition lapsed (key : ObjectKey) (w : Cluster) : Prop :=
  ∀ b, browsers w !! key = Some b →
       is_Some (b_DeletionTimestamp b) ∨ st_Phase (b_Status b) = PodFailed.

(** The finalizer is in place under [key]: a Browser that is neither
    marked for deletion nor Failed carries it whenever its pod exists and
    is not marked for deletion. *)
Definition finalizerHeld (key : ObjectKey) (w : Cluster) : Prop :=
  ∀ b pod,
    browsers w !! key = Some b → pods w !! key = Some pod →
    b_DeletionTimestamp b = None → st_Phase (b_Status b) ≠ PodFailed →
    p_DeletionTimestamp pod = None →
    browserPodFinalizer ∈ b_Finalizers b.

Definition finalizerInvariant (w : Cluster) : Prop :=
  wellKeyed w ∧ ∀ key, finalizerHeld key w.

(** ** controllers/browserconfig: the reconciler of the catalog objects

    It only manages a finalizer.  The API server is modelled as for the
    Browsers: objects keyed by (namespace, name), a script of injected
    failures per kind of request, and the requests sent; [client.Update]
    replaces the stored object, and an object marked for deletion goes
    away with its last finalizer. *)
Module browserconfig.

Definition browserConfigFinalizer : string := "browserconfig.selenosis.io/finalizer".
Definition shortRetry : Z := (second * 5)%Z.
Definition mediumRetry : Z := (second * 10)%Z.

(** A [BrowserConfig] with the metadata the reconciler reads. *)
Record Object := {
  catalog : BrowserConfig;
  Finalizers : list string;
  DeletionTimestamp : option Z
}.

Definition objectKey (o : Object) : ObjectKey :=
  (bc_Namespace (catalog o), bc_Name (catalog o)).

Inductive Request := RGet | RUpdate.

Global Instance Request_eq_dec : EqDecision Request.
Proof. solve_decision. Defined.

Record ConfigCluster := {
  configs : gmap ObjectKey Object;
  script : Request → list (option error);
  sent : list Request
}.

Definition answer (r : Request) (w : ConfigCluster) : option error * ConfigCluster :=
  (match script w r with
   | [] => None
   | outcome :: _ => outcome
   end,
   {| configs := configs w;
      script := λ r', if decide (r' = r) then tail (script w r') else script w r';
      sent := sent w ++ [r] |}).

Definition withConfigs (w : ConfigCluster) (cs : gmap ObjectKey Object) : ConfigCluster :=
  {| configs := cs; script := script w; sent := sent w |}.

(** [client.Get] *)
Definition clientGet (key : ObjectKey) (w : ConfigCluster)
  : (error + Object) * ConfigCluster :=
  match answer RGet w with
  | (Some err, w) => (inl err, w)
  | (None, w) =>
      match configs w !! key with
      | Some o => (inr o, w)
      | None => (inl (StatusError ReasonNotFound), w)
      end
  end.

(** [client.Update] *)
Definition clientUpdate (o : Object) (w : ConfigCluster) : option error * ConfigCluster :=
  match answer RUpdate w with
  | (Some err, w) => (Some err, w)
  | (None, w) =>
      match configs w !! objectKey o with
      | None => (Some (StatusError ReasonNotFound), w)
      | Some _ =>
          match Finalizers o, DeletionTimestamp o with
          | [], Some _ => (None, withConfigs w (delete (objectKey o) (configs w)))
          | _, _ => (None, withConfigs w (<[objectKey o := o]> (configs w)))
          end
      end
  end.

(** [controllerutil.ContainsFinalizer], [AddFinalizer], [RemoveFinalizer] *)
Definition ContainsFinalizer (o : Object) (finalizer : string) : bool :=
  bool_decide (finalizer ∈ Finalizers o).

Definition setFinalizers (o : Object) (fs : list string) : Object :=
  {| catalog := catalog o; Finalizers := fs; DeletionTimestamp := DeletionTimestamp o |}.

Definition AddFinalizer (finalizer : string) (o : Object) : Object :=
  if ContainsFinalizer o finalizer then o
  else setFinalizers o (Finalizers o ++ [finalizer]).

Definition RemoveFinalizer (finalizer : string) (o : Object) : Object :=
  setFinalizers o (filter (λ f, f ≠ finalizer) (Finalizers o)).

Definition Reconcile (req : ObjectKey) (w : ConfigCluster) : Outcome * ConfigCluster :=
  match clientGet req w with
  | (inl err, w) =>
      if IsNotFound err then (done_ok, w) else ((mediumRetry, Some err), w)
  | (inr browserConfig, w) =>
      if bool_decide (is_Some (DeletionTimestamp browserConfig)) then
        if ContainsFinalizer browserConfig browserConfigFinalizer then
          let browserConfig := RemoveFinalizer browserConfigFinalizer browserConfig in
          match clientUpdate browserConfig w with
          | (Some err, w) => ((shortRetry, Some err), w)
          | (None, w) => (done_ok, w)
          end
        else (done_ok, w)
      else
        if negb (ContainsFinalizer browserConfig browserConfigFinalizer) then
          let browserConfig := AddFinalizer browserConfigFinalizer browserConfig in
          match clientUpdate browserConfig w with
          | (Some err, w) => ((shortRetry, Some err), w)
          | (None, w) => (done_ok, w)
          end
        else (done_ok, w)
  end.

(** A cluster that answers every request. *)
Definition calm (w : ConfigCluster) : Prop := ∀ r, script w r = [].

(** How many update requests a cluster has received. *)
Definition updates (w : ConfigCluster) : nat :=
  length (filter (λ r, r = RUpdate) (sent w)).

Definition newObject (bc : BrowserConfig) : Object :=
  {| catalog := bc; Finalizers := []; DeletionTimestamp := None |}.

Definition clusterWith (o : Object) (answers : Request → list (option error)) : ConfigCluster :=
  {| configs := {[ objectKey o := o ]}; script := answers; sent := [] |}.

End browserconfig.

(** * Properties *)

(** [range] visits exactly the entries of the map. *)
Lemma range_elem {A} (ro : RangeOrder) (m : gmap string A) k v :
  (k, v) ∈ range ro m ↔ m !! k = Some v.
Proof. unfold range. rewrite (visit_perm ro). apply elem_of_map_to_list. Qed.

(** ** Merge engine *)

(** The failing input of C1: template and override both declare the init
    container [shared-init]; for every range order the merged list holds
    one entry of that name, and it is the template's (image
    [template-init]), not the override's (image [override-init]). *)
Lemma init_container_collision_at_failing_input (ro : RangeOrder) :
  bv_InitContainers
    (mergeWithSpec ro
       (versionOf "browser" None None (Some [zeroSidecar "shared-init" "override-init"]) None)
       (templateOf None None (Some [zeroSidecar "shared-init" "template-init"]) None))
  = Some [zeroSidecar "shared-init" "template-init"].
Proof. reflexivity. Qed.

(** The sibling path, on the same lists given as sidecars, keeps the
    override's entry. *)
Lemma sidecar_collision_keeps_override_entry (ro : RangeOrder) :
  bv_Sidecars
    (mergeWithSpec ro
       (versionOf "browser" None (Some [zeroSidecar "shared" "override-image"]) None None)
       (templateOf None (Some [zeroSidecar "shared" "template-image"]) None None))
  = Some [zeroSidecar "shared" "override-image"].
Proof. reflexivity. Qed.

(** C5.  Two runs of [MergeWithTemplate] on the same catalog spec that
    range the merged environment map in different orders return different
    environment lists, hence different resolved specs. *)
Theorem merge_output_depends_on_range_order :
  let spec := bc_Spec (catalogOf (Some (templateOf (Some templateEnv) None None None))
                         [("chrome", ("120.0", versionOf "chrome:120" (Some overrideEnv)
                                                  None None None))]) in
  let resolved ro :=
    spec_Browsers (MergeWithTemplate ro spec) !! "chrome" ≫= (.!! "120.0") in
  (bv_Env <$> mjoin (resolved in_order)) =
    Some (Some [ {| env_Name := "CUSTOM"; env_Value := "42" |};
                 {| env_Name := "TZ"; env_Value := "UTC" |};
                 {| env_Name := "DEBUG"; env_Value := "true" |} ]) ∧
  (bv_Env <$> mjoin (resolved reversed)) =
    Some (Some [ {| env_Name := "DEBUG"; env_Value := "true" |};
                 {| env_Name := "TZ"; env_Value := "UTC" |};
                 {| env_Name := "CUSTOM"; env_Value := "42" |} ]) ∧
  MergeWithTemplate in_order spec ≠ MergeWithTemplate reversed spec.
Proof.
  cbv zeta. split; [vm_compute; reflexivity|]. split; [vm_compute; reflexivity|].
  intros Heq.
  apply (f_equal (λ s, bv_Env <$> mjoin (spec_Browsers s !! "chrome" ≫= (.!! "120.0")))) in Heq.
  vm_compute in Heq. discriminate Heq.
Qed.

(** *** Sidecars and environment variables *)

Lemma indexEnv_snoc l x M : indexEnv (l ++ [x]) M = <[env_Name x := x]> (indexEnv l M).
Proof. unfold indexEnv. by rewrite foldl_app. Qed.

Lemma indexEnv_lookup l M k :
  indexEnv l M !! k = match envNamed l k with Some e => Some e | None => M !! k end.
Proof.
  unfold envNamed. induction l as [|x l IH] using rev_ind; [done|].
  rewrite indexEnv_snoc, filter_app, filter_cons, filter_nil.
  destruct (decide (env_Name x = k)) as [->|Hne].
  - by rewrite lookup_insert_eq, last_snoc.
  - rewrite lookup_insert_ne by done. by rewrite app_nil_r.
Qed.

Lemma envNamed_name l k e : envNamed l k = Some e → env_Name e = k.
Proof.
  unfold envNamed. intros Hlast. apply last_Some in Hlast as [l' Hl'].
  assert (Hin : e ∈ filter (λ e, env_Name e = k) l).
  { rewrite Hl'. apply elem_of_app. right. by apply list_elem_of_singleton. }
  by apply list_elem_of_filter in Hin as [? _].
Qed.

(** The map [mergeEnvPtr] ranges over. *)
Lemma mergedEnv_lookup tenv oenv k :
  indexEnv oenv (indexEnv tenv ∅) !! k =
  match envNamed oenv k with Some e => Some e | None => envNamed tenv k end.
Proof.
  rewrite !indexEnv_lookup, lookup_empty. by destruct (envNamed tenv k).
Qed.

Lemma mergeEnvPtr_result ro template override :
  mergeEnvPtr ro template override =
  match template, override with
  | None, None => None
  | _, _ => Some (snd <$> range ro (indexEnv (default [] override)
                                      (indexEnv (default [] template) ∅)))
  end.
Proof. by destruct template, override. Qed.

Lemma merged_env_elem ro tenv oenv e :
  e ∈ snd <$> range ro (indexEnv oenv (indexEnv tenv ∅)) ↔
  envNamed oenv (env_Name e) = Some e ∨
  (envNamed oenv (env_Name e) = None ∧ envNamed tenv (env_Name e) = Some e).
Proof.
  rewrite list_elem_of_fmap. split.
  - intros [[k e'] [-> Hin]]. simpl. apply range_elem in Hin.
    rewrite mergedEnv_lookup in Hin.
    destruct (envNamed oenv k) as [eo|] eqn:Eo.
    + inversion Hin; subst. rewrite (envNamed_name _ _ _ Eo). by left.
    + rewrite (envNamed_name _ _ _ Hin). by right.
  - intros H. exists (env_Name e, e). split; [done|]. apply range_elem.
    rewrite mergedEnv_lookup. by destruct H as [->|[-> ->]].
Qed.

Lemma merged_env_NoDup ro tenv oenv :
  NoDup (env_Name <$> (snd <$> range ro (indexEnv oenv (indexEnv tenv ∅)))).
Proof.
  set (M := indexEnv oenv (indexEnv tenv ∅)).
  assert (Hnames : env_Name <$> (snd <$> range ro M) = fst <$> range ro M).
  { rewrite <- list_fmap_compose. apply list_fmap_ext. intros i [k e] Hi.
    simpl. apply list_elem_of_lookup_2, range_elem in Hi. unfold M in Hi.
    rewrite mergedEnv_lookup in Hi.
    destruct (envNamed oenv k) eqn:Eo.
    - inversion Hi; subst. by apply envNamed_name in Eo.
    - by apply envNamed_name in Hi. }
  rewrite Hnames. unfold range. rewrite (visit_perm ro). apply NoDup_fst_map_to_list.
Qed.

(** Two runs of [mergeEnvPtr] differ in the order of the result at most. *)
Lemma mergeEnvPtr_same_elements ro1 ro2 template override :
  match mergeEnvPtr ro1 template override, mergeEnvPtr ro2 template override with
  | Some l1, Some l2 => l1 ≡ₚ l2
  | None, None => True
  | _, _ => False
  end.
Proof.
  rewrite !mergeEnvPtr_result. destruct template, override; try done;
    unfold range; by rewrite !visit_perm.
Qed.

Lemma appendMissing_elem (names : gset string) (tl acc : list Sidecar) m :
  m ∈ foldl (λ result s, if decide (sc_Name s ∈ names) then result else result ++ [s]) acc tl
  ↔ m ∈ acc ∨ (m ∈ tl ∧ sc_Name m ∉ names).
Proof.
  revert acc. induction tl as [|s tl IH]; intros acc; simpl.
  - rewrite elem_of_nil. tauto.
  - rewrite IH. destruct (decide (sc_Name s ∈ names)) as [Hin|Hin].
    + rewrite elem_of_cons. split; [|intros [?|[[ -> | ?] ?]]; tauto].
      intros [?|[? ?]]; tauto.
    + rewrite elem_of_app, list_elem_of_singleton, elem_of_cons. split.
      * intros [[?| -> ]|[? ?]]; tauto.
      * intros [?|[[ -> | ?] ?]]; tauto.
Qed.

Lemma mergeSidecarPtr_both_elem tl ol ml m :
  mergeSidecarPtr (Some tl) (Some ol) = Some ml →
  m ∈ ml ↔ m ∈ ol ∨ (m ∈ tl ∧ sc_Name m ∉ sc_Name <$> ol).
Proof.
  unfold mergeSidecarPtr. intros [= <-]. rewrite appendMissing_elem.
  rewrite elem_of_list_to_set. done.
Qed.

Lemma mergeWithTemplate_name ro s t : sc_Name (mergeWithTemplate ro s t) = sc_Name s.
Proof. done. Qed.

Lemma inheritOne_name ro orig templ m : sc_Name (inheritOne ro orig templ m) = sc_Name m.
Proof.
  unfold inheritOne. destruct (List.find _ orig); [|done].
  by destruct (findTemplateSidecar templ _).
Qed.

Lemma find_named_Some name (l : list Sidecar) :
  name ∈ sc_Name <$> l →
  ∃ s, List.find (sidecarNamed name) l = Some s ∧ s ∈ l ∧ sc_Name s = name.
Proof.
  induction l as [|x l IH]; intros Hin; [by apply elem_of_nil in Hin|].
  simpl. unfold sidecarNamed at 1. destruct (decide (sc_Name x = name)) as [Hx|Hx].
  - rewrite bool_decide_eq_true_2 by done. exists x. split; [done|]. split; [left|done].
  - rewrite bool_decide_eq_false_2 by done.
    rewrite fmap_cons in Hin. apply elem_of_cons in Hin as [Hin|Hin]; [congruence|].
    destruct (IH Hin) as (s & Hf & Hs & Hn). exists s. split; [done|]. split; [by right|done].
Qed.

Lemma appendBoth_default {A} (template override : option (list A)) :
  default [] (appendBoth template override) = default [] template ++ default [] override.
Proof.
  unfold appendBoth. destruct template as [t|], override as [o|]; simpl;
    rewrite ?app_nil_r; try (destruct t); try (destruct o); simpl; try done.
Qed.

(** The failing input of C2: override and template both declare the
    sidecar [logger]; the override sets its working directory to
    [/override], its ports to [443] and its environment to [LEVEL=debug];
    the template has [/template], [80] and [LEVEL=info, FORMAT=json].
    The merged entry carries the template's working directory, not the
    override's; its ports and environment hold the override's items
    together with the template's. *)
Lemma shared_sidecar_at_failing_input :
  bv_Sidecars
    (mergeWithSpec in_order
       (versionOf "browser" None (Some [overrideLogger]) None None)
       (templateOf None (Some [templateLogger]) None None))
  = Some [ {| sc_Name := "logger"; sc_Image := "logger:2.0"; sc_Command := None;
              sc_WorkingDir := Some "/template";
              sc_Ports := Some [tcpPort 80; tcpPort 443];
              sc_Env := Some [ {| env_Name := "FORMAT"; env_Value := "json" |};
                               {| env_Name := "LEVEL"; env_Value := "debug" |} ];
              sc_VolumeMounts := None; sc_ImagePullPolicy := "";
              sc_Resources := None |} ].
Proof. vm_compute. reflexivity. Qed.

(** C2.  A merged sidecar [m] whose name occurs in both the template list
    and the override list comes from an override entry [o] and the first
    template entry [te] of that name.  Its working directory is [te]'s,
    whether or not [o] sets one.  For the rest: name, image and pull
    policy are [o]'s; command and resources are [o]'s when [o] sets them
    and [te]'s otherwise; ports and volume mounts are [te]'s entries
    followed by [o]'s; the environment is the union keyed by name in
    which [o] wins, without repeated names. *)
Theorem shared_sidecar_merge (ro : RangeOrder) (b : BrowserVersionConfigSpec) (t : Template)
    (tl ol ml : list Sidecar) (m : Sidecar) :
  tpl_Sidecars t = Some tl →
  bv_Sidecars b = Some ol →
  bv_Sidecars (mergeWithSpec ro b t) = Some ml →
  m ∈ ml →
  sc_Name m ∈ sc_Name <$> tl →
  sc_Name m ∈ sc_Name <$> ol →
  ∃ o te,
    o ∈ ol ∧ sc_Name o = sc_Name m ∧
    List.find (sidecarNamed (sc_Name m)) tl = Some te ∧
    sc_WorkingDir m = sc_WorkingDir te ∧
    sc_Image m = sc_Image o ∧
    sc_ImagePullPolicy m = sc_ImagePullPolicy o ∧
    (is_Some (sc_Command o) → sc_Command m = sc_Command o) ∧
    (sc_Command o = None → sc_Command m = sc_Command te) ∧
    (is_Some (sc_Resources o) → sc_Resources m = sc_Resources o) ∧
    (sc_Resources o = None → sc_Resources m = sc_Resources te) ∧
    default [] (sc_Ports m) = default [] (sc_Ports te) ++ default [] (sc_Ports o) ∧
    default [] (sc_VolumeMounts m)
      = default [] (sc_VolumeMounts te) ++ default [] (sc_VolumeMounts o) ∧
    (∀ e, e ∈ default [] (sc_Env m) ↔
          envNamed (default [] (sc_Env o)) (env_Name e) = Some e ∨
          (envNamed (default [] (sc_Env o)) (env_Name e) = None ∧
           envNamed (default [] (sc_Env te)) (env_Name e) = Some e)) ∧
    NoDup (env_Name <$> default [] (sc_Env m)).
Proof.
  intros Htl Hol Hml Hm Hint Hino.
  unfold mergeWithSpec in Hml. simpl in Hml. rewrite Htl, Hol in Hml.
  destruct (mergeSidecarPtr (Some tl) (Some ol)) as [pre|] eqn:Hpre; [|done].
  simpl in Hml. injection Hml as <-.
  apply list_elem_of_In, in_map_iff in Hm as (x & <- & Hx). apply list_elem_of_In in Hx.
  rewrite inheritOne_name in Hint, Hino.
  apply (mergeSidecarPtr_both_elem _ _ _ _ Hpre) in Hx as [Hx|[_ Hx]]; [|done].
  destruct (find_named_Some _ _ Hino) as (orig & Horig & _ & Horign).
  destruct (find_named_Some _ _ Hint) as (te & Hte & _ & Hten).
  exists x, te. rewrite inheritOne_name.
  unfold inheritOne. rewrite Horig. unfold findTemplateSidecar. rewrite Horign, Hte.
  unfold mergeWithTemplate. simpl.
  split; [done|]. split; [done|]. split; [done|]. split; [done|]. split; [done|].
  split; [done|]. split; [by intros [c ->]|]. split; [by intros ->|].
  split; [by intros [c ->]|]. split; [by intros ->|].
  split; [apply appendBoth_default|]. split; [apply appendBoth_default|].
  rewrite mergeEnvPtr_result.
  split.
  - intros e. destruct (sc_Env te) as [tenv|], (sc_Env x) as [oenv|]; simpl.
    + apply (merged_env_elem ro tenv oenv e).
    + apply (merged_env_elem ro tenv [] e).
    + apply (merged_env_elem ro [] oenv e).
    + split; [intros H; by apply elem_of_nil in H | by intros [H|[_ H]]].
  - destruct (sc_Env te) as [tenv|], (sc_Env x) as [oenv|]; simpl.
    + apply (merged_env_NoDup ro tenv oenv).
    + apply (merged_env_NoDup ro tenv []).
    + apply (merged_env_NoDup ro [] oenv).
    + apply NoDup_nil_2.
Qed.

Lemma shared_sidecar_merge_witness :
  let o := overrideLogger in
  let te := templateLogger in
  let m := mergeWithTemplate in_order o te in
  ∃ o' te',
    o' ∈ [o] ∧ sc_Name o' = sc_Name m ∧
    List.find (sidecarNamed (sc_Name m)) [te] = Some te' ∧
    sc_WorkingDir m = sc_WorkingDir te' ∧
    sc_Image m = sc_Image o' ∧
    sc_ImagePullPolicy m = sc_ImagePullPolicy o' ∧
    (is_Some (sc_Command o') → sc_Command m = sc_Command o') ∧
    (sc_Command o' = None → sc_Command m = sc_Command te') ∧
    (is_Some (sc_Resources o') → sc_Resources m = sc_Resources o') ∧
    (sc_Resources o' = None → sc_Resources m = sc_Resources te') ∧
    default [] (sc_Ports m) = default [] (sc_Ports te') ++ default [] (sc_Ports o') ∧
    default [] (sc_VolumeMounts m)
      = default [] (sc_VolumeMounts te') ++ default [] (sc_VolumeMounts o') ∧
    (∀ e, e ∈ default [] (sc_Env m) ↔
          envNamed (default [] (sc_Env o')) (env_Name e) = Some e ∨
          (envNamed (default [] (sc_Env o')) (env_Name e) = None ∧
           envNamed (default [] (sc_Env te')) (env_Name e) = Some e)) ∧
    NoDup (env_Name <$> default [] (sc_Env m)).
Proof.
  cbv zeta.
  apply (shared_sidecar_merge in_order
           (versionOf "browser" None (Some [overrideLogger])
              None None)
           (templateOf None (Some [templateLogger]) None None)
           [templateLogger]
           [overrideLogger]
           [mergeWithTemplate in_order (overrideLogger)
              (templateLogger)]).
  - reflexivity.
  - reflexivity.
  - reflexivity.
  - apply list_elem_of_singleton. reflexivity.
  - apply list_elem_of_singleton. reflexivity.
  - apply list_elem_of_singleton. reflexivity.
Defined.

(** *** Init containers *)

Lemma appendMissing_eq (names : gset string) (tl acc : list Sidecar) :
  foldl (λ result s, if decide (sc_Name s ∈ names) then result else result ++ [s]) acc tl
  = acc ++ filter (λ s, sc_Name s ∉ names) tl.
Proof.
  revert acc. induction tl as [|s tl IH]; intros acc; simpl.
  - by rewrite filter_nil, app_nil_r.
  - rewrite IH, filter_cons. destruct (decide (sc_Name s ∈ names)) as [Hin|Hin].
    + rewrite decide_False; [done|]. by intros H.
    + rewrite decide_True by done. by rewrite <- app_assoc.
Qed.

Lemma filter_length_fmap {A} (P : A → Prop) `{∀ x, Decision (P x)} (g : A → A) (l : list A) :
  (∀ x, P (g x) ↔ P x) →
  length (filter P (g <$> l)) = length (filter P l).
Proof.
  intros Hg. induction l as [|x l IH]; [done|].
  rewrite fmap_cons, !filter_cons.
  destruct (decide (P (g x))) as [Hy|Hn], (decide (P x)) as [Hy'|Hn']; simpl;
    try (by rewrite IH); exfalso; [apply Hn', Hg, Hy|apply Hn, Hg, Hy'].
Qed.

Lemma inheritOne_image ro orig templ m : sc_Image (inheritOne ro orig templ m) = sc_Image m.
Proof.
  unfold inheritOne. destruct (List.find _ orig); [|done].
  by destruct (findTemplateSidecar templ _).
Qed.

(** C1.  When template and override both declare init containers, every
    entry of the merged list whose name occurs in the template list
    carries the image of a template entry of that name, also when the
    override declares the same name: on a collision the template's entry
    wins and the override's is dropped. *)
Theorem init_container_collision_keeps_template_entry
    (ro : RangeOrder) (b : BrowserVersionConfigSpec) (t : Template)
    (tl ol ml : list Sidecar) (m : Sidecar) :
  tpl_InitContainers t = Some tl →
  bv_InitContainers b = Some ol →
  bv_InitContainers (mergeWithSpec ro b t) = Some ml →
  m ∈ ml →
  sc_Name m ∈ sc_Name <$> tl →
  (∃ te, te ∈ tl ∧ sc_Name te = sc_Name m ∧ sc_Image m = sc_Image te) ∧
  length (filter (λ x, sc_Name x = sc_Name m) ml)
    = length (filter (λ x, sc_Name x = sc_Name m) tl).
Proof.
  intros Htl Hol Hml Hm Hint.
  unfold mergeWithSpec in Hml. simpl in Hml. rewrite Htl, Hol in Hml.
  destruct (mergeSidecarPtr (Some ol) (Some tl)) as [pre|] eqn:Hpre; [|done].
  simpl in Hml. injection Hml as <-. split.
  - apply list_elem_of_In, in_map_iff in Hm as (x & <- & Hx). apply list_elem_of_In in Hx.
    rewrite inheritOne_name in Hint. rewrite inheritOne_name, inheritOne_image.
    apply (mergeSidecarPtr_both_elem _ _ _ _ Hpre) in Hx as [Hx|[_ Hx]]; [|done].
    by exists x.
  - unfold mergeSidecarPtr in Hpre. injection Hpre as <-.
    change (List.map ?g ?l) with (g <$> l).
    rewrite filter_length_fmap by (intros x; by rewrite inheritOne_name).
    simpl. rewrite appendMissing_eq, filter_app, length_app.
    rewrite (proj2 (length_zero_iff_nil (filter _ (filter _ ol)))); [lia|].
    apply elem_of_nil_inv. intros x Hx.
    apply list_elem_of_filter in Hx as [Hname Hx].
    apply list_elem_of_filter in Hx as [Hnot _]. apply Hnot.
    rewrite elem_of_list_to_set, Hname.
    apply list_elem_of_In, in_map_iff in Hm as (y & <- & _).
    by rewrite inheritOne_name in Hint |- *.
Qed.

Lemma init_container_collision_keeps_template_entry_witness :
  let m := zeroSidecar "shared-init" "template-init" in
  let tl := [zeroSidecar "shared-init" "template-init"] in
  (∃ te, te ∈ tl ∧ sc_Name te = sc_Name m ∧ sc_Image m = sc_Image te) ∧
  length (filter (λ x, sc_Name x = sc_Name m) [m])
    = length (filter (λ x, sc_Name x = sc_Name m) tl).
Proof.
  cbv zeta.
  apply (init_container_collision_keeps_template_entry in_order
           (versionOf "browser" None None
              (Some [zeroSidecar "shared-init" "override-init"]) None)
           (templateOf None None (Some [zeroSidecar "shared-init" "template-init"]) None)
           [zeroSidecar "shared-init" "template-init"]
           [zeroSidecar "shared-init" "override-init"]
           [zeroSidecar "shared-init" "template-init"]).
  - reflexivity.
  - reflexivity.
  - reflexivity.
  - apply list_elem_of_singleton. reflexivity.
  - apply list_elem_of_singleton. reflexivity.
Defined.

(** ** Launch-spec synthesis *)

(** The failing input of C6: a resolved spec with top-level working
    directory [/top], an init container that sets its own working
    directory [/init] and a sidecar that sets none.  In the built pod the
    init container runs in [/top] and the sidecar has no working
    directory. *)
Lemma working_dir_at_failing_input (ro : RangeOrder) :
  let cfg := versionOf "browser" None
               (Some [zeroSidecar "seleniferous" "sidecar"])
               (Some [initWithDir "init" "img" "/init"])
               (Some "/top") in
  let pod := buildBrowserPod ro (newBrowser "ns" "b1" "chrome" "120.0") cfg None in
  ((λ c, (c_Name c, c_WorkingDir c)) <$> ps_InitContainers (p_Spec pod)) = [("init", "/top")] ∧
  ((λ c, (c_Name c, c_WorkingDir c)) <$> ps_Containers (p_Spec pod))
    = [("browser", "/top"); ("seleniferous", "")].
Proof. split; reflexivity. Qed.

(** The per-instance options rewrite environments and labels only. *)
Lemma applySelenosisOptions_working_dirs ro pod opts :
  ps_InitContainers (p_Spec (applySelenosisOptions ro pod opts))
    = ps_InitContainers (p_Spec pod) ∧
  c_WorkingDir <$> ps_Containers (p_Spec (applySelenosisOptions ro pod opts))
    = c_WorkingDir <$> ps_Containers (p_Spec pod).
Proof.
  unfold applySelenosisOptions. destruct opts as [opts|]; [|done].
  assert (Hc : ∀ l : list Container,
            c_WorkingDir <$>
              ((λ c, match so_Containers opts !! c_Name c with
                     | Some option =>
                         if decide (size (co_Env option) = 0) then c
                         else setEnv c (mergeEnvVars ro (c_Env c) (co_Env option))
                     | None => c
                     end) <$> l) = c_WorkingDir <$> l).
  { intros l. rewrite <- list_fmap_compose. apply list_fmap_ext. intros i c _. simpl.
    destruct (so_Containers opts !! c_Name c) as [option|]; [|done].
    by destruct (decide _). }
  destruct (decide (0 < size (so_Containers opts))), (so_Labels opts); simpl; by rewrite ?Hc.
Qed.

(** C6.  In the pod [buildBrowserPod] returns, an init container runs in
    the top-level working directory whenever the resolved spec sets one,
    whether or not the init container sets its own, and in its own (or
    none) otherwise; a sidecar container runs in its own working
    directory, or in none: the top-level one is never handed down to it.
    Only the browser container, first in the list, gets exactly the
    top-level working directory. *)
Theorem working_dir_of_init_and_sidecar_containers
    (ro : RangeOrder) (browser : Browser) (cfg : BrowserVersionConfigSpec)
    (opts : option SelenosisOptions) :
  let pod := buildBrowserPod ro browser cfg opts in
  c_WorkingDir <$> ps_InitContainers (p_Spec pod)
    = (λ ic, match bv_WorkingDir cfg with
             | Some dir => dir
             | None => default "" (sc_WorkingDir ic)
             end) <$> default [] (bv_InitContainers cfg) ∧
  c_WorkingDir <$> ps_Containers (p_Spec pod)
    = default "" (bv_WorkingDir cfg)
        :: ((λ s, default "" (sc_WorkingDir s)) <$> default [] (bv_Sidecars cfg)).
Proof.
  cbv zeta. unfold buildBrowserPod. cbv zeta.
  match goal with |- context [applySelenosisOptions ro ?p opts] =>
    destruct (applySelenosisOptions_working_dirs ro p opts) as [-> ->] end.
  simpl. split.
  - destruct (bv_InitContainers cfg) as [ics|]; [|done]. simpl.
    rewrite <- list_fmap_compose. apply list_fmap_ext. intros i ic _. simpl.
    destruct (bv_WorkingDir cfg); [done|]. by destruct (sc_WorkingDir ic).
  - assert (Hs : ∀ ss : list Sidecar,
              c_WorkingDir <$> (sidecarContainerOf <$> ss)
              = (λ s, default "" (sc_WorkingDir s)) <$> ss).
    { intros ss. rewrite <- list_fmap_compose. apply list_fmap_ext. intros i s _. simpl.
      by destruct (sc_WorkingDir s). }
    unfold browserContainerOf.
    destruct (bv_Sidecars cfg) as [ss|], (bv_Privileged cfg) as [[|]|],
      (bv_WorkingDir cfg); simpl; by rewrite ?Hs.
Qed.

(** ** Config store *)

(** C10.  Whatever the store holds, a handler called with a string, with
    a value of any other foreign type, with a nil interface, with a nil
    [*BrowserConfig], or with a [DeletedFinalStateUnknown] whose inner
    object is anything but a non-nil [*BrowserConfig] (a nil interface
    and a nil pointer included) returns the store as it was.  Both
    handlers are total functions of the embedding: these paths reach no
    map access and no dereference. *)
Theorem handlers_ignore_foreign_objects (rt : GoRuntime) (s : BrowserConfigStore) :
  (∀ str, onAddOrUpdate rt (AnyString str) s = s ∧ onDelete rt (AnyString str) s = s) ∧
  (∀ ty, onAddOrUpdate rt (AnyOther ty) s = s ∧ onDelete rt (AnyOther ty) s = s) ∧
  (onAddOrUpdate rt AnyNil s = s ∧ onDelete rt AnyNil s = s) ∧
  (onAddOrUpdate rt (AnyBrowserConfig None) s = s ∧ onDelete rt (AnyBrowserConfig None) s = s) ∧
  (∀ key inner,
     match inner with
     | AnyBrowserConfig (Some _) => True
     | _ =>
         onAddOrUpdate rt (AnyDeletedFinalStateUnknown key inner) s = s ∧
         onDelete rt (AnyDeletedFinalStateUnknown key inner) s = s
     end).
Proof.
  repeat split; try reflexivity.
  intros key inner. destruct inner as [|[bc|]| | |]; try exact I; split; reflexivity.
Qed.

Lemma installAll_snoc {V} (l : list (string * V)) k v init :
  installAll (l ++ [(k, v)]) init = <[k := v]> (installAll l init).
Proof. unfold installAll. by rewrite foldl_app. Qed.

Lemma installAll_app {V} (l1 l2 : list (string * V)) init :
  installAll (l1 ++ l2) init = installAll l2 (installAll l1 init).
Proof. unfold installAll. by rewrite foldl_app. Qed.

Lemma installAll_lookup_absent {V} (l : list (string * V)) init K :
  (∀ v, (K, v) ∉ l) → installAll l init !! K = init !! K.
Proof.
  induction l as [|[k v] l IH] using rev_ind; intros Hno; [done|].
  rewrite installAll_snoc.
  destruct (decide (k = K)) as [->|Hne].
  - exfalso. apply (Hno v). apply elem_of_app. right. by apply list_elem_of_singleton.
  - rewrite lookup_insert_ne by done. apply IH. intros v' Hin. apply (Hno v').
    apply elem_of_app. by left.
Qed.

Lemma installAll_lookup_unique {V} (l : list (string * V)) init K v0 :
  (K, v0) ∈ l → (∀ v, (K, v) ∈ l → v = v0) → installAll l init !! K = Some v0.
Proof.
  induction l as [|[k v] l IH] using rev_ind; intros Hin Huniq.
  - by apply elem_of_nil in Hin.
  - rewrite installAll_snoc.
    destruct (decide (k = K)) as [->|Hne].
    + rewrite lookup_insert_eq. f_equal. apply Huniq. apply elem_of_app. right.
      by apply list_elem_of_singleton.
    + rewrite lookup_insert_ne by done. apply IH.
      * apply elem_of_app in Hin as [Hin|Hin]; [done|].
        apply list_elem_of_singleton in Hin. congruence.
      * intros v' Hv'. apply Huniq. apply elem_of_app. by left.
Qed.

Lemma storeVersions_installAll rt ns name versions m :
  storeVersions rt ns name versions m =
  installAll ((λ '(version, cfg), (keyFor rt ns name version, cfg))
                <$> range (rangeOrder rt) versions) m.
Proof.
  unfold storeVersions, installAll.
  generalize (range (rangeOrder rt) versions). intros l. revert m.
  induction l as [|[v c] l IH]; intros m; [done|]. simpl. apply IH.
Qed.

Lemma onAddOrUpdate_config rt bc s :
  config (onAddOrUpdate rt (AnyBrowserConfig (Some bc)) s) =
  installAll (storeEntries rt (bc_Namespace bc)
                (spec_Browsers (MergeWithTemplate (rangeOrder rt) (bc_Spec bc))))
             (config s).
Proof.
  unfold onAddOrUpdate, storeEntries, DeepCopy. simpl.
  generalize (range (rangeOrder rt)
                (spec_Browsers (MergeWithTemplate (rangeOrder rt) (bc_Spec bc)))).
  intros l. generalize (config s). induction l as [|[n vs] l IH]; intros m; [done|].
  simpl. rewrite installAll_app, <- storeVersions_installAll. apply IH.
Qed.

Lemma storeEntries_elem rt ns bs K v :
  (K, v) ∈ storeEntries rt ns bs ↔
  ∃ name versions version,
    bs !! name = Some versions ∧ versions !! version = Some v ∧
    K = keyFor rt ns name version.
Proof.
  unfold storeEntries. rewrite list_elem_of_bind. split.
  - intros [[name versions] [Hin Hout]]. apply range_elem in Hout.
    apply list_elem_of_fmap in Hin as [[version cfg] [Heq Hin]].
    apply range_elem in Hin. inversion Heq; subst. eauto 10.
  - intros (name & versions & version & Hn & Hv & ->).
    exists (name, versions). split; [|by apply range_elem].
    apply list_elem_of_fmap. exists (version, v). split; [done|]. by apply range_elem.
Qed.

Lemma MergeWithTemplate_lookup ro (bc : BrowserConfig) rt name :
  rangeOrder rt = ro →
  spec_Browsers (MergeWithTemplate ro (bc_Spec bc)) !! name =
  (λ versions : gmap string (option BrowserVersionConfigSpec),
     resolvedEntry rt bc <$> versions) <$> spec_Browsers (bc_Spec bc) !! name.
Proof.
  intros <-. unfold MergeWithTemplate, resolvedEntry.
  destruct (spec_Template (bc_Spec bc)) as [t|]; simpl.
  - rewrite lookup_fmap. by destruct (spec_Browsers (bc_Spec bc) !! name).
  - destruct (spec_Browsers (bc_Spec bc) !! name) as [vs|]; simpl; [|done].
    f_equal. apply map_eq. intros i. rewrite lookup_fmap.
    by destruct (vs !! i).
Qed.

Lemma merged_entry rt bc name version v :
  (∃ versions, spec_Browsers (MergeWithTemplate (rangeOrder rt) (bc_Spec bc)) !! name
                 = Some versions ∧ versions !! version = Some v) ↔
  (∃ versions cfg, spec_Browsers (bc_Spec bc) !! name = Some versions ∧
                   versions !! version = Some cfg ∧ v = resolvedEntry rt bc cfg).
Proof.
  rewrite (MergeWithTemplate_lookup _ bc rt name eq_refl). split.
  - intros (vs' & Hl & Hv).
    destruct (spec_Browsers (bc_Spec bc) !! name) as [vs|] eqn:E; simpl in Hl; [|done].
    inversion Hl; subst. rewrite lookup_fmap in Hv.
    destruct (vs !! version) as [cfg|] eqn:E2; simpl in Hv; [|done].
    inversion Hv; subst. eauto.
  - intros (vs & cfg & Hl & Hv & ->). rewrite Hl. simpl. eexists. split; [done|].
    rewrite lookup_fmap, Hv. done.
Qed.

(** C3, as claimed, fails: the second revision of the catalog no longer
    declares firefox 120.0, and after its update has been processed [Get]
    still returns the entry cached from the first revision. *)
Lemma stale_pair_survives_update :
  let rt := exampleRuntime in_order in
  let rev1 := catalogOf None [("chrome", ("144.0", zeroVersionConfig "chrome:144"));
                              ("firefox", ("120.0", zeroVersionConfig "firefox:120"))] in
  let rev2 := catalogOf None [("chrome", ("144.0", zeroVersionConfig "chrome:144"))] in
  let s2 := onAddOrUpdate rt (AnyBrowserConfig (Some rev2))
              (onAddOrUpdate rt (AnyBrowserConfig (Some rev1)) NewBrowserConfigStore) in
  ¬ declares rev2 "firefox" "120.0" ∧
  Get rt s2 "ns" "firefox" "120.0" = (Some (zeroVersionConfig "firefox:120"), true).
Proof.
  cbv zeta. split.
  - intros (versions & Hlookup & _). vm_compute in Hlookup. discriminate Hlookup.
  - vm_compute. reflexivity.
Qed.

(** C3, amended.  Once [onAddOrUpdate] has processed a catalog object,
    [Get] returns, for a pair the object declares, the merge of that entry
    with the object's template, provided no other declared pair has the
    same store key; and a key that no declared pair maps to holds what it
    held before. *)
Theorem onAddOrUpdate_installs_declared_pairs
    (rt : GoRuntime) (s : BrowserConfigStore) (bc : BrowserConfig)
    (browserName version : string) (versions : gmap string (option BrowserVersionConfigSpec))
    (cfg : option BrowserVersionConfigSpec) (other : string) :
  spec_Browsers (bc_Spec bc) !! browserName = Some versions →
  versions !! version = Some cfg →
  (∀ browserName' version',
     declares bc browserName' version' →
     keyFor rt (bc_Namespace bc) browserName' version'
       = keyFor rt (bc_Namespace bc) browserName version →
     browserName' = browserName ∧ version' = version) →
  (∀ browserName' version',
     declares bc browserName' version' →
     keyFor rt (bc_Namespace bc) browserName' version' ≠ other) →
  let s' := onAddOrUpdate rt (AnyBrowserConfig (Some bc)) s in
  Get rt s' (bc_Namespace bc) browserName version = (resolvedEntry rt bc cfg, true) ∧
  config s' !! other = config s !! other.
Proof.
  intros Hname Hversion Hinj Hother s'. subst s'. unfold Get.
  rewrite onAddOrUpdate_config. split.
  - rewrite (installAll_lookup_unique _ _ _ (resolvedEntry rt bc cfg)); [done| |].
    + apply storeEntries_elem. exists browserName. 
      destruct (proj2 (merged_entry rt bc browserName version (resolvedEntry rt bc cfg)))
        as (vs' & Hvs' & Hv'); [eauto|]. eauto.
    + intros v Hin. apply storeEntries_elem in Hin as (n' & vs' & v' & Hn' & Hv' & Hk).
      destruct (proj1 (merged_entry rt bc n' v' v)) as (vs0 & cfg0 & H1 & H2 & ->); [eauto|].
      destruct (Hinj n' v') as [-> ->]; [by exists vs0; rewrite H2; eauto|done|].
      congruence.
  - apply installAll_lookup_absent. intros v Hin.
    apply storeEntries_elem in Hin as (n' & vs' & v' & Hn' & Hv' & Hk).
    destruct (proj1 (merged_entry rt bc n' v' v)) as (vs0 & cfg0 & H1 & H2 & ->); [eauto|].
    apply (Hother n' v'); [|done]. exists vs0. rewrite H2. eauto.
Qed.

Lemma onAddOrUpdate_installs_declared_pairs_witness :
  let rt := exampleRuntime in_order in
  let rev1 := catalogOf None [("chrome", ("144.0", zeroVersionConfig "chrome:144"));
                              ("firefox", ("120.0", zeroVersionConfig "firefox:120"))] in
  let rev2 := catalogOf (Some (templateOf (Some templateEnv) None None None))
                [("Chrome", ("144.0", zeroVersionConfig "chrome:144"))] in
  let s1 := onAddOrUpdate rt (AnyBrowserConfig (Some rev1)) NewBrowserConfigStore in
  let s2 := onAddOrUpdate rt (AnyBrowserConfig (Some rev2)) s1 in
  Get rt s2 "ns" "Chrome" "144.0"
    = (resolvedEntry rt rev2 (Some (zeroVersionConfig "chrome:144")), true) ∧
  config s2 !! "ns/firefox:120.0" = config s1 !! "ns/firefox:120.0".
Proof.
  cbv zeta.
  assert (Hdecl : ∀ n v,
            declares (catalogOf (Some (templateOf (Some templateEnv) None None None))
                        [("Chrome", ("144.0", zeroVersionConfig "chrome:144"))]) n v →
            n = "Chrome" ∧ v = "144.0").
  { intros n v (versions & Hn & Hv). simpl in Hn.
    apply lookup_insert_Some in Hn as [[<- <-]|[_ Hn]]; [|by rewrite lookup_empty in Hn].
    split; [done|]. destruct Hv as [c Hv].
    apply lookup_singleton_Some in Hv as [<- _]. done. }
  apply (onAddOrUpdate_installs_declared_pairs (exampleRuntime in_order)
           (onAddOrUpdate (exampleRuntime in_order)
              (AnyBrowserConfig
                 (Some (catalogOf None
                          [("chrome", ("144.0", zeroVersionConfig "chrome:144"));
                           ("firefox", ("120.0", zeroVersionConfig "firefox:120"))])))
              NewBrowserConfigStore)
           (catalogOf (Some (templateOf (Some templateEnv) None None None))
              [("Chrome", ("144.0", zeroVersionConfig "chrome:144"))])
           "Chrome" "144.0" {[ "144.0" := Some (zeroVersionConfig "chrome:144") ]}
           (Some (zeroVersionConfig "chrome:144")) "ns/firefox:120.0").
  - reflexivity.
  - reflexivity.
  - intros n v Hd _. exact (Hdecl n v Hd).
  - intros n v Hd. destruct (Hdecl n v Hd) as [-> ->]. vm_compute. discriminate.
Defined.

(** ** Retry helpers *)

Lemma patched_same {A : Type} `{EqDecision A} (x y : A) : patched x y x = y.
Proof. unfold patched. by destruct (decide (y = x)). Qed.

Lemma patchMain_fresh (f : Browser → Browser) (stored : Browser) :
  metadataOnly f stored → patchMain stored (f stored) stored = f stored.
Proof.
  intros (Hname & Hns & Hdel & Hst). unfold patchMain. rewrite !patched_same.
  destruct (f stored); simpl in *. by subst.
Qed.

Lemma patchStatus_fresh (f : Browser → Browser) (stored : Browser) :
  statusOnly f stored → patchStatus stored (f stored) stored = f stored.
Proof.
  intros (Hname & Hns & Hl & Ha & Hf & Hdel & Hsp). unfold patchStatus. cbv zeta.
  rewrite !patched_same.
  destruct (f stored) as [? ? ? ? ? ? ? []]; simpl in *. by subst.
Qed.

Lemma backoff_shift (i : nat) :
  (millisecond * (100 * Z.shiftl 1 (Z.of_nat i)))%Z = backoff i.
Proof. unfold backoff. rewrite Z.shiftl_1_l. lia. Qed.

Lemma requests_app v t1 t2 : requests v (t1 ++ t2) = requests v t1 + requests v t2.
Proof. unfold requests. by rewrite filter_app, length_app. Qed.

Lemma requests_call_same v t : requests v (EvCall v :: t) = S (requests v t).
Proof. unfold requests. rewrite filter_cons. by rewrite decide_True. Qed.

Lemma requests_call_other v v' t : v' ≠ v → requests v (EvCall v' :: t) = requests v t.
Proof. intros Hne. unfold requests. rewrite filter_cons. rewrite decide_False; [done|congruence]. Qed.

Lemma requests_sleep v d t : requests v (EvSleep d :: t) = requests v t.
Proof. unfold requests. rewrite filter_cons. by rewrite decide_False. Qed.

Lemma requests_nil v : requests v [] = 0.
Proof. done. Qed.

Lemma storeBrowser_trace key b w : trace (storeBrowser key b w) = trace w.
Proof. unfold storeBrowser. by destruct (b_Finalizers b), (b_DeletionTimestamp b). Qed.

Lemma apiWrite_trace v apply before current w :
  trace (snd (apiWrite v apply before current w)) = trace w ++ [EvCall v].
Proof.
  unfold apiWrite, call. destruct (nextFault w v); [done|]. simpl.
  destruct (browsers w !! browserKey current); [|done]. simpl. by rewrite storeBrowser_trace.
Qed.

Section RetryLoop.
Context (write : Verb) (apply : Browser → Browser → Browser → Browser).
Context (exhausted : string) (key : ObjectKey) (f : Browser → Browser).
Hypothesis write_is_not_get : write ≠ VGetBrowser.

Local Abbreviation loop := (retryLoop (apiWrite write apply) exhausted key f).

Lemma faults_after_get (w : Cluster) : faults (called VGetBrowser w) write = faults w write.
Proof. simpl. by rewrite decide_False. Qed.

Lemma faults_after_write (w : Cluster) : faults (called write w) write = tail (faults w write).
Proof. simpl. by rewrite decide_True. Qed.

Lemma get_faults_after_write (w : Cluster) :
  faults (called write w) VGetBrowser = faults w VGetBrowser.
Proof. simpl. by rewrite decide_False. Qed.

(** A read that fails ends the loop with its error. *)
Lemma loop_read_error (n : nat) (i : Z) (w : Cluster) (e : error) :
  nextFault w VGetBrowser = Some e →
  loop (S n) i w = (Some e, called VGetBrowser w).
Proof. intros Hget. simpl. unfold apiGetBrowser, call. by rewrite Hget. Qed.

(** An attempt whose write is rejected. *)
Lemma loop_rejected (n : nat) (i : Z) (w : Cluster) (stored : Browser) (e : error) :
  nextFault w VGetBrowser = None →
  browsers w !! key = Some stored →
  nextFault w write = Some e →
  loop (S n) i w =
    if IsConflict e
    then loop n (i + 1)%Z
           (sleep (millisecond * (100 * Z.shiftl 1 i))%Z
              (called write (called VGetBrowser w)))
    else (Some e, called write (called VGetBrowser w)).
Proof.
  intros Hget Hstored Hwrite. simpl. unfold apiGetBrowser, call. rewrite Hget. simpl.
  rewrite Hstored. unfold apiWrite, call.
  replace (nextFault (called VGetBrowser w) write) with (Some e); [done|].
  unfold nextFault in *. by rewrite faults_after_get.
Qed.

(** An attempt whose write goes through. *)
Lemma loop_accepted (n : nat) (i : Z) (w : Cluster) (stored : Browser) :
  nextFault w VGetBrowser = None →
  browsers w !! key = Some stored →
  nextFault w write = None →
  browserKey (f stored) = key →
  loop (S n) i w =
    (None, storeBrowser key (apply stored (f stored) stored)
             (called write (called VGetBrowser w))).
Proof.
  intros Hget Hstored Hwrite Hkey. simpl. unfold apiGetBrowser, call. rewrite Hget. simpl.
  rewrite Hstored. unfold apiWrite, call.
  replace (nextFault (called VGetBrowser w) write) with (@None error).
  - simpl. by rewrite Hkey, Hstored.
  - unfold nextFault in *. by rewrite faults_after_get.
Qed.

(** The loop only adds to the trace, and at most [n] writes. *)
Lemma loop_bounded (n : nat) :
  ∀ (i : Z) (w : Cluster),
    ∃ t, trace (snd (loop n i w)) = trace w ++ t ∧ requests write t ≤ n.
Proof.
  assert (Hget : requests write [EvCall VGetBrowser] = 0).
  { by rewrite requests_call_other, requests_nil. }
  assert (Hone : requests write [EvCall VGetBrowser; EvCall write] = 1).
  { by rewrite requests_call_other, requests_call_same, requests_nil. }
  induction n as [|n IH]; intros i w.
  - exists []. by rewrite app_nil_r.
  - simpl. unfold apiGetBrowser, call.
    destruct (nextFault w VGetBrowser) as [e|].
    { exists [EvCall VGetBrowser]. split; [done|]. rewrite Hget. lia. }
    simpl. destruct (browsers w !! key) as [stored|].
    2:{ exists [EvCall VGetBrowser]. split; [done|]. rewrite Hget. lia. }
    pose proof (apiWrite_trace write apply stored (f stored) (called VGetBrowser w)) as Htr.
    destruct (apiWrite write apply stored (f stored) (called VGetBrowser w)) as [[e|] w2].
    + simpl in Htr. destruct (IsConflict e).
      * destruct (IH (i + 1)%Z (sleep (millisecond * (100 * Z.shiftl 1 i))%Z w2))
          as (t & Ht & Hn).
        exists ([EvCall VGetBrowser; EvCall write;
                 EvSleep (millisecond * (100 * Z.shiftl 1 i))%Z] ++ t).
        split.
        -- rewrite Ht. simpl. rewrite Htr. simpl. rewrite <- !app_assoc. done.
        -- rewrite requests_app, requests_call_other, requests_call_same,
             requests_sleep, requests_nil by done. lia.
      * exists [EvCall VGetBrowser; EvCall write]. split.
        -- simpl. rewrite Htr. simpl. by rewrite <- app_assoc.
        -- rewrite Hone. lia.
    + simpl in Htr. exists [EvCall VGetBrowser; EvCall write]. split.
      * simpl. rewrite Htr. simpl. by rewrite <- app_assoc.
      * rewrite Hone. lia.
Qed.

End RetryLoop.

Lemma scripted_next w v : nextFault w v = scripted (faults w v) 0.
Proof. unfold nextFault, scripted. by destruct (faults w v). Qed.

Lemma scripted_tail script j : scripted (tail script) j = scripted script (S j).
Proof. unfold scripted. by destruct script. Qed.

Lemma readsPass_next n w : readsPass (S n) w → nextFault w VGetBrowser = None.
Proof. intros Hpass. rewrite scripted_next. apply Hpass. lia. Qed.

Section RetryScripts.
Context (write : Verb) (apply : Browser → Browser → Browser → Browser).
Context (exhausted : string) (key : ObjectKey) (f : Browser → Browser).
Hypothesis write_is_not_get : write ≠ VGetBrowser.

Local Abbreviation loop := (retryLoop (apiWrite write apply) exhausted key f).

(** [k] conflicts in a row, the reads before them going through. *)
Lemma loop_conflicts (k : nat) :
  ∀ (n i : nat) (w : Cluster) (rest : list (option error)) (stored : Browser),
    readsPass k w →
    faults w write = replicate k conflict ++ rest →
    browsers w !! key = Some stored →
    ∃ w', loop (k + n) (Z.of_nat i) w = loop n (Z.of_nat (i + k)) w' ∧
          faults w' VGetBrowser = drop k (faults w VGetBrowser) ∧ faults w' write = rest ∧
          browsers w' = browsers w ∧ pods w' = pods w ∧
          trace w' = trace w ++ flat_map (conflictingAttempt write) (seq i k).
Proof.
  induction k as [|k IH]; intros n i w rest stored Hpass Hwrite Hstored.
  - exists w. rewrite Nat.add_0_r, app_nil_r. done.
  - change (S k + n) with (S (k + n)).
    rewrite (loop_rejected write apply exhausted key f write_is_not_get
               _ _ _ stored (StatusError ReasonConflict));
      [|by apply (readsPass_next k)|done|unfold nextFault; by rewrite Hwrite].
    simpl IsConflict. cbv iota.
    set (w1 := sleep _ _).
    assert (Hget1 : faults w1 VGetBrowser = tail (faults w VGetBrowser)).
    { subst w1. simpl. by rewrite decide_False. }
    destruct (IH n (S i) w1 rest stored) as (w' & Hrun & Hg & Hw & Hb & Hp & Ht).
    + intros j Hj. rewrite Hget1, scripted_tail. apply Hpass. lia.
    + subst w1. simpl. rewrite decide_True by done. rewrite decide_False by done.
      by rewrite Hwrite.
    + done.
    + exists w'. replace (Z.of_nat i + 1)%Z with (Z.of_nat (S i)) by lia.
      rewrite Hrun. replace (S i + k) with (i + S k) by lia.
      split; [done|]. split.
      { rewrite Hg, Hget1. destruct (faults w VGetBrowser); [by destruct k|done]. }
      split; [done|]. split; [done|]. split; [done|].
      rewrite Ht. subst w1. simpl. rewrite backoff_shift.
      rewrite <- !app_assoc. done.
Qed.

(** The scripts of a loop of five iterations: each ends the loop in its
    own way. *)
Lemma loop_scripts (w : Cluster) (stored : Browser) :
  browsers w !! key = Some stored →
  (∀ k rest,
     k < 5 → faults w write = replicate k conflict ++ rest → readsPass (S k) w →
     default None (head rest) = None →
     browserKey (f stored) = key →
     fst (loop 5 0%Z w) = None ∧
     trace (snd (loop 5 0%Z w))
       = trace w ++ flat_map (conflictingAttempt write) (seq 0 k) ++ closingAttempt write ∧
     browsers (snd (loop 5 0%Z w))
       = browsers (storeBrowser key (apply stored (f stored) stored) w)) ∧
  (∀ k e rest,
     k < 5 → faults w write = replicate k conflict ++ Some e :: rest → readsPass (S k) w →
     IsConflict e = false →
     fst (loop 5 0%Z w) = Some e ∧
     trace (snd (loop 5 0%Z w))
       = trace w ++ flat_map (conflictingAttempt write) (seq 0 k) ++ closingAttempt write ∧
     browsers (snd (loop 5 0%Z w)) = browsers w) ∧
  (∀ k e rest,
     k < 5 → faults w write = replicate k conflict ++ rest → readsPass k w →
     scripted (faults w VGetBrowser) k = Some e →
     fst (loop 5 0%Z w) = Some e ∧
     trace (snd (loop 5 0%Z w))
       = trace w ++ flat_map (conflictingAttempt write) (seq 0 k) ++ [EvCall VGetBrowser] ∧
     browsers (snd (loop 5 0%Z w)) = browsers w) ∧
  (∀ rest,
     faults w write = replicate 5 conflict ++ rest → readsPass 5 w →
     fst (loop 5 0%Z w) = Some (Errorf exhausted) ∧
     trace (snd (loop 5 0%Z w))
       = trace w ++ flat_map (conflictingAttempt write) (seq 0 5) ∧
     browsers (snd (loop 5 0%Z w)) = browsers w).
Proof.
  intros Hstored.
  assert (Hnext : ∀ k w', readsPass (S k) w →
            faults w' VGetBrowser = drop k (faults w VGetBrowser) →
            nextFault w' VGetBrowser = None).
  { intros k w' Hpass Hg. rewrite scripted_next, Hg. unfold scripted.
    rewrite lookup_drop, Nat.add_0_r. apply (Hpass k). lia. }
  assert (Hshort : ∀ k, readsPass (S k) w → readsPass k w).
  { intros k Hpass j Hj. apply Hpass. lia. }
  split; [|split; [|split]].
  - intros k rest Hk Hscript Hpass Hhead Hkey.
    destruct (loop_conflicts k (S (4 - k)) 0 w rest stored (Hshort k Hpass) Hscript Hstored)
      as (w' & Hrun & Hg & Hw & Hb & _ & Ht).
    replace (k + S (4 - k)) with 5 in Hrun by lia. change (Z.of_nat 0) with 0%Z in Hrun.
    rewrite Hrun.
    rewrite (loop_accepted write apply exhausted key f write_is_not_get _ _ _ stored);
      [|by apply (Hnext k)|by rewrite Hb| |done].
    + simpl. rewrite storeBrowser_trace. simpl. rewrite Ht, <- !app_assoc.
      split; [done|]. split; [done|].
      unfold storeBrowser.
      destruct (b_Finalizers (apply stored (f stored) stored)),
        (b_DeletionTimestamp (apply stored (f stored) stored)); simpl; by rewrite Hb.
    + unfold nextFault. rewrite Hw. by destruct rest.
  - intros k e rest Hk Hscript Hpass He.
    destruct (loop_conflicts k (S (4 - k)) 0 w (Some e :: rest) stored
                (Hshort k Hpass) Hscript Hstored)
      as (w' & Hrun & Hg & Hw & Hb & _ & Ht).
    replace (k + S (4 - k)) with 5 in Hrun by lia. change (Z.of_nat 0) with 0%Z in Hrun.
    rewrite Hrun.
    rewrite (loop_rejected write apply exhausted key f write_is_not_get _ _ _ stored e);
      [|by apply (Hnext k)|by rewrite Hb|unfold nextFault; by rewrite Hw].
    rewrite He. simpl. rewrite Ht, <- !app_assoc. done.
  - intros k e rest Hk Hscript Hpass He.
    destruct (loop_conflicts k (S (4 - k)) 0 w rest stored Hpass Hscript Hstored)
      as (w' & Hrun & Hg & Hw & Hb & _ & Ht).
    replace (k + S (4 - k)) with 5 in Hrun by lia. change (Z.of_nat 0) with 0%Z in Hrun.
    rewrite Hrun.
    rewrite (loop_read_error write apply exhausted key f _ _ w' e).
    + simpl. rewrite Ht, <- !app_assoc. done.
    + rewrite scripted_next, Hg. unfold scripted in *.
      by rewrite lookup_drop, Nat.add_0_r.
  - intros rest Hscript Hpass.
    destruct (loop_conflicts 5 0 0 w rest stored Hpass Hscript Hstored)
      as (w' & Hrun & Hg & Hw & Hb & _ & Ht).
    change (5 + 0) with 5 in Hrun. change (Z.of_nat 0) with 0%Z in Hrun.
    rewrite Hrun. simpl. by rewrite Ht, Hb.
Qed.

(** A Browser that is not there ends the loop at its first read. *)
Lemma loop_not_found (n : nat) (i : Z) (w : Cluster) :
  nextFault w VGetBrowser = None →
  browsers w !! key = None →
  loop (S n) i w = (Some (StatusError ReasonNotFound), called VGetBrowser w).
Proof. intros Hget Hnone. simpl. unfold apiGetBrowser, call. rewrite Hget. simpl. by rewrite Hnone. Qed.
End RetryScripts.

(** Every pair of scripts, for the reads and for the writes, is of one
    of four kinds. *)
Lemma scripts_cases (n : nat) :
  ∀ (gs ws : list (option error)),
    let pass (m : nat) := ∀ j, j < m → scripted gs j = None in
    (∃ k rest, k < n ∧ ws = replicate k conflict ++ rest ∧ pass (S k) ∧
               default None (head rest) = None) ∨
    (∃ k e rest, k < n ∧ ws = replicate k conflict ++ Some e :: rest ∧ pass (S k) ∧
                 IsConflict e = false) ∨
    (∃ k e rest, k < n ∧ ws = replicate k conflict ++ rest ∧ pass k ∧
                 scripted gs k = Some e) ∨
    (∃ rest, ws = replicate n conflict ++ rest ∧ pass n).
Proof.
  induction n as [|n IH]; intros gs ws; cbv zeta.
  { right. right. right. exists ws. split; [done|]. intros j Hj. lia. }
  destruct (scripted gs 0) as [e|] eqn:Hfirst.
  { right. right. left. exists 0, e, ws. split; [lia|]. split; [done|].
    split; [|done]. intros j Hj. lia. }
  assert (Hone : ∀ j, j < 1 → scripted gs j = None).
  { intros j Hj. by replace j with 0 by lia. }
  assert (Hlift : ∀ m, (∀ j, j < m → scripted (tail gs) j = None) →
                       ∀ j, j < S m → scripted gs j = None).
  { intros m Hm [|j] Hj; [done|]. rewrite <- scripted_tail. apply Hm. lia. }
  destruct ws as [|[e|] ws].
  - left. exists 0, []. split; [lia|]. done.
  - destruct (IsConflict e) eqn:He.
    + assert (e = StatusError ReasonConflict) as ->.
      { destruct e as [[]|]; simpl in He; congruence. }
      destruct (IH (tail gs) ws)
        as [(k & rest & Hk & -> & Hp & Hh)|[(k & e & rest & Hk & -> & Hp & He')|
            [(k & e & rest & Hk & -> & Hp & Hs)|(rest & -> & Hp)]]].
      * left. exists (S k), rest. split; [lia|]. split; [done|]. split; [|done].
        by apply Hlift.
      * right. left. exists (S k), e, rest. split; [lia|]. split; [done|].
        split; [|done]. by apply Hlift.
      * right. right. left. exists (S k), e, rest. split; [lia|]. split; [done|].
        split; [by apply Hlift|]. by rewrite <- scripted_tail.
      * right. right. right. exists rest. split; [done|]. by apply Hlift.
    + right. left. exists 0, e, ws. split; [lia|]. done.
  - left. exists 0, (None :: ws). split; [lia|]. done.
Qed.

Lemma storeBrowser_live key b w :
  b_DeletionTimestamp b = None →
  browsers (storeBrowser key b w) = <[key := b]> (browsers w).
Proof. intros Hlive. unfold storeBrowser. rewrite Hlive. by destruct (b_Finalizers b). Qed.

(** C7.  Both helpers run the same loop.  Whatever the cluster does, a
    helper sends at most five writes.  A read that fails ends the loop
    with its error, whatever the error is: at the first attempt, and as
    well after [k < 5] attempts that ended in a conflict, without a write
    or a sleep after the failed read; a Browser that has gone in the
    meantime shows as such a read, failing with a not-found error.  A
    Browser that is not stored ends the loop at the first read.  When the
    reads go through: after [k < 5] conflicts followed by an accepted
    write the helper returns no error, having slept [backoff 0], ...,
    [backoff (k-1)] between the [k + 1] attempts, and the stored object
    is the updated one; after [k < 5] conflicts followed by any other
    error it returns that error without a further attempt or sleep; after
    five conflicts it returns the exhaustion error.  Every script of
    answers falls under one of these four cases.  The delays are 100ms,
    200ms, 400ms, 800ms and 1.6s. *)
Theorem retry_helpers_contract :
  let contract (helper : Browser → (Browser → Browser) → Cluster → option error * Cluster)
               (write : Verb) (exhausted : string)
               (only : (Browser → Browser) → Browser → Prop) : Prop :=
    ∀ (w : Cluster) (browser : Browser) (f : Browser → Browser),
      (∃ t, trace (snd (helper browser f w)) = trace w ++ t ∧ requests write t ≤ 5) ∧
      (∀ e, nextFault w VGetBrowser = Some e →
            helper browser f w = (Some e, called VGetBrowser w)) ∧
      (nextFault w VGetBrowser = None → browsers w !! browserKey browser = None →
       helper browser f w = (Some (StatusError ReasonNotFound), called VGetBrowser w)) ∧
      (∀ stored,
         browsers w !! browserKey browser = Some stored →
         (∀ k rest,
            k < 5 → faults w write = replicate k conflict ++ rest → readsPass (S k) w →
            default None (head rest) = None →
            browserKey (f stored) = browserKey browser →
            fst (helper browser f w) = None ∧
            trace (snd (helper browser f w))
              = trace w ++ flat_map (conflictingAttempt write) (seq 0 k)
                  ++ closingAttempt write ∧
            (only f stored → b_DeletionTimestamp stored = None →
             browsers (snd (helper browser f w)) !! browserKey browser = Some (f stored))) ∧
         (∀ k e rest,
            k < 5 → faults w write = replicate k conflict ++ Some e :: rest →
            readsPass (S k) w →
            IsConflict e = false →
            fst (helper browser f w) = Some e ∧
            trace (snd (helper browser f w))
              = trace w ++ flat_map (conflictingAttempt write) (seq 0 k)
                  ++ closingAttempt write ∧
            browsers (snd (helper browser f w)) = browsers w) ∧
         (∀ k e rest,
            k < 5 → faults w write = replicate k conflict ++ rest → readsPass k w →
            scripted (faults w VGetBrowser) k = Some e →
            fst (helper browser f w) = Some e ∧
            trace (snd (helper browser f w))
              = trace w ++ flat_map (conflictingAttempt write) (seq 0 k)
                  ++ [EvCall VGetBrowser] ∧
            browsers (snd (helper browser f w)) = browsers w) ∧
         (∀ rest,
            faults w write = replicate 5 conflict ++ rest → readsPass 5 w →
            fst (helper browser f w) = Some (Errorf exhausted) ∧
            trace (snd (helper browser f w))
              = trace w ++ flat_map (conflictingAttempt write) (seq 0 5) ∧
            browsers (snd (helper browser f w)) = browsers w) ∧
         (* every script is one of the four *)
         ((∃ k rest, k < 5 ∧ faults w write = replicate k conflict ++ rest ∧
                     readsPass (S k) w ∧ default None (head rest) = None) ∨
          (∃ k e rest, k < 5 ∧ faults w write = replicate k conflict ++ Some e :: rest ∧
                       readsPass (S k) w ∧ IsConflict e = false) ∨
          (∃ k e rest, k < 5 ∧ faults w write = replicate k conflict ++ rest ∧
                       readsPass k w ∧ scripted (faults w VGetBrowser) k = Some e) ∨
          (∃ rest, faults w write = replicate 5 conflict ++ rest ∧ readsPass 5 w))) in
  contract retryUpdate VPatchBrowser
    "failed to patch Browser after 5 attempts: version conflict" metadataOnly ∧
  contract retryStatusUpdate VPatchBrowserStatus
    "failed to patch Browser status after 5 attempts: version conflict" statusOnly ∧
  backoff <$> seq 0 5
    = [(100 * millisecond)%Z; (200 * millisecond)%Z; (400 * millisecond)%Z;
       (800 * millisecond)%Z; (1600 * millisecond)%Z].
Proof.
  cbv zeta. split; [|split; [|reflexivity]].
  - intros w browser f. unfold retryUpdate, apiPatchBrowser, maxRetries.
    split; [by apply loop_bounded|]. split; [by apply loop_read_error|].
    split; [by apply loop_not_found|].
    intros stored Hstored.
    destruct (loop_scripts VPatchBrowser patchMain
                "failed to patch Browser after 5 attempts: version conflict"
                (browserKey browser) f ltac:(done) w stored Hstored)
      as (Hok & Herr & Hread & Hex).
    split; [|split; [exact Herr|split; [exact Hread|split; [exact Hex|]]]].
    + intros k rest Hk Hscript Hpass Hnext Hkey.
      destruct (Hok k rest Hk Hscript Hpass Hnext Hkey) as (Hres & Htrace & Hbrowsers).
      split; [done|]. split; [done|]. intros Honly Hlive.
      rewrite Hbrowsers, (patchMain_fresh _ _ Honly), storeBrowser_live.
      * apply lookup_insert_eq.
      * destruct Honly as (_ & _ & -> & _). done.
    + apply (scripts_cases 5).
  - intros w browser f. unfold retryStatusUpdate, apiPatchBrowserStatus, maxRetries.
    split; [by apply loop_bounded|]. split; [by apply loop_read_error|].
    split; [by apply loop_not_found|].
    intros stored Hstored.
    destruct (loop_scripts VPatchBrowserStatus patchStatus
                "failed to patch Browser status after 5 attempts: version conflict"
                (browserKey browser) f ltac:(done) w stored Hstored)
      as (Hok & Herr & Hread & Hex).
    split; [|split; [exact Herr|split; [exact Hread|split; [exact Hex|]]]].
    + intros k rest Hk Hscript Hpass Hnext Hkey.
      destruct (Hok k rest Hk Hscript Hpass Hnext Hkey) as (Hres & Htrace & Hbrowsers).
      split; [done|]. split; [done|]. intros Honly Hlive.
      rewrite Hbrowsers, (patchStatus_fresh _ _ Honly), storeBrowser_live.
      * apply lookup_insert_eq.
      * destruct Honly as (_ & _ & _ & _ & _ & -> & _). done.
    + apply (scripts_cases 5).
Qed.

Lemma retry_helpers_contract_witness :
  let b := newBrowser "ns" "b1" "chrome" "120.0" in
  let w := clusterOf [b] [] 0%Z
             (λ v, match v with VPatchBrowser => [conflict; conflict] | _ => [] end) in
  let run := retryUpdate b (AddFinalizer browserPodFinalizer) w in
  let gone := clusterOf [b] [] 0%Z
                (λ v, match v with
                      | VPatchBrowser => [conflict]
                      | VGetBrowser => [None; Some (StatusError ReasonNotFound)]
                      | _ => []
                      end) in
  let lost := retryUpdate b (AddFinalizer browserPodFinalizer) gone in
  (fst run = None ∧
   trace (snd run)
     = [EvCall VGetBrowser; EvCall VPatchBrowser; EvSleep (100 * millisecond)%Z;
        EvCall VGetBrowser; EvCall VPatchBrowser; EvSleep (200 * millisecond)%Z;
        EvCall VGetBrowser; EvCall VPatchBrowser] ∧
   browsers (snd run) !! ("ns", "b1") = Some (AddFinalizer browserPodFinalizer b)) ∧
  (fst lost = Some (StatusError ReasonNotFound) ∧
   trace (snd lost)
     = [EvCall VGetBrowser; EvCall VPatchBrowser; EvSleep (100 * millisecond)%Z;
        EvCall VGetBrowser] ∧
   browsers (snd lost) = browsers gone).
Proof.
  cbv zeta.
  destruct retry_helpers_contract as [Hupdate _].
  split.
  - destruct (Hupdate
                (clusterOf [newBrowser "ns" "b1" "chrome" "120.0"] [] 0%Z
                   (λ v, match v with VPatchBrowser => [conflict; conflict] | _ => [] end))
                (newBrowser "ns" "b1" "chrome" "120.0")
                (AddFinalizer browserPodFinalizer)) as (_ & _ & _ & Hscripts).
    destruct (Hscripts (newBrowser "ns" "b1" "chrome" "120.0")) as (Hok & _);
      [reflexivity|].
    destruct (Hok 2 []) as (Hres & Htrace & Hstored);
      [lia | reflexivity | intros j _; reflexivity | reflexivity | reflexivity |].
    split; [exact Hres|]. split; [exact Htrace|].
    apply Hstored; [|reflexivity]. repeat split; reflexivity.
  - destruct (Hupdate
                (clusterOf [newBrowser "ns" "b1" "chrome" "120.0"] [] 0%Z
                   (λ v, match v with
                         | VPatchBrowser => [conflict]
                         | VGetBrowser => [None; Some (StatusError ReasonNotFound)]
                         | _ => []
                         end))
                (newBrowser "ns" "b1" "chrome" "120.0")
                (AddFinalizer browserPodFinalizer)) as (_ & _ & _ & Hscripts).
    destruct (Hscripts (newBrowser "ns" "b1" "chrome" "120.0")) as (_ & _ & Hread & _);
      [reflexivity|].
    apply (Hread 1 (StatusError ReasonNotFound) []); [lia | reflexivity | | reflexivity].
    intros j Hj. replace j with 0 by lia. reflexivity.
Defined.

(** ** Reconciliation against a cluster that answers every request *)

Lemma quiet_nextFault w v : quiet w → nextFault w v = None.
Proof. intros Hq. unfold nextFault. by rewrite Hq. Qed.

Lemma quiet_called w v : quiet w → quiet (called v w).
Proof. intros Hq v'. simpl. destruct (decide (v' = v)); by rewrite Hq. Qed.

Lemma settled_called req ps now w s v :
  settled req ps now w s → settled req ps now (called v w) s.
Proof. intros (Hq & ? & ? & ? & ? & ?). split; [by apply quiet_called|done]. Qed.

Lemma apiGetBrowser_settled req ps now w s :
  settled req ps now w s → apiGetBrowser req w = (inr s, called VGetBrowser w).
Proof.
  intros (Hq & _ & _ & Hs & _). unfold apiGetBrowser, call.
  rewrite (quiet_nextFault _ _ Hq). simpl. by rewrite Hs.
Qed.

Lemma apiGetPod_settled req ps now w s :
  settled req ps now w s →
  apiGetPod req w =
    (match ps !! req with Some p => inr p | None => inl (StatusError ReasonNotFound) end,
     called VGetPod w).
Proof.
  intros (Hq & Hp & _). unfold apiGetPod, call.
  rewrite (quiet_nextFault _ _ Hq). simpl. rewrite Hp. by destruct (ps !! req).
Qed.

Lemma metadataOnly_key f s : metadataOnly f s → browserKey (f s) = browserKey s.
Proof. intros (Hn & Hns & _). unfold browserKey. by rewrite Hn, Hns. Qed.

Lemma statusOnly_key f s : statusOnly f s → browserKey (f s) = browserKey s.
Proof. intros (Hn & Hns & _). unfold browserKey. by rewrite Hn, Hns. Qed.

Lemma AddFinalizer_metadataOnly x s : metadataOnly (AddFinalizer x) s.
Proof. unfold metadataOnly, AddFinalizer. by destruct (ContainsFinalizer s x). Qed.

Lemma RemoveFinalizer_metadataOnly x s : metadataOnly (RemoveFinalizer x) s.
Proof. done. Qed.

Lemma assignIdentityLabels_metadataOnly s : metadataOnly assignIdentityLabels s.
Proof. done. Qed.

Lemma markPhase_statusOnly p s : statusOnly (markPhase p) s.
Proof. unfold statusOnly. done. Qed.

Lemma markFailed_statusOnly m s : statusOnly (markFailed m) s.
Proof. unfold statusOnly. done. Qed.

Lemma markFailedWith_statusOnly r m s : statusOnly (markFailedWith r m) s.
Proof. unfold statusOnly. done. Qed.

(** In such a cluster a retry helper writes once and succeeds. *)
Lemma retryLoop_settled write apply exhausted f req ps now w s n :
  write ≠ VGetBrowser →
  settled req ps now w s →
  browserKey (f s) = req →
  apply s (f s) s = f s →
  b_DeletionTimestamp (f s) = None →
  ∃ w', retryLoop (apiWrite write apply) exhausted req f (S n) 0%Z w = (None, w') ∧
        settled req ps now w' (f s).
Proof.
  intros Hne Hset Hkey Happly Hlive.
  pose proof Hset as (Hq & Hp & Hc & Hs & _ & _).
  rewrite (loop_accepted write apply exhausted req f Hne n 0%Z w s);
    [|by apply quiet_nextFault|done|by apply quiet_nextFault|done].
  eexists. split; [done|]. rewrite Happly.
  split; [|split; [|split; [|split; [|done]]]].
  - intros v. unfold storeBrowser. rewrite Hlive.
    destruct (b_Finalizers (f s)); apply (quiet_called _ _ (quiet_called _ _ Hq)).
  - unfold storeBrowser. rewrite Hlive. by destruct (b_Finalizers (f s)).
  - unfold storeBrowser. rewrite Hlive. by destruct (b_Finalizers (f s)).
  - rewrite storeBrowser_live by done. apply lookup_insert_eq.
Qed.

Lemma retryUpdate_settled browser f req ps now w s :
  settled req ps now w s →
  browserKey browser = req →
  metadataOnly f s →
  ∃ w', retryUpdate browser f w = (None, w') ∧ settled req ps now w' (f s).
Proof.
  intros Hset Hb Honly. pose proof Hset as (_ & _ & _ & _ & Hlive & Hkey).
  unfold retryUpdate, apiPatchBrowser, maxRetries. rewrite Hb.
  apply retryLoop_settled; [done|done| | |].
  - by rewrite (metadataOnly_key _ _ Honly).
  - by apply patchMain_fresh.
  - destruct Honly as (_ & _ & -> & _). done.
Qed.

Lemma retryStatusUpdate_settled browser f req ps now w s :
  settled req ps now w s →
  browserKey browser = req →
  statusOnly f s →
  ∃ w', retryStatusUpdate browser f w = (None, w') ∧ settled req ps now w' (f s).
Proof.
  intros Hset Hb Honly. pose proof Hset as (_ & _ & _ & _ & Hlive & Hkey).
  unfold retryStatusUpdate, apiPatchBrowserStatus, maxRetries. rewrite Hb.
  apply retryLoop_settled; [done|done| | |].
  - by rewrite (statusOnly_key _ _ Honly).
  - by apply patchStatus_fresh.
  - destruct Honly as (_ & _ & _ & _ & _ & -> & _). done.
Qed.

(** The three preparatory writes of [Reconcile] each keep the cluster
    settled, whether they are needed or not. *)
Lemma optional_update_settled (needed : bool) browser f req ps now w s :
  settled req ps now w s →
  browserKey browser = req →
  metadataOnly f s →
  ∃ w' s', (if needed then retryUpdate browser f w else (None, w)) = (None, w') ∧
           settled req ps now w' s' ∧ b_Status s' = b_Status s.
Proof.
  intros Hset Hb Honly. destruct needed.
  - destruct (retryUpdate_settled browser f req ps now w s Hset Hb Honly) as (w' & Hrun & Hset').
    exists w', (f s). split; [done|]. split; [done|]. by destruct Honly as (_ & _ & _ & ->).
  - exists w, s. done.
Qed.

(** The part of [Reconcile] up to the pod lookup, for a live Browser that
    is not Failed: the cluster stays settled and the status only changes
    from unset to Pending. *)
Lemma Reconcile_prepares rt store req ps now w b :
  settled req ps now w b →
  st_Phase (b_Status b) ≠ PodFailed →
  ∃ w' s,
    settled req ps now w' s ∧
    st_Phase (b_Status s) ≠ PodFailed ∧
    Reconcile rt store req w =
      match ps !! req with
      | Some pod => watchPod b pod w'
      | None => handleMissingPod rt store b w'
      end.
Proof.
  intros Hset Hphase. pose proof Hset as (_ & _ & _ & _ & Hlive & Hkey).
  unfold Reconcile. rewrite (apiGetBrowser_settled _ _ _ _ _ Hset).
  rewrite Hlive. rewrite bool_decide_eq_false_2 by apply is_Some_None.
  rewrite decide_False by done.
  apply (settled_called _ _ _ _ _ VGetBrowser) in Hset.
  cbv zeta.
  destruct (optional_update_settled (negb (ContainsFinalizer b browserPodFinalizer)) b
              (AddFinalizer browserPodFinalizer) req ps now _ b Hset Hkey
              (AddFinalizer_metadataOnly _ _)) as (w1 & s1 & -> & Hset1 & Hst1).
  match goal with |- context [if ?c then retryUpdate b assignIdentityLabels w1 else _] =>
    destruct (optional_update_settled (bool_decide (default "" (default ∅ (b_Labels b) !! "selenosis.io/browser") ≠ b_Name b)) b
                assignIdentityLabels req ps now w1 s1 Hset1 Hkey
                (assignIdentityLabels_metadataOnly _)) as (w2 & s2 & Hrun2 & Hset2 & Hst2)
  end.
  assert (Hlabel : (if decide (default "" (default ∅ (b_Labels b) !! "selenosis.io/browser") ≠ b_Name b)
                    then retryUpdate b assignIdentityLabels w1 else (None, w1)) = (None, w2)).
  { rewrite <- Hrun2.
    destruct (decide _) as [H|H];
      [by rewrite bool_decide_eq_true_2|by rewrite bool_decide_eq_false_2]. }
  rewrite Hlabel. clear Hlabel Hrun2.
  assert (Hinit : ∃ w3 s3,
            (if decide (st_Phase (b_Status b) = "")
             then retryStatusUpdate b (markPhase PodPending) w2 else (None, w2)) = (None, w3) ∧
            settled req ps now w3 s3 ∧ st_Phase (b_Status s3) ≠ PodFailed).
  { destruct (decide (st_Phase (b_Status b) = "")).
    - destruct (retryStatusUpdate_settled b (markPhase PodPending) req ps now w2 s2 Hset2 Hkey
                  (markPhase_statusOnly _ _)) as (w3 & Hrun3 & Hset3).
      exists w3, (markPhase PodPending s2). split; [done|]. split; [done|]. done.
    - exists w2, s2. split; [done|]. split; [done|]. by rewrite Hst2, Hst1. }
  destruct Hinit as (w3 & s3 & -> & Hset3 & Hphase3).
  replace (browserKey b) with req.
  rewrite (apiGetPod_settled _ _ _ _ _ Hset3).
  exists (called VGetPod w3), s3. split; [by apply settled_called|]. split; [done|].
  destruct (ps !! req); [done|]. simpl IsNotFound. cbv iota.
  by rewrite decide_False.
Qed.

(** A settled Browser already in phase Failed: [Reconcile] drops the
    finalizer, if any, and touches nothing else. *)
Lemma Reconcile_failed rt store req ps now w s :
  settled req ps now w s →
  st_Phase (b_Status s) = PodFailed →
  ∃ w' s', Reconcile rt store req w = (done_ok, w') ∧
           settled req ps now w' s' ∧ b_Status s' = b_Status s.
Proof.
  intros Hset Hphase. pose proof Hset as (_ & _ & _ & _ & Hlive & Hkey).
  unfold Reconcile. rewrite (apiGetBrowser_settled _ _ _ _ _ Hset).
  rewrite Hlive. rewrite bool_decide_eq_false_2 by apply is_Some_None.
  rewrite decide_True by done.
  apply (settled_called _ _ _ _ _ VGetBrowser) in Hset.
  destruct (ContainsFinalizer s browserPodFinalizer).
  - destruct (retryUpdate_settled s (RemoveFinalizer browserPodFinalizer) req ps now _ s
                Hset Hkey (RemoveFinalizer_metadataOnly _ _)) as (w' & -> & Hset').
    exists w', (RemoveFinalizer browserPodFinalizer s). done.
  - eexists _, s. done.
Qed.

Lemma handleMissingPod_no_config rt store req ps now w b s :
  settled req ps now w s →
  browserKey b = req →
  st_Phase (b_Status b) ≠ PodFailed →
  config store !! keyFor rt (b_Namespace b) (BrowserName (b_Spec b))
                    (BrowserVersion (b_Spec b)) = None →
  ∃ w', handleMissingPod rt store b w = (done_ok, w') ∧
        settled req ps now w'
          (markFailedWith "BrowserPodSpec" "Browser configuration not found" s).
Proof.
  intros Hset Hkey Hphase Hmiss. unfold handleMissingPod, Get. rewrite Hmiss.
  rewrite decide_True by done.
  destruct (retryStatusUpdate_settled b
              (markFailedWith "BrowserPodSpec" "Browser configuration not found")
              req ps now w s Hset Hkey (markFailedWith_statusOnly _ _ _)) as (w' & -> & Hset').
  by exists w'.
Qed.

(** C8.  A live Browser that is not yet Failed, has no pod, and asks for
    a (browserName, browserVersion) the config store has no entry for, in
    a cluster that answers every request: [Reconcile] returns no error,
    the stored Browser is Failed with reason [BrowserPodSpec] and message
    [Browser configuration not found], and the pods are what they were;
    a second [Reconcile] again returns no error, leaves that status and
    the pods as they are. *)
Theorem missing_configuration_is_terminal
    (rt : GoRuntime) (store : BrowserConfigStore) (req : ObjectKey) (w : Cluster)
    (b : Browser) :
  quiet w →
  browsers w !! req = Some b →
  browserKey b = req →
  b_DeletionTimestamp b = None →
  st_Phase (b_Status b) ≠ PodFailed →
  pods w !! req = None →
  config store !! keyFor rt (b_Namespace b) (BrowserName (b_Spec b))
                    (BrowserVersion (b_Spec b)) = None →
  let first := Reconcile rt store req w in
  let second := Reconcile rt store req (snd first) in
  let failedForMissingConfig (w' : Cluster) :=
    ∃ b', browsers w' !! req = Some b' ∧
          st_Phase (b_Status b') = PodFailed ∧
          st_Reason (b_Status b') = "BrowserPodSpec" ∧
          st_Message (b_Status b') = "Browser configuration not found" in
  fst first = done_ok ∧ failedForMissingConfig (snd first) ∧ pods (snd first) = pods w ∧
  fst second = done_ok ∧ failedForMissingConfig (snd second) ∧ pods (snd second) = pods w.
Proof.
  intros Hq Hb Hkey Hlive Hphase Hnopod Hmiss. cbv zeta.
  assert (Hset : settled req (pods w) (clock w) w b) by done.
  destruct (Reconcile_prepares rt store req _ _ w b Hset Hphase) as (w1 & s1 & Hset1 & _ & ->).
  rewrite Hnopod.
  destruct (handleMissingPod_no_config rt store req _ _ w1 b s1 Hset1 Hkey Hphase Hmiss)
    as (w2 & -> & Hset2).
  simpl fst. simpl snd.
  destruct (Reconcile_failed rt store req _ _ w2 _ Hset2 eq_refl) as (w3 & s3 & -> & Hset3 & Hst3).
  simpl fst. simpl snd.
  destruct Hset2 as (_ & Hp2 & _ & Hs2 & _). destruct Hset3 as (_ & Hp3 & _ & Hs3 & _).
  split; [done|]. split; [by eexists|]. split; [done|].
  split; [done|]. split; [|done].
  exists s3. rewrite Hst3. done.
Qed.

Lemma missing_configuration_is_terminal_witness :
  let rt := exampleRuntime in_order in
  let req := ("ns", "b1") in
  let w := clusterOf [newBrowser "ns" "b1" "chrome" "120.0"] [] 0%Z no_faults in
  let first := Reconcile rt NewBrowserConfigStore req w in
  let second := Reconcile rt NewBrowserConfigStore req (snd first) in
  let failedForMissingConfig (w' : Cluster) :=
    ∃ b', browsers w' !! req = Some b' ∧
          st_Phase (b_Status b') = PodFailed ∧
          st_Reason (b_Status b') = "BrowserPodSpec" ∧
          st_Message (b_Status b') = "Browser configuration not found" in
  fst first = done_ok ∧ failedForMissingConfig (snd first) ∧ pods (snd first) = pods w ∧
  fst second = done_ok ∧ failedForMissingConfig (snd second) ∧ pods (snd second) = pods w.
Proof.
  cbv zeta.
  apply (missing_configuration_is_terminal (exampleRuntime in_order) NewBrowserConfigStore
           ("ns", "b1") (clusterOf [newBrowser "ns" "b1" "chrome" "120.0"] [] 0%Z no_faults)
           (newBrowser "ns" "b1" "chrome" "120.0")).
  - intros v. reflexivity.
  - reflexivity.
  - reflexivity.
  - reflexivity.
  - discriminate.
  - reflexivity.
  - reflexivity.
Defined.

(** The loop over the container statuses of a pending pod that is older
    than the creation timeout: the first waiting container ends it, with
    the timeout message, whatever its waiting reason. *)
Lemma watchPending_timeout req ps now w b s pod created statuses :
  settled req ps now w s →
  browserKey b = req →
  p_CreationTimestamp pod = Some created →
  (now - created > podCreationTimeout)%Z →
  (∃ cs, cs ∈ statuses ∧ is_Some (Waiting (cs_State cs))) →
  (∀ cs, cs ∈ statuses → Terminated (cs_State cs) = None) →
  ∃ w', watchPending b pod statuses w = (Some done_ok, w') ∧
        settled req ps now w'
          (markFailed ("pod creation timeout exceeded after " +:+ podCreationTimeoutString) s).
Proof.
  intros Hset Hkey Hcreated Hold Hwaiting Hrunning.
  induction statuses as [|cs statuses IH].
  { destruct Hwaiting as (cs & Hin & _). by apply elem_of_nil in Hin. }
  simpl. rewrite (Hrunning cs) by left.
  destruct (Waiting (cs_State cs)) as [waiting|] eqn:Hw.
  - rewrite Hcreated. unfold since.
    destruct Hset as (Hq & Hp & Hc & Hrest). rewrite Hc.
    rewrite bool_decide_eq_true_2 by done.
    destruct (retryStatusUpdate_settled b
                (markFailed ("pod creation timeout exceeded after " +:+ podCreationTimeoutString))
                req ps now w s (conj Hq (conj Hp (conj Hc Hrest))) Hkey
                (markFailed_statusOnly _ _)) as (w' & -> & Hset').
    by exists w'.
  - apply IH.
    + destruct Hwaiting as (cs' & Hin & Hsome). apply elem_of_cons in Hin as [->|Hin].
      * rewrite Hw in Hsome. by destruct Hsome.
      * by exists cs'.
    + intros cs' Hin. apply Hrunning. by right.
Qed.

(** C9.  A live Browser in phase Pending whose pod is in phase Pending,
    is not being deleted, was created more than five minutes ago and has
    a waiting container and no terminated one, in a cluster that answers
    every request: [Reconcile] returns no error and the stored Browser is
    Failed with the timeout message.  Nothing is assumed about the
    waiting reasons. *)
Theorem creation_timeout_fails_browser
    (rt : GoRuntime) (store : BrowserConfigStore) (req : ObjectKey) (w : Cluster)
    (b : Browser) (pod : Pod) (created : Z) :
  quiet w →
  browsers w !! req = Some b →
  browserKey b = req →
  b_DeletionTimestamp b = None →
  st_Phase (b_Status b) = PodPending →
  pods w !! req = Some pod →
  p_DeletionTimestamp pod = None →
  pst_Phase (p_Status pod) = PodPending →
  p_CreationTimestamp pod = Some created →
  (clock w - created > podCreationTimeout)%Z →
  (∃ cs, cs ∈ pst_ContainerStatuses (p_Status pod) ∧ is_Some (Waiting (cs_State cs))) →
  (∀ cs, cs ∈ pst_ContainerStatuses (p_Status pod) → Terminated (cs_State cs) = None) →
  let run := Reconcile rt store req w in
  fst run = done_ok ∧
  ∃ b', browsers (snd run) !! req = Some b' ∧
        st_Phase (b_Status b') = PodFailed ∧
        st_Message (b_Status b') = "pod creation timeout exceeded after 5m0s".
Proof.
  intros Hq Hb Hkey Hlive Hphase Hpod Hpodlive Hpodphase Hcreated Hold Hwaiting Hrunning.
  cbv zeta.
  assert (Hset : settled req (pods w) (clock w) w b) by done.
  assert (Hnf : st_Phase (b_Status b) ≠ PodFailed) by (by rewrite Hphase).
  destruct (Reconcile_prepares rt store req _ _ w b Hset Hnf) as (w1 & s1 & Hset1 & _ & ->).
  rewrite Hpod. unfold watchPod. rewrite Hpodlive.
  rewrite (bool_decide_eq_false_2 (is_Some None)) by apply is_Some_None.
  simpl andb. cbv iota zeta.
  rewrite Hpodphase. rewrite (decide_False (P := PodPending = PodFailed)) by done.
  rewrite decide_True by done.
  destruct (watchPending_timeout req _ _ w1 b s1 pod created _ Hset1 Hkey Hcreated Hold
              Hwaiting Hrunning) as (w2 & -> & Hset2).
  split; [done|]. destruct Hset2 as (_ & _ & _ & Hs2 & _).
  eexists. split; [exact Hs2|]. done.
Qed.

Lemma creation_timeout_fails_browser_witness :
  let run := Reconcile (exampleRuntime in_order) NewBrowserConfigStore ("ns", "b1")
               stuckCluster in
  fst run = done_ok ∧
  ∃ b', browsers (snd run) !! ("ns", "b1") = Some b' ∧
        st_Phase (b_Status b') = PodFailed ∧
        st_Message (b_Status b') = "pod creation timeout exceeded after 5m0s".
Proof.
  cbv zeta.
  apply (creation_timeout_fails_browser (exampleRuntime in_order) NewBrowserConfigStore
           ("ns", "b1") stuckCluster pendingBrowser stuckPod 0%Z).
  - intros v. reflexivity.
  - reflexivity.
  - reflexivity.
  - reflexivity.
  - reflexivity.
  - reflexivity.
  - reflexivity.
  - reflexivity.
  - reflexivity.
  - reflexivity.
  - exists (waitingStatus "browser" "ContainerCreating"). split.
    + apply list_elem_of_singleton. reflexivity.
    + eexists. reflexivity.
  - intros cs Hin. apply list_elem_of_singleton in Hin. rewrite Hin. reflexivity.
Defined.

(** ** The finalizer *)
Lemma guarded_same req w w' : browsers w' = browsers w → guarded req w → guarded req w'.
Proof. intros Heq (s & Hs & Hrest). exists s. by rewrite Heq. Qed.

Lemma storeBrowser_pods key b w : pods (storeBrowser key b w) = pods w.
Proof. unfold storeBrowser. by destruct (b_Finalizers b), (b_DeletionTimestamp b). Qed.

Lemma storeBrowser_guarded req key b w :
  guarded req w →
  (key = req → browserKey b = req ∧ browserPodFinalizer ∈ b_Finalizers b) →
  guarded req (storeBrowser key b w).
Proof.
  intros (s & Hs & Hk & Hf) Hnew. destruct (decide (key = req)) as [->|Hne].
  - destruct (Hnew eq_refl) as [Hkb Hfb]. exists b. split; [|done].
    unfold storeBrowser. destruct (b_Finalizers b) as [|x l] eqn:E.
    + by apply elem_of_nil in Hfb.
    + simpl. apply lookup_insert_eq.
  - exists s. split; [|done]. unfold storeBrowser.
    destruct (b_Finalizers b), (b_DeletionTimestamp b); simpl;
      by rewrite ?lookup_insert_ne, ?lookup_delete_ne.
Qed.

(** A write to the status subresource never touches the finalizers; a
    write to the main resource keeps the finalizer when the object sent
    carries it. *)
Lemma apiWrite_status_guarded req v before current w :
  guarded req w → guarded req (snd (apiWrite v patchStatus before current w)).
Proof.
  intros Hg. unfold apiWrite, call. destruct (nextFault w v); [done|]. simpl.
  destruct (browsers w !! browserKey current) as [stored|] eqn:Hstored; [|done]. simpl.
  apply storeBrowser_guarded; [done|]. intros Hkey.
  destruct Hg as (s & Hs & Hk & Hf). rewrite Hkey, Hs in Hstored. by injection Hstored as <-.
Qed.

Lemma apiWrite_main_guarded req v before current w :
  guarded req w →
  browserPodFinalizer ∈ b_Finalizers current →
  guarded req (snd (apiWrite v patchMain before current w)).
Proof.
  intros Hg Hcur. unfold apiWrite, call. destruct (nextFault w v); [done|]. simpl.
  destruct (browsers w !! browserKey current) as [stored|] eqn:Hstored; [|done]. simpl.
  apply storeBrowser_guarded; [done|]. intros Hkey.
  destruct Hg as (s & Hs & Hk & Hf). rewrite Hkey, Hs in Hstored. injection Hstored as <-.
  split; [done|]. simpl. unfold patched. by destruct (decide _).
Qed.

Lemma apiWrite_pods v apply before current w :
  pods (snd (apiWrite v apply before current w)) = pods w.
Proof.
  unfold apiWrite, call. destruct (nextFault w v); [done|]. simpl.
  destruct (browsers w !! browserKey current); [|done]. simpl. by rewrite storeBrowser_pods.
Qed.

Lemma retryLoop_pods v apply exhausted key f n :
  ∀ i w, pods (snd (retryLoop (apiWrite v apply) exhausted key f n i w)) = pods w.
Proof.
  induction n as [|n IH]; intros i w; [done|]. simpl. unfold apiGetBrowser, call.
  destruct (nextFault w VGetBrowser); [done|]. simpl.
  destruct (browsers w !! key) as [stored|]; [|done].
  pose proof (apiWrite_pods v apply stored (f stored) (called VGetBrowser w)) as Hp.
  destruct (apiWrite v apply stored (f stored) (called VGetBrowser w)) as [[e|] w2]; [|done].
  destruct (IsConflict e); [|done]. rewrite IH. done.
Qed.

Lemma retryLoop_status_guarded req v exhausted key f n :
  ∀ i w, guarded req w →
         guarded req (snd (retryLoop (apiWrite v patchStatus) exhausted key f n i w)).
Proof.
  induction n as [|n IH]; intros i w Hg; [done|]. simpl. unfold apiGetBrowser, call.
  destruct (nextFault w VGetBrowser); [done|]. simpl.
  destruct (browsers w !! key) as [stored|]; [|done].
  pose proof (apiWrite_status_guarded req v stored (f stored) (called VGetBrowser w) Hg) as Hw.
  destruct (apiWrite v patchStatus stored (f stored) (called VGetBrowser w)) as [[e|] w2];
    [|done].
  destruct (IsConflict e); [|done]. by apply IH.
Qed.

Lemma retryLoop_main_guarded req v exhausted f n :
  (∀ x, browserPodFinalizer ∈ b_Finalizers x → browserPodFinalizer ∈ b_Finalizers (f x)) →
  ∀ i w, guarded req w →
         guarded req (snd (retryLoop (apiWrite v patchMain) exhausted req f n i w)).
Proof.
  intros Hf. induction n as [|n IH]; intros i w Hg; [done|]. simpl. unfold apiGetBrowser, call.
  destruct (nextFault w VGetBrowser); [done|]. simpl.
  destruct (browsers w !! req) as [stored|] eqn:Hstored; [|done].
  assert (Hcur : browserPodFinalizer ∈ b_Finalizers (f stored)).
  { apply Hf. destruct Hg as (s & Hs & _ & Hfs). rewrite Hs in Hstored. by injection Hstored as <-. }
  pose proof (apiWrite_main_guarded req v stored (f stored) (called VGetBrowser w) Hg Hcur) as Hw.
  destruct (apiWrite v patchMain stored (f stored) (called VGetBrowser w)) as [[e|] w2];
    [|done].
  destruct (IsConflict e); [|done]. by apply IH.
Qed.

Lemma retryStatusUpdate_guarded req browser f w :
  guarded req w → guarded req (snd (retryStatusUpdate browser f w)).
Proof. apply retryLoop_status_guarded. Qed.

Lemma retryStatusUpdate_pods browser f w : pods (snd (retryStatusUpdate browser f w)) = pods w.
Proof. apply retryLoop_pods. Qed.

Lemma retryUpdate_pods browser f w : pods (snd (retryUpdate browser f w)) = pods w.
Proof. apply retryLoop_pods. Qed.

Lemma retryUpdate_guarded req browser f w :
  browserKey browser = req →
  (∀ x, browserPodFinalizer ∈ b_Finalizers x → browserPodFinalizer ∈ b_Finalizers (f x)) →
  guarded req w → guarded req (snd (retryUpdate browser f w)).
Proof.
  intros <- Hf. unfold retryUpdate, apiPatchBrowser. by apply retryLoop_main_guarded.
Qed.

Lemma apiDeletePod_browsers key force w :
  browsers (snd (apiDeletePod key force w)) = browsers w.
Proof.
  unfold apiDeletePod, call. destruct (nextFault w VDeletePod); [done|]. simpl.
  destruct (pods w !! key); [|done]. by destruct force.
Qed.

Lemma deletePod_browsers pod w : browsers (snd (deletePod pod w)) = browsers w.
Proof.
  unfold deletePod. pose proof (apiDeletePod_browsers (podKey pod) true w) as H.
  destruct (apiDeletePod (podKey pod) true w) as [[e|] w']; [|done].
  by destruct (negb (IsNotFound e)).
Qed.

Lemma apiCreatePod_browsers p w : browsers (snd (apiCreatePod p w)) = browsers w.
Proof.
  unfold apiCreatePod, call. destruct (nextFault w VCreatePod); [done|]. simpl.
  by destruct (pods w !! podKey p).
Qed.

(** A status write met on a path of the reconciler keeps the finalizer. *)
Ltac status_write req browser w Hg :=
  match goal with
  | |- context [retryStatusUpdate browser ?f w] =>
      let H := fresh "Hwrite" in
      pose proof (retryStatusUpdate_guarded req browser f w Hg) as H;
      destruct (retryStatusUpdate browser f w) as [[?|] ?]; simpl in H |- *; try exact H
  end.

Lemma handleMissingPod_guarded rt store req browser w :
  guarded req w → guarded req (snd (handleMissingPod rt store browser w)).
Proof.
  intros Hg. unfold handleMissingPod.
  destruct (Get rt store _ _ _) as [[browserSpec|] [|]].
  - destruct (parseSelenosisOptions rt (b_Annotations browser)) as [err|opts].
    + status_write req browser w Hg.
    + unfold createPod.
      pose proof (apiCreatePod_browsers
                    (buildBrowserPod (rangeOrder rt) browser browserSpec opts) w) as H.
      destruct (apiCreatePod _ w) as [[e|] w']; simpl in H.
      * destruct (IsAlreadyExists e); by apply (guarded_same req w).
      * by apply (guarded_same req w).
  - destruct (decide _); [|done]. status_write req browser w Hg.
  - destruct (decide _); [|done]. status_write req browser w Hg.
  - destruct (decide _); [|done]. status_write req browser w Hg.
Qed.

Lemma watchPending_guarded req browser pod statuses :
  ∀ w, guarded req w → guarded req (snd (watchPending browser pod statuses w)).
Proof.
  induction statuses as [|cs statuses IH]; intros w Hg; [done|]. simpl.
  destruct (Terminated (cs_State cs)); [status_write req browser w Hg|].
  destruct (Waiting (cs_State cs)) as [waiting|]; [|by apply IH].
  destruct (match p_CreationTimestamp pod with
            | Some created => bool_decide (since w created > podCreationTimeout)%Z
            | None => false
            end); [status_write req browser w Hg|].
  destruct (_ && _); [|by apply IH].
  pose proof (deletePod_browsers pod w) as Hd.
  destruct (deletePod pod w) as [[e|] w1]; simpl in Hd; [by apply (guarded_same req w)|].
  assert (Hg1 : guarded req w1) by (by apply (guarded_same req w)).
  status_write req browser w1 Hg1.
Qed.

Lemma updateBrowserStatus_guarded req browser pod w :
  List.find isCriticalTerminated (pst_ContainerStatuses (p_Status pod)) = None →
  guarded req w → guarded req (snd (updateBrowserStatus browser pod w)).
Proof.
  intros Hnone Hg. unfold updateBrowserStatus. rewrite Hnone. cbv zeta.
  destruct (_ || _); [|done]. status_write req browser w Hg.
Qed.

Lemma watchPod_guarded req browser pod w :
  p_DeletionTimestamp pod = None →
  List.find isCriticalTerminated (pst_ContainerStatuses (p_Status pod)) = None →
  guarded req w → guarded req (snd (watchPod browser pod w)).
Proof.
  intros Hlive Hnone Hg. unfold watchPod. rewrite Hlive.
  rewrite (bool_decide_eq_false_2 (is_Some None)) by apply is_Some_None.
  simpl andb. cbv iota zeta.
  assert (Hpending : ∀ w1, guarded req w1 → guarded req (snd
            match (if decide (pst_Phase (p_Status pod) = PodPending)
                   then watchPending browser pod (pst_ContainerStatuses (p_Status pod)) w1
                   else (None, w1)) with
            | (Some out, w) => (out, w)
            | (None, w) => updateBrowserStatus browser pod w
            end)).
  { intros w1 Hg1.
    assert (Hp : guarded req (snd
              (if decide (pst_Phase (p_Status pod) = PodPending)
               then watchPending browser pod (pst_ContainerStatuses (p_Status pod)) w1
               else (None, w1)))).
    { destruct (decide _); [by apply watchPending_guarded|done]. }
    destruct (if decide (pst_Phase (p_Status pod) = PodPending) then _ else _)
      as [[out|] w2]; [done|].
    by apply updateBrowserStatus_guarded. }
  destruct (decide (pst_Phase (p_Status pod) = PodFailed)) as [Hfailed|Hfailed];
    [|by apply Hpending].
  pose proof (deletePod_browsers pod w) as Hd.
  destruct (deletePod pod w) as [[err|] w1]; simpl in Hd; [by apply (guarded_same req w)|].
  assert (Hg1 : guarded req w1) by (by apply (guarded_same req w)).
  status_write req browser w1 Hg1. by apply Hpending.
Qed.


(** C4, as claimed, fails.  A new Browser is reconciled (finalizer added,
    pod created), the kubelet reports the pod Pending with a container in
    [ContainerCreating], six minutes pass, and two more reconciliations
    run: the first marks the Browser Failed and leaves the pod alone, the
    second removes the finalizer.  In the state reached the pod exists
    and the Browser, still stored, has no finalizer. *)
Lemma finalizer_removed_while_pod_exists :
  let rt := exampleRuntime in_order in
  let req := ("ns", "b1") in
  let w0 := clusterOf [newBrowser "ns" "b1" "chrome" "120.0"] [] 0%Z no_faults in
  ∃ w, rtc (Step rt (chromeStore rt)) w0 w ∧
       is_Some (pods w !! req) ∧
       ∃ b, browsers w !! req = Some b ∧ b_Finalizers b = [].
Proof.
  cbv zeta. eexists. split.
  - eapply rtc_l; [apply (StepReconcile _ _ ("ns", "b1"))|].
    eapply rtc_l.
    { eapply (StepKubelet _ _ ("ns", "b1") _
                (pendingStatus [waitingStatus "browser" "ContainerCreating"])).
      vm_compute. reflexivity. }
    eapply rtc_l; [apply (StepTick _ _ (6 * minute)%Z); discriminate|].
    eapply rtc_l; [apply (StepReconcile _ _ ("ns", "b1"))|].
    eapply rtc_l; [apply (StepReconcile _ _ ("ns", "b1"))|].
    apply rtc_refl.
  - split.
    + vm_compute. eexists. reflexivity.
    + eexists. split; [vm_compute; reflexivity|reflexivity].
Qed.

Lemma ContainsFinalizer_true s : 
  browserPodFinalizer ∈ b_Finalizers s → ContainsFinalizer s browserPodFinalizer = true.
Proof. intros H. unfold ContainsFinalizer. by apply bool_decide_eq_true_2. Qed.

Lemma assignIdentityLabels_finalizers x : 
  b_Finalizers (assignIdentityLabels x) = b_Finalizers x.
Proof. done. Qed.


(** * Further properties *)

(** ** The merge engine, field by field *)

Lemma mergeMapPtr_nil template override :
  mergeMapPtr template override = None ↔ template = None ∧ override = None.
Proof. destruct template, override; simpl; split; (try done); by intros [? ?]. Qed.

Lemma mergeMapPtr_lookup template override k :
  default ∅ (mergeMapPtr template override) !! k =
  match default ∅ override !! k with
  | Some v => Some v
  | None => default ∅ template !! k
  end.
Proof.
  unfold mergeMapPtr, copyInto.
  destruct template as [t|], override as [o|]; simpl;
    rewrite ?lookup_union, ?lookup_empty; try done;
    try (destruct (o !! k)); try (destruct (t !! k)); done.
Qed.

(** X1.  The fields of a merged version where the version wins.  Each of
    the three map fields (labels, annotations, node selector) is [nil]
    only when neither the template nor the version sets it, and otherwise
    maps a key to the version's value when the version has the key and to
    the template's value when only the template has it.  A scalar field
    the version sets is never replaced: the image is always the version's
    own; resources, affinity, privileged flag, DNS configuration,
    security context and working directory come from the template only
    when the version leaves them [nil], and the image pull policy only
    when the version's is the empty string. *)
Theorem merged_fields_override_wins (ro : RangeOrder) (b : BrowserVersionConfigSpec)
    (t : Template) :
  let m := mergeWithSpec ro b t in
  let merges (template override merged : option (gmap string string)) :=
    (merged = None ↔ template = None ∧ override = None) ∧
    ∀ k, default ∅ merged !! k =
         match default ∅ override !! k with
         | Some v => Some v
         | None => default ∅ template !! k
         end in
  let inherits {A} (template override merged : option A) :=
    merged = match override with Some v => Some v | None => template end in
  (merges (tpl_Labels t) (bv_Labels b) (bv_Labels m) ∧
   merges (tpl_Annotations t) (bv_Annotations b) (bv_Annotations m) ∧
   merges (tpl_NodeSelector t) (bv_NodeSelector b) (bv_NodeSelector m)) ∧
  (bv_Image m = bv_Image b ∧
   bv_ImagePullPolicy m =
     (if decide (bv_ImagePullPolicy b = "") then tpl_ImagePullPolicy t
      else bv_ImagePullPolicy b) ∧
   inherits (tpl_Resources t) (bv_Resources b) (bv_Resources m) ∧
   inherits (tpl_Affinity t) (bv_Affinity b) (bv_Affinity m) ∧
   inherits (tpl_Privileged t) (bv_Privileged b) (bv_Privileged m) ∧
   inherits (tpl_DNSConfig t) (bv_DNSConfig b) (bv_DNSConfig m) ∧
   inherits (tpl_SecurityContext t) (bv_SecurityContext b) (bv_SecurityContext m) ∧
   inherits (tpl_WorkingDir t) (bv_WorkingDir b) (bv_WorkingDir m)).
Proof.
  cbv zeta. split.
  - simpl.
    split; [|split]; (split; [apply mergeMapPtr_nil|intros k; apply mergeMapPtr_lookup]).
  - simpl. unfold firstNonNilResource.
    repeat split; by destruct b as [? ? ? ? [] ? ? ? ? [] ? ? ? ? [] ? [] [] []].
Qed.

Lemma appendBoth_not_empty {A} (template override : option (list A)) :
  appendBoth template override ≠ Some [].
Proof.
  unfold appendBoth. cbv zeta.
  match goal with |- context [decide (length ?r = 0)] => generalize r end.
  intros r. destruct (decide _) as [|Hne]; [done|]. intros [= ->]. by apply Hne.
Qed.

(** X2.  The list fields of a merged version that are concatenated:
    volumes, tolerations, host aliases and image pull secrets hold the
    template's items followed by the version's; the volume mounts hold
    the version's items followed by the template's; none of the five is
    ever an empty non-nil list. *)
Theorem merged_lists_concatenate (ro : RangeOrder) (b : BrowserVersionConfigSpec)
    (t : Template) :
  let m := mergeWithSpec ro b t in
  (default [] (bv_Volumes m) = default [] (tpl_Volumes t) ++ default [] (bv_Volumes b) ∧
   default [] (bv_Tolerations m) =
     default [] (tpl_Tolerations t) ++ default [] (bv_Tolerations b) ∧
   default [] (bv_HostAliases m) =
     default [] (tpl_HostAliases t) ++ default [] (bv_HostAliases b) ∧
   default [] (bv_ImagePullSecrets m) =
     default [] (tpl_ImagePullSecrets t) ++ default [] (bv_ImagePullSecrets b) ∧
   default [] (bv_VolumeMounts m) =
     default [] (bv_VolumeMounts b) ++ default [] (tpl_VolumeMounts t)) ∧
  (bv_Volumes m ≠ Some [] ∧ bv_Tolerations m ≠ Some [] ∧ bv_HostAliases m ≠ Some [] ∧
   bv_ImagePullSecrets m ≠ Some [] ∧ bv_VolumeMounts m ≠ Some []).
Proof.
  cbv zeta. simpl.
  unfold mergeVolumePtr, mergeTolerationPtr, mergeHostAliasPtr, mergeLocalObjectRefPtr,
    mergeVolumeMountsPtr.
  rewrite !appendBoth_default.
  repeat split; apply appendBoth_not_empty.
Qed.

Lemma filter_names (P : string → Prop) `{∀ n, Decision (P n)} (l : list Sidecar) :
  sc_Name <$> filter (λ s, P (sc_Name s)) l = filter P (sc_Name <$> l).
Proof.
  induction l as [|s l IH]; [done|].
  rewrite fmap_cons, !filter_cons.
  destruct (decide (P (sc_Name s))); [rewrite fmap_cons; f_equal|]; exact IH.
Qed.

Lemma find_named_None name (l : list Sidecar) :
  name ∉ sc_Name <$> l → List.find (sidecarNamed name) l = None.
Proof.
  induction l as [|x l IH]; intros Hnot; [done|].
  simpl. unfold sidecarNamed at 1.
  rewrite fmap_cons, not_elem_of_cons in Hnot. destruct Hnot as [Hx Hl].
  rewrite bool_decide_eq_false_2 by congruence. by apply IH.
Qed.

Lemma mergeSidecarPtr_default template override :
  default [] (mergeSidecarPtr template override) =
  default [] override ++
  filter (λ s, sc_Name s ∉ sc_Name <$> default [] override) (default [] template).
Proof.
  unfold mergeSidecarPtr. destruct template as [tl|], override as [ol|]; simpl.
  - rewrite appendMissing_eq. f_equal. apply list_filter_iff. intros s.
    by rewrite elem_of_list_to_set.
  - induction tl as [|s tl IH]; [done|].
    rewrite filter_cons_True by apply not_elem_of_nil. by f_equal.
  - by rewrite app_nil_r.
  - done.
Qed.

Lemma mergeSidecarPtr_nil template override :
  mergeSidecarPtr template override = None ↔ template = None ∧ override = None.
Proof. destruct template, override; simpl; split; (try done); by intros [? ?]. Qed.

Lemma inheritFromTemplate_default ro original templ merged :
  default [] (inheritFromTemplate ro original templ merged) =
  inheritOne ro (default [] original) templ <$> default [] merged.
Proof.
  unfold inheritFromTemplate.
  destruct original as [orig|], templ as [tl|], merged as [l|]; simpl; try done.
  - symmetry. etrans; [|apply list_fmap_id]. apply list_fmap_ext. intros i m _.
    unfold inheritOne. by destruct (List.find _ orig).
  - symmetry. etrans; [|apply list_fmap_id]. apply list_fmap_ext. intros i m _. done.
  - symmetry. etrans; [|apply list_fmap_id]. apply list_fmap_ext. intros i m _. done.
Qed.

Lemma inheritFromTemplate_nil ro original templ merged :
  inheritFromTemplate ro original templ merged = None ↔ merged = None.
Proof. unfold inheritFromTemplate. by destruct original, templ, merged. Qed.

Lemma inheritOne_foreign ro orig templ m :
  sc_Name m ∉ sc_Name <$> orig ∨ sc_Name m ∉ sc_Name <$> default [] templ →
  inheritOne ro orig templ m = m.
Proof.
  intros Hout. unfold inheritOne.
  destruct (List.find (sidecarNamed (sc_Name m)) orig) as [o|] eqn:Hfind; [|done].
  apply find_some in Hfind as [Hin Hname]. unfold sidecarNamed in Hname.
  apply bool_decide_eq_true in Hname.
  destruct Hout as [Hout|Hout].
  - exfalso. apply Hout. apply list_elem_of_fmap. exists o. split; [done|].
    by apply list_elem_of_In.
  - unfold findTemplateSidecar. destruct templ as [tl|]; [|done].
    rewrite Hname. by rewrite find_named_None.
Qed.

(** X3.  The sidecars of a merged version, by name.  The list is [nil]
    only when neither side declares sidecars.  Its names are the
    version's names, in the version's order, followed by the template's
    names the version does not use, in the template's order; so it has no
    repeated name when neither input has.  An entry whose name only the
    template uses is the template's entry unchanged, and an entry whose
    name only the version uses is the version's entry unchanged. *)
Theorem merged_sidecars_by_name (ro : RangeOrder) (b : BrowserVersionConfigSpec)
    (t : Template) :
  let ol := default [] (bv_Sidecars b) in
  let tl := default [] (tpl_Sidecars t) in
  let merged := bv_Sidecars (mergeWithSpec ro b t) in
  let ml := default [] merged in
  (merged = None ↔ tpl_Sidecars t = None ∧ bv_Sidecars b = None) ∧
  sc_Name <$> ml =
    (sc_Name <$> ol) ++ filter (λ n, n ∉ sc_Name <$> ol) (sc_Name <$> tl) ∧
  (NoDup (sc_Name <$> ol) → NoDup (sc_Name <$> tl) → NoDup (sc_Name <$> ml)) ∧
  (∀ m, m ∈ ml → sc_Name m ∉ sc_Name <$> ol → m ∈ tl) ∧
  (∀ m, m ∈ ml → sc_Name m ∉ sc_Name <$> tl → m ∈ ol).
Proof.
  cbv zeta.
  change (bv_Sidecars (mergeWithSpec ro b t))
    with (inheritFromTemplate ro (bv_Sidecars b) (tpl_Sidecars t)
            (mergeSidecarPtr (tpl_Sidecars t) (bv_Sidecars b))).
  set (ol := default [] (bv_Sidecars b)). set (tl := default [] (tpl_Sidecars t)).
  assert (Hnames :
    sc_Name <$> default [] (inheritFromTemplate ro (bv_Sidecars b) (tpl_Sidecars t)
                              (mergeSidecarPtr (tpl_Sidecars t) (bv_Sidecars b))) =
    (sc_Name <$> ol) ++ filter (λ n, n ∉ sc_Name <$> ol) (sc_Name <$> tl)).
  { rewrite inheritFromTemplate_default, mergeSidecarPtr_default.
    rewrite <- list_fmap_compose.
    rewrite (list_fmap_ext (sc_Name ∘ inheritOne ro _ _) sc_Name)
      by (intros; apply inheritOne_name).
    rewrite fmap_app. f_equal. subst ol tl.
    by rewrite <- (filter_names (λ n, n ∉ sc_Name <$> default [] (bv_Sidecars b))). }
  assert (Hin : ∀ m,
    m ∈ default [] (inheritFromTemplate ro (bv_Sidecars b) (tpl_Sidecars t)
                      (mergeSidecarPtr (tpl_Sidecars t) (bv_Sidecars b))) →
    ∃ x, m = inheritOne ro ol (tpl_Sidecars t) x ∧
         (x ∈ ol ∨ (x ∈ tl ∧ sc_Name x ∉ sc_Name <$> ol))).
  { intros m. rewrite inheritFromTemplate_default, mergeSidecarPtr_default.
    intros Hm. apply list_elem_of_fmap in Hm as (x & -> & Hx). exists x. split; [done|].
    apply elem_of_app in Hx as [Hx|Hx]; [by left|].
    apply list_elem_of_filter in Hx as [? ?]. by right. }
  split; [|split; [|split; [|split]]].
  - rewrite inheritFromTemplate_nil. apply mergeSidecarPtr_nil.
  - exact Hnames.
  - intros Ho Ht. rewrite Hnames. apply NoDup_app. split; [done|]. split.
    + intros n Hn Hf. by apply list_elem_of_filter in Hf as [? _].
    + by apply NoDup_filter.
  - intros m Hm Hnot. destruct (Hin m Hm) as (x & -> & Hx).
    rewrite inheritOne_name in Hnot.
    rewrite inheritOne_foreign by (by left).
    destruct Hx as [Hx|[Hx _]]; [|done].
    exfalso. apply Hnot. apply list_elem_of_fmap. by exists x.
  - intros m Hm Hnot. destruct (Hin m Hm) as (x & -> & Hx).
    rewrite inheritOne_name in Hnot.
    rewrite inheritOne_foreign by (by right).
    destruct Hx as [Hx|[Hx _]]; [done|].
    exfalso. apply Hnot. apply list_elem_of_fmap. by exists x.
Qed.

(** X4.  The environment of a merged version.  It is [nil] only when
    neither side sets one.  It never holds two variables of the same
    name, and it holds a variable exactly when that variable is the last
    one of its name in the version's list, or the version has no variable
    of that name and it is the last one of its name in the template's
    list. *)
Theorem merged_env_by_name (ro : RangeOrder) (b : BrowserVersionConfigSpec) (t : Template) :
  let merged := bv_Env (mergeWithSpec ro b t) in
  let oenv := default [] (bv_Env b) in
  let tenv := default [] (tpl_Env t) in
  (merged = None ↔ tpl_Env t = None ∧ bv_Env b = None) ∧
  NoDup (env_Name <$> default [] merged) ∧
  ∀ e, e ∈ default [] merged ↔
       envNamed oenv (env_Name e) = Some e ∨
       (envNamed oenv (env_Name e) = None ∧ envNamed tenv (env_Name e) = Some e).
Proof.
  cbv zeta.
  change (bv_Env (mergeWithSpec ro b t)) with (mergeEnvPtr ro (tpl_Env t) (bv_Env b)).
  rewrite !mergeEnvPtr_result.
  destruct (tpl_Env t) as [tenv|] eqn:Ht, (bv_Env b) as [oenv|] eqn:Ho; simpl.
  - split; [split; [done|by intros [? ?]]|]. split; [apply merged_env_NoDup|].
    intros e. apply merged_env_elem.
  - split; [split; [done|by intros [? ?]]|]. split; [apply (merged_env_NoDup ro tenv [])|].
    intros e. apply (merged_env_elem ro tenv []).
  - split; [split; [done|by intros [? ?]]|]. split; [apply (merged_env_NoDup ro [] oenv)|].
    intros e. apply (merged_env_elem ro [] oenv).
  - split; [done|]. split; [apply NoDup_nil_2|].
    intros e. rewrite elem_of_nil. unfold envNamed. simpl. split; [done|].
    by intros [?|[_ ?]].
Qed.

(** ** The store under the notifications of the informer *)

Lemma removeAll_lookup {V} (l : list string) (init : gmap string V) K :
  removeAll l init !! K = if decide (K ∈ l) then None else init !! K.
Proof.
  induction l as [|k l IH] using rev_ind.
  - rewrite decide_False by apply not_elem_of_nil. done.
  - unfold removeAll in *. rewrite foldl_app. simpl.
    destruct (decide (k = K)) as [->|Hne].
    + rewrite lookup_delete_eq. rewrite decide_True; [done|].
      apply elem_of_app. right. by apply list_elem_of_singleton.
    + rewrite lookup_delete_ne by done. rewrite IH.
      destruct (decide (K ∈ l)) as [Hin|Hout].
      * rewrite decide_True; [done|]. apply elem_of_app. by left.
      * rewrite decide_False; [done|]. rewrite elem_of_app, list_elem_of_singleton.
        intros [?|?]; [done|congruence].
Qed.

Lemma dropVersions_removeAll rt ns name versions m :
  dropVersions rt ns name versions m =
  removeAll ((λ '(version, _), keyFor rt ns name version) <$> range (rangeOrder rt) versions) m.
Proof.
  unfold dropVersions, removeAll.
  generalize (range (rangeOrder rt) versions). intros l. revert m.
  induction l as [|[v c] l IH]; intros m; [done|]. simpl. apply IH.
Qed.

Lemma removeAll_app {V} (l1 l2 : list string) (init : gmap string V) :
  removeAll (l1 ++ l2) init = removeAll l2 (removeAll l1 init).
Proof. unfold removeAll. by rewrite foldl_app. Qed.

Lemma onDelete_config rt bc s :
  config (onDelete rt (AnyBrowserConfig (Some bc)) s) =
  removeAll (fst <$> storeEntries rt (bc_Namespace bc) (spec_Browsers (bc_Spec bc)))
            (config s).
Proof.
  unfold onDelete, storeEntries. simpl.
  generalize (range (rangeOrder rt) (spec_Browsers (bc_Spec bc))).
  intros l. generalize (config s). induction l as [|[n vs] l IH]; intros m; [done|].
  simpl. rewrite fmap_app, removeAll_app, IH. f_equal.
  rewrite dropVersions_removeAll. f_equal.
  rewrite <- list_fmap_compose. apply list_fmap_ext. by intros i [v c] _.
Qed.

Lemma declared_key rt bc K :
  K ∈ fst <$> storeEntries rt (bc_Namespace bc) (spec_Browsers (bc_Spec bc)) ↔
  ∃ name version, declares bc name version ∧ K = keyFor rt (bc_Namespace bc) name version.
Proof.
  rewrite list_elem_of_fmap. split.
  - intros ([K' v] & -> & Hin). apply storeEntries_elem in Hin
      as (name & versions & version & Hn & Hv & ->).
    exists name, version. split; [|done]. exists versions. split; [done|]. by eexists.
  - intros (name & version & (versions & Hn & [v Hv]) & ->).
    exists (keyFor rt (bc_Namespace bc) name version, v). split; [done|].
    apply storeEntries_elem. eauto 10.
Qed.

Lemma merged_key rt bc K :
  K ∈ fst <$> storeEntries rt (bc_Namespace bc)
                (spec_Browsers (MergeWithTemplate (rangeOrder rt) (bc_Spec bc))) ↔
  K ∈ fst <$> storeEntries rt (bc_Namespace bc) (spec_Browsers (bc_Spec bc)).
Proof.
  rewrite !list_elem_of_fmap. split.
  - intros ([K' v] & -> & Hin). apply storeEntries_elem in Hin
      as (name & versions & version & Hn & Hv & ->).
    destruct (proj1 (merged_entry rt bc name version v)) as (vs & cfg & Hn' & Hv' & _);
      [by eauto|].
    exists (keyFor rt (bc_Namespace bc) name version, cfg). split; [done|].
    apply storeEntries_elem. eauto 10.
  - intros ([K' v] & -> & Hin). apply storeEntries_elem in Hin
      as (name & versions & version & Hn & Hv & ->).
    destruct (proj2 (merged_entry rt bc name version (resolvedEntry rt bc v)))
      as (vs & Hn' & Hv'); [by eauto 10|].
    exists (keyFor rt (bc_Namespace bc) name version, resolvedEntry rt bc v). split; [done|].
    apply storeEntries_elem. eauto 10.
Qed.

Lemma onAddOrUpdate_case rt obj s :
  onAddOrUpdate rt obj s =
  match typeSwitch obj with
  | Some bc => onAddOrUpdate rt (AnyBrowserConfig (Some bc)) s
  | None => s
  end.
Proof. unfold onAddOrUpdate. by destruct (typeSwitch obj). Qed.

Lemma onDelete_case rt obj s :
  onDelete rt obj s =
  match typeSwitch obj with
  | Some bc => onDelete rt (AnyBrowserConfig (Some bc)) s
  | None => s
  end.
Proof. unfold onDelete. by destruct (typeSwitch obj). Qed.

(** X5.  A delete notification for a catalog removes, for every pair
    (browserName, browserVersion) the notified object declares, the store
    entry of that pair, whichever object had installed it; every other
    store key keeps its entry. *)
Theorem onDelete_removes_declared_pairs (rt : GoRuntime) (bc : BrowserConfig)
    (s : BrowserConfigStore) :
  let s' := onDelete rt (AnyBrowserConfig (Some bc)) s in
  (∀ name version, declares bc name version →
     Get rt s' (bc_Namespace bc) name version = (None, false)) ∧
  (∀ K, (∀ name version, declares bc name version →
           K ≠ keyFor rt (bc_Namespace bc) name version) →
        config s' !! K = config s !! K).
Proof.
  cbv zeta. split.
  - intros name version Hdecl. unfold Get. rewrite onDelete_config, removeAll_lookup.
    rewrite decide_True; [done|]. apply declared_key. eauto.
  - intros K Hother. rewrite onDelete_config, removeAll_lookup.
    rewrite decide_False; [done|]. intros Hin. apply declared_key in Hin
      as (name & version & Hdecl & ->). by apply (Hother name version).
Qed.

(** X6.  Adding an object and then deleting the same object leaves the
    store as deleting alone would: nothing the add installed survives the
    delete.  From the empty store the result is the empty store. *)
Theorem onDelete_undoes_onAddOrUpdate (rt : GoRuntime) (obj : any) (s : BrowserConfigStore) :
  onDelete rt obj (onAddOrUpdate rt obj s) = onDelete rt obj s ∧
  onDelete rt obj (onAddOrUpdate rt obj NewBrowserConfigStore) = NewBrowserConfigStore.
Proof.
  assert (Hgen : ∀ s, config (onDelete rt obj (onAddOrUpdate rt obj s)) =
                      config (onDelete rt obj s)).
  { intros s0. rewrite !(onDelete_case rt obj), (onAddOrUpdate_case rt obj).
    destruct (typeSwitch obj) as [bc|] eqn:Hts; [|done].
    rewrite !onDelete_config, onAddOrUpdate_config.
    apply map_eq. intros K. rewrite !removeAll_lookup.
    destruct (decide _) as [|Hout]; [done|].
    apply installAll_lookup_absent. intros v Hin. apply Hout, merged_key.
    apply list_elem_of_fmap. by exists (K, v). }
  split.
  - specialize (Hgen s). destruct (onDelete rt obj (onAddOrUpdate rt obj s)),
      (onDelete rt obj s). simpl in Hgen. by subst.
  - specialize (Hgen NewBrowserConfigStore).
    assert (Hempty : config (onDelete rt obj NewBrowserConfigStore) = ∅).
    { rewrite onDelete_case. destruct (typeSwitch obj) as [bc|]; [|done].
      rewrite onDelete_config. apply map_eq. intros K. rewrite removeAll_lookup.
      simpl. rewrite lookup_empty. by destruct (decide _). }
    rewrite Hempty in Hgen.
    destruct (onDelete rt obj (onAddOrUpdate rt obj NewBrowserConfigStore)).
    simpl in Hgen. by subst.
Qed.

Lemma installAll_lookup {V} (l : list (string * V)) (init : gmap string V) K :
  installAll l init !! K =
  match last (filter (λ p, p.1 = K) l) with
  | Some p => Some p.2
  | None => init !! K
  end.
Proof.
  induction l as [|[k v] l IH] using rev_ind; [done|].
  rewrite installAll_snoc, filter_app, filter_cons, filter_nil. simpl.
  destruct (decide (k = K)) as [->|Hne].
  - by rewrite lookup_insert_eq, last_snoc.
  - rewrite lookup_insert_ne by done. by rewrite app_nil_r.
Qed.

Lemma installAll_covered {V} (l1 l2 : list (string * V)) (init : gmap string V) :
  (∀ K, K ∈ l1.*1 → K ∈ l2.*1) →
  installAll l2 (installAll l1 init) = installAll l2 init.
Proof.
  intros Hsub. apply map_eq. intros K.
  rewrite (installAll_lookup l2 (installAll l1 init)), (installAll_lookup l2 init).
  destruct (last (filter (λ p, p.1 = K) l2)) as [p|] eqn:Hlast; [done|].
  apply installAll_lookup_absent. intros v Hin.
  assert (HK : K ∈ l2.*1).
  { apply Hsub. apply list_elem_of_fmap. by exists (K, v). }
  apply list_elem_of_fmap in HK as ([K' v'] & HK' & Hin'). simpl in HK'. subst K'.
  apply last_None in Hlast.
  assert (Hf : (K, v') ∈ filter (λ p : string * V, p.1 = K) l2).
  { by apply list_elem_of_filter. }
  rewrite Hlast in Hf. by apply elem_of_nil in Hf.
Qed.

Lemma written_keys rt ro bc K :
  K ∈ (storeEntries (withRangeOrder rt ro) (bc_Namespace bc)
         (spec_Browsers (MergeWithTemplate ro (bc_Spec bc)))).*1 ↔
  ∃ name version, declares bc name version ∧ K = keyFor rt (bc_Namespace bc) name version.
Proof.
  rewrite (merged_key (withRangeOrder rt ro) bc K).
  apply (declared_key (withRangeOrder rt ro) bc K).
Qed.

Lemma installAll_dom {V} (l : list (string * V)) (init : gmap string V) K :
  K ∈ dom (installAll l init) ↔ K ∈ l.*1 ∨ K ∈ dom init.
Proof.
  induction l as [|[k v] l IH] using rev_ind.
  - rewrite fmap_nil, elem_of_nil. tauto.
  - rewrite installAll_snoc, dom_insert, elem_of_union, elem_of_singleton, IH.
    rewrite fmap_app, elem_of_app, fmap_cons, fmap_nil, list_elem_of_singleton. simpl.
    tauto.
Qed.

(** X7.  A repeated delivery of an object to [onAddOrUpdate] leaves the
    store as the last delivery alone would, whatever orders [range] took
    in the two deliveries: nothing the earlier delivery wrote shows, and
    the store has the keys it had after the earlier one. *)
Theorem repeated_delivery_is_last_delivery (rt : GoRuntime) (first second : RangeOrder)
    (obj : any) (s : BrowserConfigStore) :
  let once := onAddOrUpdate (withRangeOrder rt first) obj s in
  let twice := onAddOrUpdate (withRangeOrder rt second) obj once in
  twice = onAddOrUpdate (withRangeOrder rt second) obj s ∧
  dom (config twice) = dom (config once).
Proof.
  cbv zeta. rewrite !(onAddOrUpdate_case _ obj).
  destruct (typeSwitch obj) as [bc|]; [|done].
  assert (Hcfg : ∀ a b : BrowserConfigStore, config a = config b → a = b).
  { intros [a] [b]. simpl. by intros ->. }
  assert (Hkeys : ∀ ro1 ro2 K,
    K ∈ (storeEntries (withRangeOrder rt ro1) (bc_Namespace bc)
           (spec_Browsers (MergeWithTemplate ro1 (bc_Spec bc)))).*1 →
    K ∈ (storeEntries (withRangeOrder rt ro2) (bc_Namespace bc)
           (spec_Browsers (MergeWithTemplate ro2 (bc_Spec bc)))).*1).
  { intros ro1 ro2 K HK. apply (written_keys rt ro2 bc K).
    by apply (written_keys rt ro1 bc K) in HK. }
  split.
  - apply Hcfg. rewrite !onAddOrUpdate_config. apply installAll_covered, Hkeys.
  - apply set_eq. intros K. rewrite !onAddOrUpdate_config, !installAll_dom.
    split.
    + intros [HK|[HK|HK]]; [left; by apply (Hkeys second first)|by left|by right].
    + intros [HK|HK]; [left; by apply (Hkeys first second)|right; by right].
Qed.

Lemma installAll_lookup_Some {V} (l : list (string * V)) (init : gmap string V) K v :
  installAll l init !! K = Some v → (K, v) ∈ l ∨ init !! K = Some v.
Proof.
  induction l as [|[k v'] l IH] using rev_ind; [by right|].
  rewrite installAll_snoc. destruct (decide (k = K)) as [->|Hne].
  - rewrite lookup_insert_eq. intros [= ->]. left. apply elem_of_app. right.
    by apply list_elem_of_singleton.
  - rewrite lookup_insert_ne by done. intros H. destruct (IH H) as [Hin|Hinit]; [|by right].
    left. apply elem_of_app. by left.
Qed.

Lemma deliver_snoc rt ns n s : deliver rt (ns ++ [n]) s = dispatch rt n (deliver rt ns s).
Proof. unfold deliver. by rewrite foldl_app. Qed.

Lemma onAddOrUpdate_lookup_Some rt obj s K cfg :
  config (onAddOrUpdate rt obj s) !! K = Some cfg →
  config s !! K = Some cfg ∨
  ∃ bc name version entry,
    typeSwitch obj = Some bc ∧ declaresEntry bc name version entry ∧
    K = keyFor rt (bc_Namespace bc) name version ∧ cfg = resolvedEntry rt bc entry.
Proof.
  rewrite onAddOrUpdate_case. destruct (typeSwitch obj) as [bc|] eqn:Hts; [|by left].
  rewrite onAddOrUpdate_config. intros H.
  apply installAll_lookup_Some in H as [Hin|Hold]; [|by left].
  right. apply storeEntries_elem in Hin as (name & versions & version & Hn & Hv & ->).
  destruct (proj1 (merged_entry rt bc name version cfg)) as (vs & entry & Hn' & Hv' & ->);
    [by eauto|].
  exists bc, name, version, entry. split; [done|]. split; [by exists vs|done].
Qed.

Lemma onDelete_lookup_Some rt obj s K cfg :
  config (onDelete rt obj s) !! K = Some cfg → config s !! K = Some cfg.
Proof.
  rewrite onDelete_case. destruct (typeSwitch obj) as [bc|] eqn:Hts; [|done].
  rewrite onDelete_config, removeAll_lookup. by destruct (decide _).
Qed.

(** X8.  Whatever notifications the informer delivers to a fresh store,
    in whatever order, every entry the store holds afterwards was
    declared by an object of an add or update notification: its key is
    the key of a pair that object declares and its value is that pair's
    entry merged with the object's template. *)
Theorem store_holds_only_declared_entries (rt : GoRuntime) (ns : list Notification)
    (K : string) (cfg : option BrowserVersionConfigSpec) :
  config (deliver rt ns NewBrowserConfigStore) !! K = Some cfg →
  ∃ obj bc name version entry,
    (Added obj ∈ ns ∨ ∃ oldObj, Updated oldObj obj ∈ ns) ∧
    typeSwitch obj = Some bc ∧
    declaresEntry bc name version entry ∧
    K = keyFor rt (bc_Namespace bc) name version ∧
    cfg = resolvedEntry rt bc entry.
Proof.
  induction ns as [|n ns IH] using rev_ind; [done|].
  rewrite deliver_snoc. intros H.
  assert (Hold : config (deliver rt ns NewBrowserConfigStore) !! K = Some cfg →
                 ∃ obj bc name version entry,
                   (Added obj ∈ ns ++ [n] ∨ ∃ oldObj, Updated oldObj obj ∈ ns ++ [n]) ∧
                   typeSwitch obj = Some bc ∧ declaresEntry bc name version entry ∧
                   K = keyFor rt (bc_Namespace bc) name version ∧
                   cfg = resolvedEntry rt bc entry).
  { intros H0. destruct (IH H0) as (obj & bc & name & version & entry & Hin & Hrest).
    exists obj, bc, name, version, entry. split; [|done].
    destruct Hin as [Hin|[o Hin]]; [left|right; exists o]; apply elem_of_app; by left. }
  destruct n as [obj|oldObj obj|obj]; simpl in H.
  - apply onAddOrUpdate_lookup_Some in H as [H|(bc & name & version & entry & Hrest)];
      [by apply Hold|].
    exists obj, bc, name, version, entry. split; [|done].
    left. apply elem_of_app. right. by apply list_elem_of_singleton.
  - apply onAddOrUpdate_lookup_Some in H as [H|(bc & name & version & entry & Hrest)];
      [by apply Hold|].
    exists obj, bc, name, version, entry. split; [|done].
    right. exists oldObj. apply elem_of_app. right. by apply list_elem_of_singleton.
  - apply onDelete_lookup_Some in H. by apply Hold.
Qed.

Lemma store_holds_only_declared_entries_witness :
  let rt := exampleRuntime in_order in
  let catalog := catalogOf None [("chrome", ("120.0", zeroVersionConfig "chrome:120"))] in
  let ns := [Deleted (AnyString "stale"); Added (AnyBrowserConfig (Some catalog))] in
  config (deliver rt ns NewBrowserConfigStore) !! "ns/chrome:120.0"
    = Some (Some (zeroVersionConfig "chrome:120")) ∧
  ∃ obj bc name version entry,
    (Added obj ∈ ns ∨ ∃ oldObj, Updated oldObj obj ∈ ns) ∧
    typeSwitch obj = Some bc ∧
    declaresEntry bc name version entry ∧
    "ns/chrome:120.0" = keyFor rt (bc_Namespace bc) name version ∧
    Some (zeroVersionConfig "chrome:120") = resolvedEntry rt bc entry.
Proof.
  cbv zeta. split; [reflexivity|].
  apply (store_holds_only_declared_entries (exampleRuntime in_order)
           [Deleted (AnyString "stale");
            Added (AnyBrowserConfig
                     (Some (catalogOf None
                              [("chrome", ("120.0", zeroVersionConfig "chrome:120"))])))]
           "ns/chrome:120.0" (Some (zeroVersionConfig "chrome:120"))).
  reflexivity.
Defined.

(** ** Container states, options and the built pod *)

(** X9.  [containerStateEqual] is an equivalence relation on container
    states: reflexive, symmetric and transitive; two states in which
    different members are set are never equal. *)
Theorem containerStateEqual_equivalence :
  (∀ a, containerStateEqual a a = true) ∧
  (∀ a b, containerStateEqual a b = containerStateEqual b a) ∧
  (∀ a b c, containerStateEqual a b = true → containerStateEqual b c = true →
            containerStateEqual a c = true) ∧
  (∀ a b, containerStateEqual a b = true →
          (is_Some (Waiting a) ↔ is_Some (Waiting b)) ∧
          (is_Some (Running a) ↔ is_Some (Running b)) ∧
          (is_Some (Terminated a) ↔ is_Some (Terminated b))).
Proof.
  split; [|split; [|split]].
  - intros [[wa|] [ra|] [ta|]]; unfold containerStateEqual, timeEqual; simpl;
      rewrite ?bool_decide_eq_true_2; done.
  - intros [[wa|] [ra|] [ta|]] [[wb|] [rb|] [tb|]]; unfold containerStateEqual, timeEqual;
      simpl; try done;
      repeat match goal with
             | |- context [bool_decide (?x = ?y)] =>
                 destruct (decide (x = y));
                 [rewrite (bool_decide_eq_true_2 (x = y)) by done;
                  rewrite ?(bool_decide_eq_true_2 (y = x)) by done
                 |rewrite (bool_decide_eq_false_2 (x = y)) by done;
                  rewrite ?(bool_decide_eq_false_2 (y = x)) by done]
             end; simpl; try done.
  - intros [[wa|] [ra|] [ta|]] [[wb|] [rb|] [tb|]] [[wc|] [rc|] [tc|]];
      unfold containerStateEqual, timeEqual; simpl; try done;
      rewrite ?andb_true_iff, ?bool_decide_eq_true; intuition congruence.
  - intros [[wa|] [ra|] [ta|]] [[wb|] [rb|] [tb|]]; unfold containerStateEqual; simpl;
      try done; intros _; repeat split; intros [? ?]; (done || by eexists).
Qed.

Lemma union_lookup_first (src dst : gmap string string) k :
  (src ∪ dst) !! k = match src !! k with Some v => Some v | None => dst !! k end.
Proof. rewrite lookup_union. by destruct (src !! k), (dst !! k). Qed.

Lemma applySelenosisOptions_containers ro pod opts :
  ps_Containers (p_Spec (applySelenosisOptions ro pod opts)) =
  withOptionEnv ro opts <$> ps_Containers (p_Spec pod).
Proof.
  unfold applySelenosisOptions, withOptionEnv, containerOption. destruct opts as [opts|]; simpl.
  - destruct (decide (0 < size (so_Containers opts))) as [Hpos|Hzero].
    + by destruct (so_Labels opts).
    + assert (Hempty : so_Containers opts = ∅).
      { apply map_size_empty_iff. lia. }
      transitivity (ps_Containers (p_Spec pod)); [by destruct (so_Labels opts)|].
      symmetry. etrans; [|apply list_fmap_id]. apply list_fmap_ext. intros i c _.
      by rewrite Hempty, lookup_empty.
  - symmetry. apply list_fmap_id.
Qed.

Lemma applySelenosisOptions_frame ro pod opts :
  let pod' := applySelenosisOptions ro pod opts in
  p_Name pod' = p_Name pod ∧ p_Namespace pod' = p_Namespace pod ∧
  p_OwnerReferences pod' = p_OwnerReferences pod ∧
  ps_InitContainers (p_Spec pod') = ps_InitContainers (p_Spec pod) ∧
  ps_Hostname (p_Spec pod') = ps_Hostname (p_Spec pod) ∧
  ps_RestartPolicy (p_Spec pod') = ps_RestartPolicy (p_Spec pod).
Proof.
  unfold applySelenosisOptions. destruct opts as [opts|]; [|done].
  destruct (decide (0 < size (so_Containers opts))), (so_Labels opts); done.
Qed.

Lemma buildBrowserPod_containers ro browser cfg opts :
  ps_Containers (p_Spec (buildBrowserPod ro browser cfg opts)) =
  withOptionEnv ro opts <$> collectedContainers cfg.
Proof.
  unfold buildBrowserPod. cbv zeta. rewrite applySelenosisOptions_containers.
  f_equal. unfold collectedContainers. simpl.
  destruct (bv_Privileged cfg) as [[|]|], (bv_Sidecars cfg); done.
Qed.

Lemma withOptionEnv_same ro opts c :
  c_Name (withOptionEnv ro opts c) = c_Name c ∧
  c_Image (withOptionEnv ro opts c) = c_Image c ∧
  c_Ports (withOptionEnv ro opts c) = c_Ports c ∧
  c_SecurityContext (withOptionEnv ro opts c) = c_SecurityContext c.
Proof.
  unfold withOptionEnv. destruct (containerOption opts (c_Name c)); [|done].
  by destruct (decide _).
Qed.

Lemma applySelenosisOptions_labels ro pod opts k :
  default ∅ (p_Labels (applySelenosisOptions ro pod opts)) !! k =
  match default ∅ (opts ≫= so_Labels) !! k with
  | Some v => Some v
  | None => default ∅ (p_Labels pod) !! k
  end.
Proof.
  unfold applySelenosisOptions. destruct opts as [opts|]; simpl.
  - destruct (so_Labels opts) as [labels|]; simpl.
    + unfold assignAll, copyInto. simpl. rewrite union_lookup_first.
      by destruct (decide (0 < size (so_Containers opts))).
    + rewrite lookup_empty. by destruct (decide (0 < size (so_Containers opts))).
  - by rewrite lookup_empty.
Qed.

(** X10.  [applySelenosisOptions] changes nothing of a pod but the
    environment of its containers and its labels.  A container the
    options name with a non-empty environment gets its environment merged
    by [mergeEnvVars]; every other container is left as it is.  A label
    of the options replaces the pod's label of that key, and the other
    labels stay. *)
Theorem options_touch_only_env_and_labels (ro : RangeOrder) (pod : Pod)
    (opts : option SelenosisOptions) :
  let pod' := applySelenosisOptions ro pod opts in
  withoutEnvAndLabels pod' = withoutEnvAndLabels pod ∧
  (∀ i c, ps_Containers (p_Spec pod) !! i = Some c →
     ps_Containers (p_Spec pod') !! i =
     Some match containerOption opts (c_Name c) with
          | Some option =>
              if decide (size (co_Env option) = 0) then c
              else setEnv c (mergeEnvVars ro (c_Env c) (co_Env option))
          | None => c
          end) ∧
  (∀ k, default ∅ (p_Labels pod') !! k =
        match default ∅ (opts ≫= so_Labels) !! k with
        | Some v => Some v
        | None => default ∅ (p_Labels pod) !! k
        end).
Proof.
  cbv zeta. split; [|split].
  - unfold withoutEnvAndLabels. rewrite applySelenosisOptions_containers.
    rewrite <- list_fmap_compose.
    assert (Herase :
      (λ c, setEnv c []) ∘ withOptionEnv ro opts <$> ps_Containers (p_Spec pod) =
      (λ c, setEnv c []) <$> ps_Containers (p_Spec pod)).
    { apply list_fmap_ext. intros i c _. simpl. unfold withOptionEnv.
      destruct (containerOption opts (c_Name c)) as [option|]; [|done].
      by destruct (decide _). }
    rewrite Herase.
    unfold applySelenosisOptions. destruct opts as [opts|]; [|done].
    destruct (decide (0 < size (so_Containers opts))), (so_Labels opts); done.
  - intros i c Hc. by rewrite applySelenosisOptions_containers, list_lookup_fmap, Hc.
  - apply applySelenosisOptions_labels.
Qed.

(** X11.  The labels and annotations of a built pod.  A label comes from
    the options document if that sets the key, else from the resolved
    configuration, else from the Browser.  An annotation comes from the
    resolved configuration if that sets the key, else from the Browser;
    the Browser's own options annotation is never copied. *)
Theorem pod_labels_and_annotations (ro : RangeOrder) (browser : Browser)
    (cfg : BrowserVersionConfigSpec) (opts : option SelenosisOptions) :
  let pod := buildBrowserPod ro browser cfg opts in
  (∀ k, default ∅ (p_Labels pod) !! k =
        match default ∅ (opts ≫= so_Labels) !! k with
        | Some v => Some v
        | None =>
            match default ∅ (bv_Labels cfg) !! k with
            | Some v => Some v
            | None => default ∅ (b_Labels browser) !! k
            end
        end) ∧
  (∀ k, default ∅ (p_Annotations pod) !! k =
        match default ∅ (bv_Annotations cfg) !! k with
        | Some v => Some v
        | None =>
            if decide (k = selenosisOptionsAnnotationKey) then None
            else default ∅ (b_Annotations browser) !! k
        end).
Proof.
  cbv zeta. split.
  - intros k. unfold buildBrowserPod. cbv zeta. rewrite applySelenosisOptions_labels.
    destruct (default ∅ (opts ≫= so_Labels) !! k); [done|]. simpl.
    unfold assignAll, copyInto.
    destruct (bv_Labels cfg) as [cl|], (b_Labels browser) as [bl|]; simpl;
      rewrite ?union_lookup_first, ?lookup_empty;
      repeat match goal with |- context [?m !! k] => destruct (m !! k) end; done.
  - intros k.
    assert (Hann : p_Annotations (buildBrowserPod ro browser cfg opts) =
                   p_Annotations (buildBrowserPod ro browser cfg None)).
    { unfold buildBrowserPod, applySelenosisOptions. cbv zeta.
      destruct opts as [opts|]; [|done].
      destruct (decide (0 < size (so_Containers opts))), (so_Labels opts); done. }
    rewrite Hann. unfold buildBrowserPod, applySelenosisOptions, assignAll, copyInto. simpl.
    destruct (bv_Annotations cfg) as [ca|], (b_Annotations browser) as [ba|]; simpl;
      rewrite ?union_lookup_first, ?lookup_empty.
    + destruct (ca !! k); [done|]. destruct (decide (k = selenosisOptionsAnnotationKey)) as [->|].
      * by rewrite lookup_delete_eq.
      * rewrite lookup_delete_ne by congruence. by destruct (ba !! k).
    + destruct (ca !! k); [done|]. by destruct (decide _).
    + destruct (decide (k = selenosisOptionsAnnotationKey)) as [->|].
      * by rewrite lookup_delete_eq.
      * rewrite lookup_delete_ne by congruence. by destruct (ba !! k).
    + by destruct (decide _).
Qed.

(** X12.  The shape of a built pod.  It carries the Browser's name and
    namespace, the Browser's name as host name, restart policy [Never]
    and one owner reference, to the Browser as controller.  Its
    containers are the browser container, with the image of the resolved
    configuration, followed by one container per sidecar, in the order of
    the configuration; only the browser container is ever privileged,
    and only when the configuration asks for it.  Its init containers are
    those of the configuration, in order, none of them privileged. *)
Theorem pod_shape (ro : RangeOrder) (browser : Browser)
    (cfg : BrowserVersionConfigSpec) (opts : option SelenosisOptions) :
  let pod := buildBrowserPod ro browser cfg opts in
  let sidecars := default [] (bv_Sidecars cfg) in
  let containers := ps_Containers (p_Spec pod) in
  (podKey pod = browserKey browser ∧
   ps_Hostname (p_Spec pod) = b_Name browser ∧
   ps_RestartPolicy (p_Spec pod) = RestartPolicyNever ∧
   p_OwnerReferences pod =
     [ {| or_Kind := "Browser"; or_Name := b_Name browser;
          or_Controller := true; or_BlockOwnerDeletion := true |} ]) ∧
  (c_Name <$> containers = browserContainerName :: (sc_Name <$> sidecars) ∧
   c_Image <$> containers = bv_Image cfg :: (sc_Image <$> sidecars) ∧
   c_SecurityContext <$> containers =
     (match bv_Privileged cfg with
      | Some true => Some {| sctx_Privileged := Some true |}
      | _ => None
      end) :: ((λ _, None) <$> sidecars)) ∧
  (c_Name <$> ps_InitContainers (p_Spec pod) =
     sc_Name <$> default [] (bv_InitContainers cfg) ∧
   ∀ c, c ∈ ps_InitContainers (p_Spec pod) → c_SecurityContext c = None).
Proof.
  cbv zeta.
  destruct (applySelenosisOptions_frame ro (buildBrowserPod ro browser cfg None) opts)
    as (Hname & Hns & Hown & Hinit & Hhost & Hrestart).
  change (applySelenosisOptions ro (buildBrowserPod ro browser cfg None) opts)
    with (buildBrowserPod ro browser cfg opts) in *.
  split; [|split].
  - unfold podKey. rewrite Hname, Hns, Hown, Hhost, Hrestart. done.
  - rewrite buildBrowserPod_containers, <- !list_fmap_compose.
    rewrite (list_fmap_ext (c_Name ∘ withOptionEnv ro opts) c_Name)
      by (intros; apply withOptionEnv_same).
    rewrite (list_fmap_ext (c_Image ∘ withOptionEnv ro opts) c_Image)
      by (intros; apply withOptionEnv_same).
    rewrite (list_fmap_ext (c_SecurityContext ∘ withOptionEnv ro opts) c_SecurityContext)
      by (intros; apply withOptionEnv_same).
    unfold collectedContainers. rewrite !fmap_cons, <- !list_fmap_compose.
    split; [|split].
    + f_equal. by destruct (bv_Privileged cfg) as [[|]|].
    + f_equal. by destruct (bv_Privileged cfg) as [[|]|].
    + f_equal. by destruct (bv_Privileged cfg) as [[|]|].
  - rewrite Hinit. simpl. destruct (bv_InitContainers cfg) as [ics|]; simpl.
    + split; [by rewrite <- list_fmap_compose|].
      intros c Hc. apply list_elem_of_fmap in Hc as (ic & -> & _). done.
    + split; [done|]. intros c Hc. by apply elem_of_nil in Hc.
Qed.

Lemma find_fmap {A B} (p : B → bool) (g : A → B) (l : list A) :
  List.find p (g <$> l) = g <$> List.find (λ x, p (g x)) l.
Proof.
  induction l as [|x l IH]; [done|]. simpl. destruct (p (g x)); [done|]. apply IH.
Qed.

Lemma find_ext {A} (p q : A → bool) (l : list A) :
  (∀ x, p x = q x) → List.find p l = List.find q l.
Proof.
  intros Hpq. induction l as [|x l IH]; [done|]. simpl. rewrite Hpq, IH. done.
Qed.

(** X13.  The ports [getContainerPorts] reports for a container name of
    a built pod are those of the first sidecar of the resolved
    configuration that carries this name and declares a port, and none
    when there is no such sidecar; the browser container itself never
    contributes a port. *)
Theorem reported_ports (ro : RangeOrder) (browser : Browser)
    (cfg : BrowserVersionConfigSpec) (opts : option SelenosisOptions) (name : string) :
  getContainerPorts name (buildBrowserPod ro browser cfg opts) =
  match List.find (λ s, bool_decide (sc_Name s = name) &&
                        bool_decide (0 < length (default [] (sc_Ports s))))
                  (default [] (bv_Sidecars cfg)) with
  | Some s => toBrowserPort <$> default [] (sc_Ports s)
  | None => []
  end.
Proof.
  unfold getContainerPorts. rewrite buildBrowserPod_containers.
  rewrite find_fmap.
  rewrite (find_ext _ (λ c, bool_decide (c_Name c = name) && bool_decide (0 < length (c_Ports c)))
             (collectedContainers cfg))
    by (intros c; destruct (withOptionEnv_same ro opts c) as (-> & _ & -> & _); done).
  unfold collectedContainers. simpl List.find.
  assert (Hbrowser : c_Ports (match bv_Privileged cfg with
                              | Some true => setPrivileged (browserContainerOf cfg)
                              | _ => browserContainerOf cfg
                              end) = []) by (by destruct (bv_Privileged cfg) as [[|]|]).
  rewrite Hbrowser. simpl length.
  rewrite (bool_decide_eq_false_2 (0 < 0)) by lia. rewrite andb_false_r.
  rewrite find_fmap.
  rewrite (find_ext _ (λ s, bool_decide (sc_Name s = name) &&
                            bool_decide (0 < length (default [] (sc_Ports s))))
             (default [] (bv_Sidecars cfg)))
    by (intros s; unfold sidecarContainerOf; simpl; by destruct (sc_Ports s)).
  destruct (List.find _ (default [] (bv_Sidecars cfg))) as [s|]; [|done].
  simpl. destruct (withOptionEnv_same ro opts (sidecarContainerOf s)) as (_ & _ & -> & _).
  unfold sidecarContainerOf. simpl. by destruct (sc_Ports s).
Qed.

Lemma indexOf_snoc out e : indexOf (out ++ [e]) = <[env_Name e := length out]> (indexOf out).
Proof.
  unfold indexOf. rewrite imap_app, foldl_app. simpl. by rewrite Nat.add_0_r.
Qed.

Lemma indexOf_None out k : indexOf out !! k = None ↔ k ∉ env_Name <$> out.
Proof.
  induction out as [|e out IH] using rev_ind.
  - split; [intros _; apply not_elem_of_nil|done].
  - rewrite indexOf_snoc, fmap_app, not_elem_of_app. simpl.
    destruct (decide (env_Name e = k)) as [->|Hne].
    + rewrite lookup_insert_eq. split; [done|]. intros [_ Hk]. exfalso. apply Hk. left.
    + rewrite lookup_insert_ne by done. rewrite IH. split; [|by intros [? _]].
      intros H. split; [done|]. intros Hin. apply list_elem_of_singleton in Hin. congruence.
Qed.

Lemma indexOf_Some out k pos :
  indexOf out !! k = Some pos →
  (∃ e, out !! pos = Some e ∧ env_Name e = k) ∧
  ∀ j e, pos < j → out !! j = Some e → env_Name e ≠ k.
Proof.
  revert pos. induction out as [|e out IH] using rev_ind; intros pos; [done|].
  rewrite indexOf_snoc. destruct (decide (env_Name e = k)) as [<-|Hne].
  - rewrite lookup_insert_eq. intros [= <-]. split.
    + exists e. split; [|done]. by rewrite list_lookup_middle.
    + intros j e' Hj Hlook. apply lookup_lt_Some in Hlook. rewrite length_app in Hlook.
      simpl in Hlook. lia.
  - rewrite lookup_insert_ne by done. intros H. destruct (IH pos H) as [(e0 & He0 & Hn) Hlast].
    split.
    + exists e0. split; [|done]. rewrite lookup_app_l; [done|]. by apply lookup_lt_Some in He0.
    + intros j e' Hj Hlook. apply lookup_snoc_Some in Hlook as [[_ Hlook]|[_ <-]]; [|done].
      by apply (Hlast j).
Qed.

Lemma indexOf_names out out' :
  env_Name <$> out = env_Name <$> out' → indexOf out = indexOf out'.
Proof.
  revert out'. induction out as [|e out IH] using rev_ind; intros out' Hnames.
  - symmetry in Hnames. apply fmap_nil_inv in Hnames. by subst.
  - destruct out' as [|e' out' _] using rev_ind.
    { apply fmap_nil_inv in Hnames. by destruct out. }
    rewrite !fmap_app in Hnames. simpl in Hnames.
    apply app_inj_tail in Hnames as [Hnames He].
    rewrite !indexOf_snoc, He, (IH out' Hnames).
    replace (length out) with (length out'); [done|].
    by rewrite <- (length_fmap env_Name out'), <- Hnames, length_fmap.
Qed.

Lemma names_insert_same (out : list EnvVar) pos e ev :
  out !! pos = Some e → env_Name ev = env_Name e →
  env_Name <$> <[pos := ev]> out = env_Name <$> out.
Proof.
  intros Hpos Hname. rewrite list_fmap_insert, Hname. apply list_insert_id.
  by rewrite list_lookup_fmap, Hpos.
Qed.

Lemma filter_insert_other (out : list EnvVar) pos e ev k :
  out !! pos = Some e → env_Name e ≠ k → env_Name ev ≠ k →
  filter (λ x, env_Name x = k) (<[pos := ev]> out) = filter (λ x, env_Name x = k) out.
Proof.
  intros Hpos He Hev. rewrite insert_take_drop by (by apply lookup_lt_Some in Hpos).
  rewrite <- (take_drop_middle out pos e Hpos) at 3.
  rewrite !filter_app, !filter_cons. by rewrite !decide_False.
Qed.

Lemma filter_none {A} (P : A → Prop) `{∀ x, Decision (P x)} (l : list A) :
  (∀ x, x ∈ l → ¬ P x) → filter P l = [].
Proof.
  induction l as [|x l IH]; intros Hno; [done|].
  rewrite filter_cons_False by (apply Hno; left). apply IH. intros y Hy. apply Hno. by right.
Qed.

Lemma envNamed_insert_last (out : list EnvVar) pos e ev :
  out !! pos = Some e → env_Name ev = env_Name e →
  (∀ j e', pos < j → out !! j = Some e' → env_Name e' ≠ env_Name e) →
  envNamed (<[pos := ev]> out) (env_Name e) = Some ev.
Proof.
  intros Hpos Hname Hlast. unfold envNamed.
  rewrite insert_take_drop by (by apply lookup_lt_Some in Hpos).
  rewrite filter_app, filter_cons, decide_True by done.
  assert (Hrest : filter (λ x, env_Name x = env_Name e) (drop (S pos) out) = []).
  { apply filter_none. intros x Hx.
    apply list_elem_of_lookup in Hx as [i Hi]. rewrite lookup_drop in Hi.
    apply (Hlast (S pos + i)); [lia|done]. }
  rewrite Hrest. apply last_snoc.
Qed.

Lemma envNamed_snoc out ev : envNamed (out ++ [ev]) (env_Name ev) = Some ev.
Proof.
  unfold envNamed. rewrite filter_app, filter_cons, decide_True by done.
  rewrite filter_nil. apply last_snoc.
Qed.

Lemma filter_snoc_other (out : list EnvVar) ev k :
  env_Name ev ≠ k →
  filter (λ x, env_Name x = k) (out ++ [ev]) = filter (λ x, env_Name x = k) out.
Proof.
  intros Hne. rewrite filter_app, filter_cons, decide_False by done.
  by rewrite filter_nil, app_nil_r.
Qed.

Lemma overrideStep_fold (st : gmap string nat * list EnvVar) (l : list (string * string)) :
  foldl (λ '(idx, out) '(k, v),
           let ev := {| env_Name := k; env_Value := v |} in
           match idx !! k with
           | Some pos => (idx, <[pos := ev]> out)
           | None => (<[k := length out]> idx, out ++ [ev])
           end) st l = foldl overrideStep st l.
Proof. revert st. induction l as [|[k v] l IH]; intros [idx out]; [done|]. simpl. apply IH. Qed.

Lemma mergeEnvVars_fold ro base override :
  mergeEnvVars ro base override =
  snd (foldl overrideStep (indexOf base, base) (range ro override)).
Proof.
  unfold mergeEnvVars. destruct (decide (size override = 0)) as [Hzero|Hpos].
  - apply map_size_empty_iff in Hzero. subst. unfold range.
    assert (Hnil : visit ro _ (map_to_list (∅ : gmap string string)) = []).
    { apply Permutation_nil_r. rewrite map_to_list_empty. apply visit_perm. }
    by rewrite Hnil.
  - apply (f_equal snd). exact (overrideStep_fold _ _).
Qed.

(** The state of the loop once the pairs [l] have been handled. *)
Lemma overrideStep_invariant base (l : list (string * string)) :
  NoDup l.*1 →
  let st := foldl overrideStep (indexOf base, base) l in
  st.1 = indexOf st.2 ∧
  env_Name <$> st.2 = (env_Name <$> base) ++ filter (λ k, k ∉ env_Name <$> base) l.*1 ∧
  (∀ k v, (k, v) ∈ l → envNamed st.2 k = Some {| env_Name := k; env_Value := v |}) ∧
  (∀ k, k ∉ l.*1 →
        filter (λ e, env_Name e = k) st.2 = filter (λ e, env_Name e = k) base).
Proof.
  induction l as [|[k v] l IH] using rev_ind; intros Hnodup; cbv zeta.
  - simpl. rewrite filter_nil, app_nil_r. split; [done|]. split; [done|].
    split; [|done]. intros k v Hin. by apply elem_of_nil in Hin.
  - rewrite fmap_app in Hnodup. apply NoDup_app in Hnodup as (Hnd & Hfresh & _).
    assert (Hk : k ∉ l.*1).
    { intros Hin. apply (Hfresh k Hin). simpl. left. }
    destruct (IH Hnd) as (Hidx & Hnames & Hset & Hkeep). clear IH.
    rewrite foldl_app. simpl foldl.
    destruct (foldl overrideStep (indexOf base, base) l) as [idx out]. simpl in *.
    rewrite fmap_app, filter_app. simpl. rewrite filter_cons, filter_nil.
    subst idx. destruct (indexOf out !! k) as [pos|] eqn:Hlook; simpl.
    + destruct (indexOf_Some out k pos Hlook) as [(e & Hpos & He) Hlast]. subst k.
      assert (Hbase : env_Name e ∈ env_Name <$> base).
      { assert (Hin : env_Name e ∈ env_Name <$> out).
        { apply list_elem_of_fmap. exists e. split; [done|].
          apply list_elem_of_lookup. by exists pos. }
        rewrite Hnames in Hin. apply elem_of_app in Hin as [Hin|Hin]; [done|].
        apply list_elem_of_filter in Hin as [_ Hin]. done. }
      split; [|split; [|split]].
      * apply indexOf_names. symmetry. by apply (names_insert_same out pos e).
      * rewrite (names_insert_same out pos e) by done. rewrite Hnames.
        rewrite decide_False by (by intros H; apply H). by rewrite app_nil_r.
      * intros k' v' Hin. apply elem_of_app in Hin as [Hin|Hin].
        -- assert (Hne : env_Name e ≠ k').
           { intros <-. apply Hk. apply list_elem_of_fmap. by exists (env_Name e, v'). }
           unfold envNamed. rewrite (filter_insert_other out pos e) by done.
           by apply Hset.
        -- apply list_elem_of_singleton in Hin. inversion Hin; subst.
           by apply (envNamed_insert_last out pos e).
      * intros k' Hk'. apply not_elem_of_app in Hk' as [Hk' Hne].
        rewrite (filter_insert_other out pos e);
          [by apply Hkeep|done| |]; simpl; intros <-; apply Hne; left.
    + apply indexOf_None in Hlook.
      assert (Hbase : k ∉ env_Name <$> base).
      { intros Hin. apply Hlook. rewrite Hnames. apply elem_of_app. by left. }
      split; [|split; [|split]].
      * by rewrite indexOf_snoc.
      * rewrite fmap_app, Hnames. simpl. rewrite decide_True by done.
        by rewrite <- app_assoc.
      * intros k' v' Hin. apply elem_of_app in Hin as [Hin|Hin].
        -- assert (Hne : k ≠ k').
           { intros <-. apply Hk. apply list_elem_of_fmap. by exists (k, v'). }
           unfold envNamed. rewrite filter_snoc_other by done. by apply Hset.
        -- apply list_elem_of_singleton in Hin. inversion Hin; subst.
           apply (envNamed_snoc out {| env_Name := k; env_Value := v |}).
      * intros k' Hk'. apply not_elem_of_app in Hk' as [Hk' Hne].
        rewrite filter_snoc_other; [by apply Hkeep|]. simpl. intros <-. apply Hne. left.
Qed.

Lemma range_keys_NoDup {A} ro (m : gmap string A) : NoDup (range ro m).*1.
Proof. unfold range. rewrite (visit_perm ro). apply NoDup_fst_map_to_list. Qed.

(** X14.  [mergeEnvVars] on a base list and an override map.  The names
    of the base list keep their positions, and the names the base list
    does not have are appended, each once, in the order the map is
    ranged.  For every key of the override map, the last variable of that
    name in the result carries the override's value.  The variables whose
    name is no key of the override map are exactly those of the base
    list, in the same order. *)
Theorem mergeEnvVars_overrides_in_place (ro : RangeOrder) (base : list EnvVar)
    (override : gmap string string) :
  let merged := mergeEnvVars ro base override in
  env_Name <$> merged =
    (env_Name <$> base) ++ filter (λ k, k ∉ env_Name <$> base) (range ro override).*1 ∧
  (∀ k v, override !! k = Some v →
          envNamed merged k = Some {| env_Name := k; env_Value := v |}) ∧
  (∀ k, override !! k = None →
        filter (λ e, env_Name e = k) merged = filter (λ e, env_Name e = k) base).
Proof.
  cbv zeta. rewrite mergeEnvVars_fold.
  destruct (overrideStep_invariant base (range ro override) (range_keys_NoDup ro override))
    as (_ & Hnames & Hset & Hkeep).
  split; [done|]. split.
  - intros k v Hlook. apply Hset. by apply range_elem.
  - intros k Hnone. apply Hkeep. intros Hin. apply list_elem_of_fmap in Hin as ([k' v] & -> & Hin).
    apply range_elem in Hin. simpl in Hnone. congruence.
Qed.

(** ** Reconcile, branch by branch *)

Lemma optional_update_exact (needed : bool) browser f req ps now w s :
  settled req ps now w s →
  browserKey browser = req →
  metadataOnly f s →
  ∃ w', (if needed then retryUpdate browser f w else (None, w)) = (None, w') ∧
        settled req ps now w' (if needed then f s else s).
Proof.
  intros Hset Hb Honly. destruct needed.
  - by apply retryUpdate_settled.
  - by exists w.
Qed.

Lemma Reconcile_prepared rt store req ps now w b :
  settled req ps now w b →
  st_Phase (b_Status b) ≠ PodFailed →
  ∃ w',
    settled req ps now w' (prepared b) ∧
    Reconcile rt store req w =
      match ps !! req with
      | Some pod => watchPod b pod w'
      | None => handleMissingPod rt store b w'
      end.
Proof.
  intros Hset Hphase. pose proof Hset as (_ & _ & _ & _ & Hlive & Hkey).
  unfold Reconcile. rewrite (apiGetBrowser_settled _ _ _ _ _ Hset).
  rewrite Hlive. rewrite bool_decide_eq_false_2 by apply is_Some_None.
  rewrite decide_False by done.
  apply (settled_called _ _ _ _ _ VGetBrowser) in Hset.
  cbv zeta. unfold prepared. cbv zeta.
  destruct (optional_update_exact (negb (ContainsFinalizer b browserPodFinalizer)) b
              (AddFinalizer browserPodFinalizer) req ps now _ b Hset Hkey
              (AddFinalizer_metadataOnly _ _)) as (w1 & -> & Hset1).
  set (b1 := if negb (ContainsFinalizer b browserPodFinalizer)
             then AddFinalizer browserPodFinalizer b else b) in *.
  assert (Hlabel : ∃ w2,
            (if decide (default "" (default ∅ (b_Labels b) !! "selenosis.io/browser")
                        ≠ b_Name b)
             then retryUpdate b assignIdentityLabels w1 else (None, w1)) = (None, w2) ∧
            settled req ps now w2
              (if decide (default "" (default ∅ (b_Labels b) !! "selenosis.io/browser")
                          ≠ b_Name b)
               then assignIdentityLabels b1 else b1)).
  { destruct (decide _).
    - by apply retryUpdate_settled.
    - by exists w1. }
  destruct Hlabel as (w2 & -> & Hset2).
  set (b2 := if decide (default "" (default ∅ (b_Labels b) !! "selenosis.io/browser")
                        ≠ b_Name b)
             then assignIdentityLabels b1 else b1) in *.
  assert (Hinit : ∃ w3,
            (if decide (st_Phase (b_Status b) = "")
             then retryStatusUpdate b (markPhase PodPending) w2 else (None, w2)) = (None, w3) ∧
            settled req ps now w3
              (if decide (st_Phase (b_Status b) = "") then markPhase PodPending b2 else b2)).
  { destruct (decide (st_Phase (b_Status b) = "")).
    - apply retryStatusUpdate_settled; [done|done|apply markPhase_statusOnly].
    - by exists w2. }
  destruct Hinit as (w3 & -> & Hset3).
  replace (browserKey b) with req.
  rewrite (apiGetPod_settled _ _ _ _ _ Hset3).
  exists (called VGetPod w3). split; [by apply settled_called|].
  destruct (ps !! req); [done|]. simpl IsNotFound. cbv iota.
  by rewrite decide_False.
Qed.

Lemma prepared_facts b :
  browserPodFinalizer ∈ b_Finalizers (prepared b) ∧
  st_Phase (b_Status (prepared b)) =
    (if decide (st_Phase (b_Status b) = "") then PodPending else st_Phase (b_Status b)) ∧
  b_Spec (prepared b) = b_Spec b ∧ b_Annotations (prepared b) = b_Annotations b.
Proof.
  unfold prepared. cbv zeta.
  assert (H1 : browserPodFinalizer ∈
                 b_Finalizers (if negb (ContainsFinalizer b browserPodFinalizer)
                               then AddFinalizer browserPodFinalizer b else b)).
  { unfold AddFinalizer. destruct (ContainsFinalizer b browserPodFinalizer) eqn:Hc; simpl.
    - unfold ContainsFinalizer in Hc. by apply bool_decide_eq_true in Hc.
    - apply elem_of_app. right. by apply list_elem_of_singleton. }
  split; [|split; [|split]].
  - by destruct (decide (st_Phase (b_Status b) = "")), (decide (default "" _ ≠ b_Name b)).
  - destruct (decide (st_Phase (b_Status b) = "")); [done|].
    destruct (decide (default "" _ ≠ b_Name b)); simpl;
      unfold AddFinalizer; by destruct (ContainsFinalizer b browserPodFinalizer).
  - destruct (decide (st_Phase (b_Status b) = "")), (decide (default "" _ ≠ b_Name b)); simpl;
      unfold AddFinalizer; by destruct (ContainsFinalizer b browserPodFinalizer).
  - destruct (decide (st_Phase (b_Status b) = "")), (decide (default "" _ ≠ b_Name b)); simpl;
      unfold AddFinalizer; by destruct (ContainsFinalizer b browserPodFinalizer).
Qed.

Lemma buildBrowserPod_key ro browser cfg opts :
  podKey (buildBrowserPod ro browser cfg opts) = browserKey browser.
Proof.
  unfold buildBrowserPod, applySelenosisOptions, podKey. cbv zeta.
  destruct opts as [opts|]; [|done].
  destruct (decide (0 < size (so_Containers opts))), (so_Labels opts); done.
Qed.

Lemma prepared_label b :
  default "" (default ∅ (b_Labels (prepared b)) !! "selenosis.io/browser") =
  b_Name (prepared b).
Proof.
  unfold prepared. cbv zeta.
  assert (Hn : b_Name (if negb (ContainsFinalizer b browserPodFinalizer)
                       then AddFinalizer browserPodFinalizer b else b) = b_Name b).
  { unfold AddFinalizer. by destruct (ContainsFinalizer b browserPodFinalizer). }
  assert (Hl : b_Labels (if negb (ContainsFinalizer b browserPodFinalizer)
                         then AddFinalizer browserPodFinalizer b else b) = b_Labels b).
  { unfold AddFinalizer. by destruct (ContainsFinalizer b browserPodFinalizer). }
  destruct (decide (default "" (default ∅ (b_Labels b) !! "selenosis.io/browser") ≠ b_Name b))
    as [Hne|Heq].
  - destruct (decide (st_Phase (b_Status b) = "")); simpl;
      rewrite lookup_insert_ne by done; rewrite lookup_insert_ne by done;
      by rewrite lookup_insert_eq.
  - apply dec_stable in Heq.
    destruct (decide (st_Phase (b_Status b) = "")); simpl; by rewrite Hl, Hn.
Qed.

Lemma prepared_labels b :
  b_Labels (prepared b) =
  (if decide (default "" (default ∅ (b_Labels b) !! "selenosis.io/browser") ≠ b_Name b)
   then b_Labels (assignIdentityLabels b) else b_Labels b) ∧
  b_Name (prepared b) = b_Name b.
Proof.
  unfold prepared. cbv zeta.
  destruct (decide (st_Phase (b_Status b) = "")),
    (decide (default "" (default ∅ (b_Labels b) !! "selenosis.io/browser") ≠ b_Name b));
    simpl; unfold AddFinalizer; by destruct (ContainsFinalizer b browserPodFinalizer).
Qed.

(** X15.  A live Browser that is not Failed and has no pod, whose
    (browserName, browserVersion) the config store resolves and whose
    options annotation parses, in a cluster that answers every request:
    [Reconcile] asks to be called again after three seconds, the cluster
    holds under the Browser's key the pod [buildBrowserPod] makes from
    the Browser as it was read, the resolved configuration and the parsed
    options, stamped with the time of creation, and the stored Browser
    carries the finalizer and is in the phase it had, or Pending if it
    had none.  Its label [selenosis.io/browser] holds its name: the three
    identity labels are written when that label did not hold the name,
    and the labels are left as they were when it did. *)
Theorem missing_pod_is_created
    (rt : GoRuntime) (store : BrowserConfigStore) (req : ObjectKey) (w : Cluster)
    (b : Browser) (cfg : BrowserVersionConfigSpec) (opts : option SelenosisOptions) :
  quiet w →
  browsers w !! req = Some b →
  browserKey b = req →
  b_DeletionTimestamp b = None →
  st_Phase (b_Status b) ≠ PodFailed →
  pods w !! req = None →
  config store !! keyFor rt (b_Namespace b) (BrowserName (b_Spec b))
                    (BrowserVersion (b_Spec b)) = Some (Some cfg) →
  parseSelenosisOptions rt (b_Annotations b) = inr opts →
  let run := Reconcile rt store req w in
  fst run = (quickCheck, None) ∧
  pods (snd run) =
    <[req := stampPod (buildBrowserPod (rangeOrder rt) b cfg opts) (Some (clock w)) None]>
      (pods w) ∧
  browsers (snd run) !! req = Some (prepared b) ∧
  browserPodFinalizer ∈ b_Finalizers (prepared b) ∧
  st_Phase (b_Status (prepared b)) =
    (if decide (st_Phase (b_Status b) = "") then PodPending else st_Phase (b_Status b)) ∧
  default "" (default ∅ (b_Labels (prepared b)) !! "selenosis.io/browser") = b_Name b ∧
  b_Labels (prepared b) =
    (if decide (default "" (default ∅ (b_Labels b) !! "selenosis.io/browser") ≠ b_Name b)
     then b_Labels (assignIdentityLabels b) else b_Labels b).
Proof.
  intros Hq Hb Hkey Hlive Hphase Hnopod Hcfg Hopts. cbv zeta.
  assert (Hset : settled req (pods w) (clock w) w b) by done.
  destruct (Reconcile_prepared rt store req _ _ w b Hset Hphase) as (w1 & Hset1 & ->).
  rewrite Hnopod. unfold handleMissingPod, Get. rewrite Hcfg, Hopts.
  unfold createPod, apiCreatePod, call.
  destruct Hset1 as (Hq1 & Hp1 & Hc1 & Hs1 & _).
  rewrite (quiet_nextFault _ _ Hq1). simpl.
  rewrite buildBrowserPod_key, Hkey, Hp1, Hnopod. simpl.
  rewrite Hc1.
  destruct (prepared_facts b) as (Hfin & Hph & _).
  destruct (prepared_labels b) as (Hlabels & Hname).
  pose proof (prepared_label b) as Hlabel. rewrite Hname in Hlabel.
  done.
Qed.

Lemma missing_pod_is_created_witness :
  let rt := exampleRuntime in_order in
  let b := newBrowser "ns" "b1" "chrome" "120.0" in
  let w := clusterOf [b] [] 7%Z no_faults in
  let run := Reconcile rt (chromeStore rt) ("ns", "b1") w in
  fst run = (quickCheck, None) ∧
  pods (snd run) =
    <[("ns", "b1") :=
        stampPod (buildBrowserPod (rangeOrder rt) b (zeroVersionConfig "chrome:120") None)
          (Some (clock w)) None]> (pods w) ∧
  browsers (snd run) !! ("ns", "b1") = Some (prepared b) ∧
  browserPodFinalizer ∈ b_Finalizers (prepared b) ∧
  st_Phase (b_Status (prepared b)) =
    (if decide (st_Phase (b_Status b) = "") then PodPending else st_Phase (b_Status b)) ∧
  default "" (default ∅ (b_Labels (prepared b)) !! "selenosis.io/browser") = b_Name b ∧
  b_Labels (prepared b) =
    (if decide (default "" (default ∅ (b_Labels b) !! "selenosis.io/browser") ≠ b_Name b)
     then b_Labels (assignIdentityLabels b) else b_Labels b).
Proof.
  cbv zeta.
  apply (missing_pod_is_created (exampleRuntime in_order) (chromeStore (exampleRuntime in_order))
           ("ns", "b1") (clusterOf [newBrowser "ns" "b1" "chrome" "120.0"] [] 7%Z no_faults)
           (newBrowser "ns" "b1" "chrome" "120.0") (zeroVersionConfig "chrome:120") None).
  - intros v. reflexivity.
  - reflexivity.
  - reflexivity.
  - reflexivity.
  - discriminate.
  - reflexivity.
  - reflexivity.
  - reflexivity.
Defined.

(** X16.  A live Browser that is not Failed and has no pod, whose
    configuration resolves but whose options annotation does not parse,
    in a cluster that answers every request: [Reconcile] returns no error
    and asks for no further call, creates no pod, and the stored Browser
    is Failed with reason [InvalidSelenosisOptions] and the parse error
    as message. *)
Theorem invalid_options_fail_browser
    (rt : GoRuntime) (store : BrowserConfigStore) (req : ObjectKey) (w : Cluster)
    (b : Browser) (cfg : BrowserVersionConfigSpec) (err : string) :
  quiet w →
  browsers w !! req = Some b →
  browserKey b = req →
  b_DeletionTimestamp b = None →
  st_Phase (b_Status b) ≠ PodFailed →
  pods w !! req = None →
  config store !! keyFor rt (b_Namespace b) (BrowserName (b_Spec b))
                    (BrowserVersion (b_Spec b)) = Some (Some cfg) →
  parseSelenosisOptions rt (b_Annotations b) = inl err →
  let run := Reconcile rt store req w in
  fst run = done_ok ∧
  pods (snd run) = pods w ∧
  browsers (snd run) !! req =
    Some (markFailedWith "InvalidSelenosisOptions" err (prepared b)).
Proof.
  intros Hq Hb Hkey Hlive Hphase Hnopod Hcfg Hopts. cbv zeta.
  assert (Hset : settled req (pods w) (clock w) w b) by done.
  destruct (Reconcile_prepared rt store req _ _ w b Hset Hphase) as (w1 & Hset1 & ->).
  rewrite Hnopod. unfold handleMissingPod, Get. rewrite Hcfg, Hopts.
  destruct (retryStatusUpdate_settled b (markFailedWith "InvalidSelenosisOptions" err)
              req _ _ w1 _ Hset1 Hkey (markFailedWith_statusOnly _ _ _)) as (w2 & -> & Hset2).
  destruct Hset2 as (_ & Hp2 & _ & Hs2 & _). done.
Qed.

Lemma invalid_options_fail_browser_witness :
  let rt := exampleRuntime in_order in
  let b := withAnnotations (newBrowser "ns" "b1" "chrome" "120.0")
             (Some {[ selenosisOptionsAnnotationKey := "{" ]}) in
  let w := clusterOf [b] [] 7%Z no_faults in
  let err := "unmarshal selenosis.io/options: unexpected end of JSON input" in
  let run := Reconcile rt (chromeStore rt) ("ns", "b1") w in
  fst run = done_ok ∧
  pods (snd run) = pods w ∧
  browsers (snd run) !! ("ns", "b1") =
    Some (markFailedWith "InvalidSelenosisOptions" err (prepared b)).
Proof.
  cbv zeta.
  apply (invalid_options_fail_browser (exampleRuntime in_order)
           (chromeStore (exampleRuntime in_order)) ("ns", "b1")
           (clusterOf [withAnnotations (newBrowser "ns" "b1" "chrome" "120.0")
                         (Some {[ selenosisOptionsAnnotationKey := "{" ]})] [] 7%Z no_faults)
           (withAnnotations (newBrowser "ns" "b1" "chrome" "120.0")
              (Some {[ selenosisOptionsAnnotationKey := "{" ]}))
           (zeroVersionConfig "chrome:120")
           "unmarshal selenosis.io/options: unexpected end of JSON input").
  - intros v. reflexivity.
  - reflexivity.
  - reflexivity.
  - reflexivity.
  - discriminate.
  - reflexivity.
  - reflexivity.
  - reflexivity.
Defined.

Lemma deletePod_settled req ps now w s pod :
  settled req ps now w s →
  podKey pod = req →
  ∃ w', deletePod pod w = (None, w') ∧ settled req (delete req ps) now w' s.
Proof.
  intros (Hq & <- & Hc & Hs & Hrest) Hkey. unfold deletePod, apiDeletePod, call.
  rewrite (quiet_nextFault _ _ Hq), Hkey. simpl.
  destruct (pods w !! req) as [stored|] eqn:Hstored; simpl.
  - eexists. split; [done|]. split; [by apply quiet_called|]. done.
  - eexists. split; [done|]. split; [by apply quiet_called|]. simpl.
    by rewrite delete_id.
Qed.

Lemma mirrorPod_statusOnly pod x y l s : statusOnly (mirrorPod pod x y l) s.
Proof. unfold statusOnly. done. Qed.

Lemma find_none_critical (l : list ContainerStatus) :
  (∀ cs, cs ∈ l → isCriticalTerminated cs = false) → List.find isCriticalTerminated l = None.
Proof.
  induction l as [|cs l IH]; intros Hno; [done|]. simpl.
  rewrite (Hno cs) by left. apply IH. intros c Hc. apply Hno. by right.
Qed.

(** [updateBrowserStatus] for a pod without a terminated critical
    container: at most one status write, which copies the pod's phase. *)
Lemma updateBrowserStatus_settled req ps now w s b pod :
  settled req ps now w s →
  browserKey b = req →
  (∀ cs, cs ∈ pst_ContainerStatuses (p_Status pod) → isCriticalTerminated cs = false) →
  ∃ w' s', updateBrowserStatus b pod w = ((periodicReconcile, None), w') ∧
           settled req ps now w' s' ∧
           (s' = s ∨ st_Phase (b_Status s') = pst_Phase (p_Status pod)) ∧
           (st_Phase (b_Status b) ≠ pst_Phase (p_Status pod) →
            st_Phase (b_Status s') = pst_Phase (p_Status pod)) ∧
           st_Message (b_Status s') = st_Message (b_Status s) ∧
           st_Reason (b_Status s') = st_Reason (b_Status s) ∧
           b_Finalizers s' = b_Finalizers s.
Proof.
  intros Hset Hkey Hno. unfold updateBrowserStatus.
  rewrite (find_none_critical _ Hno). cbv zeta.
  match goal with |- context [if ?c then retryStatusUpdate b ?f w else _] =>
    destruct c eqn:Hchanged; [|
      exists w, s; split; [done|]; split; [done|]; split; [by left|]; split; [|done]]
  end.
  - match goal with |- context [retryStatusUpdate b ?f w] =>
      destruct (retryStatusUpdate_settled b f req ps now w s Hset Hkey
                  (mirrorPod_statusOnly _ _ _ _ _)) as (w' & -> & Hset')
    end.
    eexists _, _. split; [done|]. split; [exact Hset'|]. split; [by right|]. done.
  - intros Hne. apply orb_false_iff in Hchanged as [Hb _].
    apply orb_false_iff in Hb as [Hb _]. apply orb_false_iff in Hb as [Hb _].
    apply bool_decide_eq_false in Hb. by destruct Hb.
Qed.


Lemma watchPending_bad_reason req ps now w b s pod pre cs post waiting :
  settled req ps now w s →
  browserKey b = req →
  podKey pod = req →
  young now pod →
  Forall benign pre →
  Terminated (cs_State cs) = None →
  Waiting (cs_State cs) = Some waiting →
  w_Reason waiting ≠ "ContainerCreating" →
  w_Reason waiting ≠ "PodInitializing" →
  ∃ w', watchPending b pod (pre ++ cs :: post) w = (Some done_ok, w') ∧
        settled req (delete req ps) now w'
          (markFailed ("pod container " +:+ cs_Name cs +:+ " failed: " +:+
                       w_Reason waiting +:+ " - " +:+ w_Message waiting) s).
Proof.
  intros Hset Hkey Hpodkey Hyoung Hpre Hterm Hwait Hcc Hpi.
  assert (Htimed : match p_CreationTimestamp pod with
                   | Some created => bool_decide (since w created > podCreationTimeout)%Z
                   | None => false
                   end = false).
  { unfold young in Hyoung. destruct (p_CreationTimestamp pod) as [created|]; [|done].
    apply bool_decide_eq_false. unfold since. destruct Hset as (_ & _ & -> & _). lia. }
  induction Hpre as [|c pre [Hct Hcw] _ IH]; simpl.
  - rewrite Hterm, Hwait, Htimed.
    rewrite (bool_decide_eq_true_2 (w_Reason waiting ≠ "ContainerCreating")) by done.
    rewrite (bool_decide_eq_true_2 (w_Reason waiting ≠ "PodInitializing")) by done.
    simpl andb. cbv iota.
    destruct (deletePod_settled req _ _ w _ pod Hset Hpodkey) as (w1 & -> & Hset1).
    match goal with |- context [retryStatusUpdate b ?f w1] =>
      destruct (retryStatusUpdate_settled b f req _ _ w1 _ Hset1 Hkey
                  (markFailed_statusOnly _ _)) as (w2 & -> & Hset2)
    end.
    by exists w2.
  - rewrite Hct. destruct (Waiting (cs_State c)) as [wt|] eqn:Hw; [|exact IH].
    rewrite Htimed.
    assert (Hgood : bool_decide (w_Reason wt ≠ "ContainerCreating") &&
                    bool_decide (w_Reason wt ≠ "PodInitializing") = false).
    { destruct (Hcw wt eq_refl) as [->| ->]; [done|].
      rewrite (bool_decide_eq_false_2 ("PodInitializing" ≠ "PodInitializing")) by (by intros H).
      apply andb_false_r. }
    rewrite Hgood. exact IH.
Qed.

(** X18.  A live Browser that is not Failed, whose pod is in phase
    Pending, is not being deleted and is not older than five minutes, in
    a cluster that answers every request: when the first container
    status that is not passed over (the statuses before it are not
    terminated and wait, if at all, for [ContainerCreating] or
    [PodInitializing]) is a waiting one with any other reason,
    [Reconcile] deletes the pod at once and returns no error, and the
    stored Browser is Failed with a message that names the container, the
    reason and the waiting message. *)
Theorem bad_waiting_reason_fails_browser
    (rt : GoRuntime) (store : BrowserConfigStore) (req : ObjectKey) (w : Cluster)
    (b : Browser) (pod : Pod) (pre post : list ContainerStatus) (cs : ContainerStatus)
    (waiting : ContainerStateWaiting) :
  quiet w →
  browsers w !! req = Some b →
  browserKey b = req →
  b_DeletionTimestamp b = None →
  st_Phase (b_Status b) ≠ PodFailed →
  pods w !! req = Some pod →
  podKey pod = req →
  p_DeletionTimestamp pod = None →
  pst_Phase (p_Status pod) = PodPending →
  young (clock w) pod →
  pst_ContainerStatuses (p_Status pod) = pre ++ cs :: post →
  Forall benign pre →
  Terminated (cs_State cs) = None →
  Waiting (cs_State cs) = Some waiting →
  w_Reason waiting ≠ "ContainerCreating" →
  w_Reason waiting ≠ "PodInitializing" →
  let run := Reconcile rt store req w in
  fst run = done_ok ∧
  pods (snd run) = delete req (pods w) ∧
  browsers (snd run) !! req =
    Some (markFailed ("pod container " +:+ cs_Name cs +:+ " failed: " +:+
                      w_Reason waiting +:+ " - " +:+ w_Message waiting) (prepared b)).
Proof.
  intros Hq Hb Hkey Hlive Hphase Hpod Hpodkey Hpodlive Hpodphase Hyoung Hstatuses Hpre
    Hterm Hwait Hcc Hpi. cbv zeta.
  assert (Hset : settled req (pods w) (clock w) w b) by done.
  destruct (Reconcile_prepared rt store req _ _ w b Hset Hphase) as (w1 & Hset1 & ->).
  rewrite Hpod. unfold watchPod. rewrite Hpodlive.
  rewrite (bool_decide_eq_false_2 (is_Some None)) by apply is_Some_None.
  simpl andb. cbv iota zeta.
  rewrite Hpodphase. rewrite (decide_False (P := PodPending = PodFailed)) by done.
  rewrite decide_True by done. rewrite Hstatuses.
  destruct (watchPending_bad_reason req _ _ w1 b _ pod pre cs post waiting Hset1 Hkey Hpodkey
              Hyoung Hpre Hterm Hwait Hcc Hpi) as (w2 & -> & Hset2).
  destruct Hset2 as (_ & Hp2 & _ & Hs2 & _). done.
Qed.

Lemma bad_waiting_reason_fails_browser_witness :
  let rt := exampleRuntime in_order in
  let req := ("ns", "b1") in
  let pod := podOf (pendingStatus [waitingStatus "seleniferous" "PodInitializing";
                                    waitingStatus "browser" "ImagePullBackOff"]) in
  let w := clusterOf [pendingBrowser] [pod] 7%Z no_faults in
  let run := Reconcile rt NewBrowserConfigStore req w in
  fst run = done_ok ∧
  pods (snd run) = delete req (pods w) ∧
  browsers (snd run) !! req =
    Some (markFailed ("pod container " +:+ "browser" +:+ " failed: " +:+
                      "ImagePullBackOff" +:+ " - " +:+ "") (prepared pendingBrowser)).
Proof.
  cbv zeta.
  apply (bad_waiting_reason_fails_browser (exampleRuntime in_order) NewBrowserConfigStore
           ("ns", "b1")
           (clusterOf [pendingBrowser]
              [podOf (pendingStatus [waitingStatus "seleniferous" "PodInitializing";
                                     waitingStatus "browser" "ImagePullBackOff"])]
              7%Z no_faults)
           pendingBrowser
           (podOf (pendingStatus [waitingStatus "seleniferous" "PodInitializing";
                                  waitingStatus "browser" "ImagePullBackOff"]))
           [waitingStatus "seleniferous" "PodInitializing"] []
           (waitingStatus "browser" "ImagePullBackOff")
           {| w_Reason := "ImagePullBackOff"; w_Message := "" |}).
  - intros v. reflexivity.
  - reflexivity.
  - reflexivity.
  - reflexivity.
  - discriminate.
  - reflexivity.
  - reflexivity.
  - reflexivity.
  - reflexivity.
  - unfold young. simpl. unfold podCreationTimeout, minute, second. lia.
  - reflexivity.
  - apply Forall_cons. split; [|apply Forall_nil_2].
    split; [reflexivity|]. intros waiting Hw. inversion Hw. right. reflexivity.
  - reflexivity.
  - reflexivity.
  - discriminate.
  - discriminate.
Defined.

Lemma deleteBrowser_settled req ps now w s b :
  settled req ps now w s →
  browserKey b = req →
  ∃ w', deleteBrowser b w = (done_ok, w') ∧ pods w' = ps ∧
        browsers w' !! req = released b s now.
Proof.
  intros Hset Hkey. unfold deleteBrowser, released. cbv zeta.
  assert (Hrem : ∃ w1,
            (if ContainsFinalizer b browserPodFinalizer
             then retryUpdate b (RemoveFinalizer browserPodFinalizer) w else (None, w))
            = (None, w1) ∧
            settled req ps now w1
              (if ContainsFinalizer b browserPodFinalizer
               then RemoveFinalizer browserPodFinalizer s else s)).
  { destruct (ContainsFinalizer b browserPodFinalizer).
    - apply retryUpdate_settled; [done|done|apply RemoveFinalizer_metadataOnly].
    - by exists w. }
  destruct Hrem as (w1 & -> & Hset1).
  set (s1 := if ContainsFinalizer b browserPodFinalizer
             then RemoveFinalizer browserPodFinalizer s else s) in *.
  destruct Hset1 as (Hq1 & Hp1 & Hc1 & Hs1 & Hlive1 & _).
  unfold apiDeleteBrowser, call. rewrite (quiet_nextFault _ _ Hq1), Hkey. simpl.
  rewrite Hs1. simpl. rewrite Hc1. eexists. split; [done|].
  rewrite storeBrowser_pods. split; [done|].
  unfold storeBrowser, markBrowserDeleted. simpl. rewrite Hlive1.
  destruct (b_Finalizers s1); simpl.
  - apply lookup_delete_eq.
  - apply lookup_insert_eq.
Qed.

(** X17.  A live Browser that is not Failed, whose pod is in phase Failed
    and is not being deleted, in a cluster that answers every request:
    [Reconcile] deletes the pod at once, marks the Browser Failed with
    the pod's reason and message in its message, and returns no error.
    What follows depends on the container statuses the pod reports.
    With no terminated [browser] or [seleniferous] container the Browser
    stays, Failed and with its finalizer, and the next call is asked for
    after thirty seconds.  With one, as a failed pod usually has, the
    Browser is marked Failed once more, now with the pod's reason and
    message as its own, loses the finalizer if the Browser as read
    carried it, and is deleted; no further call is asked for. *)
Theorem failed_pod_fails_browser
    (rt : GoRuntime) (store : BrowserConfigStore) (req : ObjectKey) (w : Cluster)
    (b : Browser) (pod : Pod) :
  quiet w →
  browsers w !! req = Some b →
  browserKey b = req →
  b_DeletionTimestamp b = None →
  st_Phase (b_Status b) ≠ PodFailed →
  pods w !! req = Some pod →
  podKey pod = req →
  p_DeletionTimestamp pod = None →
  pst_Phase (p_Status pod) = PodFailed →
  let run := Reconcile rt store req w in
  pods (snd run) = delete req (pods w) ∧
  match List.find isCriticalTerminated (pst_ContainerStatuses (p_Status pod)) with
  | None =>
      fst run = (periodicReconcile, None) ∧
      ∃ b', browsers (snd run) !! req = Some b' ∧
            st_Phase (b_Status b') = PodFailed ∧
            st_Message (b_Status b') =
              "pod has failed with reason: " +:+ pst_Reason (p_Status pod) +:+ " - " +:+
              pst_Message (p_Status pod) ∧
            browserPodFinalizer ∈ b_Finalizers b'
  | Some _ =>
      fst run = done_ok ∧
      browsers (snd run) !! req =
        released b
          (markFailedWith (pst_Reason (p_Status pod)) (pst_Message (p_Status pod))
             (markPodFailed pod (prepared b)))
          (clock w)
  end.
Proof.
  intros Hq Hb Hkey Hlive Hphase Hpod Hpodkey Hpodlive Hpodphase. cbv zeta.
  assert (Hset : settled req (pods w) (clock w) w b) by done.
  destruct (Reconcile_prepared rt store req _ _ w b Hset Hphase) as (w1 & Hset1 & ->).
  rewrite Hpod. unfold watchPod. rewrite Hpodlive.
  rewrite (bool_decide_eq_false_2 (is_Some None)) by apply is_Some_None.
  simpl andb. cbv iota zeta. rewrite decide_True by done.
  destruct (deletePod_settled req _ _ w1 _ pod Hset1 Hpodkey) as (w2 & -> & Hset2).
  match goal with |- context [retryStatusUpdate b ?f w2] =>
    destruct (retryStatusUpdate_settled b f req _ _ w2 _ Hset2 Hkey
                (markFailed_statusOnly _ _)) as (w3 & -> & Hset3)
  end.
  rewrite Hpodphase. rewrite (decide_False (P := PodFailed = PodPending)) by done.
  destruct (List.find isCriticalTerminated (pst_ContainerStatuses (p_Status pod)))
    as [cs|] eqn:Hfind.
  - unfold updateBrowserStatus. rewrite Hfind. cbv zeta. rewrite decide_True by done.
    match goal with |- context [retryStatusUpdate b ?f w3] =>
      destruct (retryStatusUpdate_settled b f req _ _ w3 _ Hset3 Hkey
                  (markFailedWith_statusOnly _ _ _)) as (w4 & -> & Hset4)
    end.
    destruct (deleteBrowser_settled req _ _ w4 _ b Hset4 Hkey) as (w5 & -> & Hp5 & Hs5).
    done.
  - assert (Hno : ∀ c, c ∈ pst_ContainerStatuses (p_Status pod) →
                       isCriticalTerminated c = false).
    { intros c Hc. apply (find_none _ _ Hfind). by apply list_elem_of_In. }
    destruct (updateBrowserStatus_settled req _ _ w3 _ b pod Hset3 Hkey Hno)
      as (w4 & s4 & -> & Hset4 & _ & Hph & Hmsg & _ & Hfin).
    destruct Hset4 as (_ & Hp4 & _ & Hs4 & _).
    split; [done|]. split; [done|]. exists s4. split; [done|].
    split; [rewrite Hpodphase in Hph; by apply Hph|]. split; [by rewrite Hmsg|].
    rewrite Hfin. apply prepared_facts.
Qed.

Lemma failed_pod_fails_browser_witness :
  let rt := exampleRuntime in_order in
  let req := ("ns", "b1") in
  let pod := podOf (withPodStatus PodFailed "Evicted" "node is out of memory"
                      [terminatedStatus "browser" 137]) in
  let w := clusterOf [pendingBrowser] [pod] 7%Z no_faults in
  let run := Reconcile rt NewBrowserConfigStore req w in
  pods (snd run) = delete req (pods w) ∧
  fst run = done_ok ∧
  browsers (snd run) !! req = None.
Proof.
  cbv zeta.
  exact (failed_pod_fails_browser (exampleRuntime in_order) NewBrowserConfigStore ("ns", "b1")
           (clusterOf [pendingBrowser]
              [podOf (withPodStatus PodFailed "Evicted" "node is out of memory"
                        [terminatedStatus "browser" 137])]
              7%Z no_faults)
           pendingBrowser
           (podOf (withPodStatus PodFailed "Evicted" "node is out of memory"
                     [terminatedStatus "browser" 137]))
           (λ v, eq_refl) eq_refl eq_refl eq_refl ltac:(discriminate) eq_refl eq_refl eq_refl
           eq_refl).
Defined.

(** X19.  A live Browser that is not Failed and whose pod is marked for
    deletion, in a cluster that answers every request: [Reconcile] drops
    the finalizer, if the Browser as read carried it, and deletes the
    Browser; it returns no error and leaves the pod alone.  The Browser
    is gone when no finalizer is left, and stays, marked for deletion,
    otherwise. *)
Theorem terminating_pod_deletes_browser
    (rt : GoRuntime) (store : BrowserConfigStore) (req : ObjectKey) (w : Cluster)
    (b : Browser) (pod : Pod) :
  quiet w →
  browsers w !! req = Some b →
  browserKey b = req →
  b_DeletionTimestamp b = None →
  st_Phase (b_Status b) ≠ PodFailed →
  pods w !! req = Some pod →
  is_Some (p_DeletionTimestamp pod) →
  let run := Reconcile rt store req w in
  fst run = done_ok ∧
  pods (snd run) = pods w ∧
  browsers (snd run) !! req = released b (prepared b) (clock w).
Proof.
  intros Hq Hb Hkey Hlive Hphase Hpod Hgoing. cbv zeta.
  assert (Hset : settled req (pods w) (clock w) w b) by done.
  destruct (Reconcile_prepared rt store req _ _ w b Hset Hphase) as (w1 & Hset1 & ->).
  rewrite Hpod. unfold watchPod.
  rewrite (bool_decide_eq_true_2 _ Hgoing), Hlive.
  rewrite (bool_decide_eq_true_2 (None = None)) by done. simpl andb. cbv iota.
  destruct (deleteBrowser_settled req _ _ w1 _ b Hset1 Hkey) as (w2 & -> & Hp2 & Hs2).
  done.
Qed.

Lemma terminating_pod_deletes_browser_witness :
  let rt := exampleRuntime in_order in
  let req := ("ns", "b1") in
  let pod := stampPod (podOf (pendingStatus [])) (Some 0%Z) (Some 5%Z) in
  let w := clusterOf [pendingBrowser] [pod] 7%Z no_faults in
  let run := Reconcile rt NewBrowserConfigStore req w in
  fst run = done_ok ∧
  pods (snd run) = pods w ∧
  browsers (snd run) !! req = released pendingBrowser (prepared pendingBrowser) (clock w).
Proof.
  cbv zeta.
  apply (terminating_pod_deletes_browser (exampleRuntime in_order) NewBrowserConfigStore
           ("ns", "b1")
           (clusterOf [pendingBrowser]
              [stampPod (podOf (pendingStatus [])) (Some 0%Z) (Some 5%Z)] 7%Z no_faults)
           pendingBrowser (stampPod (podOf (pendingStatus [])) (Some 0%Z) (Some 5%Z))).
  - intros v. reflexivity.
  - reflexivity.
  - reflexivity.
  - reflexivity.
  - discriminate.
  - reflexivity.
  - eexists. reflexivity.
Defined.

Lemma find_critical (l : list ContainerStatus) :
  (∃ cs, cs ∈ l ∧ isCriticalTerminated cs = true) →
  ∃ cs, List.find isCriticalTerminated l = Some cs.
Proof.
  intros (cs & Hin & Hcrit). induction l as [|c l IH]; [by apply elem_of_nil in Hin|].
  simpl. destruct (isCriticalTerminated c) eqn:Hc; [by eexists|].
  apply IH. apply elem_of_cons in Hin as [->|Hin]; [congruence|done].
Qed.

(** X20.  A live Browser that is not Failed, whose pod is neither
    Pending nor Failed nor marked for deletion and reports a terminated
    [browser] or [seleniferous] container, in a cluster that answers
    every request: [Reconcile] marks the Browser Failed with the pod's
    reason and message, drops the finalizer, if the Browser as read
    carried it, and deletes the Browser; it returns no error and leaves
    the pod in place. *)
Theorem terminated_critical_container_deletes_browser
    (rt : GoRuntime) (store : BrowserConfigStore) (req : ObjectKey) (w : Cluster)
    (b : Browser) (pod : Pod) :
  quiet w →
  browsers w !! req = Some b →
  browserKey b = req →
  b_DeletionTimestamp b = None →
  st_Phase (b_Status b) ≠ PodFailed →
  pods w !! req = Some pod →
  p_DeletionTimestamp pod = None →
  pst_Phase (p_Status pod) ≠ PodFailed →
  pst_Phase (p_Status pod) ≠ PodPending →
  (∃ cs, cs ∈ pst_ContainerStatuses (p_Status pod) ∧ isCriticalTerminated cs = true) →
  let run := Reconcile rt store req w in
  fst run = done_ok ∧
  pods (snd run) = pods w ∧
  browsers (snd run) !! req =
    released b
      (markFailedWith (pst_Reason (p_Status pod)) (pst_Message (p_Status pod)) (prepared b))
      (clock w).
Proof.
  intros Hq Hb Hkey Hlive Hphase Hpod Hpodlive Hnotfailed Hnotpending Hcrit. cbv zeta.
  assert (Hset : settled req (pods w) (clock w) w b) by done.
  destruct (Reconcile_prepared rt store req _ _ w b Hset Hphase) as (w1 & Hset1 & ->).
  rewrite Hpod. unfold watchPod. rewrite Hpodlive.
  rewrite (bool_decide_eq_false_2 (is_Some None)) by apply is_Some_None.
  simpl andb. cbv iota zeta.
  rewrite (decide_False (P := pst_Phase (p_Status pod) = PodFailed)) by done.
  rewrite (decide_False (P := pst_Phase (p_Status pod) = PodPending)) by done.
  unfold updateBrowserStatus. destruct (find_critical _ Hcrit) as (cs & ->).
  cbv zeta. rewrite decide_True by done.
  match goal with |- context [retryStatusUpdate b ?f w1] =>
    destruct (retryStatusUpdate_settled b f req _ _ w1 _ Hset1 Hkey
                (markFailedWith_statusOnly _ _ _)) as (w2 & -> & Hset2)
  end.
  destruct (deleteBrowser_settled req _ _ w2 _ b Hset2 Hkey) as (w3 & -> & Hp3 & Hs3).
  done.
Qed.

Lemma terminated_critical_container_deletes_browser_witness :
  let rt := exampleRuntime in_order in
  let req := ("ns", "b1") in
  let pod := podOf (withPodStatus PodRunning "" "" [terminatedStatus "browser" 137]) in
  let w := clusterOf [pendingBrowser] [pod] 7%Z no_faults in
  let run := Reconcile rt NewBrowserConfigStore req w in
  fst run = done_ok ∧
  pods (snd run) = pods w ∧
  browsers (snd run) !! req =
    released pendingBrowser
      (markFailedWith (pst_Reason (p_Status pod)) (pst_Message (p_Status pod))
         (prepared pendingBrowser))
      (clock w).
Proof.
  cbv zeta.
  apply (terminated_critical_container_deletes_browser (exampleRuntime in_order)
           NewBrowserConfigStore ("ns", "b1")
           (clusterOf [pendingBrowser]
              [podOf (withPodStatus PodRunning "" "" [terminatedStatus "browser" 137])]
              7%Z no_faults)
           pendingBrowser
           (podOf (withPodStatus PodRunning "" "" [terminatedStatus "browser" 137]))).
  - intros v. reflexivity.
  - reflexivity.
  - reflexivity.
  - reflexivity.
  - discriminate.
  - reflexivity.
  - reflexivity.
  - discriminate.
  - discriminate.
  - exists (terminatedStatus "browser" 137). split; [|reflexivity].
    apply list_elem_of_singleton. reflexivity.
Defined.

Lemma updateBrowserStatus_mirrors req ps now w s b pod :
  settled req ps now w s →
  browserKey b = req →
  (∀ cs, cs ∈ pst_ContainerStatuses (p_Status pod) → isCriticalTerminated cs = false) →
  ∃ w', updateBrowserStatus b pod w = ((periodicReconcile, None), w') ∧
        settled req ps now w' (mirrored b s pod) ∧
        (browserStatusChanged b pod || containersStatusChanged b pod = false → w' = w).
Proof.
  intros Hset Hkey Hno. unfold updateBrowserStatus.
  rewrite (find_none_critical _ Hno). cbv zeta.
  change (updateBrowserStatus b pod w) with (updateBrowserStatus b pod w).
  unfold mirrored.
  change (bool_decide (st_Phase (b_Status b) ≠ pst_Phase (p_Status pod))
          || bool_decide (st_PodIP (b_Status b) ≠ pst_PodIP (p_Status pod))
          || bool_decide (is_Some (pst_StartTime (p_Status pod)))
             && (bool_decide (st_StartTime (b_Status b) = None)
                 || negb (timeEqual (st_StartTime (b_Status b))
                            (pst_StartTime (p_Status pod)))))
    with (browserStatusChanged b pod).
  match goal with
  | |- context [if ?x || ?c then retryStatusUpdate b (mirrorPod pod ?x ?c ?n) w else _] =>
      change c with (containersStatusChanged b pod);
      change n with (newContainerStatuses pod)
  end.
  destruct (browserStatusChanged b pod || containersStatusChanged b pod).
  - match goal with |- context [retryStatusUpdate b ?f w] =>
      destruct (retryStatusUpdate_settled b f req ps now w s Hset Hkey
                  (mirrorPod_statusOnly _ _ _ _ _)) as (w' & -> & Hset')
    end.
    exists w'. split; [done|]. split; [done|]. done.
  - exists w. done.
Qed.

Lemma containerStateEqual_refl a : containerStateEqual a a = true.
Proof.
  destruct a as [[wa|] [ra|] [ta|]]; unfold containerStateEqual, timeEqual; simpl;
    rewrite ?bool_decide_eq_true_2; done.
Qed.

Lemma existsb_zip_same (l : list BrowserContainerStatus) :
  existsb (λ '(new, old),
             bool_decide (bcs_RestartCount new ≠ bcs_RestartCount old) ||
             negb (containerStateEqual (bcs_State new) (bcs_State old)))
          (zip l l) = false.
Proof.
  induction l as [|x l IH]; [done|]. simpl. rewrite IH.
  rewrite bool_decide_eq_false_2 by (by intros H).
  by rewrite containerStateEqual_refl.
Qed.

Lemma mirrored_facts b s pod :
  b_Name (mirrored b s pod) = b_Name s ∧ b_Namespace (mirrored b s pod) = b_Namespace s ∧
  b_Labels (mirrored b s pod) = b_Labels s ∧
  b_Finalizers (mirrored b s pod) = b_Finalizers s ∧
  b_DeletionTimestamp (mirrored b s pod) = b_DeletionTimestamp s.
Proof. unfold mirrored. by destruct (_ || _). Qed.

(** Once the status of the stored Browser has been brought in line with
    the pod, nothing is left to write. *)
Lemma mirrored_is_fixpoint b s pod :
  b_Status s = b_Status b ∨
  (st_Phase (b_Status b) = "" ∧ b_Status s = b_Status (markPhase PodPending b)) →
  pst_Phase (p_Status pod) ≠ "" →
  let s' := mirrored b s pod in
  st_Phase (b_Status s') = pst_Phase (p_Status pod) ∧
  st_PodIP (b_Status s') = pst_PodIP (p_Status pod) ∧
  (is_Some (pst_StartTime (p_Status pod)) →
   st_StartTime (b_Status s') = pst_StartTime (p_Status pod)) ∧
  browserStatusChanged s' pod = false ∧ containersStatusChanged s' pod = false.
Proof.
  intros Hstatus Hpodphase. cbv zeta.
  assert (Hip : st_PodIP (b_Status s) = st_PodIP (b_Status b) ∧
                st_StartTime (b_Status s) = st_StartTime (b_Status b) ∧
                st_ContainerStatuses (b_Status s) = st_ContainerStatuses (b_Status b) ∧
                (st_Phase (b_Status b) = pst_Phase (p_Status pod) →
                 st_Phase (b_Status s) = pst_Phase (p_Status pod))).
  { destruct Hstatus as [->|[Hempty ->]]; [done|]. simpl.
    repeat split. intros Heq. congruence. }
  destruct Hip as (Hip & Hstart & Hcs & Hphase).
  assert (Hc : containersStatusChanged (mirrored b s pod) pod = false).
  { unfold mirrored. destruct (containersStatusChanged b pod) eqn:Hcsc.
    - rewrite orb_true_r. unfold containersStatusChanged. simpl.
      destruct (decide (0 < _)); [|done]. rewrite decide_False by (by intros H).
      apply existsb_zip_same.
    - rewrite orb_false_r.
      assert (Hsame : ∀ x : Browser,
                st_ContainerStatuses (b_Status x) = st_ContainerStatuses (b_Status b) →
                containersStatusChanged x pod = false).
      { intros x Hx. unfold containersStatusChanged in *. by rewrite Hx. }
      apply Hsame. destruct (browserStatusChanged b pod); [simpl; exact Hcs|exact Hcs]. }
  unfold mirrored in *.
  destruct (browserStatusChanged b pod) eqn:Hbsc; simpl orb in *; cbv iota in *.
  - unfold browserStatusChanged. simpl.
    split; [done|]. split; [done|]. split; [done|]. split; [|exact Hc].
    rewrite (bool_decide_eq_false_2 (_ ≠ _)) by (by intros H).
    rewrite (bool_decide_eq_false_2 (pst_PodIP _ ≠ _)) by (by intros H). simpl.
    destruct (pst_StartTime (p_Status pod)) as [t|] eqn:Ht.
    + rewrite (bool_decide_eq_false_2 (Some t = None)) by done.
      unfold timeEqual. rewrite (bool_decide_eq_true_2 (Some t = Some t)) by done.
      simpl. by rewrite ?andb_false_r.
    + rewrite (bool_decide_eq_false_2 (is_Some None)) by apply is_Some_None. done.
  - unfold browserStatusChanged in Hbsc. cbv zeta in Hbsc.
    apply orb_false_iff in Hbsc as [Hbsc Hst]. apply orb_false_iff in Hbsc as [Hp Hi].
    apply bool_decide_eq_false in Hp. apply dec_stable in Hp.
    apply bool_decide_eq_false in Hi. apply dec_stable in Hi.
    assert (Hst' : is_Some (pst_StartTime (p_Status pod)) →
                   st_StartTime (b_Status b) = pst_StartTime (p_Status pod)).
    { intros Hsome. apply andb_false_iff in Hst as [Hst|Hst].
      - apply bool_decide_eq_false in Hst. done.
      - apply orb_false_iff in Hst as [_ Hst]. apply negb_false_iff in Hst.
        unfold timeEqual in Hst. by apply bool_decide_eq_true in Hst. }
    assert (Hfinal : ∀ x : Browser,
              st_Phase (b_Status x) = pst_Phase (p_Status pod) →
              st_PodIP (b_Status x) = st_PodIP (b_Status s) →
              st_StartTime (b_Status x) = st_StartTime (b_Status s) →
              st_Phase (b_Status x) = pst_Phase (p_Status pod) ∧
              st_PodIP (b_Status x) = pst_PodIP (p_Status pod) ∧
              (is_Some (pst_StartTime (p_Status pod)) →
               st_StartTime (b_Status x) = pst_StartTime (p_Status pod)) ∧
              bool_decide (st_Phase (b_Status x) ≠ pst_Phase (p_Status pod))
              || bool_decide (st_PodIP (b_Status x) ≠ pst_PodIP (p_Status pod))
              || bool_decide (is_Some (pst_StartTime (p_Status pod)))
                 && (bool_decide (st_StartTime (b_Status x) = None)
                     || negb (timeEqual (st_StartTime (b_Status x))
                                (pst_StartTime (p_Status pod)))) = false).
    { intros x Hx1 Hx2 Hx3. rewrite Hx1, Hx2, Hx3, Hip, Hstart, Hi.
      split; [done|]. split; [done|]. split; [done|].
      rewrite (bool_decide_eq_false_2 (_ ≠ _)) by (by intros H).
      rewrite (bool_decide_eq_false_2 (pst_PodIP _ ≠ _)) by (by intros H). simpl.
      destruct (pst_StartTime (p_Status pod)) as [t|] eqn:Ht.
      - rewrite (Hst' (mk_is_Some _ _ eq_refl)).
        rewrite (bool_decide_eq_false_2 (Some t = None)) by done.
        unfold timeEqual. rewrite (bool_decide_eq_true_2 (Some t = Some t)) by done.
      simpl. by rewrite ?andb_false_r.
      - rewrite (bool_decide_eq_false_2 (is_Some None)) by apply is_Some_None. done. }
    destruct (containersStatusChanged b pod) eqn:Hcsc.
    + destruct (Hfinal (mirrorPod pod false true (newContainerStatuses pod) s))
        as (? & ? & ? & ?); try done.
    + destruct (Hfinal s) as (? & ? & ? & ?); try done. by apply Hphase.
Qed.

Lemma prepared_status b :
  b_Status (prepared b) = b_Status b ∨
  (st_Phase (b_Status b) = "" ∧ b_Status (prepared b) = b_Status (markPhase PodPending b)).
Proof.
  unfold prepared. cbv zeta.
  destruct (decide (st_Phase (b_Status b) = "")) as [Hempty|Hset]; [right|left];
    destruct (decide (default "" _ ≠ b_Name b)); simpl;
    unfold AddFinalizer; destruct (ContainsFinalizer b browserPodFinalizer); done.
Qed.

Lemma Reconcile_steady rt store req w b :
  quiet w →
  browsers w !! req = Some b →
  browserKey b = req →
  b_DeletionTimestamp b = None →
  st_Phase (b_Status b) ≠ PodFailed →
  st_Phase (b_Status b) ≠ "" →
  browserPodFinalizer ∈ b_Finalizers b →
  default "" (default ∅ (b_Labels b) !! "selenosis.io/browser") = b_Name b →
  Reconcile rt store req w =
    match pods w !! req with
    | Some pod => watchPod b pod (called VGetPod (called VGetBrowser w))
    | None => handleMissingPod rt store b (called VGetPod (called VGetBrowser w))
    end.
Proof.
  intros Hq Hb Hkey Hlive Hphase Hset Hfin Hlabel.
  assert (Hsettled : settled req (pods w) (clock w) w b) by done.
  unfold Reconcile. rewrite (apiGetBrowser_settled _ _ _ _ _ Hsettled).
  rewrite Hlive. rewrite bool_decide_eq_false_2 by apply is_Some_None.
  rewrite decide_False by done.
  unfold ContainsFinalizer. rewrite (bool_decide_eq_true_2 _ Hfin). simpl negb. cbv iota zeta.
  rewrite decide_False by (by intros H). rewrite decide_False by done.
  apply (settled_called _ _ _ _ _ VGetBrowser) in Hsettled.
  rewrite Hkey, (apiGetPod_settled _ _ _ _ _ Hsettled).
  destruct (pods w !! req); [done|]. simpl IsNotFound. cbv iota.
  by rewrite decide_False.
Qed.

(** X21.  A live Browser that is not Failed, whose pod is neither
    Pending nor Failed nor marked for deletion, has a phase and reports
    no terminated [browser] or [seleniferous] container, in a cluster
    that answers every request.  [Reconcile] returns no error and asks to
    be called again after thirty seconds; the stored Browser then shows
    the pod's phase and address, and the pod's start time when it has
    one.  A second [Reconcile] finds nothing to do: it reads the Browser
    and the pod, sends no write, and leaves Browsers and pods as they
    are. *)
Theorem status_mirror_reaches_fixpoint
    (rt : GoRuntime) (store : BrowserConfigStore) (req : ObjectKey) (w : Cluster)
    (b : Browser) (pod : Pod) :
  quiet w →
  browsers w !! req = Some b →
  browserKey b = req →
  b_DeletionTimestamp b = None →
  st_Phase (b_Status b) ≠ PodFailed →
  pods w !! req = Some pod →
  p_DeletionTimestamp pod = None →
  pst_Phase (p_Status pod) ≠ PodFailed →
  pst_Phase (p_Status pod) ≠ PodPending →
  pst_Phase (p_Status pod) ≠ "" →
  (∀ cs, cs ∈ pst_ContainerStatuses (p_Status pod) → isCriticalTerminated cs = false) →
  let first := Reconcile rt store req w in
  let second := Reconcile rt store req (snd first) in
  let b' := mirrored b (prepared b) pod in
  fst first = (periodicReconcile, None) ∧
  browsers (snd first) !! req = Some b' ∧
  (st_Phase (b_Status b') = pst_Phase (p_Status pod) ∧
   st_PodIP (b_Status b') = pst_PodIP (p_Status pod) ∧
   (is_Some (pst_StartTime (p_Status pod)) →
    st_StartTime (b_Status b') = pst_StartTime (p_Status pod))) ∧
  fst second = (periodicReconcile, None) ∧
  browsers (snd second) = browsers (snd first) ∧
  pods (snd second) = pods w ∧
  trace (snd second) = trace (snd first) ++ [EvCall VGetBrowser; EvCall VGetPod].
Proof.
  intros Hq Hb Hkey Hlive Hphase Hpod Hpodlive Hnotfailed Hnotpending Hnotempty Hno.
  cbv zeta.
  assert (Hset : settled req (pods w) (clock w) w b) by done.
  destruct (Reconcile_prepared rt store req _ _ w b Hset Hphase) as (w1 & Hset1 & ->).
  rewrite Hpod.
  assert (Hwatch : ∀ x w0, watchPod x pod w0 = updateBrowserStatus x pod w0).
  { intros x w0. unfold watchPod. rewrite Hpodlive.
    rewrite (bool_decide_eq_false_2 (is_Some None)) by apply is_Some_None.
    simpl andb. cbv iota zeta.
    rewrite (decide_False (P := pst_Phase (p_Status pod) = PodFailed)) by done.
    by rewrite (decide_False (P := pst_Phase (p_Status pod) = PodPending)) by done. }
  rewrite Hwatch.
  destruct (updateBrowserStatus_mirrors req _ _ w1 _ b pod Hset1 Hkey Hno)
    as (w2 & -> & Hset2 & _).
  simpl fst. simpl snd.
  destruct (mirrored_is_fixpoint b (prepared b) pod (prepared_status b) Hnotempty)
    as (Hph & Hip & Hstart & Hbsc & Hcsc).
  destruct (mirrored_facts b (prepared b) pod) as (Hn & Hns & Hl & Hf & Hd).
  pose proof Hset2 as (Hq2 & Hp2 & Hc2 & Hs2 & Hlive2 & Hkey2).
  rewrite (Reconcile_steady rt store req w2 (mirrored b (prepared b) pod));
    [|done|done|done|done|by rewrite Hph|by rewrite Hph
     |rewrite Hf; apply prepared_facts|rewrite Hl, Hn; apply prepared_label].
  rewrite Hp2, Hpod, Hwatch.
  assert (Hset3 : settled req (pods w) (clock w) (called VGetPod (called VGetBrowser w2))
                    (mirrored b (prepared b) pod)).
  { by do 2 apply settled_called. }
  destruct (updateBrowserStatus_mirrors req _ _ _ _ (mirrored b (prepared b) pod) pod
              Hset3 Hkey2 Hno) as (w4 & -> & _ & Hsame).
  rewrite Hbsc, Hcsc in Hsame. rewrite (Hsame eq_refl). simpl.
  rewrite Hp2. rewrite <- app_assoc. done.
Qed.

Lemma status_mirror_reaches_fixpoint_witness :
  let rt := exampleRuntime in_order in
  let req := ("ns", "b1") in
  let pod := podOf (runningStatus "10.0.0.7" 3 [runningContainer "browser" 4]) in
  let w := clusterOf [pendingBrowser] [pod] 7%Z no_faults in
  let first := Reconcile rt NewBrowserConfigStore req w in
  let second := Reconcile rt NewBrowserConfigStore req (snd first) in
  let b' := mirrored pendingBrowser (prepared pendingBrowser) pod in
  fst first = (periodicReconcile, None) ∧
  browsers (snd first) !! req = Some b' ∧
  (st_Phase (b_Status b') = pst_Phase (p_Status pod) ∧
   st_PodIP (b_Status b') = pst_PodIP (p_Status pod) ∧
   (is_Some (pst_StartTime (p_Status pod)) →
    st_StartTime (b_Status b') = pst_StartTime (p_Status pod))) ∧
  fst second = (periodicReconcile, None) ∧
  browsers (snd second) = browsers (snd first) ∧
  pods (snd second) = pods w ∧
  trace (snd second) = trace (snd first) ++ [EvCall VGetBrowser; EvCall VGetPod].
Proof.
  cbv zeta.
  apply (status_mirror_reaches_fixpoint (exampleRuntime in_order) NewBrowserConfigStore
           ("ns", "b1")
           (clusterOf [pendingBrowser]
              [podOf (runningStatus "10.0.0.7" 3 [runningContainer "browser" 4])]
              7%Z no_faults)
           pendingBrowser
           (podOf (runningStatus "10.0.0.7" 3 [runningContainer "browser" 4]))).
  - intros v. reflexivity.
  - reflexivity.
  - reflexivity.
  - reflexivity.
  - discriminate.
  - reflexivity.
  - reflexivity.
  - discriminate.
  - discriminate.
  - discriminate.
  - intros cs Hin. apply list_elem_of_singleton in Hin. rewrite Hin. reflexivity.
Defined.

Lemma nextFault_called_ne w v v' : v' ≠ v → nextFault (called v w) v' = nextFault w v'.
Proof. intros Hne. unfold nextFault. simpl. by rewrite decide_False. Qed.

Lemma quietBut_nextFault v w v' : quietBut v w → v' ≠ v → nextFault w v' = None.
Proof. intros Hq Hne. unfold nextFault. by rewrite Hq. Qed.

Lemma quietBut_called v w v' : quietBut v w → quietBut v (called v' w).
Proof. intros Hq u Hu. simpl. destruct (decide (u = v')); by rewrite Hq. Qed.

Lemma quiet_quietBut v w : quiet w → quietBut v w.
Proof. intros Hq v' _. apply Hq. Qed.

(** Removing the pod finalizer of a Browser marked for deletion, in a
    cluster that answers the requests for Browsers. *)
Lemma retryUpdate_unguards (w : Cluster) (b : Browser) t :
  nextFault w VGetBrowser = None →
  nextFault w VPatchBrowser = None →
  browsers w !! browserKey b = Some b →
  b_DeletionTimestamp b = Some t →
  ∃ w', retryUpdate b (RemoveFinalizer browserPodFinalizer) w = (None, w') ∧
        pods w' = pods w ∧
        browsers w' !! browserKey b = unguarded b ∧
        (∀ key, key ≠ browserKey b → browsers w' !! key = browsers w !! key).
Proof.
  intros Hget Hpatch Hstored Hdel. unfold retryUpdate, apiPatchBrowser, maxRetries.
  rewrite (loop_accepted VPatchBrowser patchMain _ (browserKey b)
             (RemoveFinalizer browserPodFinalizer) ltac:(done) 4 0%Z w b Hget Hstored Hpatch
             eq_refl).
  rewrite (patchMain_fresh _ _ (RemoveFinalizer_metadataOnly browserPodFinalizer b)).
  eexists. split; [done|]. rewrite storeBrowser_pods. split; [done|].
  unfold storeBrowser, unguarded.
  change (b_DeletionTimestamp (RemoveFinalizer browserPodFinalizer b))
    with (b_DeletionTimestamp b). rewrite Hdel.
  destruct (b_Finalizers (RemoveFinalizer browserPodFinalizer b)); simpl.
  - split; [apply lookup_delete_eq|]. intros key Hne. by rewrite lookup_delete_ne.
  - split; [apply lookup_insert_eq|]. intros key Hne. by rewrite lookup_insert_ne.
Qed.

(** X22.  A Browser marked for deletion that carries the pod finalizer,
    whose pod is gone or cannot be read (the read fails with whatever
    error), in a cluster that answers every other request: [Reconcile]
    removes the finalizer and returns no error, so an unreadable pod does
    not hold the deletion up.  The Browser is gone when no other
    finalizer is left; the pods are not touched. *)
Theorem unreadable_pod_does_not_block_deletion
    (rt : GoRuntime) (store : BrowserConfigStore) (req : ObjectKey) (w : Cluster)
    (b : Browser) :
  quietBut VGetPod w →
  browsers w !! req = Some b →
  browserKey b = req →
  is_Some (b_DeletionTimestamp b) →
  browserPodFinalizer ∈ b_Finalizers b →
  match nextFault w VGetPod with
  | Some _ => True
  | None => pods w !! req = None
  end →
  let run := Reconcile rt store req w in
  fst run = done_ok ∧
  pods (snd run) = pods w ∧
  browsers (snd run) !! req = unguarded b.
Proof.
  intros Hq Hb Hkey [t Hdel] Hfin Hpod. cbv zeta.
  unfold Reconcile, apiGetBrowser, call.
  rewrite (quietBut_nextFault VGetPod w VGetBrowser Hq) by done. simpl browsers.
  rewrite Hb, Hdel. rewrite bool_decide_eq_true_2 by (by eexists).
  unfold handleDeletion. unfold ContainsFinalizer.
  rewrite (bool_decide_eq_true_2 _ Hfin). simpl negb. cbv iota zeta.
  set (w1 := called VGetBrowser w).
  assert (Hread : ∃ e, apiGetPod (browserKey b) w1 = (inl e, called VGetPod w1)).
  { unfold apiGetPod, call. unfold w1. rewrite nextFault_called_ne by done.
    destruct (nextFault w VGetPod) as [e|]; [by exists e|].
    simpl pods. rewrite Hkey, Hpod. by eexists. }
  destruct Hread as (e & ->).
  assert (Hq2 : quietBut VGetPod (called VGetPod w1)).
  { by do 2 apply quietBut_called. }
  destruct (retryUpdate_unguards (called VGetPod w1) b t) as (w3 & -> & Hp3 & Hs3 & _).
  - by apply (quietBut_nextFault VGetPod).
  - by apply (quietBut_nextFault VGetPod).
  - by rewrite Hkey.
  - done.
  - rewrite Hkey in Hs3. done.
Qed.

Lemma unreadable_pod_does_not_block_deletion_witness :
  let rt := exampleRuntime in_order in
  let req := ("ns", "b1") in
  let script := λ v, match v with
                     | VGetPod => [Some (StatusError ReasonInternalError)]
                     | _ => []
                     end in
  let w := clusterOf [deletingBrowser 5] [stuckPod] 7%Z script in
  let run := Reconcile rt NewBrowserConfigStore req w in
  fst run = done_ok ∧
  pods (snd run) = pods w ∧
  browsers (snd run) !! req = unguarded (deletingBrowser 5).
Proof.
  cbv zeta.
  apply (unreadable_pod_does_not_block_deletion (exampleRuntime in_order)
           NewBrowserConfigStore ("ns", "b1")
           (clusterOf [deletingBrowser 5] [stuckPod] 7%Z
              (λ v, match v with
                    | VGetPod => [Some (StatusError ReasonInternalError)]
                    | _ => []
                    end))
           (deletingBrowser 5)).
  - intros v Hv. destruct v; try reflexivity. by destruct Hv.
  - reflexivity.
  - reflexivity.
  - eexists. reflexivity.
  - apply list_elem_of_singleton. reflexivity.
  - exact I.
Defined.

Lemma quiet_tick d w : quiet w → quiet (tick d w).
Proof. intros Hq v. apply Hq. Qed.

(** [handleDeletion] as [Reconcile] reaches it. *)
Lemma Reconcile_deleting rt store req w b :
  quiet w →
  browsers w !! req = Some b →
  is_Some (b_DeletionTimestamp b) →
  Reconcile rt store req w = handleDeletion b (called VGetBrowser w).
Proof.
  intros Hq Hb Hdel. unfold Reconcile, apiGetBrowser, call.
  rewrite (quiet_nextFault _ _ Hq). simpl browsers. rewrite Hb.
  by rewrite bool_decide_eq_true_2.
Qed.

(** X23.  A Browser marked for deletion that carries the pod finalizer,
    with a pod that is not Failed and not yet marked for deletion, in a
    cluster that answers every request.  The first [Reconcile] asks the
    server to delete the pod with its grace period, leaves the Browser as
    it is and asks to be called again after three seconds.  A second
    [Reconcile], [d] later, with the pod still there: up to five minutes
    it changes nothing and asks again for three seconds; after more than
    five minutes it deletes the pod at once and removes the finalizer, so
    that the Browser is gone when no other finalizer is left. *)
Theorem deletion_outlasts_stuck_pod
    (rt : GoRuntime) (store : BrowserConfigStore) (req : ObjectKey) (w : Cluster)
    (b : Browser) (pod : Pod) (d : Z) :
  quiet w →
  browsers w !! req = Some b →
  browserKey b = req →
  is_Some (b_DeletionTimestamp b) →
  browserPodFinalizer ∈ b_Finalizers b →
  pods w !! req = Some pod →
  podKey pod = req →
  p_DeletionTimestamp pod = None →
  pst_Phase (p_Status pod) ≠ PodFailed →
  let first := Reconcile rt store req w in
  let second := Reconcile rt store req (tick d (snd first)) in
  (fst first = (quickCheck, None) ∧
   browsers (snd first) = browsers w ∧
   pods (snd first) = <[req := terminatingSince pod (clock w)]> (pods w)) ∧
  ((d ≤ podDeletionTimeout)%Z →
   fst second = (quickCheck, None) ∧
   browsers (snd second) = browsers w ∧
   pods (snd second) = pods (snd first)) ∧
  ((d > podDeletionTimeout)%Z →
   fst second = done_ok ∧
   pods (snd second) = delete req (pods w) ∧
   browsers (snd second) !! req = unguarded b).
Proof.
  intros Hq Hb Hkey Hdel Hfin Hpod Hpodkey Hpodlive Hnotfailed. cbv zeta.
  rewrite (Reconcile_deleting rt store req w b Hq Hb Hdel).
  assert (Hfirst :
    handleDeletion b (called VGetBrowser w) =
    ((quickCheck, None),
     withPods (called VDeletePod (called VGetPod (called VGetBrowser w)))
       (<[req := terminatingSince pod (clock w)]> (pods w)))).
  { unfold handleDeletion, ContainsFinalizer.
    rewrite (bool_decide_eq_true_2 _ Hfin). simpl negb. cbv iota zeta.
    unfold apiGetPod, call. rewrite (quiet_nextFault _ _ (quiet_called _ VGetBrowser Hq)).
    simpl pods. rewrite Hkey, Hpod, Hpodlive.
    unfold apiDeletePod, call.
    rewrite (quiet_nextFault _ _ (quiet_called _ VGetPod (quiet_called _ VGetBrowser Hq))).
    simpl pods. rewrite Hpodkey, Hpod.
    rewrite (bool_decide_eq_false_2 (pst_Phase (p_Status pod) = PodFailed)) by done.
    rewrite Hpodlive. done. }
  rewrite Hfirst. simpl fst. simpl snd.
  split; [done|].
  set (w1 := tick d (withPods (called VDeletePod (called VGetPod (called VGetBrowser w)))
                       (<[req := terminatingSince pod (clock w)]> (pods w)))).
  assert (Hq1 : quiet w1).
  { apply quiet_tick. intros v. simpl. repeat (destruct (decide _)); by rewrite Hq. }
  rewrite (Reconcile_deleting rt store req w1 b Hq1 Hb Hdel).
  unfold handleDeletion, ContainsFinalizer.
  rewrite (bool_decide_eq_true_2 _ Hfin). simpl negb. cbv iota zeta.
  unfold apiGetPod, call. rewrite (quiet_nextFault _ _ (quiet_called _ VGetBrowser Hq1)).
  simpl pods. rewrite Hkey, lookup_insert_eq.
  change (p_DeletionTimestamp (terminatingSince pod (clock w))) with (Some (clock w)).
  cbv iota. unfold since. simpl clock.
  replace (clock w + d - clock w)%Z with d by lia.
  split.
  - intros Hwait. rewrite decide_False by lia. done.
  - intros Hlate. rewrite decide_True by done.
    set (w2 := called VGetPod (called VGetBrowser w1)).
    assert (Hq2 : quiet w2) by (by do 2 apply quiet_called).
    assert (Hforce : deletePod (terminatingSince pod (clock w)) w2 =
                     (None, withPods (called VDeletePod w2) (delete req (pods w)))).
    { unfold deletePod, apiDeletePod, call. rewrite (quiet_nextFault _ _ Hq2).
      change (podKey (terminatingSince pod (clock w))) with (podKey pod). rewrite Hpodkey.
      simpl pods. rewrite lookup_insert_eq. simpl. by rewrite delete_insert_eq. }
    rewrite Hforce. simpl snd.
    destruct Hdel as [t Hdel].
    destruct (retryUpdate_unguards (withPods (called VDeletePod w2) (delete req (pods w))) b t)
      as (w3 & -> & Hp3 & Hs3 & _).
    + apply quiet_nextFault. intros v. simpl. repeat (destruct (decide _)); by rewrite Hq.
    + apply quiet_nextFault. intros v. simpl. repeat (destruct (decide _)); by rewrite Hq.
    + by rewrite Hkey.
    + done.
    + rewrite Hkey in Hs3. done.
Qed.

Lemma deletion_outlasts_stuck_pod_witness :
  let rt := exampleRuntime in_order in
  let req := ("ns", "b1") in
  let d := (6 * minute)%Z in
  let w := clusterOf [deletingBrowser 5] [stuckPod] 7%Z no_faults in
  let first := Reconcile rt NewBrowserConfigStore req w in
  let second := Reconcile rt NewBrowserConfigStore req (tick d (snd first)) in
  (fst first = (quickCheck, None) ∧
   browsers (snd first) = browsers w ∧
   pods (snd first) = <[req := terminatingSince stuckPod (clock w)]> (pods w)) ∧
  ((d ≤ podDeletionTimeout)%Z →
   fst second = (quickCheck, None) ∧
   browsers (snd second) = browsers w ∧
   pods (snd second) = pods (snd first)) ∧
  ((d > podDeletionTimeout)%Z →
   fst second = done_ok ∧
   pods (snd second) = delete req (pods w) ∧
   browsers (snd second) !! req = unguarded (deletingBrowser 5)).
Proof.
  cbv zeta.
  apply (deletion_outlasts_stuck_pod (exampleRuntime in_order) NewBrowserConfigStore
           ("ns", "b1") (clusterOf [deletingBrowser 5] [stuckPod] 7%Z no_faults)
           (deletingBrowser 5) stuckPod (6 * minute)%Z).
  - intros v. reflexivity.
  - reflexivity.
  - reflexivity.
  - eexists. reflexivity.
  - apply list_elem_of_singleton. reflexivity.
  - reflexivity.
  - reflexivity.
  - reflexivity.
  - discriminate.
Defined.

(** ** Reconcile touches only the objects of its request *)

Lemma touchesOnly_refl req w : wellKeyed w → touchesOnly req w w.
Proof. by split. Qed.

Lemma touchesOnly_trans req w1 w2 w3 :
  touchesOnly req w1 w2 → touchesOnly req w2 w3 → touchesOnly req w1 w3.
Proof.
  intros [_ H12] [Hk3 H23]. split; [done|]. intros key Hne.
  destruct (H12 key Hne) as [<- <-]. by apply H23.
Qed.

Lemma touchesOnly_same req w w' :
  browsers w' = browsers w → pods w' = pods w → wellKeyed w → touchesOnly req w w'.
Proof.
  intros Hb Hp [Hkb Hkp]. split.
  - split; [rewrite Hb|rewrite Hp]; done.
  - intros key _. by rewrite Hb, Hp.
Qed.

Lemma called_touchesOnly req v w : wellKeyed w → touchesOnly req w (called v w).
Proof. by apply touchesOnly_same. Qed.

Lemma sleep_touchesOnly req d w : wellKeyed w → touchesOnly req w (sleep d w).
Proof. by apply touchesOnly_same. Qed.

Lemma storeBrowser_touchesOnly req b w :
  browserKey b = req → wellKeyed w → touchesOnly req w (storeBrowser req b w).
Proof.
  intros Hkey [Hkb Hkp]. unfold storeBrowser.
  destruct (b_Finalizers b), (b_DeletionTimestamp b); simpl.
  all: split; [split; simpl|intros key Hne; simpl].
  all: try (intros key x Hx; try (by apply Hkp);
            (apply lookup_insert_Some in Hx as [[<- <-]|[_ Hx]]; [done|by apply Hkb])
            || (apply lookup_delete_Some in Hx as [_ Hx]; by apply Hkb)).
  all: by rewrite ?lookup_insert_ne, ?lookup_delete_ne by done.
Qed.

Lemma apiGetBrowser_touchesOnly req key w :
  wellKeyed w →
  touchesOnly req w (snd (apiGetBrowser key w)) ∧
  ∀ b, fst (apiGetBrowser key w) = inr b → browserKey b = key.
Proof.
  intros Hk. unfold apiGetBrowser, call. destruct (nextFault w VGetBrowser); simpl.
  - split; [by apply called_touchesOnly|done].
  - destruct (browsers w !! key) as [b|] eqn:Hb; simpl.
    + split; [by apply called_touchesOnly|]. intros b' [= <-]. by apply Hk.
    + split; [by apply called_touchesOnly|done].
Qed.

Lemma apiGetPod_touchesOnly req key w :
  wellKeyed w →
  touchesOnly req w (snd (apiGetPod key w)) ∧
  ∀ p, fst (apiGetPod key w) = inr p → podKey p = key.
Proof.
  intros Hk. unfold apiGetPod, call. destruct (nextFault w VGetPod); simpl.
  - split; [by apply called_touchesOnly|done].
  - destruct (pods w !! key) as [p|] eqn:Hp; simpl.
    + split; [by apply called_touchesOnly|]. intros p' [= <-]. by apply Hk.
    + split; [by apply called_touchesOnly|done].
Qed.

Lemma apiWrite_touchesOnly req v apply before current w :
  (∀ b c s, browserKey (apply b c s) = browserKey s) →
  browserKey current = req →
  wellKeyed w →
  touchesOnly req w (snd (apiWrite v apply before current w)).
Proof.
  intros Happly Hkey Hk. unfold apiWrite, call. destruct (nextFault w v); simpl.
  - by apply called_touchesOnly.
  - rewrite Hkey. destruct (browsers w !! req) as [stored|] eqn:Hs; simpl.
    + apply (touchesOnly_trans _ _ (called v w)); [by apply called_touchesOnly|].
      apply storeBrowser_touchesOnly; [|done].
      rewrite Happly. by apply Hk.
    + by apply called_touchesOnly.
Qed.

Lemma patchMain_key b c s : browserKey (patchMain b c s) = browserKey s.
Proof. done. Qed.

Lemma patchStatus_key b c s : browserKey (patchStatus b c s) = browserKey s.
Proof. done. Qed.

Lemma retryLoop_touchesOnly req v apply exhausted f n :
  (∀ b c s, browserKey (apply b c s) = browserKey s) →
  keepsKey f →
  ∀ i w, wellKeyed w →
         touchesOnly req w (snd (retryLoop (apiWrite v apply) exhausted req f n i w)).
Proof.
  intros Happly Hf. induction n as [|n IH]; intros i w Hk; simpl.
  - by apply touchesOnly_refl.
  - destruct (apiGetBrowser_touchesOnly req req w Hk) as [Hget Hread].
    destruct (apiGetBrowser req w) as [[err|current] w1]; simpl in *; [done|].
    pose proof (Hread current eq_refl) as Hcur.
    pose proof (apiWrite_touchesOnly req v apply current (f current) w1 Happly
                  ltac:(by rewrite Hf) (proj1 Hget)) as Hwrite.
    destruct (apiWrite v apply current (f current) w1) as [[err|] w2]; simpl in *.
    + destruct (IsConflict err).
      * apply (touchesOnly_trans _ _ w1); [done|].
        apply (touchesOnly_trans _ _ w2); [done|].
        pose proof (sleep_touchesOnly req (millisecond * (100 * Z.shiftl 1 i))%Z w2
                      (proj1 Hwrite)) as Hsleep.
        apply (touchesOnly_trans _ _ _ _ Hsleep). apply IH. exact (proj1 Hsleep).
      * by apply (touchesOnly_trans _ _ w1).
    + by apply (touchesOnly_trans _ _ w1).
Qed.

Lemma retryUpdate_touchesOnly req browser f w :
  browserKey browser = req → keepsKey f → wellKeyed w →
  touchesOnly req w (snd (retryUpdate browser f w)).
Proof.
  intros <- Hf Hk. unfold retryUpdate, apiPatchBrowser.
  by apply retryLoop_touchesOnly.
Qed.

Lemma retryStatusUpdate_touchesOnly req browser f w :
  browserKey browser = req → keepsKey f → wellKeyed w →
  touchesOnly req w (snd (retryStatusUpdate browser f w)).
Proof.
  intros <- Hf Hk. unfold retryStatusUpdate, apiPatchBrowserStatus.
  by apply retryLoop_touchesOnly.
Qed.

Lemma AddFinalizer_keepsKey x : keepsKey (AddFinalizer x).
Proof. intros b. unfold AddFinalizer. by destruct (ContainsFinalizer b x). Qed.

Lemma RemoveFinalizer_keepsKey x : keepsKey (RemoveFinalizer x).
Proof. by intros b. Qed.

Lemma assignIdentityLabels_keepsKey : keepsKey assignIdentityLabels.
Proof. by intros b. Qed.

Lemma markPhase_keepsKey p : keepsKey (markPhase p).
Proof. by intros b. Qed.

Lemma markFailed_keepsKey m : keepsKey (markFailed m).
Proof. by intros b. Qed.

Lemma markFailedWith_keepsKey r m : keepsKey (markFailedWith r m).
Proof. by intros b. Qed.

Lemma mirrorPod_keepsKey pod x y l : keepsKey (mirrorPod pod x y l).
Proof. by intros b. Qed.

Lemma apiDeleteBrowser_touchesOnly req w :
  wellKeyed w → touchesOnly req w (snd (apiDeleteBrowser req w)).
Proof.
  intros Hk. unfold apiDeleteBrowser, call. destruct (nextFault w VDeleteBrowser); simpl.
  - by apply called_touchesOnly.
  - destruct (browsers w !! req) as [stored|] eqn:Hs; simpl.
    + apply (touchesOnly_trans _ _ (called VDeleteBrowser w)); [by apply called_touchesOnly|].
      apply storeBrowser_touchesOnly; [|done]. change (browserKey stored = req). by apply Hk.
    + by apply called_touchesOnly.
Qed.

Lemma withPods_insert_touchesOnly req p w :
  podKey p = req → wellKeyed w → touchesOnly req w (withPods w (<[req := p]> (pods w))).
Proof.
  intros Hkey [Hkb Hkp]. split; [split|]; simpl.
  - done.
  - intros key x Hx. apply lookup_insert_Some in Hx as [[<- <-]|[_ Hx]]; [done|by apply Hkp].
  - intros key Hne. by rewrite lookup_insert_ne.
Qed.

Lemma withPods_delete_touchesOnly req w :
  wellKeyed w → touchesOnly req w (withPods w (delete req (pods w))).
Proof.
  intros [Hkb Hkp]. split; [split|]; simpl.
  - done.
  - intros key x Hx. apply lookup_delete_Some in Hx as [_ Hx]. by apply Hkp.
  - intros key Hne. by rewrite lookup_delete_ne.
Qed.

Lemma apiCreatePod_touchesOnly req p w :
  podKey p = req → wellKeyed w → touchesOnly req w (snd (apiCreatePod p w)).
Proof.
  intros Hkey Hk. unfold apiCreatePod, call. destruct (nextFault w VCreatePod); simpl.
  - by apply called_touchesOnly.
  - rewrite Hkey. destruct (pods w !! req); simpl.
    + by apply called_touchesOnly.
    + apply (touchesOnly_trans _ _ (called VCreatePod w)); [by apply called_touchesOnly|].
      by apply (withPods_insert_touchesOnly req _ (called VCreatePod w)).
Qed.

Lemma apiDeletePod_touchesOnly req force w :
  wellKeyed w → touchesOnly req w (snd (apiDeletePod req force w)).
Proof.
  intros Hk. unfold apiDeletePod, call. destruct (nextFault w VDeletePod); simpl.
  - by apply called_touchesOnly.
  - destruct (pods w !! req) as [stored|] eqn:Hs; simpl.
    + apply (touchesOnly_trans _ _ (called VDeletePod w)); [by apply called_touchesOnly|].
      destruct force.
      * by apply (withPods_delete_touchesOnly req (called VDeletePod w)).
      * apply (withPods_insert_touchesOnly req _ (called VDeletePod w)); [|done].
        change (podKey stored = req). by apply Hk.
    + by apply called_touchesOnly.
Qed.

Lemma deletePod_touchesOnly req pod w :
  podKey pod = req → wellKeyed w → touchesOnly req w (snd (deletePod pod w)).
Proof.
  intros Hkey Hk. unfold deletePod. rewrite Hkey.
  pose proof (apiDeletePod_touchesOnly req true w Hk) as H.
  destruct (apiDeletePod req true w) as [[err|] w1]; simpl in *; [|done].
  by destruct (negb (IsNotFound err)).
Qed.

Lemma deleteBrowser_touchesOnly req browser w :
  browserKey browser = req → wellKeyed w →
  touchesOnly req w (snd (deleteBrowser browser w)).
Proof.
  intros Hkey Hk. unfold deleteBrowser. cbv zeta.
  assert (Hrem : touchesOnly req w
            (snd (if ContainsFinalizer browser browserPodFinalizer
                  then retryUpdate browser (RemoveFinalizer browserPodFinalizer) w
                  else (None, w)))).
  { destruct (ContainsFinalizer browser browserPodFinalizer).
    - apply retryUpdate_touchesOnly; [done|apply RemoveFinalizer_keepsKey|done].
    - by apply touchesOnly_refl. }
  destruct (if ContainsFinalizer browser browserPodFinalizer
            then retryUpdate browser (RemoveFinalizer browserPodFinalizer) w
            else (None, w)) as [[err|] w1]; simpl in *; [done|].
  rewrite Hkey.
  pose proof (apiDeleteBrowser_touchesOnly req w1 (proj1 Hrem)) as Hdel.
  destruct (apiDeleteBrowser req w1) as [[err|] w2]; simpl in *.
  - destruct (negb (IsNotFound err)); by apply (touchesOnly_trans _ _ w1).
  - by apply (touchesOnly_trans _ _ w1).
Qed.

Ltac status_step req browser f w H :=
  pose proof (retryStatusUpdate_touchesOnly req browser f w) as H;
  destruct (retryStatusUpdate browser f w) as [[?err|] ?w]; simpl in H |- *.

Lemma handleMissingPod_touchesOnly rt store req browser w :
  browserKey browser = req → wellKeyed w →
  touchesOnly req w (snd (handleMissingPod rt store browser w)).
Proof.
  intros Hkey Hk. unfold handleMissingPod.
  assert (Hfail : ∀ r m, touchesOnly req w
            (snd (match retryStatusUpdate browser (markFailedWith r m) w with
                  | (Some err, w) => ((0%Z, Some err), w)
                  | (None, w) => (done_ok, w)
                  end))).
  { intros r m. status_step req browser (markFailedWith r m) w H;
      apply H; try done; apply markFailedWith_keepsKey. }
  destruct (Get rt store _ _ _) as [[browserSpec|] []].
  - destruct (parseSelenosisOptions rt (b_Annotations browser)) as [err|opts].
    + apply Hfail.
    + unfold createPod.
      pose proof (apiCreatePod_touchesOnly req
                    (buildBrowserPod (rangeOrder rt) browser browserSpec opts) w
                    ltac:(by rewrite buildBrowserPod_key) Hk) as H.
      destruct (apiCreatePod _ w) as [[err|] w1]; simpl in *; [|done].
      by destruct (IsAlreadyExists err).
  - destruct (decide _); [apply Hfail|by apply touchesOnly_refl].
  - destruct (decide _); [apply Hfail|by apply touchesOnly_refl].
  - destruct (decide _); [apply Hfail|by apply touchesOnly_refl].
Qed.

Lemma handleDeletion_touchesOnly req browser w :
  browserKey browser = req → wellKeyed w →
  touchesOnly req w (snd (handleDeletion browser w)).
Proof.
  intros Hkey Hk. unfold handleDeletion.
  destruct (negb (ContainsFinalizer browser browserPodFinalizer)); [by apply touchesOnly_refl|].
  cbv zeta.
  assert (Hremove : ∀ w0, wellKeyed w0 →
            touchesOnly req w0
              (snd (if ContainsFinalizer browser browserPodFinalizer
                    then match retryUpdate browser (RemoveFinalizer browserPodFinalizer) w0 with
                         | (Some err, w) => ((mediumRetry, Some err), w)
                         | (None, w) => (done_ok, w)
                         end
                    else (done_ok, w0)))).
  { intros w0 Hk0. destruct (ContainsFinalizer browser browserPodFinalizer);
      [|by apply touchesOnly_refl].
    pose proof (retryUpdate_touchesOnly req browser (RemoveFinalizer browserPodFinalizer) w0
                  Hkey (RemoveFinalizer_keepsKey _) Hk0) as H.
    by destruct (retryUpdate browser (RemoveFinalizer browserPodFinalizer) w0) as [[err|] w1]. }
  rewrite Hkey.
  destruct (apiGetPod_touchesOnly req req w Hk) as [Hget Hread].
  destruct (apiGetPod req w) as [[err|pod] w1]; simpl in Hget, Hread.
  - apply (touchesOnly_trans _ _ w1); [done|]. apply Hremove, Hget.
  - pose proof (Hread pod eq_refl) as Hpodkey.
    destruct (p_DeletionTimestamp pod) as [deletionTime|].
    + destruct (decide _).
      * pose proof (deletePod_touchesOnly req pod w1 Hpodkey (proj1 Hget)) as Hforce.
        apply (touchesOnly_trans _ _ w1); [done|].
        apply (touchesOnly_trans _ _ _ _ Hforce). apply Hremove, Hforce.
      * done.
    + rewrite Hpodkey.
      pose proof (apiDeletePod_touchesOnly req
                    (bool_decide (pst_Phase (p_Status pod) = PodFailed)) w1 (proj1 Hget)) as Hdel.
      destruct (apiDeletePod req _ w1) as [[err|] w2]; simpl in *.
      * destruct (negb (IsNotFound err)); by apply (touchesOnly_trans _ _ w1).
      * by apply (touchesOnly_trans _ _ w1).
Qed.

Lemma updateBrowserStatus_touchesOnly req browser pod w :
  browserKey browser = req → wellKeyed w →
  touchesOnly req w (snd (updateBrowserStatus browser pod w)).
Proof.
  intros Hkey Hk. unfold updateBrowserStatus.
  destruct (List.find isCriticalTerminated _) as [cs|].
  - cbv zeta.
    assert (Hfailed : touchesOnly req w
              (snd (if decide (st_Phase (b_Status browser) ≠ PodFailed)
                    then retryStatusUpdate browser
                           (markFailedWith (pst_Reason (p_Status pod))
                              (pst_Message (p_Status pod))) w
                    else (None, w)))).
    { destruct (decide _); [|by apply touchesOnly_refl].
      apply retryStatusUpdate_touchesOnly; [done|apply markFailedWith_keepsKey|done]. }
    destruct (if decide (st_Phase (b_Status browser) ≠ PodFailed)
              then retryStatusUpdate browser _ w else (None, w)) as [[err|] w1];
      simpl in *; [done|].
    apply (touchesOnly_trans _ _ w1); [done|].
    apply deleteBrowser_touchesOnly; [done|apply Hfailed].
  - cbv zeta.
    match goal with |- context [if ?c then retryStatusUpdate browser ?f w else _] =>
      assert (Hwritten : touchesOnly req w
                (snd (if c then retryStatusUpdate browser f w else (None, w))));
      [destruct c; [apply retryStatusUpdate_touchesOnly;
                    [done|apply mirrorPod_keepsKey|done]
                   |by apply touchesOnly_refl]
      |destruct (if c then retryStatusUpdate browser f w else (None, w)) as [[err|] w1]]
    end; done.
Qed.

Lemma watchPending_touchesOnly req browser pod statuses :
  browserKey browser = req → podKey pod = req →
  ∀ w, wellKeyed w → touchesOnly req w (snd (watchPending browser pod statuses w)).
Proof.
  intros Hkey Hpodkey. induction statuses as [|cs statuses IH]; intros w Hk; simpl.
  { by apply touchesOnly_refl. }
  assert (Hfail : ∀ m w0, wellKeyed w0 → touchesOnly req w0
            (snd (match retryStatusUpdate browser (markFailed m) w0 with
                  | (Some err, w) => (Some (mediumRetry, Some err), w)
                  | (None, w) => (Some done_ok, w)
                  end))).
  { intros m w0 Hk0. status_step req browser (markFailed m) w0 H;
      apply H; try done; apply markFailed_keepsKey. }
  destruct (Terminated (cs_State cs)); [by apply Hfail|].
  destruct (Waiting (cs_State cs)) as [waiting|]; [|by apply IH].
  destruct (match p_CreationTimestamp pod with
            | Some created => bool_decide (since w created > podCreationTimeout)%Z
            | None => false
            end); [by apply Hfail|].
  destruct (_ && _); [|by apply IH].
  pose proof (deletePod_touchesOnly req pod w Hpodkey Hk) as Hdel.
  destruct (deletePod pod w) as [[err|] w1]; simpl in *; [done|].
  apply (touchesOnly_trans _ _ w1); [done|]. apply Hfail, Hdel.
Qed.

Lemma watchPod_touchesOnly req browser pod w :
  browserKey browser = req → podKey pod = req → wellKeyed w →
  touchesOnly req w (snd (watchPod browser pod w)).
Proof.
  intros Hkey Hpodkey Hk. unfold watchPod.
  destruct (_ && _); [by apply deleteBrowser_touchesOnly|]. cbv zeta.
  assert (Hrest : ∀ w0, wellKeyed w0 →
            touchesOnly req w0
              (snd (match (if decide (pst_Phase (p_Status pod) = PodPending)
                           then watchPending browser pod
                                  (pst_ContainerStatuses (p_Status pod)) w0
                           else (None, w0)) with
                    | (Some out, w) => (out, w)
                    | (None, w) => updateBrowserStatus browser pod w
                    end))).
  { intros w0 Hk0.
    assert (Hpending : touchesOnly req w0
              (snd (if decide (pst_Phase (p_Status pod) = PodPending)
                    then watchPending browser pod (pst_ContainerStatuses (p_Status pod)) w0
                    else (None, w0)))).
    { destruct (decide _); [|by apply touchesOnly_refl].
      by apply watchPending_touchesOnly. }
    destruct (if decide (pst_Phase (p_Status pod) = PodPending)
              then watchPending browser pod (pst_ContainerStatuses (p_Status pod)) w0
              else (None, w0)) as [[out|] w2]; simpl in *; [done|].
    apply (touchesOnly_trans _ _ w2); [done|].
    apply updateBrowserStatus_touchesOnly; [done|apply Hpending]. }
  destruct (decide (pst_Phase (p_Status pod) = PodFailed)); [|by apply Hrest].
  pose proof (deletePod_touchesOnly req pod w Hpodkey Hk) as Hdel.
  destruct (deletePod pod w) as [[err|] w1]; simpl in Hdel |- *; [done|].
  match goal with |- context [retryStatusUpdate browser ?f w1] =>
    pose proof (retryStatusUpdate_touchesOnly req browser f w1 Hkey
                  (markFailed_keepsKey _) (proj1 Hdel)) as Hst;
    destruct (retryStatusUpdate browser f w1) as [[err|] w2]
  end; simpl in Hst |- *.
  - by apply (touchesOnly_trans _ _ w1).
  - apply (touchesOnly_trans _ _ w1); [done|]. apply (touchesOnly_trans _ _ w2); [done|].
    apply Hrest, Hst.
Qed.

(** X24.  Whatever the cluster answers, [Reconcile] for a request
    changes no Browser and no pod other than those stored under the
    namespace and name of the request, provided every object is stored
    under its own namespace and name; and it leaves the cluster in that
    condition. *)
Theorem Reconcile_touches_only_its_request
    (rt : GoRuntime) (store : BrowserConfigStore) (req : ObjectKey) (w : Cluster) :
  wellKeyed w →
  let w' := snd (Reconcile rt store req w) in
  wellKeyed w' ∧
  ∀ key, key ≠ req →
         browsers w' !! key = browsers w !! key ∧ pods w' !! key = pods w !! key.
Proof.
  intros Hk. cbv zeta. change (touchesOnly req w (snd (Reconcile rt store req w))).
  unfold Reconcile.
  destruct (apiGetBrowser_touchesOnly req req w Hk) as [Hget Hread].
  destruct (apiGetBrowser req w) as [[err|browser] w1]; simpl in Hget, Hread.
  { by destruct (IsNotFound err). }
  pose proof (Hread browser eq_refl) as Hkey.
  apply (touchesOnly_trans _ _ w1); [done|]. pose proof (proj1 Hget) as Hk1.
  clear Hget Hread.
  destruct (bool_decide (is_Some (b_DeletionTimestamp browser))).
  { by apply handleDeletion_touchesOnly. }
  destruct (decide (st_Phase (b_Status browser) = PodFailed)).
  { destruct (ContainsFinalizer browser browserPodFinalizer); [|by apply touchesOnly_refl].
    pose proof (retryUpdate_touchesOnly req browser (RemoveFinalizer browserPodFinalizer) w1
                  Hkey (RemoveFinalizer_keepsKey _) Hk1) as H.
    by destruct (retryUpdate browser (RemoveFinalizer browserPodFinalizer) w1) as [[err|] w2]. }
  cbv zeta.
  assert (Hensured : touchesOnly req w1
            (snd (if negb (ContainsFinalizer browser browserPodFinalizer)
                  then retryUpdate browser (AddFinalizer browserPodFinalizer) w1
                  else (None, w1)))).
  { destruct (negb _); [|by apply touchesOnly_refl].
    apply retryUpdate_touchesOnly; [done|apply AddFinalizer_keepsKey|done]. }
  destruct (if negb (ContainsFinalizer browser browserPodFinalizer)
            then retryUpdate browser (AddFinalizer browserPodFinalizer) w1
            else (None, w1)) as [[err|] w2]; simpl in Hensured |- *; [done|].
  apply (touchesOnly_trans _ _ w2); [done|]. pose proof (proj1 Hensured) as Hk2.
  clear Hensured.
  assert (Hlabelled : touchesOnly req w2
            (snd (if decide (default "" (default ∅ (b_Labels browser) !! "selenosis.io/browser")
                             ≠ b_Name browser)
                  then retryUpdate browser assignIdentityLabels w2
                  else (None, w2)))).
  { destruct (decide _); [|by apply touchesOnly_refl].
    apply retryUpdate_touchesOnly; [done|apply assignIdentityLabels_keepsKey|done]. }
  destruct (if decide (default "" (default ∅ (b_Labels browser) !! "selenosis.io/browser")
                       ≠ b_Name browser)
            then retryUpdate browser assignIdentityLabels w2
            else (None, w2)) as [[err|] w3]; simpl in Hlabelled |- *; [done|].
  apply (touchesOnly_trans _ _ w3); [done|]. pose proof (proj1 Hlabelled) as Hk3.
  clear Hlabelled.
  assert (Hinit : touchesOnly req w3
            (snd (if decide (st_Phase (b_Status browser) = "")
                  then retryStatusUpdate browser (markPhase PodPending) w3
                  else (None, w3)))).
  { destruct (decide _); [|by apply touchesOnly_refl].
    apply retryStatusUpdate_touchesOnly; [done|apply markPhase_keepsKey|done]. }
  destruct (if decide (st_Phase (b_Status browser) = "")
            then retryStatusUpdate browser (markPhase PodPending) w3
            else (None, w3)) as [[err|] w4]; simpl in Hinit |- *; [done|].
  apply (touchesOnly_trans _ _ w4); [done|]. pose proof (proj1 Hinit) as Hk4.
  clear Hinit. rewrite Hkey.
  destruct (apiGetPod_touchesOnly req req w4 Hk4) as [Hget Hread].
  destruct (apiGetPod req w4) as [[err|pod] w5]; simpl in Hget, Hread.
  - destruct (IsNotFound err); [|done].
    destruct (decide (st_Phase (b_Status browser) = PodFailed)); [done|].
    apply (touchesOnly_trans _ _ w5); [done|].
    apply handleMissingPod_touchesOnly; [done|apply Hget].
  - apply (touchesOnly_trans _ _ w5); [done|].
    apply watchPod_touchesOnly; [done|by apply Hread|apply Hget].
Qed.

Lemma Reconcile_touches_only_its_request_witness :
  let rt := exampleRuntime in_order in
  let w := clusterOf [newBrowser "ns" "b1" "chrome" "120.0";
                      newBrowser "ns" "b2" "chrome" "120.0"] [stuckPod] 7%Z no_faults in
  let w' := snd (Reconcile rt (chromeStore rt) ("ns", "b2") w) in
  wellKeyed w ∧ wellKeyed w' ∧
  ∀ key, key ≠ ("ns", "b2") →
         browsers w' !! key = browsers w !! key ∧ pods w' !! key = pods w !! key.
Proof.
  cbv zeta.
  assert (Hk : wellKeyed (clusterOf [newBrowser "ns" "b1" "chrome" "120.0";
                                     newBrowser "ns" "b2" "chrome" "120.0"]
                            [stuckPod] 7%Z no_faults)).
  { split.
    - intros key b Hb. simpl in Hb.
      apply lookup_insert_Some in Hb as [[<- <-]|[_ Hb]]; [reflexivity|].
      apply lookup_insert_Some in Hb as [[<- <-]|[_ Hb]]; [reflexivity|].
      by rewrite lookup_empty in Hb.
    - intros key p Hp. simpl in Hp.
      apply lookup_insert_Some in Hp as [[<- <-]|[_ Hp]]; [reflexivity|].
      by rewrite lookup_empty in Hp. }
  split; [exact Hk|].
  exact (Reconcile_touches_only_its_request (exampleRuntime in_order)
           (chromeStore (exampleRuntime in_order)) ("ns", "b2") _ Hk).
Defined.

(** ** The finalizer while the pod is there *)

Lemma held_same key w w' :
  browsers w' !! key = browsers w !! key → pods w' !! key = pods w !! key →
  finalizerHeld key w → finalizerHeld key w'.
Proof. intros Hb Hp Hheld b pod. rewrite Hb, Hp. apply Hheld. Qed.

Lemma guarded_held req w : guarded req w → finalizerHeld req w.
Proof.
  intros (s & Hs & _ & Hfin) b pod Hb _ _ _ _. rewrite Hs in Hb. by injection Hb as <-.
Qed.

Lemma lapsed_held req w : lapsed req w → finalizerHeld req w.
Proof.
  intros Hl b pod Hb _ Hlive Hphase _. destruct (Hl b Hb) as [Hdel|Hfailed]; [|done].
  rewrite Hlive in Hdel. by destruct Hdel.
Qed.

Lemma lapsed_same req w w' : browsers w' = browsers w → lapsed req w → lapsed req w'.
Proof. intros Heq Hl b. rewrite Heq. apply Hl. Qed.

Lemma storeBrowser_lapsed req key b w :
  lapsed req w →
  (key = req → is_Some (b_DeletionTimestamp b) ∨ st_Phase (b_Status b) = PodFailed) →
  lapsed req (storeBrowser key b w).
Proof.
  intros Hl Hnew x Hx.
  assert (Hcases : (key = req ∧ x = b) ∨ browsers w !! req = Some x).
  { revert Hx. unfold storeBrowser.
    destruct (b_Finalizers b), (b_DeletionTimestamp b); simpl; intros H.
    all: try (apply lookup_insert_Some in H as [[-> ->]|[_ H]]; [by left|by right]).
    apply lookup_delete_Some in H as [_ H]. by right. }
  destruct Hcases as [[-> ->]|Hold]; [by apply Hnew|by apply (Hl x)].
Qed.

Lemma apiWrite_main_lapsed req v before current w :
  lapsed req w → lapsed req (snd (apiWrite v patchMain before current w)).
Proof.
  intros Hl. unfold apiWrite, call. destruct (nextFault w v); [done|]. simpl.
  destruct (browsers w !! browserKey current) as [stored|] eqn:Hstored; [|done]. simpl.
  apply storeBrowser_lapsed; [done|]. intros Hkey. rewrite Hkey in Hstored.
  apply (Hl stored Hstored).
Qed.

Lemma retryLoop_main_lapsed req v exhausted key f n :
  ∀ i w, lapsed req w →
         lapsed req (snd (retryLoop (apiWrite v patchMain) exhausted key f n i w)).
Proof.
  induction n as [|n IH]; intros i w Hl; [done|]. simpl. unfold apiGetBrowser, call.
  destruct (nextFault w VGetBrowser); [done|]. simpl.
  destruct (browsers w !! key) as [stored|]; [|done].
  pose proof (apiWrite_main_lapsed req v stored (f stored) (called VGetBrowser w) Hl) as Hw.
  destruct (apiWrite v patchMain stored (f stored) (called VGetBrowser w)) as [[e|] w2];
    [|done].
  destruct (IsConflict e); [|done]. by apply IH.
Qed.

Lemma retryUpdate_lapsed req browser f w :
  lapsed req w → lapsed req (snd (retryUpdate browser f w)).
Proof. apply retryLoop_main_lapsed. Qed.

Lemma apiDeleteBrowser_lapsed req key w :
  lapsed req w → lapsed req (snd (apiDeleteBrowser key w)).
Proof.
  intros Hl. unfold apiDeleteBrowser, call. destruct (nextFault w VDeleteBrowser); [done|].
  simpl. destruct (browsers w !! key) as [stored|]; [|done]. simpl.
  apply storeBrowser_lapsed; [done|]. intros _. left. simpl.
  by destruct (b_DeletionTimestamp stored).
Qed.

Lemma deleteBrowser_lapsed req browser w :
  lapsed req w → lapsed req (snd (deleteBrowser browser w)).
Proof.
  intros Hl. unfold deleteBrowser. cbv zeta.
  assert (Hrem : lapsed req
            (snd (if ContainsFinalizer browser browserPodFinalizer
                  then retryUpdate browser (RemoveFinalizer browserPodFinalizer) w
                  else (None, w)))).
  { destruct (ContainsFinalizer _ _); [by apply retryUpdate_lapsed|done]. }
  destruct (if ContainsFinalizer browser browserPodFinalizer
            then retryUpdate browser (RemoveFinalizer browserPodFinalizer) w
            else (None, w)) as [[err|] w1]; simpl in Hrem |- *; [done|].
  pose proof (apiDeleteBrowser_lapsed req (browserKey browser) w1 Hrem) as Hdel.
  destruct (apiDeleteBrowser (browserKey browser) w1) as [[err|] w2]; simpl in Hdel |- *;
    [|done].
  by destruct (negb (IsNotFound err)).
Qed.

Lemma handleDeletion_lapsed req browser w :
  lapsed req w → lapsed req (snd (handleDeletion browser w)).
Proof.
  intros Hl. unfold handleDeletion.
  destruct (negb (ContainsFinalizer browser browserPodFinalizer)); [done|]. cbv zeta.
  assert (Hremove : ∀ w0, lapsed req w0 → lapsed req (snd
            (if ContainsFinalizer browser browserPodFinalizer
             then match retryUpdate browser (RemoveFinalizer browserPodFinalizer) w0 with
                  | (Some err, w) => ((mediumRetry, Some err), w)
                  | (None, w) => (done_ok, w)
                  end
             else (done_ok, w0)))).
  { intros w0 Hl0. destruct (ContainsFinalizer _ _); [|done].
    pose proof (retryUpdate_lapsed req browser (RemoveFinalizer browserPodFinalizer) w0 Hl0)
      as H.
    by destruct (retryUpdate browser (RemoveFinalizer browserPodFinalizer) w0) as [[e|] w1]. }
  unfold apiGetPod, call.
  destruct (nextFault w VGetPod) as [e|]; [by apply Hremove|]. simpl.
  destruct (pods w !! browserKey browser) as [pod|]; [|by apply Hremove].
  destruct (p_DeletionTimestamp pod) as [t|].
  - destruct (decide _); [|done]. apply Hremove.
    apply (lapsed_same req (called VGetPod w)); [apply deletePod_browsers|done].
  - pose proof (apiDeletePod_browsers (podKey pod)
                  (bool_decide (pst_Phase (p_Status pod) = PodFailed)) (called VGetPod w))
      as Hd.
    destruct (apiDeletePod _ _ _) as [[e|] w1]; simpl in Hd |- *.
    + destruct (negb (IsNotFound e)); by apply (lapsed_same req (called VGetPod w)).
    + by apply (lapsed_same req (called VGetPod w)).
Qed.

Lemma storeBrowser_browsers key b w w' :
  browsers w' = browsers w → browsers (storeBrowser key b w') = browsers (storeBrowser key b w).
Proof.
  intros Heq. unfold storeBrowser.
  destruct (b_Finalizers b), (b_DeletionTimestamp b); simpl; by rewrite Heq.
Qed.

Lemma apiWrite_outcome v apply before current w :
  match fst (apiWrite v apply before current w) with
  | Some _ => browsers (snd (apiWrite v apply before current w)) = browsers w
  | None =>
      ∃ stored, browsers w !! browserKey current = Some stored ∧
                browsers (snd (apiWrite v apply before current w)) =
                  browsers (storeBrowser (browserKey current)
                              (apply before current stored) w)
  end.
Proof.
  unfold apiWrite, call. destruct (nextFault w v); [done|]. simpl.
  destruct (browsers w !! browserKey current) as [stored|]; [|done]. simpl.
  exists stored. split; [done|]. by apply storeBrowser_browsers.
Qed.

(** A retry loop that returns an error has stored nothing, and one that
    returns none has stored the patched object. *)
Lemma retryLoop_outcome v apply exhausted key f n :
  ∀ i w,
    match fst (retryLoop (apiWrite v apply) exhausted key f n i w) with
    | Some _ => browsers (snd (retryLoop (apiWrite v apply) exhausted key f n i w)) = browsers w
    | None =>
        ∃ stored current,
          browsers w !! key = Some stored ∧
          browsers w !! browserKey (f stored) = Some current ∧
          browsers (snd (retryLoop (apiWrite v apply) exhausted key f n i w)) =
            browsers (storeBrowser (browserKey (f stored))
                        (apply stored (f stored) current) w)
    end.
Proof.
  induction n as [|n IH]; intros i w; [done|]. simpl. unfold apiGetBrowser, call.
  destruct (nextFault w VGetBrowser); [done|]. simpl.
  destruct (browsers w !! key) as [stored|] eqn:Hstored; [|done].
  pose proof (apiWrite_outcome v apply stored (f stored) (called VGetBrowser w)) as Hw.
  destruct (apiWrite v apply stored (f stored) (called VGetBrowser w)) as [[e|] w2];
    simpl in Hw.
  - destruct (IsConflict e); [|done].
    specialize (IH (i + 1)%Z (sleep (millisecond * (100 * Z.shiftl 1 i))%Z w2)).
    destruct (fst (retryLoop _ _ _ _ _ _ _)).
    + by rewrite IH.
    + destruct IH as (s & c & Hs & Hc & Hb). simpl in Hs, Hc. rewrite Hw in Hs, Hc.
      rewrite Hstored in Hs. injection Hs as <-. exists stored, c.
      split; [done|]. split; [done|]. rewrite Hb. by apply storeBrowser_browsers.
  - destruct Hw as (current & Hcurrent & Hb). exists stored, current.
    split; [done|]. split; [done|]. simpl. rewrite Hb. by apply storeBrowser_browsers.
Qed.

Lemma retryUpdate_adds req browser w s :
  browsers w !! req = Some s → browserKey s = req → browserKey browser = req →
  fst (retryUpdate browser (AddFinalizer browserPodFinalizer) w) = None →
  guarded req (snd (retryUpdate browser (AddFinalizer browserPodFinalizer) w)).
Proof.
  intros Hs Hkey Hbk Hok. unfold retryUpdate, apiPatchBrowser in *. rewrite Hbk in *.
  pose proof (retryLoop_outcome VPatchBrowser patchMain
                "failed to patch Browser after 5 attempts: version conflict"
                req (AddFinalizer browserPodFinalizer) maxRetries 0%Z w) as Hout.
  rewrite Hok in Hout. destruct Hout as (stored & current & Hst & Hcur & Hb).
  rewrite Hs in Hst. injection Hst as <-.
  assert (Hk : browserKey (AddFinalizer browserPodFinalizer s) = req).
  { etrans; [apply AddFinalizer_keepsKey|done]. }
  rewrite Hk, Hs in Hcur. injection Hcur as <-. rewrite Hk in Hb.
  assert (Hfin : browserPodFinalizer ∈
                 b_Finalizers (patchMain s (AddFinalizer browserPodFinalizer s) s)).
  { simpl. rewrite patched_same. unfold AddFinalizer.
    destruct (ContainsFinalizer s browserPodFinalizer) eqn:Hc; simpl.
    - unfold ContainsFinalizer in Hc. by apply bool_decide_eq_true in Hc.
    - apply elem_of_app. right. by apply list_elem_of_singleton. }
  exists (patchMain s (AddFinalizer browserPodFinalizer s) s).
  split; [|by split]. rewrite Hb. unfold storeBrowser.
  destruct (b_Finalizers (patchMain s (AddFinalizer browserPodFinalizer s) s)) eqn:E.
  - by apply elem_of_nil in Hfin.
  - simpl. apply lookup_insert_eq.
Qed.

Lemma retryStatusUpdate_fails req browser reason message w :
  guarded req w → browserKey browser = req →
  fst (retryStatusUpdate browser (markFailedWith reason message) w) = None →
  lapsed req (snd (retryStatusUpdate browser (markFailedWith reason message) w)).
Proof.
  intros (s & Hs & Hkey & _) Hbk Hok. unfold retryStatusUpdate, apiPatchBrowserStatus in *.
  rewrite Hbk in *.
  pose proof (retryLoop_outcome VPatchBrowserStatus patchStatus
                "failed to patch Browser status after 5 attempts: version conflict"
                req (markFailedWith reason message) maxRetries 0%Z w) as Hout.
  rewrite Hok in Hout. destruct Hout as (stored & current & Hst & Hcur & Hb).
  rewrite Hs in Hst. injection Hst as <-.
  assert (Hk : browserKey (markFailedWith reason message s) = req) by done.
  rewrite Hk, Hs in Hcur. injection Hcur as <-. rewrite Hk in Hb.
  intros b. rewrite Hb. intros Hlook.
  assert (Hcases : b = patchStatus s (markFailedWith reason message s) s).
  { revert Hlook. unfold storeBrowser.
    set (p := patchStatus s (markFailedWith reason message s) s).
    destruct (b_Finalizers p), (b_DeletionTimestamp p); simpl;
      rewrite ?lookup_insert_eq, ?lookup_delete_eq; congruence. }
  right. rewrite Hcases. simpl. by rewrite patched_same.
Qed.

Lemma deleteBrowser_pods browser w : pods (snd (deleteBrowser browser w)) = pods w.
Proof.
  unfold deleteBrowser. cbv zeta.
  assert (Hrem : pods (snd (if ContainsFinalizer browser browserPodFinalizer
                            then retryUpdate browser (RemoveFinalizer browserPodFinalizer) w
                            else (None, w))) = pods w).
  { destruct (ContainsFinalizer _ _); [apply retryUpdate_pods|done]. }
  destruct (if ContainsFinalizer browser browserPodFinalizer
            then retryUpdate browser (RemoveFinalizer browserPodFinalizer) w
            else (None, w)) as [[err|] w1]; simpl in Hrem |- *; [done|].
  unfold apiDeleteBrowser, call. destruct (nextFault w1 VDeleteBrowser) as [e|]; simpl.
  - by destruct (negb (IsNotFound e)).
  - destruct (browsers w1 !! browserKey browser); simpl; [|done].
    by rewrite storeBrowser_pods.
Qed.

(** [updateBrowserStatus] leaves the finalizer in place, or leaves the
    Browser Failed. *)
Lemma updateBrowserStatus_held req browser pod w :
  browserKey browser = req → st_Phase (b_Status browser) ≠ PodFailed →
  guarded req w →
  guarded req (snd (updateBrowserStatus browser pod w)) ∨
  lapsed req (snd (updateBrowserStatus browser pod w)).
Proof.
  intros Hkey Hphase Hg.
  destruct (List.find isCriticalTerminated (pst_ContainerStatuses (p_Status pod)))
    as [cs|] eqn:Hfind; [|left; by apply updateBrowserStatus_guarded].
  unfold updateBrowserStatus. rewrite Hfind. cbv zeta. rewrite decide_True by done.
  pose proof (retryStatusUpdate_guarded req browser
                (markFailedWith (pst_Reason (p_Status pod)) (pst_Message (p_Status pod)))
                w Hg) as Hkept.
  pose proof (retryStatusUpdate_fails req browser (pst_Reason (p_Status pod))
                (pst_Message (p_Status pod)) w Hg Hkey) as Hfailed.
  destruct (retryStatusUpdate browser _ w) as [[err|] w1]; simpl in *; [by left|].
  right. apply deleteBrowser_lapsed. by apply Hfailed.
Qed.

(** With a pod in sight, the finalizer stays in place. *)
Lemma watchPod_held req browser pod w :
  browserKey browser = req → b_DeletionTimestamp browser = None →
  st_Phase (b_Status browser) ≠ PodFailed →
  pods w !! req = Some pod →
  guarded req w → finalizerHeld req (snd (watchPod browser pod w)).
Proof.
  intros Hkey Hlive Hphase Hpod Hg. unfold watchPod.
  rewrite Hlive, (bool_decide_eq_true_2 (None = None)), andb_true_r by done.
  destruct (bool_decide (is_Some (p_DeletionTimestamp pod))) eqn:Hleaving.
  { apply bool_decide_eq_true in Hleaving.
    intros b pod' _ Hpod' _ _ Hpodlive. rewrite deleteBrowser_pods, Hpod in Hpod'.
    injection Hpod' as <-. rewrite Hpodlive in Hleaving. by destruct Hleaving. }
  cbv zeta.
  assert (Hend : ∀ w1, guarded req w1 → finalizerHeld req (snd
            match (if decide (pst_Phase (p_Status pod) = PodPending)
                   then watchPending browser pod (pst_ContainerStatuses (p_Status pod)) w1
                   else (None, w1)) with
            | (Some out, w) => (out, w)
            | (None, w) => updateBrowserStatus browser pod w
            end)).
  { intros w1 Hg1.
    assert (Hp : guarded req (snd
              (if decide (pst_Phase (p_Status pod) = PodPending)
               then watchPending browser pod (pst_ContainerStatuses (p_Status pod)) w1
               else (None, w1)))).
    { destruct (decide _); [by apply watchPending_guarded|done]. }
    destruct (if decide (pst_Phase (p_Status pod) = PodPending) then _ else _)
      as [[out|] w2]; [by apply guarded_held|].
    destruct (updateBrowserStatus_held req browser pod w2 Hkey Hphase Hp) as [H|H];
      [by apply guarded_held|by apply lapsed_held]. }
  destruct (decide (pst_Phase (p_Status pod) = PodFailed)) as [Hfailed|Hfailed];
    [|by apply Hend].
  pose proof (deletePod_browsers pod w) as Hd.
  destruct (deletePod pod w) as [[err|] w1]; simpl in Hd.
  { apply guarded_held. by apply (guarded_same req w). }
  assert (Hg1 : guarded req w1) by (by apply (guarded_same req w)).
  match goal with
  | |- context [retryStatusUpdate browser ?f w1] =>
      pose proof (retryStatusUpdate_guarded req browser f w1 Hg1) as Hwrite;
      destruct (retryStatusUpdate browser f w1) as [[e|] w2]; simpl in Hwrite |- *
  end.
  - by apply guarded_held.
  - by apply Hend.
Qed.

Lemma retryUpdate_rejected browser f w e :
  fst (retryUpdate browser f w) = Some e →
  browsers (snd (retryUpdate browser f w)) = browsers w ∧
  pods (snd (retryUpdate browser f w)) = pods w.
Proof.
  intros Herr. split; [|apply retryUpdate_pods]. unfold retryUpdate, apiPatchBrowser in *.
  pose proof (retryLoop_outcome VPatchBrowser patchMain
                "failed to patch Browser after 5 attempts: version conflict"
                (browserKey browser) f maxRetries 0%Z w) as Hout.
  by rewrite Herr in Hout.
Qed.

(** [Reconcile] keeps the finalizer in place under the key of its
    request, whatever the cluster answers. *)
Lemma Reconcile_held rt store req w :
  (∀ b, browsers w !! req = Some b → browserKey b = req) →
  finalizerHeld req w → finalizerHeld req (snd (Reconcile rt store req w)).
Proof.
  intros Hkeyed Hheld. unfold Reconcile, apiGetBrowser, call.
  destruct (nextFault w VGetBrowser) as [e|].
  { destruct (IsNotFound e); by apply (held_same req w). }
  simpl browsers.
  destruct (browsers w !! req) as [browser|] eqn:Hstored; [|by apply (held_same req w)].
  pose proof (Hkeyed browser eq_refl) as Hkey.
  set (w1 := called VGetBrowser w).
  assert (Hstored1 : browsers w1 !! req = Some browser) by done.
  destruct (bool_decide (is_Some (b_DeletionTimestamp browser))) eqn:Hdel.
  { apply bool_decide_eq_true in Hdel. apply lapsed_held, handleDeletion_lapsed.
    intros b Hb. rewrite Hstored1 in Hb. injection Hb as <-. by left. }
  apply bool_decide_eq_false in Hdel.
  assert (Hlive : b_DeletionTimestamp browser = None).
  { destruct (b_DeletionTimestamp browser); [|done]. destruct Hdel. by eexists. }
  destruct (decide (st_Phase (b_Status browser) = PodFailed)) as [Hfailed|Hphase].
  { apply lapsed_held.
    assert (Hl1 : lapsed req w1).
    { intros b Hb. rewrite Hstored1 in Hb. injection Hb as <-. by right. }
    destruct (ContainsFinalizer browser browserPodFinalizer); [|done].
    pose proof (retryUpdate_lapsed req browser (RemoveFinalizer browserPodFinalizer) w1 Hl1)
      as H.
    by destruct (retryUpdate browser (RemoveFinalizer browserPodFinalizer) w1) as [[e|] w2]. }
  cbv zeta.
  assert (Hensured : ∃ o w2,
            (if negb (ContainsFinalizer browser browserPodFinalizer)
             then retryUpdate browser (AddFinalizer browserPodFinalizer) w1
             else (None, w1)) = (o, w2) ∧
            match o with
            | Some _ => finalizerHeld req w2
            | None => guarded req w2
            end).
  { destruct (ContainsFinalizer browser browserPodFinalizer) eqn:Hc; simpl negb; cbv iota.
    - exists None, w1. split; [done|]. exists browser. split; [done|]. split; [done|].
      unfold ContainsFinalizer in Hc. by apply bool_decide_eq_true in Hc.
    - pose proof (retryUpdate_adds req browser w1 browser Hstored1 Hkey Hkey) as Hadds.
      pose proof (retryUpdate_rejected browser (AddFinalizer browserPodFinalizer) w1) as Hrej.
      destruct (retryUpdate browser (AddFinalizer browserPodFinalizer) w1) as [[e|] w2];
        simpl in Hadds, Hrej.
      + exists (Some e), w2. split; [done|]. destruct (Hrej e eq_refl) as [Hb Hp].
        apply (held_same req w); [by rewrite Hb|by rewrite Hp|done].
      + exists None, w2. split; [done|]. by apply Hadds. }
  destruct Hensured as (o & w2 & -> & Hg2). destruct o as [e|]; [done|].
  assert (Hlabelled : ∃ o w3,
            (if decide (default "" (default ∅ (b_Labels browser) !! "selenosis.io/browser")
                        ≠ b_Name browser)
             then retryUpdate browser assignIdentityLabels w2 else (None, w2)) = (o, w3) ∧
            guarded req w3).
  { destruct (decide _); [|by eexists _, _].
    pose proof (retryUpdate_guarded req browser assignIdentityLabels w2 Hkey
                  (λ x H, H) Hg2) as H.
    destruct (retryUpdate browser assignIdentityLabels w2) as [o w3]. by eexists _, _. }
  destruct Hlabelled as (o & w3 & -> & Hg3).
  destruct o as [e|]; [by apply guarded_held|].
  assert (Hinitialised : ∃ o w4,
            (if decide (st_Phase (b_Status browser) = "")
             then retryStatusUpdate browser (markPhase PodPending) w3 else (None, w3))
            = (o, w4) ∧ guarded req w4).
  { destruct (decide _); [|by eexists _, _].
    pose proof (retryStatusUpdate_guarded req browser (markPhase PodPending) w3 Hg3) as H.
    destruct (retryStatusUpdate browser (markPhase PodPending) w3) as [o w4].
    by eexists _, _. }
  destruct Hinitialised as (o & w4 & -> & Hg4).
  destruct o as [e|]; [by apply guarded_held|].
  rewrite Hkey. unfold apiGetPod, call.
  assert (Hg5 : guarded req (called VGetPod w4)) by done.
  destruct (nextFault w4 VGetPod) as [e|].
  { destruct (IsNotFound e); [|by apply guarded_held].
    by apply guarded_held, handleMissingPod_guarded. }
  simpl pods.
  destruct (pods w4 !! req) as [pod|] eqn:Hpod.
  - by apply watchPod_held.
  - simpl IsNotFound. cbv iota. by apply guarded_held, handleMissingPod_guarded.
Qed.

(** [Reconcile] leaves the Browsers and pods of other requests alone. *)
Lemma Reconcile_frame rt store req w :
  wellKeyed w → touchesOnly req w (snd (Reconcile rt store req w)).
Proof.
  intros Hk. unfold Reconcile.
  destruct (apiGetBrowser_touchesOnly req req w Hk) as [Hget Hread].
  destruct (apiGetBrowser req w) as [[err|browser] w1]; simpl in Hget, Hread.
  { by destruct (IsNotFound err). }
  pose proof (Hread browser eq_refl) as Hkey.
  apply (touchesOnly_trans _ _ w1); [done|]. pose proof (proj1 Hget) as Hk1.
  clear Hget Hread.
  destruct (bool_decide (is_Some (b_DeletionTimestamp browser))).
  { by apply handleDeletion_touchesOnly. }
  destruct (decide (st_Phase (b_Status browser) = PodFailed)).
  { destruct (ContainsFinalizer browser browserPodFinalizer); [|by apply touchesOnly_refl].
    pose proof (retryUpdate_touchesOnly req browser (RemoveFinalizer browserPodFinalizer) w1
                  Hkey (RemoveFinalizer_keepsKey _) Hk1) as H.
    by destruct (retryUpdate browser (RemoveFinalizer browserPodFinalizer) w1) as [[err|] w2]. }
  cbv zeta.
  assert (Hensured : touchesOnly req w1
            (snd (if negb (ContainsFinalizer browser browserPodFinalizer)
                  then retryUpdate browser (AddFinalizer browserPodFinalizer) w1
                  else (None, w1)))).
  { destruct (negb _); [|by apply touchesOnly_refl].
    apply retryUpdate_touchesOnly; [done|apply AddFinalizer_keepsKey|done]. }
  destruct (if negb (ContainsFinalizer browser browserPodFinalizer)
            then retryUpdate browser (AddFinalizer browserPodFinalizer) w1
            else (None, w1)) as [[err|] w2]; simpl in Hensured |- *; [done|].
  apply (touchesOnly_trans _ _ w2); [done|]. pose proof (proj1 Hensured) as Hk2.
  clear Hensured.
  assert (Hlabelled : touchesOnly req w2
            (snd (if decide (default "" (default ∅ (b_Labels browser) !! "selenosis.io/browser")
                             ≠ b_Name browser)
                  then retryUpdate browser assignIdentityLabels w2
                  else (None, w2)))).
  { destruct (decide _); [|by apply touchesOnly_refl].
    apply retryUpdate_touchesOnly; [done|apply assignIdentityLabels_keepsKey|done]. }
  destruct (if decide (default "" (default ∅ (b_Labels browser) !! "selenosis.io/browser")
                       ≠ b_Name browser)
            then retryUpdate browser assignIdentityLabels w2
            else (None, w2)) as [[err|] w3]; simpl in Hlabelled |- *; [done|].
  apply (touchesOnly_trans _ _ w3); [done|]. pose proof (proj1 Hlabelled) as Hk3.
  clear Hlabelled.
  assert (Hinit : touchesOnly req w3
            (snd (if decide (st_Phase (b_Status browser) = "")
                  then retryStatusUpdate browser (markPhase PodPending) w3
                  else (None, w3)))).
  { destruct (decide _); [|by apply touchesOnly_refl].
    apply retryStatusUpdate_touchesOnly; [done|apply markPhase_keepsKey|done]. }
  destruct (if decide (st_Phase (b_Status browser) = "")
            then retryStatusUpdate browser (markPhase PodPending) w3
            else (None, w3)) as [[err|] w4]; simpl in Hinit |- *; [done|].
  apply (touchesOnly_trans _ _ w4); [done|]. pose proof (proj1 Hinit) as Hk4.
  clear Hinit. rewrite Hkey.
  destruct (apiGetPod_touchesOnly req req w4 Hk4) as [Hget Hread].
  destruct (apiGetPod req w4) as [[err|pod] w5]; simpl in Hget, Hread.
  - destruct (IsNotFound err); [|done].
    destruct (decide (st_Phase (b_Status browser) = PodFailed)); [done|].
    apply (touchesOnly_trans _ _ w5); [done|].
    apply handleMissingPod_touchesOnly; [done|apply Hget].
  - apply (touchesOnly_trans _ _ w5); [done|].
    apply watchPod_touchesOnly; [done|by apply Hread|apply Hget].
Qed.

Lemma Reconcile_invariant rt store req w :
  finalizerInvariant w → finalizerInvariant (snd (Reconcile rt store req w)).
Proof.
  intros [Hk Hheld]. destruct (Reconcile_frame rt store req w Hk) as [Hk' Hframe].
  split; [done|]. intros key. destruct (decide (key = req)) as [->|Hne].
  - apply Reconcile_held; [|done]. intros b Hb. by apply (proj1 Hk).
  - destruct (Hframe key Hne) as [Hb Hp]. by apply (held_same key w).
Qed.

Lemma Step_invariant rt store w w' :
  Step rt store w w' → finalizerInvariant w → finalizerInvariant w'.
Proof.
  intros Hstep [[Hkb Hkp] Hheld]. destruct Hstep as [req w|key pod st w Hpod|d w Hd].
  - by apply Reconcile_invariant.
  - split; [split|]; simpl.
    + done.
    + intros k p Hp. apply lookup_insert_Some in Hp as [[<- <-]|[_ Hp]]; [|by apply Hkp].
      by apply (Hkp key pod).
    + intros k b p Hb Hp Hlive Hphase Hpodlive. simpl in Hb, Hp.
      apply lookup_insert_Some in Hp as [[<- <-]|[_ Hp]].
      * by apply (Hheld key b pod).
      * by apply (Hheld k b p).
  - done.
Qed.

Lemma handleDeletion_no_pod browser w :
  pods w !! browserKey browser = None →
  pods (snd (handleDeletion browser w)) = pods w.
Proof.
  intros Hnone. unfold handleDeletion.
  destruct (negb (ContainsFinalizer browser browserPodFinalizer)); [done|]. cbv zeta.
  assert (Hremove : ∀ w0, pods (snd
            (if ContainsFinalizer browser browserPodFinalizer
             then match retryUpdate browser (RemoveFinalizer browserPodFinalizer) w0 with
                  | (Some err, w) => ((mediumRetry, Some err), w)
                  | (None, w) => (done_ok, w)
                  end
             else (done_ok, w0))) = pods w0).
  { intros w0. destruct (ContainsFinalizer _ _); [|done].
    pose proof (retryUpdate_pods browser (RemoveFinalizer browserPodFinalizer) w0) as H.
    by destruct (retryUpdate browser (RemoveFinalizer browserPodFinalizer) w0) as [[e|] w1]. }
  unfold apiGetPod, call. destruct (nextFault w VGetPod) as [e|]; [by rewrite Hremove|].
  simpl pods. rewrite Hnone. by rewrite Hremove.
Qed.

(** A call of [Reconcile] after which there is a pod where there was
    none leaves the Browser stored with the finalizer. *)
Lemma Reconcile_creates_guarded rt store req w :
  (∀ b, browsers w !! req = Some b → browserKey b = req) →
  pods w !! req = None →
  is_Some (pods (snd (Reconcile rt store req w)) !! req) →
  guarded req (snd (Reconcile rt store req w)).
Proof.
  intros Hkeyed Hnone.
  assert (Hsame : ∀ w', pods w' = pods w → is_Some (pods w' !! req) → guarded req w').
  { intros w' Hp Hsome. rewrite Hp, Hnone in Hsome. by destruct Hsome. }
  unfold Reconcile, apiGetBrowser, call.
  destruct (nextFault w VGetBrowser) as [e|].
  { destruct (IsNotFound e); by apply Hsame. }
  simpl browsers.
  destruct (browsers w !! req) as [browser|] eqn:Hstored; [|by apply Hsame].
  pose proof (Hkeyed browser eq_refl) as Hkey.
  set (w1 := called VGetBrowser w).
  assert (Hstored1 : browsers w1 !! req = Some browser) by done.
  destruct (bool_decide (is_Some (b_DeletionTimestamp browser))).
  { apply Hsame. rewrite handleDeletion_no_pod; [done|]. by rewrite Hkey. }
  destruct (decide (st_Phase (b_Status browser) = PodFailed)) as [Hfailed|Hphase].
  { apply Hsame. destruct (ContainsFinalizer browser browserPodFinalizer); [|done].
    pose proof (retryUpdate_pods browser (RemoveFinalizer browserPodFinalizer) w1) as H.
    by destruct (retryUpdate browser (RemoveFinalizer browserPodFinalizer) w1) as [[e|] w2]. }
  cbv zeta.
  assert (Hensured : ∃ o w2,
            (if negb (ContainsFinalizer browser browserPodFinalizer)
             then retryUpdate browser (AddFinalizer browserPodFinalizer) w1
             else (None, w1)) = (o, w2) ∧
            pods w2 = pods w ∧ (o = None → guarded req w2)).
  { destruct (ContainsFinalizer browser browserPodFinalizer) eqn:Hc; simpl negb; cbv iota.
    - exists None, w1. split; [done|]. split; [done|]. intros _.
      exists browser. split; [done|]. split; [done|].
      unfold ContainsFinalizer in Hc. by apply bool_decide_eq_true in Hc.
    - pose proof (retryUpdate_adds req browser w1 browser Hstored1 Hkey Hkey) as Hadds.
      pose proof (retryUpdate_pods browser (AddFinalizer browserPodFinalizer) w1) as Hp.
      destruct (retryUpdate browser (AddFinalizer browserPodFinalizer) w1) as [o w2].
      exists o, w2. split; [done|]. split; [done|]. intros ->. by apply Hadds. }
  destruct Hensured as (o & w2 & -> & Hp2 & Hg2).
  destruct o as [e|]; [by apply Hsame|]. specialize (Hg2 eq_refl).
  assert (Hlabelled : ∃ o w3,
            (if decide (default "" (default ∅ (b_Labels browser) !! "selenosis.io/browser")
                        ≠ b_Name browser)
             then retryUpdate browser assignIdentityLabels w2 else (None, w2)) = (o, w3) ∧
            pods w3 = pods w ∧ guarded req w3).
  { destruct (decide _); [|by eexists _, _].
    pose proof (retryUpdate_guarded req browser assignIdentityLabels w2 Hkey
                  (λ x H, H) Hg2) as H.
    pose proof (retryUpdate_pods browser assignIdentityLabels w2) as Hp.
    destruct (retryUpdate browser assignIdentityLabels w2) as [o w3].
    eexists _, _. split; [done|]. split; [|done]. simpl in Hp. by rewrite Hp. }
  destruct Hlabelled as (o & w3 & -> & Hp3 & Hg3). destruct o as [e|]; [done|].
  assert (Hinitialised : ∃ o w4,
            (if decide (st_Phase (b_Status browser) = "")
             then retryStatusUpdate browser (markPhase PodPending) w3 else (None, w3))
            = (o, w4) ∧ pods w4 = pods w ∧ guarded req w4).
  { destruct (decide _); [|by eexists _, _].
    pose proof (retryStatusUpdate_guarded req browser (markPhase PodPending) w3 Hg3) as H.
    pose proof (retryStatusUpdate_pods browser (markPhase PodPending) w3) as Hp.
    destruct (retryStatusUpdate browser (markPhase PodPending) w3) as [o w4].
    eexists _, _. split; [done|]. split; [|done]. simpl in Hp. by rewrite Hp. }
  destruct Hinitialised as (o & w4 & -> & Hp4 & Hg4). destruct o as [e|]; [done|].
  rewrite Hkey. unfold apiGetPod, call.
  assert (Hg5 : guarded req (called VGetPod w4)) by done.
  destruct (nextFault w4 VGetPod) as [e|].
  { destruct (IsNotFound e); [|done]. intros _. by apply handleMissingPod_guarded. }
  simpl pods. rewrite Hp4, Hnone. simpl IsNotFound. cbv iota.
  intros _. by apply handleMissingPod_guarded.
Qed.

(** C4, amended.  (a) Let every object be stored under its own namespace
    and name, and let every Browser that is neither marked for deletion
    nor Failed carry the finalizer whenever its pod exists and is not
    marked for deletion, as is the case when there are no pods.  Then the
    same holds in every state reached by calls of [Reconcile], whatever
    the cluster answers, status reports of the kubelet and the passing of
    time.  (b) Whatever the cluster answers, a call of [Reconcile] after
    which there is a pod under [req] where there was none leaves the
    Browser stored with the finalizer.  (c) If the Browser stored under
    [req] carries the finalizer, is not marked for deletion and not in
    phase Failed, and its pod is absent or is neither marked for deletion
    nor reporting a terminated [browser] or [seleniferous] container,
    then after [Reconcile], whatever the cluster answers, the Browser is
    still stored and still carries the finalizer.  (d) If it carries the
    finalizer and is marked for deletion, and its pod can be read and is
    either not marked for deletion or has been so for at most five
    minutes, [Reconcile] leaves every stored Browser as it is. *)
Theorem finalizer_kept_until_release (rt : GoRuntime) (store : BrowserConfigStore) :
  (∀ w0 w, finalizerInvariant w0 → rtc (Step rt store) w0 w → finalizerInvariant w) ∧
  (∀ req w,
     (∀ b, browsers w !! req = Some b → browserKey b = req) →
     pods w !! req = None →
     is_Some (pods (snd (Reconcile rt store req w)) !! req) →
     ∃ s', browsers (snd (Reconcile rt store req w)) !! req = Some s' ∧
           browserPodFinalizer ∈ b_Finalizers s') ∧
  (∀ req w s,
     browsers w !! req = Some s → browserKey s = req →
     browserPodFinalizer ∈ b_Finalizers s →
     b_DeletionTimestamp s = None →
     st_Phase (b_Status s) ≠ PodFailed →
     (∀ pod, pods w !! req = Some pod →
             p_DeletionTimestamp pod = None ∧
             List.find isCriticalTerminated (pst_ContainerStatuses (p_Status pod)) = None) →
     ∃ s', browsers (snd (Reconcile rt store req w)) !! req = Some s' ∧
           browserPodFinalizer ∈ b_Finalizers s') ∧
  (∀ req w s pod,
     browsers w !! req = Some s → browserKey s = req →
     browserPodFinalizer ∈ b_Finalizers s →
     is_Some (b_DeletionTimestamp s) →
     nextFault w VGetBrowser = None →
     nextFault w VGetPod = None →
     pods w !! req = Some pod →
     match p_DeletionTimestamp pod with
     | Some t => (clock w - t ≤ podDeletionTimeout)%Z
     | None => True
     end →
     browsers (snd (Reconcile rt store req w)) = browsers w).
Proof.
  split; [|split; [|split]].
  - intros w0 w Hinv Hrun. induction Hrun as [|x y z Hstep _ IH]; [done|].
    apply IH. by apply (Step_invariant rt store x).
  - intros req w Hkeyed Hnone Hcreated.
    destruct (Reconcile_creates_guarded rt store req w Hkeyed Hnone Hcreated)
      as (s' & Hs' & _ & Hfin').
    by exists s'.
  - intros req w s Hs Hkey Hfin Hlive Hphase Hpod.
    assert (Hg : guarded req w) by (by exists s).
    enough (Hgoal : guarded req (snd (Reconcile rt store req w))).
    { destruct Hgoal as (s' & Hs' & _ & Hf'). by exists s'. }
    unfold Reconcile, apiGetBrowser, call.
    destruct (nextFault w VGetBrowser) as [e|]; [by destruct (IsNotFound e)|].
    simpl browsers. rewrite Hs, Hlive.
    rewrite (bool_decide_eq_false_2 (is_Some None)) by apply is_Some_None.
    rewrite decide_False by done. rewrite (ContainsFinalizer_true _ Hfin).
    simpl negb. cbv iota zeta.
    set (w1 := called VGetBrowser w).
    assert (Hg1 : guarded req w1) by done.
    assert (Hlab : ∃ o w2,
              (if decide (default "" (default ∅ (b_Labels s) !! "selenosis.io/browser")
                          ≠ b_Name s)
               then retryUpdate s assignIdentityLabels w1 else (None, w1)) = (o, w2) ∧
              guarded req w2 ∧ pods w2 = pods w).
    { destruct (decide _); [|by eexists _, _].
      pose proof (retryUpdate_guarded req s assignIdentityLabels w1 Hkey
                    (λ x H, H) Hg1) as H.
      pose proof (retryUpdate_pods s assignIdentityLabels w1) as Hp.
      destruct (retryUpdate s assignIdentityLabels w1) as [o w2]. by eexists _, _. }
    destruct Hlab as (o & w2 & -> & Hg2 & Hp2). destruct o as [e|]; [done|].
    assert (Hini : ∃ o w3,
              (if decide (st_Phase (b_Status s) = "")
               then retryStatusUpdate s (markPhase PodPending) w2 else (None, w2)) = (o, w3) ∧
              guarded req w3 ∧ pods w3 = pods w).
    { destruct (decide _); [|by eexists _, _].
      pose proof (retryStatusUpdate_guarded req s (markPhase PodPending) w2 Hg2) as H.
      pose proof (retryStatusUpdate_pods s (markPhase PodPending) w2) as Hp.
      destruct (retryStatusUpdate s (markPhase PodPending) w2) as [o w3].
      eexists _, _. split; [done|]. split; [done|]. simpl in Hp. by rewrite Hp. }
    destruct Hini as (o & w3 & -> & Hg3 & Hp3). destruct o as [e|]; [done|].
    rewrite Hkey. unfold apiGetPod, call.
    destruct (nextFault w3 VGetPod) as [e|].
    { destruct (IsNotFound e); [|done]. rewrite decide_False by done.
      by apply handleMissingPod_guarded. }
    simpl pods. rewrite Hp3.
    destruct (pods w !! req) as [pod|] eqn:Hpods.
    + destruct (Hpod pod eq_refl) as [Hpl Hpc]. by apply watchPod_guarded.
    + simpl IsNotFound. cbv iota. rewrite decide_False by done.
      by apply handleMissingPod_guarded.
  - intros req w s pod Hs Hkey Hfin Hdel Hget Hgetpod Hpods Hrecent.
    unfold Reconcile, apiGetBrowser, call. rewrite Hget. simpl browsers. rewrite Hs.
    rewrite bool_decide_eq_true_2 by done.
    unfold handleDeletion. rewrite (ContainsFinalizer_true _ Hfin). simpl negb. cbv iota zeta.
    rewrite Hkey. unfold apiGetPod, call.
    replace (nextFault (called VGetBrowser w) VGetPod) with (@None error).
    simpl pods. rewrite Hpods.
    destruct (p_DeletionTimestamp pod) as [t|].
    + unfold since. simpl clock. by rewrite decide_False by lia.
    + pose proof (apiDeletePod_browsers (podKey pod)
                    (bool_decide (pst_Phase (p_Status pod) = PodFailed))
                    (called VGetPod (called VGetBrowser w))) as Hd.
      destruct (apiDeletePod _ _ _) as [[e|] w1]; simpl in Hd; [|done].
      by destruct (negb (IsNotFound e)).
Qed.

Lemma finalizer_kept_until_release_witness :
  let rt := exampleRuntime in_order in
  let req := ("ns", "b1") in
  let w0 := clusterOf [newBrowser "ns" "b1" "chrome" "120.0"] [] 0%Z no_faults in
  let w := snd (Reconcile rt (chromeStore rt) req w0) in
  (finalizerInvariant w0 ∧ finalizerInvariant w) ∧
  (is_Some (pods w !! req) ∧
   ∃ b, browsers w !! req = Some b ∧ browserPodFinalizer ∈ b_Finalizers b) ∧
  (∃ s', browsers (snd (Reconcile rt NewBrowserConfigStore req stuckCluster)) !! req
           = Some s' ∧
         browserPodFinalizer ∈ b_Finalizers s') ∧
  browsers (snd (Reconcile rt NewBrowserConfigStore req
                   (clusterOf [markBrowserDeleted pendingBrowser 0%Z] [stuckPod]
                      (6 * minute)%Z no_faults)))
    = browsers (clusterOf [markBrowserDeleted pendingBrowser 0%Z] [stuckPod]
                  (6 * minute)%Z no_faults).
Proof.
  cbv zeta.
  assert (Hinv0 : finalizerInvariant
                    (clusterOf [newBrowser "ns" "b1" "chrome" "120.0"] [] 0%Z no_faults)).
  { split; [split|].
    - intros key b Hb. simpl in Hb.
      apply lookup_insert_Some in Hb as [[<- <-]|[_ Hb]]; [reflexivity|].
      by rewrite lookup_empty in Hb.
    - intros key p Hp. simpl in Hp. by rewrite lookup_empty in Hp.
    - intros key b pod _ Hp. simpl in Hp. by rewrite lookup_empty in Hp. }
  assert (Hpod : is_Some
            (pods (snd (Reconcile (exampleRuntime in_order)
                          (chromeStore (exampleRuntime in_order)) ("ns", "b1")
                          (clusterOf [newBrowser "ns" "b1" "chrome" "120.0"] [] 0%Z
                             no_faults))) !! ("ns", "b1"))).
  { eexists. vm_compute. reflexivity. }
  destruct (finalizer_kept_until_release (exampleRuntime in_order)
              (chromeStore (exampleRuntime in_order))) as (Hruns & Hcreates & _).
  destruct (finalizer_kept_until_release (exampleRuntime in_order) NewBrowserConfigStore)
    as (_ & _ & Hkeeps & Hwaits).
  split; [|split; [|split]].
  - split; [exact Hinv0|].
    apply (Hruns (clusterOf [newBrowser "ns" "b1" "chrome" "120.0"] [] 0%Z no_faults));
      [exact Hinv0|].
    apply rtc_once. apply (StepReconcile _ _ ("ns", "b1")).
  - split; [exact Hpod|].
    apply (Hcreates ("ns", "b1")
             (clusterOf [newBrowser "ns" "b1" "chrome" "120.0"] [] 0%Z no_faults)).
    + intros b Hb. by apply (proj1 (proj1 Hinv0) ("ns", "b1")).
    + reflexivity.
    + exact Hpod.
  - apply (Hkeeps ("ns", "b1") stuckCluster pendingBrowser).
    + reflexivity.
    + reflexivity.
    + apply list_elem_of_singleton. reflexivity.
    + reflexivity.
    + discriminate.
    + intros pod Hpod'. vm_compute in Hpod'. injection Hpod' as <-. split; reflexivity.
  - apply (Hwaits ("ns", "b1")
             (clusterOf [markBrowserDeleted pendingBrowser 0%Z] [stuckPod]
                (6 * minute)%Z no_faults)
             (markBrowserDeleted pendingBrowser 0%Z) stuckPod).
    + reflexivity.
    + reflexivity.
    + apply list_elem_of_singleton. reflexivity.
    + eexists. reflexivity.
    + reflexivity.
    + reflexivity.
    + reflexivity.
    + exact I.
Defined.

(** ** The errors of Reconcile *)

Lemma watchPending_no_error req ps now w s b pod statuses :
  settled req ps now w s →
  browserKey b = req →
  podKey pod = req →
  ∃ w' ps' s', settled req ps' now w' s' ∧
    (watchPending b pod statuses w = (None, w') ∨
     ∃ delay, watchPending b pod statuses w = (Some (delay, None), w')).
Proof.
  intros Hset Hkey Hpodkey. revert w ps s Hset.
  induction statuses as [|cs statuses IH]; intros w ps s Hset; simpl.
  { exists w, ps, s. split; [done|]. by left. }
  assert (Hfail : ∀ m w0 ps0 s0, settled req ps0 now w0 s0 →
            ∃ w' ps' s', settled req ps' now w' s' ∧
              ((match retryStatusUpdate b (markFailed m) w0 with
                | (Some err, w) => (Some (mediumRetry, Some err), w)
                | (None, w) => (Some done_ok, w)
                end = (None, w')) ∨
               ∃ delay, match retryStatusUpdate b (markFailed m) w0 with
                        | (Some err, w) => (Some (mediumRetry, Some err), w)
                        | (None, w) => (Some done_ok, w)
                        end = (Some (delay, None), w'))).
  { intros m w0 ps0 s0 Hset0.
    destruct (retryStatusUpdate_settled b (markFailed m) req ps0 now w0 s0 Hset0 Hkey
                (markFailed_statusOnly _ _)) as (w' & -> & Hset').
    exists w', ps0, (markFailed m s0). split; [done|]. right. by exists 0%Z. }
  destruct (Terminated (cs_State cs)); [by apply (Hfail _ w ps s)|].
  destruct (Waiting (cs_State cs)) as [waiting|]; [|by apply (IH w ps s)].
  destruct (match p_CreationTimestamp pod with
            | Some created => bool_decide (since w created > podCreationTimeout)%Z
            | None => false
            end); [by apply (Hfail _ w ps s)|].
  destruct (_ && _); [|by apply (IH w ps s)].
  destruct (deletePod_settled req ps now w s pod Hset Hpodkey) as (w1 & -> & Hset1).
  by apply (Hfail _ w1 (delete req ps) s).
Qed.

Lemma updateBrowserStatus_no_error req ps now w s b pod :
  settled req ps now w s →
  browserKey b = req →
  failure (fst (updateBrowserStatus b pod w)) = None.
Proof.
  intros Hset Hkey.
  destruct (List.find isCriticalTerminated (pst_ContainerStatuses (p_Status pod)))
    as [cs|] eqn:Hfind.
  - unfold updateBrowserStatus. rewrite Hfind. cbv zeta.
    assert (Hfailed : ∃ w1 s1,
              (if decide (st_Phase (b_Status b) ≠ PodFailed)
               then retryStatusUpdate b
                      (markFailedWith (pst_Reason (p_Status pod))
                         (pst_Message (p_Status pod))) w
               else (None, w)) = (None, w1) ∧ settled req ps now w1 s1).
    { destruct (decide _); [|by exists w, s].
      destruct (retryStatusUpdate_settled b
                  (markFailedWith (pst_Reason (p_Status pod)) (pst_Message (p_Status pod)))
                  req ps now w s Hset Hkey (markFailedWith_statusOnly _ _ _))
        as (w1 & -> & Hset1).
      by eexists _, _. }
    destruct Hfailed as (w1 & s1 & -> & Hset1).
    by destruct (deleteBrowser_settled req ps now w1 s1 b Hset1 Hkey) as (w2 & -> & _).
  - assert (Hno : ∀ c, c ∈ pst_ContainerStatuses (p_Status pod) →
                       isCriticalTerminated c = false).
    { intros c Hc. destruct (isCriticalTerminated c) eqn:Hcrit; [|done].
      destruct (find_critical (pst_ContainerStatuses (p_Status pod))) as (c' & Hc');
        [by exists c|congruence]. }
    by destruct (updateBrowserStatus_mirrors req ps now w s b pod Hset Hkey Hno)
      as (w' & -> & _).
Qed.

Lemma watchPod_no_error req ps now w s b pod :
  settled req ps now w s →
  browserKey b = req →
  podKey pod = req →
  failure (fst (watchPod b pod w)) = None.
Proof.
  intros Hset Hkey Hpodkey. unfold watchPod.
  destruct (_ && _).
  { by destruct (deleteBrowser_settled req ps now w s b Hset Hkey) as (w2 & -> & _). }
  cbv zeta.
  assert (Hrest : ∀ w0 ps0 s0, settled req ps0 now w0 s0 →
            failure (fst (match (if decide (pst_Phase (p_Status pod) = PodPending)
                                 then watchPending b pod
                                        (pst_ContainerStatuses (p_Status pod)) w0
                                 else (None, w0)) with
                          | (Some out, w) => (out, w)
                          | (None, w) => updateBrowserStatus b pod w
                          end)) = None).
  { intros w0 ps0 s0 Hset0. destruct (decide _).
    - destruct (watchPending_no_error req ps0 now w0 s0 b pod
                  (pst_ContainerStatuses (p_Status pod)) Hset0 Hkey Hpodkey)
        as (w' & ps' & s' & Hset' & [->|[delay ->]]); [|done].
      by apply (updateBrowserStatus_no_error req ps' now w' s').
    - by apply (updateBrowserStatus_no_error req ps0 now w0 s0). }
  destruct (decide (pst_Phase (p_Status pod) = PodFailed)); [|by apply (Hrest w ps s)].
  destruct (deletePod_settled req ps now w s pod Hset Hpodkey) as (w1 & -> & Hset1).
  match goal with |- context [retryStatusUpdate b ?f w1] =>
    destruct (retryStatusUpdate_settled b f req _ now w1 s Hset1 Hkey
                (markFailed_statusOnly _ _)) as (w2 & -> & Hset2)
  end.
  by apply (Hrest w2 (delete req ps) _ Hset2).
Qed.

Lemma handleMissingPod_no_error rt store req ps now w s b :
  settled req ps now w s →
  browserKey b = req →
  ps !! req = None →
  failure (fst (handleMissingPod rt store b w)) = None.
Proof.
  intros Hset Hkey Hnopod. unfold handleMissingPod.
  assert (Hfail : ∀ r m,
            failure (fst (match retryStatusUpdate b (markFailedWith r m) w with
                          | (Some err, w) => ((0%Z, Some err), w)
                          | (None, w) => (done_ok, w)
                          end)) = None).
  { intros r m.
    by destruct (retryStatusUpdate_settled b (markFailedWith r m) req ps now w s Hset Hkey
                   (markFailedWith_statusOnly _ _ _)) as (w' & -> & _). }
  destruct (Get rt store _ _ _) as [[browserSpec|] []].
  - destruct (parseSelenosisOptions rt (b_Annotations b)) as [err|opts]; [apply Hfail|].
    unfold createPod, apiCreatePod, call.
    destruct Hset as (Hq & Hp & _). rewrite (quiet_nextFault _ _ Hq). simpl pods.
    by rewrite buildBrowserPod_key, Hkey, Hp, Hnopod.
  - destruct (decide _); [apply Hfail|done].
  - destruct (decide _); [apply Hfail|done].
  - destruct (decide _); [apply Hfail|done].
Qed.

Lemma handleDeletion_no_error req w b :
  quiet w →
  wellKeyed w →
  browsers w !! req = Some b →
  browserKey b = req →
  is_Some (b_DeletionTimestamp b) →
  failure (fst (handleDeletion b w)) = None.
Proof.
  intros Hq Hk Hb Hkey [t Hdel]. unfold handleDeletion.
  destruct (negb (ContainsFinalizer b browserPodFinalizer)) eqn:Hc; [done|]. cbv zeta.
  apply negb_false_iff in Hc. rewrite Hc.
  assert (Hremove : ∀ w0, quiet w0 → browsers w0 !! req = Some b →
            failure (fst (match retryUpdate b (RemoveFinalizer browserPodFinalizer) w0 with
                          | (Some err, w) => ((mediumRetry, Some err), w)
                          | (None, w) => (done_ok, w)
                          end)) = None).
  { intros w0 Hq0 Hb0.
    destruct (retryUpdate_unguards w0 b t) as (w' & -> & _); try done.
    - by apply quiet_nextFault.
    - by apply quiet_nextFault.
    - by rewrite Hkey. }
  unfold apiGetPod, call. rewrite (quiet_nextFault _ _ Hq), Hkey. simpl pods.
  destruct (pods w !! req) as [pod|] eqn:Hpod.
  - assert (Hpodkey : podKey pod = req) by (by apply Hk).
    destruct (p_DeletionTimestamp pod) as [deletionTime|].
    + destruct (decide _); [|done].
      apply Hremove.
      * unfold deletePod, apiDeletePod, call.
        rewrite (quiet_nextFault _ _ (quiet_called _ VGetPod Hq)), Hpodkey. simpl pods.
        rewrite Hpod. simpl. intros v. simpl. repeat (destruct (decide _)); by rewrite Hq.
      * unfold deletePod, apiDeletePod, call.
        rewrite (quiet_nextFault _ _ (quiet_called _ VGetPod Hq)), Hpodkey. simpl pods.
        by rewrite Hpod.
    + unfold apiDeletePod, call.
      rewrite (quiet_nextFault _ _ (quiet_called _ VGetPod Hq)), Hpodkey. simpl pods.
      rewrite Hpod. by destruct (bool_decide (pst_Phase (p_Status pod) = PodFailed)).
  - apply Hremove; [by apply quiet_called|done].
Qed.

(** X25.  In a cluster that answers every request and stores every
    object under its own namespace and name, [Reconcile] never returns
    an error, whatever the Browser, its pod and the config store are:
    an error it returns is the failure of a request. *)
Theorem Reconcile_fails_only_with_the_cluster
    (rt : GoRuntime) (store : BrowserConfigStore) (req : ObjectKey) (w : Cluster) :
  quiet w →
  wellKeyed w →
  failure (fst (Reconcile rt store req w)) = None.
Proof.
  intros Hq Hk.
  destruct (browsers w !! req) as [b|] eqn:Hb.
  - assert (Hkey : browserKey b = req) by (by apply Hk).
    destruct (b_DeletionTimestamp b) as [t|] eqn:Hdel.
    + rewrite (Reconcile_deleting rt store req w b Hq Hb) by (by rewrite Hdel).
      apply (handleDeletion_no_error req (called VGetBrowser w) b);
        [by apply quiet_called|by apply (called_touchesOnly req)|done|done|by rewrite Hdel].
    + assert (Hset : settled req (pods w) (clock w) w b) by done.
      destruct (decide (st_Phase (b_Status b) = PodFailed)) as [Hfailed|Hphase].
      * by destruct (Reconcile_failed rt store req _ _ w b Hset Hfailed) as (w' & s' & -> & _).
      * destruct (Reconcile_prepared rt store req _ _ w b Hset Hphase) as (w1 & Hset1 & ->).
        destruct (pods w !! req) as [pod|] eqn:Hpod.
        -- apply (watchPod_no_error req _ _ w1 _ b pod Hset1 Hkey). by apply Hk.
        -- by apply (handleMissingPod_no_error rt store req _ _ w1 _ b Hset1 Hkey).
  - unfold Reconcile, apiGetBrowser, call. rewrite (quiet_nextFault _ _ Hq). simpl browsers.
    by rewrite Hb.
Qed.

Lemma Reconcile_fails_only_with_the_cluster_witness :
  quiet stuckCluster ∧ wellKeyed stuckCluster ∧
  failure (fst (Reconcile (exampleRuntime in_order) NewBrowserConfigStore ("ns", "b1")
                  stuckCluster)) = None.
Proof.
  assert (Hq : quiet stuckCluster) by (intros v; reflexivity).
  assert (Hk : wellKeyed stuckCluster).
  { split.
    - intros key b Hb. simpl in Hb.
      apply lookup_insert_Some in Hb as [[<- <-]|[_ Hb]]; [reflexivity|].
      by rewrite lookup_empty in Hb.
    - intros key p Hp. simpl in Hp.
      apply lookup_insert_Some in Hp as [[<- <-]|[_ Hp]]; [reflexivity|].
      by rewrite lookup_empty in Hp. }
  split; [exact Hq|]. split; [exact Hk|].
  exact (Reconcile_fails_only_with_the_cluster (exampleRuntime in_order)
           NewBrowserConfigStore ("ns", "b1") stuckCluster Hq Hk).
Defined.

(** X26.  When the first read of [Reconcile] does not yield the Browser,
    nothing is written and no further call is asked for: a Browser that
    is not there, and a read that fails with a not-found error, end the
    call without an error; any other read failure is returned as the
    error.  The one request sent is that read. *)
Theorem Reconcile_without_browser
    (rt : GoRuntime) (store : BrowserConfigStore) (req : ObjectKey) (w : Cluster) :
  match nextFault w VGetBrowser with
  | Some e =>
      Reconcile rt store req w =
        ((0%Z, if IsNotFound e then None else Some e), called VGetBrowser w)
  | None =>
      match browsers w !! req with
      | None => Reconcile rt store req w = (done_ok, called VGetBrowser w)
      | Some _ => True
      end
  end.
Proof.
  unfold Reconcile, apiGetBrowser, call.
  destruct (nextFault w VGetBrowser) as [e|].
  - by destruct (IsNotFound e).
  - simpl browsers. by destruct (browsers w !! req).
Qed.

(** ** The reconciler of the catalog objects *)

Import browserconfig.

Lemma calm_answer r w : calm w → fst (answer r w) = None ∧ calm (snd (answer r w)).
Proof.
  intros Hcalm. unfold answer. rewrite Hcalm. split; [done|].
  intros r'. simpl. destruct (decide (r' = r)); by rewrite Hcalm.
Qed.

Lemma calm_clientGet key w :
  calm w →
  ∃ w', clientGet key w =
          (match configs w !! key with
           | Some o => inr o
           | None => inl (StatusError ReasonNotFound)
           end, w') ∧
        calm w' ∧ configs w' = configs w ∧ sent w' = sent w ++ [RGet].
Proof.
  intros Hcalm. destruct (calm_answer RGet w Hcalm) as [Hnone Hcalm'].
  unfold clientGet. destruct (answer RGet w) as [o w'] eqn:Hans. simpl in *. subst o.
  assert (Hw' : configs w' = configs w ∧ sent w' = sent w ++ [RGet]).
  { unfold answer in Hans. by inversion Hans. }
  destruct Hw' as [Hc Hs]. rewrite Hc. exists w'. by destruct (configs w !! key).
Qed.

Lemma calm_clientUpdate o w :
  calm w →
  is_Some (configs w !! objectKey o) →
  ∃ w', clientUpdate o w = (None, w') ∧ calm w' ∧ sent w' = sent w ++ [RUpdate] ∧
        configs w' =
          match Finalizers o, DeletionTimestamp o with
          | [], Some _ => delete (objectKey o) (configs w)
          | _, _ => <[objectKey o := o]> (configs w)
          end.
Proof.
  intros Hcalm [stored Hstored]. destruct (calm_answer RUpdate w Hcalm) as [Hnone Hcalm'].
  unfold clientUpdate. destruct (answer RUpdate w) as [e w'] eqn:Hans. simpl in *. subst e.
  assert (Hw' : configs w' = configs w ∧ sent w' = sent w ++ [RUpdate]).
  { unfold answer in Hans. by inversion Hans. }
  destruct Hw' as [Hc Hs]. rewrite Hc, Hstored.
  destruct (Finalizers o), (DeletionTimestamp o); eexists; (split; [done|]); done.
Qed.

Lemma AddFinalizer_facts x o :
  x ∈ Finalizers (AddFinalizer x o) ∧ catalog (AddFinalizer x o) = catalog o ∧
  DeletionTimestamp (AddFinalizer x o) = DeletionTimestamp o ∧
  objectKey (AddFinalizer x o) = objectKey o ∧
  filter (λ f, f ≠ x) (Finalizers (AddFinalizer x o)) = filter (λ f, f ≠ x) (Finalizers o).
Proof.
  unfold AddFinalizer, ContainsFinalizer.
  destruct (decide (x ∈ Finalizers o)) as [Hin|Hout].
  - by rewrite bool_decide_eq_true_2.
  - rewrite bool_decide_eq_false_2 by done. simpl. split; [|split; [|split; [|split]]];
      try done.
    + apply elem_of_app. right. by apply list_elem_of_singleton.
    + rewrite filter_app, filter_cons, decide_False by (by intros H).
      by rewrite filter_nil, app_nil_r.
Qed.

(** X27.  The catalog reconciler on a live catalog object, in a cluster
    that answers every request: [Reconcile] returns no error and asks
    for no further call; the stored object then carries the catalog
    finalizer, with its catalog and its other finalizers unchanged, and
    no other object has changed.  A second [Reconcile] only reads: the
    finalizer is added once. *)
Theorem catalog_finalizer_is_added_once (req : ObjectKey) (w : ConfigCluster) (o : Object) :
  calm w →
  configs w !! req = Some o →
  objectKey o = req →
  DeletionTimestamp o = None →
  let first := Reconcile req w in
  let second := Reconcile req (snd first) in
  let o' := AddFinalizer browserConfigFinalizer o in
  fst first = done_ok ∧
  configs (snd first) = <[req := o']> (configs w) ∧
  (browserConfigFinalizer ∈ Finalizers o' ∧ catalog o' = catalog o ∧
   filter (λ f, f ≠ browserConfigFinalizer) (Finalizers o') =
   filter (λ f, f ≠ browserConfigFinalizer) (Finalizers o)) ∧
  fst second = done_ok ∧
  configs (snd second) = configs (snd first) ∧
  sent (snd second) = sent (snd first) ++ [RGet].
Proof.
  intros Hcalm Hstored Hkey Hlive. cbv zeta.
  destruct (AddFinalizer_facts browserConfigFinalizer o) as (Hin & Hcat & Hdel & Hk & Hrest).
  assert (Hfirst : ∃ w1, Reconcile req w = (done_ok, w1) ∧ calm w1 ∧
                         configs w1 = <[req := AddFinalizer browserConfigFinalizer o]> (configs w)).
  { unfold Reconcile.
    destruct (calm_clientGet req w Hcalm) as (w0 & -> & Hcalm0 & Hc0 & Hs0).
    rewrite Hstored, Hlive. rewrite bool_decide_eq_false_2 by apply is_Some_None.
    destruct (ContainsFinalizer o browserConfigFinalizer) eqn:Hc; simpl negb; cbv iota zeta.
    - exists w0. split; [done|]. split; [done|]. rewrite Hc0.
      unfold AddFinalizer. rewrite Hc. by rewrite insert_id.
    - destruct (calm_clientUpdate (AddFinalizer browserConfigFinalizer o) w0 Hcalm0)
        as (w1 & -> & Hcalm1 & Hs1 & Hc1).
      { rewrite Hk, Hkey, Hc0, Hstored. by eexists. }
      exists w1. split; [done|]. split; [done|]. rewrite Hc1, Hdel, Hlive, Hk, Hkey, Hc0.
      by destruct (Finalizers (AddFinalizer browserConfigFinalizer o)). }
  destruct Hfirst as (w1 & -> & Hcalm1 & Hc1). simpl fst. simpl snd.
  split; [done|]. split; [done|]. split; [done|].
  unfold Reconcile.
  destruct (calm_clientGet req w1 Hcalm1) as (w2 & -> & Hcalm2 & Hc2 & Hs2).
  rewrite Hc1, lookup_insert_eq, Hdel, Hlive.
  rewrite bool_decide_eq_false_2 by apply is_Some_None.
  assert (Hcontains : ContainsFinalizer (AddFinalizer browserConfigFinalizer o)
                        browserConfigFinalizer = true).
  { unfold ContainsFinalizer. by rewrite (bool_decide_eq_true_2 _ Hin). }
  rewrite Hcontains. simpl negb. cbv iota.
  simpl fst. simpl snd. split; [done|]. split; [|done]. by rewrite Hc2.
Qed.

Lemma catalog_finalizer_is_added_once_witness :
  let req := ("ns", "cfg") in
  let o := newObject (catalogOf None []) in
  let w := clusterWith o (λ _, []) in
  let first := Reconcile req w in
  let second := Reconcile req (snd first) in
  let o' := AddFinalizer browserConfigFinalizer o in
  fst first = done_ok ∧
  configs (snd first) = <[req := o']> (configs w) ∧
  (browserConfigFinalizer ∈ Finalizers o' ∧ catalog o' = catalog o ∧
   filter (λ f, f ≠ browserConfigFinalizer) (Finalizers o') =
   filter (λ f, f ≠ browserConfigFinalizer) (Finalizers o)) ∧
  fst second = done_ok ∧
  configs (snd second) = configs (snd first) ∧
  sent (snd second) = sent (snd first) ++ [RGet].
Proof.
  cbv zeta.
  apply (catalog_finalizer_is_added_once ("ns", "cfg")
           (clusterWith (newObject (catalogOf None [])) (λ _, []))
           (newObject (catalogOf None []))).
  - intros r. reflexivity.
  - reflexivity.
  - reflexivity.
  - reflexivity.
Defined.

(** X28.  The catalog reconciler on a catalog object marked for
    deletion, in a cluster that answers every request: [Reconcile]
    returns no error and asks for no further call.  If the object
    carries the catalog finalizer, one update removes it and keeps the
    other finalizers, and the object is gone when none is left; if it
    does not, no update is sent and nothing changes. *)
Theorem catalog_deletion_releases_finalizer (req : ObjectKey) (w : ConfigCluster)
    (o : Object) :
  calm w →
  configs w !! req = Some o →
  objectKey o = req →
  is_Some (DeletionTimestamp o) →
  let run := Reconcile req w in
  let rest := filter (λ f, f ≠ browserConfigFinalizer) (Finalizers o) in
  fst run = done_ok ∧
  (browserConfigFinalizer ∈ Finalizers o →
   updates (snd run) = S (updates w) ∧
   configs (snd run) =
     match rest with
     | [] => delete req (configs w)
     | _ => <[req := setFinalizers o rest]> (configs w)
     end) ∧
  (browserConfigFinalizer ∉ Finalizers o →
   updates (snd run) = updates w ∧ configs (snd run) = configs w).
Proof.
  intros Hcalm Hstored Hkey [t Hdel]. cbv zeta. unfold Reconcile.
  destruct (calm_clientGet req w Hcalm) as (w0 & -> & Hcalm0 & Hc0 & Hs0).
  rewrite Hstored, Hdel. rewrite bool_decide_eq_true_2 by (by eexists).
  unfold ContainsFinalizer.
  destruct (decide (browserConfigFinalizer ∈ Finalizers o)) as [Hin|Hout].
  - rewrite (bool_decide_eq_true_2 _ Hin). cbv zeta.
    destruct (calm_clientUpdate (RemoveFinalizer browserConfigFinalizer o) w0 Hcalm0)
      as (w1 & -> & Hcalm1 & Hs1 & Hc1).
    { change (objectKey (RemoveFinalizer browserConfigFinalizer o)) with (objectKey o).
      rewrite Hkey, Hc0, Hstored. by eexists. }
    split; [done|]. split; [|done]. intros _. split.
    + unfold updates. simpl snd. rewrite Hs1, Hs0, !filter_app, !length_app. simpl. lia.
    + simpl snd. rewrite Hc1.
      change (objectKey (RemoveFinalizer browserConfigFinalizer o)) with (objectKey o).
      change (DeletionTimestamp (RemoveFinalizer browserConfigFinalizer o))
        with (DeletionTimestamp o).
      change (Finalizers (RemoveFinalizer browserConfigFinalizer o))
        with (filter (λ f, f ≠ browserConfigFinalizer) (Finalizers o)).
      rewrite Hdel, Hkey, Hc0. reflexivity.
  - rewrite (bool_decide_eq_false_2 _ Hout).
    split; [done|]. split; [done|]. intros _. split; [|done].
    unfold updates. simpl snd. rewrite Hs0, filter_app, length_app. simpl. lia.
Qed.

Lemma catalog_deletion_releases_finalizer_witness :
  let req := ("ns", "cfg") in
  let o := {| catalog := catalogOf None [];
              Finalizers := ["keep"; browserConfigFinalizer];
              DeletionTimestamp := Some 5%Z |} in
  let w := clusterWith o (λ _, []) in
  let run := Reconcile req w in
  let rest := filter (λ f, f ≠ browserConfigFinalizer) (Finalizers o) in
  fst run = done_ok ∧
  (browserConfigFinalizer ∈ Finalizers o →
   updates (snd run) = S (updates w) ∧
   configs (snd run) =
     match rest with
     | [] => delete req (configs w)
     | _ => <[req := setFinalizers o rest]> (configs w)
     end) ∧
  (browserConfigFinalizer ∉ Finalizers o →
   updates (snd run) = updates w ∧ configs (snd run) = configs w).
Proof.
  cbv zeta.
  apply (catalog_deletion_releases_finalizer ("ns", "cfg")
           (clusterWith {| catalog := catalogOf None [];
                           Finalizers := ["keep"; browserConfigFinalizer];
                           DeletionTimestamp := Some 5%Z |} (λ _, []))
           {| catalog := catalogOf None [];
              Finalizers := ["keep"; browserConfigFinalizer];
              DeletionTimestamp := Some 5%Z |}).
  - intros r. reflexivity.
  - reflexivity.
  - reflexivity.
  - eexists. reflexivity.
Defined.

Lemma answer_frame r w :
  configs (snd (answer r w)) = configs w ∧ sent (snd (answer r w)) = sent w ++ [r].
Proof. done. Qed.

Lemma clientUpdate_frame o w :
  sent (snd (clientUpdate o w)) = sent w ++ [RUpdate] ∧
  (is_Some (fst (clientUpdate o w)) → configs (snd (clientUpdate o w)) = configs w).
Proof.
  unfold clientUpdate. destruct (answer_frame RUpdate w) as [Hc Hs].
  destruct (answer RUpdate w) as [[e|] w']; simpl in *; [done|].
  rewrite Hc. destruct (configs w !! objectKey o); [|done].
  destruct (Finalizers o), (DeletionTimestamp o); simpl; (split; [done|]);
    by intros [? ?].
Qed.

(** X29.  Whatever the cluster answers, the catalog reconciler sends at
    most one update; when it returns an error nothing has been stored
    and it asks to be called again, after ten seconds when the read
    failed and after five when the update failed; when it returns no
    error it asks for no further call. *)
Theorem catalog_reconcile_failures (req : ObjectKey) (w : ConfigCluster) :
  let run := Reconcile req w in
  updates (snd run) ≤ S (updates w) ∧
  match snd (fst run) with
  | Some _ =>
      configs (snd run) = configs w ∧
      fst (fst run) = (if decide (updates (snd run) = updates w)
                       then mediumRetry else shortRetry)
  | None => fst (fst run) = 0%Z
  end.
Proof.
  cbv zeta. unfold Reconcile, clientGet.
  destruct (answer_frame RGet w) as [Hc Hs].
  destruct (answer RGet w) as [[e|] w0]; simpl in Hc, Hs.
  { assert (Hu : updates w0 = updates w).
    { unfold updates. rewrite Hs, filter_app, length_app. simpl. lia. }
    destruct (IsNotFound e); simpl; rewrite Hu; (split; [lia|]); [done|].
    split; [done|]. by rewrite decide_True. }
  assert (Hu0 : updates w0 = updates w).
  { unfold updates. rewrite Hs, filter_app, length_app. simpl. lia. }
  destruct (configs w0 !! req) as [o|]; [|simpl; rewrite Hu0; split; [lia|done]].
  assert (Hupdate : ∀ x,
    let run := match clientUpdate x w0 with
               | (Some err, w) => ((shortRetry, Some err), w)
               | (None, w) => (done_ok, w)
               end in
    updates (snd run) ≤ S (updates w) ∧
    match snd (fst run) with
    | Some _ =>
        configs (snd run) = configs w ∧
        fst (fst run) = (if decide (updates (snd run) = updates w)
                         then mediumRetry else shortRetry)
    | None => fst (fst run) = 0%Z
    end).
  { intros x. cbv zeta. destruct (clientUpdate_frame x w0) as [Hs1 Hc1].
    assert (Hu1 : updates (snd (clientUpdate x w0)) = S (updates w)).
    { unfold updates. rewrite Hs1, Hs, !filter_app, !length_app. simpl.
      unfold updates. lia. }
    destruct (clientUpdate x w0) as [[e|] w1]; simpl in *.
    - rewrite Hu1. split; [lia|]. split; [by rewrite Hc1, Hc|].
      rewrite decide_False by lia. done.
    - rewrite Hu1. split; [lia|done]. }
  assert (Hnone : updates w0 ≤ S (updates w) ∧ 0%Z = 0%Z) by (split; [lia|done]).
  destruct (bool_decide (is_Some (DeletionTimestamp o))).
  - destruct (ContainsFinalizer o browserConfigFinalizer); [apply Hupdate|exact Hnone].
  - destruct (negb (ContainsFinalizer o browserConfigFinalizer)); [apply Hupdate|exact Hnone].
Qed.
